(* ===== verification/_CoqProject ===== *)
-Q . S2P
Prelude.v
GoStrings.v
GoNet.v
GoSort.v
Geo.v
Bpf.v
GoTime.v
Store.v
StoreProofs.v
Capture.v
Aggregator.v
Decode.v
Rollup.v
Pipeline.v
EndToEnd.v
Encoding.v
Auth.v
Web.v
GoFloat.v
Detect.v
Config.v
Sources.v
System.v
Tls.v
Run.v
Migrate.v
Service.v
Commands.v
