(* ===== verification/Prelude.v ===== *)
(** * ShadowStat: a verification development

    ShadowStat watches the traffic of a LAN through a mirror port, keeps flow
    and DNS records in SQLite, rolls them up, raises alerts and serves a web
    interface.  This library is a shallow embedding of the Go program under
    [src/] with theorems about it.

    ** The program and the files that model it

    One process runs four goroutines over one database.  The capture pipeline
    ([internal/capture]) reads frames, decodes them, aggregates flows in memory
    and flushes them; the rollup scheduler ([internal/rollupjob]) condenses
    flows into coarser tables and prunes; the detection scheduler
    ([internal/detect]) scans recent rows and raises alerts; the web server
    ([internal/web], [internal/auth]) reads everything and changes users,
    settings and alerts.  They only interact through [internal/store].  Around
    them are the commands: [run] resolves the data directory, opens and upgrades
    the database, runs the first-time wizard, makes the certificate and starts
    the goroutines; [install-service], [uninstall-service] and [status] manage
    the program as a service.

    - Language and libraries.  [Prelude]: results, the state monad with early
      return, [Preserves] (invariants carried through monadic code by instance
      search), unspecified iteration orders ([Order]), machine integers,
      grouping.  [GoStrings], [GoNet], [GoSort], [GoTime], [GoFloat],
      [Encoding]: what the program uses of Go's standard library, written out,
      with round trips of printing and parsing.
    - [Geo]: [tools/geoip-gen/main.go] ([Module Gen]) and
      [internal/geoip/geoip.go] ([Module GeoIP]).
    - [Bpf], [Capture], [Decode], [Aggregator], [Pipeline], [Sources]: the files
      of the same names in [internal/capture] ([pcapgo_source.go] and
      [replay_source.go] in [Sources]).  [EndToEnd] composes decoder, aggregator,
      flush and database into runs of the whole pipeline.
    - [Store], [StoreProofs]: [internal/store], one definition per exported
      operation; the state is the record [Tables] of [schema.sql]'s tables.
      [Migrate]: [store/db.go], opening and upgrading over a catalogue of tables,
      columns and rows, with [schema.sql] written out.
    - [Rollup]: [internal/rollupjob/scheduler.go].
    - [Auth], [Web]: [internal/auth] and [internal/web], handlers, middleware
      and router.
    - [Detect]: the six detectors and the scheduler of [internal/detect].
    - [Config]: [internal/config] (settings, first-run wizard) and the startup
      sequence of [cmd/run.go].
    - [System]: paths, files, accounts and other programs, what the remaining
      files use of [os], [path/filepath], [os/user] and [os/exec].
    - [Tls]: [internal/tlscert] and [web/server.go].  [Run]: [config/paths.go] and
      the whole of [cmd/run.go].  [Service]: [internal/service].  [Commands]:
      [cmd/service.go] and [cmd/root.go].

    ** How code is rendered

    A function that returns [(T, error)] yields a [Result].  Code that touches
    the database or the pipeline is a function [M S A] from a state to a result
    and a state.  Every SQL statement is one step that takes effect whole or
    fails: on a constraint, or because an oracle of the state, a list of
    booleans, makes it fail, so theorems that quantify over the state cover
    every pattern of I/O failures.  Map iteration and unsorted query results
    take an [Order], of which only that it permutes is known.  Goroutines that
    share state are step relations over their critical sections ([pstep] in
    [Pipeline], [lstep] and [rstep] in [Sources]); a [select] loop over tickers
    is the sequence of ticks.  Integers are [Z] with the wrap-around of their
    width written where the code does arithmetic that can reach it; floats are
    IEEE 754 doubles.  [time.Now()] and random bytes are arguments.  The file
    system is a map from paths to inodes in the state [World], which also lists
    the programs run; system calls fail by an oracle like statements, a failing
    write or removal after any part of its work.  Symbolic links and permission
    bits do not decide the outcome of a call: a call without the permission is
    one that fails.

    ** Code outside the repository

    Classes with the documented behaviour as fields, each with a concrete
    instance used in examples: [Gopacket] (layer parsers, no laws), [BpfMachine]
    (the four instructions of the filter), [Argon2] (derives a key of the asked
    length), [Formats] (printing of floats, JSON, [math.Log2]; no laws), [X509]
    (a certificate made for a key goes with it), [Programs] ([cp -a] copies and
    touches only its target; service managers, the services they start and
    [useradd] keep to their own files, which may include the program's data
    directory but not its unit file).

    ** What the theorems show

    - Geo table: the generator's table is sorted and non-overlapping and gives
      each address the country of the first claim in rank order; serialising
      and loading are inverse; the lookup agrees with a linear scan.
    - Capture: the filter accepts exactly IPv4 frames; each LAN endpoint of a
      packet gets one flow event from its side, read off the layers independently
      of the decoder's code; the aggregator refines the list
      of events and conserves bytes; drains partition the events; in every
      interleaving each event is in exactly one place; a flush stores everything
      drained, once, under the right host; from packets to rows, every byte is
      accounted for; sources account for every packet; shutdown needs one more
      frame when the source is in a read, and otherwise always comes to an end.
    - Store: the invariant of the tables survives every operation and failure;
      batches are atomic; host identity and DHCP names.  Opening a database of
      an older version loses nothing, makes it fit the schema and its accounts
      administrators, and may be interrupted and repeated.
    - Rollups: how often a flow is counted, merging finer buckets equals
      grouping by the coarser one, what pruning keeps, retention overflow.
    - Authentication and web: hash round trip, session lifetime, elevation,
      role changes that the next validation sees; which requests can change the database; the last
      admin, sequentially and under a race; login errors; pruned ranges.
    - Detection: every alert is backed by the tables, alerts for one condition
      are a cooldown apart, when a destination is new, the ports of a scan.
    - Configuration: the wizard succeeds exactly on input that holds the answers,
      and startup runs with what was typed; failed
      setups; flush intervals that stop the program.
    - Commands: the data directory exists once resolved; a certificate pair
      that is found is kept and a missing one made of fresh keys, and what a
      failed write of the key leads to; a program that came up once comes up again without a
      terminal; moving a data directory loses nothing; the guards of
      [install-service], the ownership and the unit it leaves and that removal
      takes the unit back and nothing else; the
      scan for a running instance agrees with the dispatch of commands.

    Each property is a theorem in a [Module ...Properties] with its number and
    a witness at a concrete input where it has hypotheses; the lemmas it rests
    on precede the module.

    ** Fuel

    Recursion is structural or well-founded except for a few loops.  Decimal
    printing gets one unit per bit of the number, which [dec_go_value] shows is
    enough; chunking a batch one per element ([chunks_concat]); [unit_loop] of
    [fmtBytesShort] 64, of which [unit_loop_spec] shows six suffice for 63 bits;
    IPv6 parsing one per character and [runes] one per byte, as each round
    consumes at least one.  The reference BPF interpreter gets the length of
    the program, since its jumps only go forward ([interp_fuel]).

    ** What is not modelled

    Log lines, printed text and HTML; the syntax of command-line flags; URL
    matching, JSON encoding and TLS of the Go libraries; SQLite's files and
    connection pools, and what a pragma does inside SQLite: foreign keys are
    enforced in [Store] as [PRAGMA foreign_keys = ON] of [db.go] asks for; white
    space and upper case outside ASCII; the launching of the goroutines, signals
    and the wait for them in [cmd/run.go] (each goroutine's body is modelled); the version string, [main.go] and the embedded assets
    ([static.go], [templates.go]), which hold no logic.

    ** Plan

    The components are all modelled.  What is left is depth: the web pages'
    figures derived from the rows of [EndToEnd] through the rollups, and the
    detectors' statistics (entropy, beaconing jitter) against real-number
    specifications. *)

From stdpp Require Import prelude gmap strings list sorting.
From Stdlib Require Import ZArith Lia.
From Corelib Require Import ssreflect.

Open Scope general_if_scope.
Open Scope Z_scope.

(** ** Go results and the state monad *)

(** The Go convention [(T, error)]: a call yields a value or an error. *)
Inductive Result (E A : Type) :=
  | Ok (a : A)
  | Err (e : E).
Arguments Ok {E A} _.
Arguments Err {E A} _.

Definition is_ok {E A} (r : Result E A) : bool :=
  match r with Ok _ => true | Err _ => false end.

(** Stateful code: explicit state passing over a state type [S]. *)
Definition M (S A : Type) : Type := S → A * S.

Definition ret {S A} (a : A) : M S A := λ s, (a, s).
Definition bind {S A B} (m : M S A) (k : A → M S B) : M S B :=
  λ s, let '(a, s') := m s in k a s'.
Definition get {S} : M S S := λ s, (s, s).
Definition put {S} (s : S) : M S unit := λ _, (tt, s).
Definition modify {S} (f : S → S) : M S unit := λ s, (tt, f s).
Definition gets {S A} (f : S → A) : M S A := λ s, (f s, s).

Declare Scope go_scope.
Delimit Scope go_scope with go.

(** [let! x := m in k] sequences; [let? x := m in k] also returns early on
    an error, as [if err != nil { return err }] does. *)
Notation "'let!' x ':=' m 'in' k" := (bind m (λ x, k))
  (at level 10, x pattern, m at level 100, k at level 200) : go_scope.
Notation "'let?' x ':=' m 'in' k" :=
  (bind m (λ r, match r with Ok x => k | Err e => ret (Err e) end))
  (at level 10, x pattern, m at level 100, k at level 200) : go_scope.
Notation "m ';;!' k" := (bind m (λ _, k))
  (at level 199, right associativity) : go_scope.

Open Scope go_scope.

(** A [for] loop over a slice, with [continue] as returning early from the
    body. *)
Fixpoint for_each {S A} (f : A → M S unit) (l : list A) : M S unit :=
  match l with
  | [] => ret tt
  | x :: l' => f x ;;! for_each f l'
  end.

(** A [for] loop that appends to a slice: the body yields [None] to
    [continue]. *)
Fixpoint collect {S A B} (f : A → M S (option B)) (l : list A) : M S (list B) :=
  match l with
  | [] => ret []
  | x :: l' =>
      let! o := f x in
      let! r := collect f l' in
      ret (match o with Some y => y :: r | None => r end)
  end.

Definition exec_state {S A} (m : M S A) (s : S) : S := (m s).2.
Definition eval_state {S A} (m : M S A) (s : S) : A := (m s).1.

Lemma bind_run {S A B} (m : M S A) (k : A → M S B) s a s' : m s = (a, s') → bind m k s = k a s'.
Proof. rewrite /bind. by intros ->. Qed.

(** Early return: what the sequence did when it succeeded, and when it did not. *)
Lemma try_ok {S Er A B} (m : M S (Result Er A)) (k : A → M S (Result Er B)) s b s' :
  (let? x := m in k x) s = (Ok b, s') → ∃ a s1, m s = (Ok a, s1) ∧ k a s1 = (Ok b, s').
Proof. rewrite /bind. destruct (m s) as [[a|e] s1]; [eauto|by intros [=]]. Qed.

Lemma try_err {S Er A B} (m : M S (Result Er A)) (k : A → M S (Result Er B)) s e s' :
  (let? x := m in k x) s = (Err e, s') → m s = (Err e, s') ∨ ∃ a s1, m s = (Ok a, s1) ∧ k a s1 = (Err e, s').
Proof. rewrite /bind. destruct (m s) as [[a|e'] s1]; [eauto|]. intros [= <- <-]. by left. Qed.

(** ** Invariants carried through monadic code

    [Preserves I m]: running [m] from a state satisfying [I] ends in one.
    Instances for the combinators let type-class search discharge the
    sequencing, so a proof only has to treat the primitive operations. *)
Class Preserves {S A} (I : S → Prop) (m : M S A) : Prop :=
  preserves : ∀ s, I s → I (m s).2.
Global Hint Mode Preserves + + + ! : typeclass_instances.

Section preserves.
Context {S : Type} (I : S → Prop).

#[export] Instance preserves_ret {A} (a : A) : Preserves I (ret a).
Proof. by intros s Hs. Qed.
#[export] Instance preserves_get : Preserves I get.
Proof. by intros s Hs. Qed.
#[export] Instance preserves_gets {A} (f : S → A) : Preserves I (gets f).
Proof. by intros s Hs. Qed.

#[export] Instance preserves_bind {A B} (m : M S A) (k : A → M S B) :
  Preserves I m → (∀ a, Preserves I (k a)) → Preserves I (bind m k).
Proof.
  intros Hm Hk s Hs. rewrite /bind. specialize (Hm s Hs).
  destruct (m s) as [a s']. by apply Hk.
Qed.

#[export] Instance preserves_for_each {A} (f : A → M S unit) l :
  (∀ x, Preserves I (f x)) → Preserves I (for_each f l).
Proof. intros Hf. induction l as [|x l IH]; simpl; apply _. Qed.

Lemma preserves_for_each_in {A} (f : A → M S unit) l :
  (∀ x, x ∈ l → Preserves I (f x)) → Preserves I (for_each f l).
Proof.
  induction l as [|x l IH]; intros Hf; simpl; [apply _|].
  apply preserves_bind; [apply Hf; left|]. intros _. apply IH. intros y Hy. apply Hf. by right.
Qed.

#[export] Instance preserves_collect {A B} (f : A → M S (option B)) l :
  (∀ x, Preserves I (f x)) → Preserves I (collect f l).
Proof. intros Hf. induction l as [|x l IH]; simpl; apply _. Qed.

Lemma preserves_modify (f : S → S) :
  (∀ s, I s → I (f s)) → Preserves I (modify f).
Proof. intros Hf s Hs. by apply Hf. Qed.
End preserves.

(** Case analysis on every scrutinee in a monadic program, then search. *)
Ltac preserves_tac :=
  repeat first
    [ apply _
    | apply preserves_bind; [|intros ?]
    | progress intros
    | case_match ].

(** ** Unspecified iteration order

    Go randomises the iteration order of a map, and SQL leaves the order of
    an unsorted result open.  Every such iteration takes an [Order]: a
    function that rearranges a list, known only to produce a permutation of
    it.  Theorems that quantify over it hold for every order. *)
Record Order := mkOrder {
  ord : ∀ {A : Type}, list A → list A;
  ord_perm : ∀ A (l : list A), ord l ≡ₚ l
}.
Arguments ord _ {A} _.
Existing Class Order.

Definition ord_id : Order := mkOrder (λ A l, l) (λ A l, reflexivity l).
Program Definition ord_rev : Order := mkOrder (λ A l, reverse l) _.
Next Obligation. intros A l. apply reverse_Permutation. Qed.

Lemma elem_of_ord (o : Order) {A} (x : A) l : x ∈ ord o l ↔ x ∈ l.
Proof. by rewrite (ord_perm o). Qed.
Lemma length_ord (o : Order) {A} (l : list A) : length (ord o l) = length l.
Proof. by rewrite (ord_perm o). Qed.

(** ** Machine integers

    A [w]-bit integer is a [Z]; these write out the wrap-around of Go's
    arithmetic. *)
Definition wrapu (w : Z) (x : Z) : Z := x mod 2 ^ w.
Definition wraps (w : Z) (x : Z) : Z := (x + 2 ^ (w - 1)) mod 2 ^ w - 2 ^ (w - 1).

Abbreviation wrap_u32 := (wrapu 32).
Abbreviation wrap_i64 := (wraps 64).

Definition in_u (w x : Z) : Prop := 0 ≤ x < 2 ^ w.
Definition in_i (w x : Z) : Prop := - 2 ^ (w - 1) ≤ x < 2 ^ (w - 1).

Abbreviation max_i64 := (2 ^ 63 - 1).

Lemma wrapu_small w x : in_u w x → wrapu w x = x.
Proof. intros H. by apply Z.mod_small. Qed.

Lemma wrapu_range w x : 0 < w → in_u w (wrapu w x).
Proof. intros Hw. apply Z.mod_pos_bound. lia. Qed.

Lemma wraps_small w x : 0 < w → in_i w x → wraps w x = x.
Proof.
  intros Hw [H1 H2]. rewrite /wraps Z.mod_small; [|lia].
  assert (2 ^ w = 2 * 2 ^ (w - 1)) as ->; [|lia].
  replace w with (Z.succ (w - 1)) at 1 by lia. apply Z.pow_succ_r. lia.
Qed.

Lemma wrap_i64_small x : -9223372036854775808 ≤ x < 9223372036854775808 → wrap_i64 x = x.
Proof. intros H. by apply wraps_small. Qed.

(** Wrapping an intermediate result does not change the final one. *)
Lemma wraps_add_l w x y : wraps w (wraps w x + y) = wraps w (x + y).
Proof.
  rewrite /wraps. f_equal.
  replace ((x + 2 ^ (w - 1)) mod 2 ^ w - 2 ^ (w - 1) + y + 2 ^ (w - 1))
    with ((x + 2 ^ (w - 1)) mod 2 ^ w + y) by lia.
  rewrite Zplus_mod_idemp_l. f_equal. lia.
Qed.

(** ** Sums over lists *)
Definition sumZ {A} (f : A → Z) (l : list A) : Z := foldr (λ x s, f x + s) 0 l.

Section sums.
Context {A : Type}.
Implicit Types (f g : A → Z) (l : list A).

Lemma sumZ_nil f : sumZ f [] = 0.
Proof. done. Qed.
Lemma sumZ_cons f x l : sumZ f (x :: l) = f x + sumZ f l.
Proof. done. Qed.
Lemma sumZ_app f l1 l2 : sumZ f (l1 ++ l2) = sumZ f l1 + sumZ f l2.
Proof. induction l1 as [|x l1 IH]; [done|]. rewrite /= IH. lia. Qed.
Lemma sumZ_perm f l1 l2 : l1 ≡ₚ l2 → sumZ f l1 = sumZ f l2.
Proof. induction 1; rewrite ?sumZ_cons; lia. Qed.
Lemma sumZ_nonneg f l : (∀ x, x ∈ l → 0 ≤ f x) → 0 ≤ sumZ f l.
Proof.
  induction l as [|x l IH]; intros H; [done|]. rewrite sumZ_cons.
  assert (0 ≤ f x) by (apply H; left). assert (0 ≤ sumZ f l); [|lia].
  apply IH. intros y Hy. apply H. by right.
Qed.
Lemma sumZ_ext f g l : (∀ x, x ∈ l → f x = g x) → sumZ f l = sumZ g l.
Proof.
  induction l as [|x l IH]; intros H; [done|].
  rewrite !sumZ_cons (H x) ?IH //; [by left|]. intros y Hy. apply H. by right.
Qed.
Lemma sumZ_zero f l : (∀ x, x ∈ l → f x = 0) → sumZ f l = 0.
Proof.
  intros H. rewrite (sumZ_ext f (λ _, 0) l H). induction l as [|x l IH]; [done|].
  rewrite sumZ_cons IH //. intros y Hy. apply H. by right.
Qed.
Lemma sumZ_add f g l : sumZ (λ x, f x + g x) l = sumZ f l + sumZ g l.
Proof. induction l as [|x l IH]; [done|]. rewrite !sumZ_cons IH. lia. Qed.
Lemma sumZ_filter (P : A → Prop) `{∀ x, Decision (P x)} f l :
  sumZ f (filter P l) = sumZ (λ x, if decide (P x) then f x else 0) l.
Proof.
  induction l as [|x l IH]; [done|].
  rewrite filter_cons sumZ_cons -IH. by case_decide.
Qed.
Lemma sumZ_filter_split (P : A → Prop) `{∀ x, Decision (P x)} f l :
  sumZ f l = sumZ f (filter P l) + sumZ f (filter (λ x, ¬ P x) l).
Proof.
  induction l as [|x l IH]; [done|]. rewrite !filter_cons sumZ_cons IH.
  do 2 case_decide; rewrite ?sumZ_cons; tauto || lia.
Qed.
End sums.

Lemma sumZ_fmap {A B} (f : B → Z) (g : A → B) l : sumZ f (g <$> l) = sumZ (f ∘ g) l.
Proof. induction l as [|x l IH]; [done|]. by rewrite fmap_cons !sumZ_cons IH. Qed.

#[global] Arguments sumZ : simpl never.

#[export] Instance sumZ_Proper {A} (f : A → Z) : Proper ((≡ₚ) ==> (=)) (sumZ f).
Proof. intros l1 l2. apply sumZ_perm. Qed.

Create HintDb go.
Create Rewrite HintDb go.
#[export] Hint Rewrite @sumZ_nil @sumZ_cons @sumZ_app @sumZ_fmap : go.

(** ** Filtering *)
Section filters.
Context {A : Type} (P Q : A → Prop) `{∀ x, Decision (P x), ∀ x, Decision (Q x)}.

Lemma filter_ext_Forall l : Forall (λ x, P x ↔ Q x) l → filter P l = filter Q l.
Proof. induction 1 as [|x l Hx _ IH]; [done|]. rewrite !filter_cons IH. do 2 case_decide; naive_solver. Qed.

Lemma filter_none_Forall l : Forall (λ x, ¬ P x) l → filter P l = [].
Proof. induction 1 as [|x l Hx _ IH]; [done|]. rewrite filter_cons IH. by case_decide. Qed.
End filters.

(** ** Partitioning a list into SQL groups

    [GROUP BY]: one group per distinct key, rows in scan order. *)
Section groups.
Context {A K : Type} `{EqDecision K} (key : A → K).

Fixpoint distinct_keys (l : list A) : list K :=
  match l with
  | [] => []
  | x :: l' => key x :: filter (λ k, k ≠ key x) (distinct_keys l')
  end.

Definition group_by (l : list A) : list (K * list A) :=
  (λ k, (k, filter (λ x, key x = k) l)) <$> distinct_keys l.

Lemma elem_of_distinct_keys k l : k ∈ distinct_keys l ↔ ∃ x, x ∈ l ∧ key x = k.
Proof.
  induction l as [|x l IH]; simpl.
  - split; [by intros ?%elem_of_nil|]. by intros (x & ?%elem_of_nil & _).
  - rewrite elem_of_cons list_elem_of_filter IH. split.
    + intros [->|[Hne (y & Hy & <-)]]; [exists x|exists y]; split; (done || by repeat constructor || by right).
    + intros (y & [->|Hy]%elem_of_cons & <-); [by left|].
      destruct (decide (key y = key x)) as [|Hne]; [by left|right; eauto].
Qed.

Lemma NoDup_distinct_keys l : NoDup (distinct_keys l).
Proof.
  induction l as [|x l IH]; simpl; constructor.
  - rewrite list_elem_of_filter. by intros [? _].
  - by apply NoDup_filter.
Qed.

Lemma NoDup_group_by l : NoDup (group_by l).*1.
Proof.
  rewrite /group_by -list_fmap_compose.
  replace (_ <$> distinct_keys l) with (distinct_keys l); [apply NoDup_distinct_keys|].
  symmetry. rewrite -{2}(list_fmap_id (distinct_keys l)). by apply list_fmap_ext.
Qed.

Lemma elem_of_group_by k g l :
  (k, g) ∈ group_by l ↔ (∃ x, x ∈ l ∧ key x = k) ∧ g = filter (λ x, key x = k) l.
Proof.
  rewrite /group_by list_elem_of_fmap. setoid_rewrite elem_of_distinct_keys. split.
  - by intros (k' & [= -> ->] & ?).
  - intros [? ->]. by exists k.
Qed.

(** A sum over groups whose terms only depend on the group's key and sum
    equals the sum over the rows. *)
Lemma sumZ_distinct_keys (f : A → Z) (ks : list K) l :
  NoDup ks → (∀ x, x ∈ l → key x ∈ ks) →
  sumZ (λ k, sumZ f (filter (λ x, key x = k) l)) ks = sumZ f l.
Proof.
  revert l. induction ks as [|k ks IH]; intros l Hnd Hin.
  - destruct l as [|x l]; [done|]. by destruct (not_elem_of_nil (key x)); apply Hin; left.
  - apply NoDup_cons in Hnd as [Hk Hnd]. rewrite sumZ_cons.
    rewrite (sumZ_filter_split (λ x, key x = k) f l). f_equal.
    rewrite -(IH (filter (λ x, key x ≠ k) l) Hnd).
    + intros x [Hne Hx]%list_elem_of_filter. apply Hin in Hx. set_solver.
    + apply sumZ_ext. intros k' Hk'. f_equal.
      rewrite list_filter_filter. apply list_filter_iff. intros x. naive_solver.
Qed.

Lemma sumZ_group_by (f : A → Z) l :
  sumZ (λ kg : K * list A, sumZ f kg.2) (group_by l) = sumZ f l.
Proof.
  rewrite /group_by sumZ_fmap. apply sumZ_distinct_keys; [apply NoDup_distinct_keys|].
  intros x Hx. apply elem_of_distinct_keys. by exists x.
Qed.
End groups.
