(* ===== verification/GoStrings.v ===== *)
(** * Go strings and numbers in decimal

    A Go [string] is a byte sequence, so it is a Rocq [string]: a list of
    eight-bit characters.  This file writes out the parts of the packages
    [strings] and [strconv] (and the verbs [%s] and [%d] of [fmt]) the program
    uses, and proves that decimal printing and parsing are inverse.

    [TrimSpace] and [ToUpper] treat ASCII only; the program applies them to
    digits, country codes and process names. *)

From stdpp Require Import prelude strings list.
From Stdlib Require Import ZArith Lia Ascii.
From Corelib Require Import ssreflect.
From S2P Require Import Prelude.

Open Scope general_if_scope.
Open Scope Z_scope.

(** ** Characters *)
Definition ascii_Z (c : ascii) : Z := Z.of_N (N_of_ascii c).
Definition Z_ascii (z : Z) : ascii := ascii_of_N (Z.to_N z).

Lemma ascii_Z_range c : in_u 8 (ascii_Z c).
Proof. rewrite /in_u /ascii_Z. pose proof (N_ascii_bounded c). lia. Qed.

Lemma Z_ascii_Z z : in_u 8 z → ascii_Z (Z_ascii z) = z.
Proof. intros H. rewrite /ascii_Z /Z_ascii N_ascii_embedding; unfold in_u in H; lia. Qed.

Lemma Z_ascii_ascii c : Z_ascii (ascii_Z c) = c.
Proof. rewrite /ascii_Z /Z_ascii N2Z.id. apply ascii_N_embedding. Qed.

Definition is_digit (c : ascii) : bool := (48 <=? ascii_Z c) && (ascii_Z c <=? 57).
Definition is_space (c : ascii) : bool :=
  (ascii_Z c =? 32) || ((9 <=? ascii_Z c) && (ascii_Z c <=? 13)).

(** ** Package [strings] *)
Fixpoint string_forallb (p : ascii → bool) (s : string) : bool :=
  match s with
  | EmptyString => true
  | String c s' => p c && string_forallb p s'
  end.

(** [strings.Split(s, sep)] for a one-byte separator. *)
Fixpoint split (sep : ascii) (s : string) : list string :=
  match s with
  | EmptyString => [EmptyString]
  | String c s' =>
      if decide (c = sep) then EmptyString :: split sep s'
      else match split sep s' with
           | [] => [String c EmptyString]
           | w :: ws => String c w :: ws
           end
  end.

(** [strings.Join(ws, sep)] for a one-byte separator. *)
Fixpoint join (sep : ascii) (ws : list string) : string :=
  match ws with
  | [] => EmptyString
  | [w] => w
  | w :: ws' => w +:+ String sep (join sep ws')
  end.

Definition has_prefix (p s : string) : bool := String.prefix p s.

Fixpoint trim_left (p : ascii → bool) (s : string) : string :=
  match s with
  | String c s' => if p c then trim_left p s' else s
  | EmptyString => EmptyString
  end.

(** Dropping a suffix of characters satisfying [p]. *)
Fixpoint trim_right (p : ascii → bool) (s : string) : string :=
  match s with
  | EmptyString => EmptyString
  | String c s' =>
      match trim_right p s' with
      | EmptyString => if p c then EmptyString else String c EmptyString
      | r => String c r
      end
  end.

(** [strings.TrimSpace] on ASCII white space. *)
Definition trim_space (s : string) : string := trim_right is_space (trim_left is_space s).

(** [strings.TrimSuffix(s, ".")] for a one-byte suffix: at most one copy. *)
Fixpoint trim_suffix1 (c : ascii) (s : string) : string :=
  match s with
  | EmptyString => EmptyString
  | String d EmptyString => if decide (d = c) then EmptyString else s
  | String d s' => String d (trim_suffix1 c s')
  end.

(** [s[:strings.IndexByte(s, c)]] when [c] occurs, [s] otherwise. *)
Fixpoint before_byte (c : ascii) (s : string) : string :=
  match s with
  | EmptyString => EmptyString
  | String d s' => if decide (d = c) then EmptyString else String d (before_byte c s')
  end.

(** [strings.FieldsFunc(s, p)]: maximal runs of bytes not satisfying [p].
    Exact on UTF-8 text when [p] holds of ASCII characters only. *)
Fixpoint fields_func_go (p : ascii → bool) (s : string) (cur : string) : list string :=
  match s with
  | EmptyString => match cur with EmptyString => [] | _ => [cur] end
  | String c s' =>
      if p c then
        match cur with
        | EmptyString => fields_func_go p s' EmptyString
        | _ => cur :: fields_func_go p s' EmptyString
        end
      else fields_func_go p s' (cur +:+ String c EmptyString)
  end.
Definition fields_func (p : ascii → bool) (s : string) : list string :=
  fields_func_go p s EmptyString.

Definition upper (c : ascii) : ascii :=
  if (97 <=? ascii_Z c) && (ascii_Z c <=? 122) then Z_ascii (ascii_Z c - 32) else c.
Fixpoint to_upper (s : string) : string :=
  match s with
  | EmptyString => EmptyString
  | String c s' => String (upper c) (to_upper s')
  end.

(** ** Decimal numbers *)
Definition digit (n : N) : ascii := ascii_of_N (48 + n).
Definition digit_value (c : ascii) : Z := ascii_Z c - 48.

(** [strconv.Itoa] and [%d]: the fuel bounds the number of digits. *)
Fixpoint dec_go (fuel : nat) (n : N) (acc : string) : string :=
  match fuel with
  | O => acc
  | S f =>
      let acc' := String (digit (n mod 10)%N) acc in
      if (n <? 10)%N then acc' else dec_go f (n / 10)%N acc'
  end.
Definition dec_N (n : N) : string := dec_go (S (N.size_nat n)) n EmptyString.
Definition itoa (z : Z) : string :=
  match z with
  | Zneg p => String "-" (dec_N (Npos p))
  | _ => dec_N (Z.to_N z)
  end.

(** Digits to a number; [None] on any other character. *)
Fixpoint digits_value (s : string) (acc : Z) : option Z :=
  match s with
  | EmptyString => Some acc
  | String c s' => if is_digit c then digits_value s' (10 * acc + digit_value c) else None
  end.

(** [strconv.ParseUint(s, 10, w)]. *)
Definition parse_uint (w : Z) (s : string) : option Z :=
  match s with
  | EmptyString => None
  | _ => match digits_value s 0 with
         | Some v => if v <? 2 ^ w then Some v else None
         | None => None
         end
  end.

(** [strconv.ParseInt(s, 10, w)]: an optional sign, then digits. *)
Definition parse_int (w : Z) (s : string) : option Z :=
  match s with
  | EmptyString => None
  | String c s' =>
      let neg := bool_decide (c = "-"%char) in
      let ds := if neg || bool_decide (c = "+"%char) then s' else s in
      match ds with
      | EmptyString => None
      | _ =>
          match digits_value ds 0 with
          | None => None
          | Some v =>
              if neg then (if v <=? 2 ^ (w - 1) then Some (- v) else None)
              else (if v <? 2 ^ (w - 1) then Some v else None)
          end
      end
  end.

(** [strconv.Atoi] on a 64-bit platform. *)
Definition atoi (s : string) : option Z := parse_int 64 s.

(** ** Lemmas *)
Lemma is_digit_digit n : (n < 10)%N → is_digit (digit n) = true ∧ digit_value (digit n) = Z.of_N n.
Proof.
  intros Hn. rewrite /is_digit /digit_value /digit /ascii_Z.
  rewrite -> N_ascii_embedding by lia.
  rewrite andb_true_iff !Z.leb_le. lia.
Qed.

Lemma string_app_cons c (s1 s2 : string) : String c s1 +:+ s2 = String c (s1 +:+ s2).
Proof. done. Qed.
Lemma string_app_nil_l (s : string) : EmptyString +:+ s = s.
Proof. done. Qed.
Lemma string_app_assoc (s1 s2 s3 : string) : s1 +:+ (s2 +:+ s3) = (s1 +:+ s2) +:+ s3.
Proof. induction s1 as [|c s1 IH]; [done|]. rewrite !string_app_cons IH //. Qed.
Lemma string_app_nil_r (s : string) : s +:+ EmptyString = s.
Proof. induction s as [|c s IH]; [done|]. rewrite string_app_cons IH //. Qed.
Lemma string_length_app (s1 s2 : string) :
  String.length (s1 +:+ s2) = (String.length s1 + String.length s2)%nat.
Proof. induction s1 as [|c s1 IH]; [done|]. rewrite string_app_cons /= IH //. Qed.
#[export] Hint Rewrite string_app_cons string_app_nil_l string_app_nil_r string_app_assoc : go.

Lemma string_forallb_app p s1 s2 :
  string_forallb p (s1 +:+ s2) = string_forallb p s1 && string_forallb p s2.
Proof. induction s1 as [|c s1 IH]; [done|]. rewrite string_app_cons /= IH andb_assoc //. Qed.

Lemma string_forallb_impl (p q : ascii → bool) s :
  (∀ c, p c = true → q c = true) → string_forallb p s = true → string_forallb q s = true.
Proof.
  intros Hpq. induction s as [|c s IH]; [done|]. simpl.
  rewrite !andb_true_iff. naive_solver.
Qed.

Lemma digits_value_app s1 s2 acc :
  digits_value (s1 +:+ s2) acc =
  match digits_value s1 acc with Some v => digits_value s2 v | None => None end.
Proof.
  revert acc. induction s1 as [|c s1 IH]; intros acc; [done|].
  rewrite string_app_cons /=. by destruct (is_digit c).
Qed.

Lemma dec_go_S f n acc :
  dec_go (S f) n acc =
  let acc' := String (digit (n mod 10)%N) acc in
  if (n <? 10)%N then acc' else dec_go f (n / 10)%N acc'.
Proof. done. Qed.

Lemma dec_go_acc fuel n acc : dec_go fuel n acc = dec_go fuel n EmptyString +:+ acc.
Proof.
  revert n acc. induction fuel as [|f IH]; intros n acc; [done|]. simpl.
  destruct (n <? 10)%N; [done|].
  rewrite (IH _ (String _ acc)) (IH _ (String _ EmptyString)) -string_app_assoc //.
Qed.

Lemma dec_go_value fuel n :
  (n < 2 ^ N.of_nat fuel)%N → digits_value (dec_go (S fuel) n EmptyString) 0 = Some (Z.of_N n).
Proof.
  revert n. induction fuel as [|f IH]; intros n Hn.
  { change (2 ^ N.of_nat 0)%N with 1%N in Hn. assert (n = 0%N) as -> by lia. done. }
  rewrite dec_go_S. cbv zeta. destruct (N.ltb_spec n 10) as [Hlt|Hge].
  - destruct (is_digit_digit (n mod 10)%N) as [Hd Hv]; [by apply N.mod_lt|].
    rewrite /= Hd Hv N.mod_small //.
  - rewrite dec_go_acc digits_value_app IH.
    { rewrite Nat2N.inj_succ N.pow_succ_r' in Hn. apply N.Div0.div_lt_upper_bound. lia. }
    destruct (is_digit_digit (n mod 10)%N) as [Hd Hv]; [by apply N.mod_lt|].
    rewrite /= Hd Hv. f_equal.
    rewrite {3}(N.div_mod n 10) //. lia.
Qed.

Lemma dec_go_digits fuel n acc :
  string_forallb is_digit acc = true → string_forallb is_digit (dec_go fuel n acc) = true.
Proof.
  revert n acc. induction fuel as [|f IH]; intros n acc Hacc; [done|].
  assert (string_forallb is_digit (String (digit (n mod 10)%N) acc) = true).
  { rewrite /= Hacc. by destruct (is_digit_digit (n mod 10)%N) as [-> _]; [apply N.mod_lt|]. }
  simpl. destruct (n <? 10)%N; [done|]. by apply IH.
Qed.

Lemma dec_N_nonempty n : dec_N n ≠ EmptyString.
Proof.
  rewrite /dec_N /=. destruct (n <? 10)%N; [done|].
  rewrite dec_go_acc. by destruct (dec_go _ _ _).
Qed.

Lemma dec_N_digits n : string_forallb is_digit (dec_N n) = true.
Proof. by apply dec_go_digits. Qed.

Lemma dec_N_value n : digits_value (dec_N n) 0 = Some (Z.of_N n).
Proof.
  apply dec_go_value. destruct n as [|p]; [done|]. simpl.
  apply (N.lt_le_trans _ (2 ^ N.size (Npos p))); [apply N.size_gt|].
  apply N.pow_le_mono_r; [done|]. rewrite /N.size /N.size_nat.
  clear. induction p; simpl; lia.
Qed.

(** The first character of a printed natural number is a digit. *)
Lemma dec_N_cons n : ∃ c s, dec_N n = String c s ∧ is_digit c = true.
Proof.
  pose proof (dec_N_nonempty n) as Hne. pose proof (dec_N_digits n) as Hd.
  destruct (dec_N n) as [|c s]; [done|]. exists c, s. split; [done|].
  by apply andb_true_iff in Hd as [? _].
Qed.

Lemma parse_uint_dec_N w n : Z.of_N n < 2 ^ w → parse_uint w (dec_N n) = Some (Z.of_N n).
Proof.
  intros Hw. rewrite /parse_uint. pose proof (dec_N_value n) as Hv.
  destruct (dec_N_cons n) as (c & s & E & _). rewrite E -E Hv.
  by destruct (Z.ltb_spec (Z.of_N n) (2 ^ w)); [|lia].
Qed.

(** Decimal printing and parsing are inverse, over the whole range of [int64]. *)
Lemma atoi_itoa z : in_i 64 z → atoi (itoa z) = Some z.
Proof.
  rewrite /in_i => Hz.
  assert (∀ n, Z.of_N n ≤ 2 ^ 63 - 1 → atoi (dec_N n) = Some (Z.of_N n)) as Hpos.
  { intros n Hn. rewrite /atoi /parse_int. pose proof (dec_N_value n) as Hv.
    destruct (dec_N_cons n) as (c & s & E & Hd). rewrite E.
    rewrite !bool_decide_eq_false_2; [by intros ->..|]. cbn [orb].
    rewrite -E Hv. destruct (Z.ltb_spec (Z.of_N n) (2 ^ (64 - 1))); [done|lia]. }
  destruct z as [|p|p]; [done|by apply Hpos; simpl in *; lia|].
  rewrite /itoa /atoi /parse_int /=.
  pose proof (dec_N_value (Npos p)) as Hv.
  destruct (dec_N_cons (Npos p)) as (c & s & E & Hd). rewrite E -E Hv.
  destruct (Z.leb_spec (Z.of_N (N.pos p)) (2 ^ (64 - 1))); [done|lia].
Qed.

(** Splitting a join gives back the parts, when no part holds the separator. *)
Definition no_char (sep : ascii) (s : string) : Prop :=
  string_forallb (λ c, bool_decide (c ≠ sep)) s = true.

Lemma split_no_char sep s : no_char sep s → split sep s = [s].
Proof.
  rewrite /no_char. induction s as [|c s IH]; [done|]. simpl.
  intros [Hc Hs]%andb_true_iff. apply bool_decide_eq_true in Hc.
  rewrite (IH Hs). by case_decide.
Qed.

Lemma split_app sep w s :
  no_char sep w → split sep (w +:+ String sep s) = w :: split sep s.
Proof.
  rewrite /no_char. induction w as [|c w IH]; [intros _|]; rewrite ?string_app_cons ?string_app_nil_l /=.
  { by case_decide. }
  intros [Hc Hs]%andb_true_iff. apply bool_decide_eq_true in Hc.
  rewrite (IH Hs). by case_decide.
Qed.

Lemma split_join sep ws : ws ≠ [] → Forall (no_char sep) ws → split sep (join sep ws) = ws.
Proof.
  intros Hne Hws. induction Hws as [|w ws Hw Hws IH]; [done|].
  destruct ws as [|w' ws]; [by apply split_no_char|].
  cbn [join]. rewrite split_app // IH //.
Qed.

Lemma no_char_digits sep s :
  is_digit sep = false → string_forallb is_digit s = true → no_char sep s.
Proof.
  intros Hsep. apply string_forallb_impl. intros c Hc.
  apply bool_decide_eq_true. intros ->. congruence.
Qed.
