(* ===== verification/GoNet.v ===== *)
(** * Go's [net] package: addresses, subnets and their text forms

    A [net.IP] is a byte slice of length 4 or 16, here a list of bytes as [Z].
    This file writes out [To4], [Equal], [IsUnspecified], [IPNet.Contains],
    [String] and [ParseIP]/[ParseCIDR] (through [netip.ParseAddr], whose
    single-pass parsers are followed step by step), and the big-endian
    conversions of [encoding/binary].  The theorems: subnet membership of an
    IPv4 address is equality of the leading bits, big-endian conversion and
    dotted-decimal printing are inverted by their parsers. *)

From stdpp Require Import prelude strings list.
From Stdlib Require Import ZArith Lia Ascii.
From Corelib Require Import ssreflect.
From S2P Require Import Prelude GoStrings.

Open Scope general_if_scope.
Open Scope Z_scope.

Abbreviation bytes := (list Z).
Definition is_byte (b : Z) : Prop := in_u 8 b.

(** [[]byte(s)]. *)
Fixpoint string_bytes (s : string) : bytes :=
  match s with
  | EmptyString => []
  | String c s' => ascii_Z c :: string_bytes s'
  end.

(** ** [encoding/binary.BigEndian] *)
Definition be32 (a b c d : Z) : Z := a * 2 ^ 24 + b * 2 ^ 16 + c * 2 ^ 8 + d.

(** [BigEndian.Uint32(b)], which panics on a shorter slice. *)
Definition uint32_be (l : bytes) : option Z :=
  match l with
  | a :: b :: c :: d :: _ => Some (be32 a b c d)
  | _ => None
  end.

(** [BigEndian.PutUint32]. *)
Definition put_uint32_be (x : Z) : bytes :=
  [ wrapu 8 (Z.shiftr x 24); wrapu 8 (Z.shiftr x 16); wrapu 8 (Z.shiftr x 8); wrapu 8 x ].

(** ** Addresses *)
Definition IP := bytes.

Definition v4_in_v6_prefix : bytes := [0;0;0;0;0;0;0;0;0;0;255;255].

(** [IP.To4]: the four-byte form, [None] for nil. *)
Definition To4 (ip : IP) : option IP :=
  if decide (length ip = 4%nat) then Some ip
  else if decide (length ip = 16%nat ∧ take 12 ip = v4_in_v6_prefix) then Some (drop 12 ip)
  else None.

(** [net.IPv4(a, b, c, d)]: the sixteen-byte form. *)
Definition IPv4 (a b c d : Z) : IP := v4_in_v6_prefix ++ [a; b; c; d].
Definition IPv4bcast : IP := IPv4 255 255 255 255.
Definition IPv4zero : IP := IPv4 0 0 0 0.
Definition IPv6unspecified : IP := replicate 16 0.

(** [IP.Equal]: an IPv4 address equals its IPv6-mapped form. *)
Definition Equal (ip x : IP) : bool :=
  if decide (length ip = length x) then bool_decide (ip = x)
  else if decide (length ip = 4%nat ∧ length x = 16%nat) then
    bool_decide (take 12 x = v4_in_v6_prefix) && bool_decide (ip = drop 12 x)
  else if decide (length ip = 16%nat ∧ length x = 4%nat) then
    bool_decide (take 12 ip = v4_in_v6_prefix) && bool_decide (drop 12 ip = x)
  else false.

Definition IsUnspecified (ip : IP) : bool := Equal ip IPv4zero || Equal ip IPv6unspecified.

(** ** Subnets *)
Record IPNet := mkIPNet { net_ip : IP; net_mask : bytes }.

(** [networkNumberAndMask]: nil (here [None]) when address and mask sizes
    do not fit. *)
Definition networkNumberAndMask (n : IPNet) : option (IP * bytes) :=
  let ip := match To4 (net_ip n) with Some x => x | None => net_ip n end in
  if decide (To4 (net_ip n) = None ∧ length (net_ip n) ≠ 16%nat) then None
  else if decide (length (net_mask n) = length ip) then Some (ip, net_mask n)
  else if decide (length (net_mask n) = 16%nat ∧ length ip = 4%nat) then
    Some (ip, drop 12 (net_mask n))
  else None.

(** The loop of [IPNet.Contains]: every byte agrees under the mask. *)
Fixpoint masked_eq (nn m ip : bytes) : bool :=
  match nn, m, ip with
  | n :: nn', k :: m', i :: ip' => (Z.land n k =? Z.land i k) && masked_eq nn' m' ip'
  | _, _, _ => true
  end.

Definition Contains (n : IPNet) (ip : IP) : bool :=
  match networkNumberAndMask n with
  | None => bool_decide (ip = [])
  | Some (nn, m) =>
      let ip := match To4 ip with Some x => x | None => ip end in
      if decide (length ip = length nn) then masked_eq nn m ip else false
  end.

(** [net.CIDRMask(ones, 8 * len)]. *)
Fixpoint CIDRMask (ones : Z) (len : nat) : bytes :=
  match len with
  | O => []
  | S len' =>
      if 8 <=? ones then 255 :: CIDRMask (ones - 8) len'
      else Z.land 255 (Z.lnot (Z.shiftr 255 ones)) :: CIDRMask 0 len'
  end.

(** [IP.Mask] for equal lengths. *)
Definition apply_mask (ip m : bytes) : bytes := zip_with Z.land ip m.

(** ** Text form *)
Definition dotted (ip : IP) : string := join "." (itoa <$> ip).

Definition hex_digit (n : Z) : ascii := if n <? 10 then Z_ascii (48 + n) else Z_ascii (87 + n).

(** [appendHex]: no leading zeros. *)
Definition hex16 (x : Z) : string :=
  let d i := hex_digit (Z.land (Z.shiftr x (4 * i)) 15) in
  let tail := String (d 0) EmptyString in
  let tail := if 16 <=? x then String (d 1) tail else tail in
  let tail := if 256 <=? x then String (d 2) tail else tail in
  if 4096 <=? x then String (d 3) tail else tail.

Fixpoint groups16 (l : bytes) : list Z :=
  match l with
  | a :: b :: l' => (a * 256 + b) :: groups16 l'
  | _ => []
  end.

Fixpoint zero_run (l : list Z) : nat :=
  match l with
  | 0 :: l' => S (zero_run l')
  | _ => O
  end.

(** [netip.Addr.appendTo6]: the first longest run of at least two zero groups
    prints as [::]. *)
Fixpoint longest_zero_run (i : nat) (l : list Z) (best : nat * nat) : nat * nat :=
  match l with
  | [] => best
  | _ :: l' =>
      let r := zero_run l in
      let best := if (2 <=? r)%nat && (best.2 - best.1 <? r)%nat then (i, i + r)%nat else best in
      longest_zero_run (S i) l' best
  end.

Definition string6 (ip : IP) : string :=
  let g := groups16 ip in
  let '(zs, ze) := longest_zero_run 0 g (255%nat, 255%nat) in
  if (zs =? 255)%nat then join ":" (hex16 <$> g)
  else join ":" (hex16 <$> take zs g) +:+ "::" +:+ join ":" (hex16 <$> drop ze g).

Definition hex_byte (b : Z) : string :=
  String (hex_digit (Z.shiftr b 4)) (String (hex_digit (Z.land b 15)) EmptyString).

(** [IP.String]. *)
Definition IP_String (ip : IP) : string :=
  match ip with
  | [] => "<nil>"
  | _ =>
      match To4 ip with
      | Some p4 => dotted p4
      | None =>
          if decide (length ip = 16%nat) then string6 ip
          else "?" +:+ foldr String.append EmptyString (hex_byte <$> ip)
      end
  end.

(** [HardwareAddr.String]: colon-separated hex bytes. *)
Definition HardwareAddr_String (a : bytes) : string := join ":" (hex_byte <$> a).

(** ** Parsing, [netip.ParseAddr] *)

(** [parseIPv4Fields]: one pass over the bytes with the value and digit count
    of the current octet, the octets finished so far, and whether the previous
    byte was a dot (or there is none). *)
Fixpoint parseIPv4Fields (s : string) (val : Z) (digLen : nat) (fields : list Z)
    (after_dot : bool) : option (list Z) :=
  match s with
  | EmptyString => if decide (length fields = 3%nat) then Some (fields ++ [val]) else None
  | String c s' =>
      if is_digit c then
        if bool_decide (digLen = 1%nat) && (val =? 0) then None
        else
          let val' := val * 10 + digit_value c in
          if 255 <? val' then None
          else parseIPv4Fields s' val' (S digLen) fields false
      else if decide (c = "."%char) then
        if after_dot || bool_decide (s' = EmptyString) then None
        else if decide (length fields = 3%nat) then None
        else parseIPv4Fields s' 0 O (fields ++ [val]) true
      else None
  end.

Definition parseIPv4 (s : string) : option (list Z) := parseIPv4Fields s 0 O [] true.

Definition hex_value (c : ascii) : option Z :=
  let z := ascii_Z c in
  if (48 <=? z) && (z <=? 57) then Some (z - 48)
  else if (97 <=? z) && (z <=? 102) then Some (z - 87)
  else if (65 <=? z) && (z <=? 70) then Some (z - 55)
  else None.

(** One group of up to four hex digits: the value, the digits read and the
    rest; [None] for a fifth digit. *)
Fixpoint hex_group (s : string) (acc : Z) (off : nat) : option (Z * nat * string) :=
  match s with
  | EmptyString => Some (acc, off, s)
  | String c s' =>
      match hex_value c with
      | None => Some (acc, off, s)
      | Some v => if (3 <? off)%nat then None else hex_group s' (acc * 16 + v) (S off)
      end
  end.

(** The loop of [parseIPv6]: [ip] holds the bytes so far, [ell] the position
    of the ellipsis.  Each turn consumes two bytes' worth of groups, so eight
    units of fuel cover it. *)
Fixpoint parseIPv6_loop (fuel : nat) (s : string) (ip : bytes) (ell : option nat)
    : option (bytes * option nat * string) :=
  match fuel with
  | O => Some (ip, ell, s)
  | S fuel' =>
      match hex_group s 0 O with
      | None => None
      | Some (acc, off, rest) =>
          if decide (off = O) then None
          else match rest with
          | String "." _ =>
              if bool_decide (ell = None) && negb (length ip =? 12)%nat then None
              else if (16 <? length ip + 4)%nat then None
              else match parseIPv4 s with
                   | Some f => Some (ip ++ f, ell, EmptyString)
                   | None => None
                   end
          | _ =>
              let ip := ip ++ [Z.shiftr acc 8; Z.land acc 255] in
              match rest with
              | EmptyString => Some (ip, ell, EmptyString)
              | String ":" EmptyString => None
              | String ":" (String ":" s'') =>
                  if ell is Some _ then None
                  else match s'' with
                       | EmptyString => Some (ip, Some (length ip), EmptyString)
                       | _ => parseIPv6_loop fuel' s'' ip (Some (length ip))
                       end
              | String ":" s' => parseIPv6_loop fuel' s' ip ell
              | _ => None
              end
          end
      end
  end.

(** [parseIPv6] for an address without zone ([net.ParseIP] refuses zones, and
    an empty zone is an error). *)
Definition parseIPv6 (s : string) : option bytes :=
  let start :=
    match s with
    | String ":" (String ":" s') => (s', Some O)
    | _ => (s, None)
    end in
  match start with
  | (EmptyString, Some _) => Some IPv6unspecified
  | (s, ell) =>
      match parseIPv6_loop 8 s [] ell with
      | Some (ip, ell, EmptyString) =>
          if (length ip <? 16)%nat then
            match ell with
            | None => None
            | Some e => Some (take e ip ++ replicate (16 - length ip) 0 ++ drop e ip)
            end
          else if ell is Some _ then None else Some ip
      | _ => None
      end
  end.

Fixpoint has_char (c : ascii) (s : string) : bool :=
  match s with
  | EmptyString => false
  | String d s' => bool_decide (d = c) || has_char c s'
  end.

(** Dispatch of [netip.ParseAddr] on the first of [.], [:] and [%]. *)
Fixpoint addr_kind (s : string) : option ascii :=
  match s with
  | EmptyString => None
  | String c s' =>
      if decide (c = "."%char ∨ c = ":"%char ∨ c = "%"%char) then Some c else addr_kind s'
  end.

(** [net.ParseIP]: the sixteen-byte form, [None] for nil. *)
Definition ParseIP (s : string) : option IP :=
  match addr_kind s with
  | Some "."%char => (λ f, v4_in_v6_prefix ++ f) <$> parseIPv4 s
  | Some ":"%char => if has_char "%" s then None else parseIPv6 s
  | _ => None
  end.

(** [net.ParseCIDR], the network part: the masked address and the mask. *)
Definition ParseCIDR (s : string) : option IPNet :=
  match split "/" s with
  | addr :: rest =>
      match rest with
      | [] => None
      | _ =>
        let mask := join "/" rest in
        match addr_kind addr with
        | Some "."%char =>
            match parseIPv4 addr, parse_uint 31 mask with
            | Some ip, Some n =>
                if n <=? 32 then
                  let m := CIDRMask n 4 in Some (mkIPNet (apply_mask ip m) m)
                else None
            | _, _ => None
            end
        | Some ":"%char =>
            if has_char "%" addr then None else
            match parseIPv6 addr, parse_uint 31 mask with
            | Some ip, Some n =>
                if n <=? 128 then
                  let m := CIDRMask n 16 in Some (mkIPNet (apply_mask ip m) m)
                else None
            | _, _ => None
            end
        | _ => None
        end
      end
  | [] => None
  end.

(** ** Lemmas *)

(** A statement about one byte is decided by its 256 instances. *)
Lemma byte_cases (P : Z → bool) : forallb P (seqZ 0 256) = true → ∀ b, is_byte b → P b = true.
Proof.
  intros H b [Hb1 Hb2]. rewrite forallb_forall in H. apply H.
  apply list_elem_of_In, elem_of_seqZ. change (2 ^ 8) with 256 in Hb2. lia.
Qed.

Lemma uint32_put x rest : in_u 32 x → uint32_be (put_uint32_be x ++ rest) = Some x.
Proof.
  rewrite /in_u => Hx. rewrite /uint32_be /put_uint32_be /= /be32 /wrapu. f_equal.
  rewrite !Z.shiftr_div_pow2 //. change (2 ^ 32) with 4294967296 in Hx.
  change (2 ^ 24) with 16777216. change (2 ^ 16) with 65536. change (2 ^ 8) with 256.
  Z.to_euclidean_division_equations. lia.
Qed.

Lemma put_uint32_bytes x : Forall is_byte (put_uint32_be x).
Proof. repeat constructor; apply wrapu_range; done. Qed.

Lemma be32_range a b c d : Forall is_byte [a; b; c; d] → in_u 32 (be32 a b c d).
Proof.
  rewrite !Forall_cons /is_byte /in_u /be32. change (2 ^ 8) with 256.
  change (2 ^ 24) with 16777216. change (2 ^ 16) with 65536. change (2 ^ 32) with 4294967296. lia.
Qed.

(** The mask byte of [r] leading ones keeps the leading [r] bits. *)
Definition mask_byte (r : Z) : Z := Z.land 255 (Z.lnot (Z.shiftr 255 r)).

Lemma land_mask_byte r x :
  0 ≤ r ≤ 8 → is_byte x → Z.land x (mask_byte r) = x / 2 ^ (8 - r) * 2 ^ (8 - r).
Proof.
  intros Hr Hx. apply Z.eqb_eq.
  apply (byte_cases (λ x, Z.land x (mask_byte r) =? x / 2 ^ (8 - r) * 2 ^ (8 - r))); [|done].
  assert (r = 0 ∨ r = 1 ∨ r = 2 ∨ r = 3 ∨ r = 4 ∨ r = 5 ∨ r = 6 ∨ r = 7 ∨ r = 8) as Hr' by lia.
  by repeat destruct Hr' as [->|Hr']; [vm_compute..|subst r; vm_compute].
Qed.

Definition mask_bits (k : Z) (i : Z) : Z := Z.max 0 (Z.min 8 (k - 8 * i)).

Lemma CIDRMask_bytes k :
  0 ≤ k ≤ 32 →
  CIDRMask k 4 = [mask_byte (mask_bits k 0); mask_byte (mask_bits k 1);
                  mask_byte (mask_bits k 2); mask_byte (mask_bits k 3)].
Proof.
  intros Hk. rewrite /CIDRMask -!/(mask_byte _) /mask_bits.
  assert (∀ r, 8 ≤ r → Z.min 8 r = 8) by lia.
  repeat (case_match; [|]); repeat f_equal; try lia;
    match goal with |- 255 = mask_byte ?r => replace r with 8 by lia; done | _ => idtac end.
Qed.

Lemma masked_byte_eq r x y :
  0 ≤ r ≤ 8 → is_byte x → is_byte y →
  (Z.land x (mask_byte r) =? Z.land y (mask_byte r)) = (x / 2 ^ (8 - r) =? y / 2 ^ (8 - r)).
Proof.
  intros Hr Hx Hy. rewrite !land_mask_byte //. apply Bool.eq_iff_eq_true.
  rewrite !Z.eqb_eq. rewrite Z.mul_cancel_r //. lia.
Qed.

Lemma mixed_radix p x y x' y' :
  0 ≤ y < p → 0 ≤ y' < p → x * p + y = x' * p + y' ↔ x = x' ∧ y = y'.
Proof.
  intros Hy Hy'. split; [|by intros [-> ->]]. intros E.
  assert (x = x') as ->; [|lia].
  apply (f_equal (λ z, z / p)) in E. rewrite !Z.div_add_l in E; [lia..|].
  by rewrite !Z.div_small // !Z.add_0_r in E.
Qed.

(** Comparing leading bits, one trailing byte at a time. *)
Lemma prefix_step m hi lo hi' lo' :
  0 ≤ m → is_byte lo → is_byte lo' →
  (hi * 256 + lo) / 2 ^ m = (hi' * 256 + lo') / 2 ^ m ↔
  hi / 2 ^ (Z.max 0 (m - 8)) = hi' / 2 ^ (Z.max 0 (m - 8)) ∧
  lo / 2 ^ (Z.min 8 m) = lo' / 2 ^ (Z.min 8 m).
Proof.
  rewrite /is_byte /in_u. change (2 ^ 8) with 256. intros Hm Hlo Hlo'.
  destruct (Z.le_gt_cases m 8) as [Hle|Hgt].
  - assert (256 = 2 ^ (8 - m) * 2 ^ m) as E by (rewrite -Z.pow_add_r; [lia..|]; by rewrite Z.sub_add).
    assert (0 < 2 ^ m) by lia. rewrite E !Z.mul_assoc !Z.div_add_l; [lia..|].
    rewrite (Z.min_r 8 m) // (Z.max_l 0); [lia|]. rewrite !Z.div_1_r.
    apply mixed_radix; split; try (apply Z.div_pos; lia); apply Z.div_lt_upper_bound; lia.
  - replace (2 ^ m) with (256 * 2 ^ (m - 8))
      by (change 256 with (2 ^ 8); rewrite -Z.pow_add_r; [lia..|f_equal; lia]).
    rewrite -!Z.div_div; [lia..|]. rewrite !Z.div_add_l //.
    rewrite (Z.div_small lo) // (Z.div_small lo') // !Z.add_0_r.
    rewrite (Z.min_l 8 m); [lia|]. rewrite (Z.max_r 0); [lia|].
    change (2 ^ 8) with 256. rewrite (Z.div_small lo) // (Z.div_small lo') //. tauto.
Qed.

(** An IPv4 address lies in a CIDR block of prefix length [k] exactly when
    its leading [k] bits are the block's. *)
Lemma Contains_prefix k n1 n2 n3 n4 a b c d :
  0 ≤ k ≤ 32 → Forall is_byte [n1; n2; n3; n4] → Forall is_byte [a; b; c; d] →
  Contains (mkIPNet [n1; n2; n3; n4] (CIDRMask k 4)) [a; b; c; d] =
  bool_decide (be32 a b c d / 2 ^ (32 - k) = be32 n1 n2 n3 n4 / 2 ^ (32 - k)).
Proof.
  intros Hk Hn Ha. rewrite CIDRMask_bytes //.
  rewrite /Contains /networkNumberAndMask /To4 /=.
  rewrite !Forall_cons in Hn Ha. destruct_and!.
  rewrite !masked_byte_eq //; try (rewrite /mask_bits; lia).
  apply Bool.eq_iff_eq_true. rewrite !andb_true_iff !Z.eqb_eq bool_decide_eq_true.
  replace (be32 a b c d) with (((a * 256 + b) * 256 + c) * 256 + d) by (rewrite /be32; lia).
  replace (be32 n1 n2 n3 n4) with (((n1 * 256 + n2) * 256 + n3) * 256 + n4) by (rewrite /be32; lia).
  rewrite !prefix_step //; [lia..|].
  replace (Z.min 8 (32 - k)) with (8 - mask_bits k 3) by (rewrite /mask_bits; lia).
  replace (Z.min 8 (Z.max 0 (32 - k - 8))) with (8 - mask_bits k 2) by (rewrite /mask_bits; lia).
  replace (Z.min 8 (Z.max 0 (Z.max 0 (32 - k - 8) - 8))) with (8 - mask_bits k 1)
    by (rewrite /mask_bits; lia).
  replace (Z.max 0 (Z.max 0 (Z.max 0 (32 - k - 8) - 8) - 8)) with (8 - mask_bits k 0)
    by (rewrite /mask_bits; lia).
  intuition.
Qed.

(** ** Dotted decimal round trip *)
Lemma parse_octet v s fields :
  is_byte v → parseIPv4Fields (itoa v +:+ s) 0 O fields true =
              parseIPv4Fields s v (String.length (itoa v)) fields false.
Proof.
  rewrite /is_byte /in_u. change (2 ^ 8) with 256. intros Hv.
  assert (∃ j, v = Z.of_nat j ∧ (j < 256)%nat) as (j & -> & Hj) by (exists (Z.to_nat v); lia).
  do 256 (destruct j as [|j]; [reflexivity|]). lia.
Qed.

Lemma itoa_no_dot v : 0 ≤ v → addr_kind (itoa v) = None ∧ ∀ s, addr_kind (itoa v +:+ s) = addr_kind s.
Proof.
  intros Hv. assert (itoa v = dec_N (Z.to_N v)) as -> by (by destruct v).
  pose proof (dec_N_digits (Z.to_N v)) as Hd. induction (dec_N (Z.to_N v)) as [|c w IH]; [done|].
  apply andb_true_iff in Hd as [Hc Hw]. simpl.
  rewrite decide_False; [by intros [->|[->| ->]]|]. destruct (IH Hw) as [-> IH'].
  split; [done|]. intros s. rewrite ?string_app_cons /= decide_False; [by intros [->|[->| ->]]|]. done.
Qed.

(** A dot between octets, then the next octet. *)
Lemma parse_dot_octet v s val dl fields :
  is_byte v → length fields ≠ 3%nat →
  parseIPv4Fields (String "." (itoa v +:+ s)) val dl fields false =
  parseIPv4Fields s v (String.length (itoa v)) (fields ++ [val]) false.
Proof.
  intros Hv Hf. rewrite -parse_octet //.
  assert (itoa v +:+ s ≠ EmptyString) as Hne.
  { assert (itoa v = dec_N (Z.to_N v)) as -> by (by destruct Hv, v).
    destruct (dec_N_cons (Z.to_N v)) as (c & w & -> & _). by rewrite ?string_app_cons. }
  destruct (itoa v +:+ s) as [|c w]; [done|]. simpl. by rewrite decide_False.
Qed.

(** Parsing a printed IPv4 address gives its sixteen-byte form. *)
Lemma ParseIP_String4 a b c d :
  Forall is_byte [a; b; c; d] → ParseIP (IP_String [a; b; c; d]) = Some (IPv4 a b c d).
Proof.
  rewrite !Forall_cons. intros (Ha & Hb & Hc & Hd & _).
  change (IP_String [a; b; c; d]) with
    (itoa a +:+ String "." (itoa b +:+ String "." (itoa c +:+ String "." (itoa d)))).
  assert (0 ≤ a) as Hpos by apply Ha.
  rewrite /ParseIP. destruct (itoa_no_dot a Hpos) as [_ ->].
  rewrite -(string_app_nil_r (itoa d)) /parseIPv4 parse_octet // !parse_dot_octet //.
Qed.
