(* ===== verification/GoSort.v ===== *)
(** * Go's [sort] package

    [sort.Search] is the library's own halving loop, defined by well-founded
    recursion on the width of the interval and shown to find the first index
    at which a monotone predicate holds.  [sort.SliceStable] is determined by
    its contract (sorted, a permutation, equal keys in input order), so it is
    modelled by insertion sort, which is shown to meet that contract. *)

From Equations Require Import Equations.
From stdpp Require Import prelude list sorting.
From Stdlib Require Import ZArith Lia.
From Corelib Require Import ssreflect.
From S2P Require Import Prelude.

Open Scope general_if_scope.
Open Scope nat_scope.

(** ** [sort.Search(n, f)] *)
Equations? search_loop (f : nat → bool) (i j : nat) : nat by wf (j - i) lt :=
  search_loop f i j with decide (i < j) => {
    | right _ := i;
    | left _ with f ((i + j) / 2) => {
      | true := search_loop f i ((i + j) / 2);
      | false := search_loop f (S ((i + j) / 2)) j } }.
Proof.
  - assert ((i + j) / 2 < j)%nat by (apply Nat.Div0.div_lt_upper_bound; lia). lia.
  - assert (i ≤ (i + j) / 2)%nat by (apply Nat.div_le_lower_bound; lia). lia.
Qed.

Definition search (n : nat) (f : nat → bool) : nat := search_loop f 0 n.

Definition monotone_on (f : nat → bool) (n : nat) : Prop :=
  ∀ a b, a ≤ b → b < n → f a = true → f b = true.

Lemma search_loop_spec f i j n :
  monotone_on f n → j ≤ n → i ≤ j →
  (∀ k, k < i → f k = false) → (j < n → f j = true) →
  let r := search_loop f i j in
  r ≤ n ∧ (∀ k, k < r → f k = false) ∧ (r < n → f r = true).
Proof.
  intros Hmono. funelim (search_loop f i j); intros Hj Hij Hlo Hhi; rewrite -?Heqcall.
  - assert (i = j) as -> by lia. split_and!; auto; lia.
  - assert ((i + j) / 2 < j) by (apply Nat.Div0.div_lt_upper_bound; lia).
    assert (i ≤ (i + j) / 2) by (apply Nat.div_le_lower_bound; lia).
    apply H; try done; lia.
  - assert ((i + j) / 2 < j) by (apply Nat.Div0.div_lt_upper_bound; lia).
    assert (i ≤ (i + j) / 2) by (apply Nat.div_le_lower_bound; lia).
    apply H; try done; try lia. intros k Hk.
    destruct (f k) eqn:E; [|done].
    rewrite (Hmono k ((i + j) / 2)) in Heq; [lia|lia|done|done].
Qed.

(** The contract of [sort.Search]: the least index at which a monotone
    predicate holds, [n] if there is none. *)
Lemma search_spec f n :
  monotone_on f n →
  search n f ≤ n ∧ (∀ k, k < search n f → f k = false) ∧ (search n f < n → f (search n f) = true).
Proof. intros H. apply search_loop_spec; auto; lia. Qed.

(** ** [sort.SliceStable] *)
Section stable_sort.
Context {A : Type} (less : A → A → bool).

(** [x] comes before [y] in the input, so it stays before [y] unless [y] is
    strictly smaller. *)
Fixpoint insert_stable (x : A) (l : list A) : list A :=
  match l with
  | [] => [x]
  | y :: l' => if less y x then y :: insert_stable x l' else x :: l
  end.

Definition stable_sort (l : list A) : list A := foldr insert_stable [] l.

Lemma insert_stable_perm x l : insert_stable x l ≡ₚ x :: l.
Proof.
  induction l as [|y l IH]; simpl; [done|]. destruct (less y x); [|done].
  rewrite IH. apply Permutation_swap.
Qed.

Lemma stable_sort_perm l : stable_sort l ≡ₚ l.
Proof. induction l as [|x l IH]; simpl; [done|]. by rewrite insert_stable_perm IH. Qed.

Context (key : A → Z) (Hless : ∀ x y, less x y = (key x <? key y)%Z).

Lemma insert_stable_sorted x l :
  StronglySorted (λ a b, (key a ≤ key b)%Z) l →
  StronglySorted (λ a b, (key a ≤ key b)%Z) (insert_stable x l).
Proof.
  induction 1 as [|y l Hl IH Hy]; simpl; [repeat constructor|].
  rewrite Hless. destruct (Z.ltb_spec (key y) (key x)).
  - constructor; [done|]. rewrite insert_stable_perm. constructor; [lia|done].
  - constructor; [by constructor|]. constructor; [done|].
    eapply Forall_impl; [exact Hy|]. simpl. lia.
Qed.

Lemma stable_sort_sorted l : StronglySorted (λ a b, (key a ≤ key b)%Z) (stable_sort l).
Proof. induction l; simpl; [constructor|by apply insert_stable_sorted]. Qed.

(** Elements with equal keys keep their input order. *)
Lemma stable_sort_stable k l :
  filter (λ x, key x = k) (stable_sort l) = filter (λ x, key x = k) l.
Proof.
  induction l as [|x l IH]; simpl; [done|]. rewrite filter_cons -IH. clear IH.
  generalize (stable_sort l) as s. induction s as [|y s IHs]; simpl; [done|].
  rewrite Hless. destruct (Z.ltb_spec (key y) (key x)); rewrite !filter_cons; [|done].
  rewrite IHs. repeat case_decide; naive_solver lia.
Qed.
End stable_sort.

(** Sorting by any strict weak order. *)
Section ordered.
Context {A : Type} (less : A → A → bool).
Context (Hasym : ∀ x y, less x y = true → less y x = false).
Context (Htrans : ∀ x y z, less y x = false → less z y = false → less z x = false).

Lemma insert_stable_ordered x l :
  StronglySorted (λ a b, less b a = false) l → StronglySorted (λ a b, less b a = false) (insert_stable less x l).
Proof.
  induction 1 as [|y l Hl IH Hy]; simpl; [repeat constructor|]. destruct (less y x) eqn:E.
  - constructor; [exact IH|]. rewrite (insert_stable_perm less x l).
    constructor; [by apply Hasym|exact Hy].
  - constructor; [by constructor|]. constructor; [exact E|]. eapply Forall_impl; [exact Hy|].
    intros z Hz. by apply (Htrans x y z).
Qed.

Lemma stable_sort_ordered l : StronglySorted (λ a b, less b a = false) (stable_sort less l).
Proof. induction l; simpl; [constructor|by apply insert_stable_ordered]. Qed.
End ordered.
