(* ===== verification/Geo.v ===== *)
(** * The IPv4-to-country table

    [Module Gen] is [tools/geoip-gen/main.go]: parsing the registries'
    delegated-extended files, resolving conflicting claims and serialising the
    table.  [Module GeoIP] is [internal/geoip/geoip.go]: loading the embedded
    table and looking an address up by binary search.

    The theorems: the generator's output is strictly sorted and non-overlapping
    (the precondition of binary search) and assigns to every address the
    country of the first record that claims it; serialising and loading are
    inverse; and the binary search of the whole chain answers like a scan of
    the registries' records. *)

From stdpp Require Import prelude strings list sorting.
From Stdlib Require Import ZArith Lia Ascii.
From Corelib Require Import ssreflect.
From S2P Require Import Prelude GoStrings GoNet GoSort.

Open Scope general_if_scope.
Open Scope Z_scope.

(** ** The generator *)
Module Gen.

(** One allocation: an inclusive address range and a two-byte country code. *)
Record record := mkRecord { start : Z; end_ : Z; cc : Z * Z }.

#[export] Instance record_eq_dec : EqDecision record.
Proof. solve_decision. Qed.

(** *** Parsing a delegated-extended file *)

(** [bufio.Scanner] with its buffer capped at 1 MiB: lines without their
    terminator, a trailing carriage return dropped. *)
Definition maxLine : Z := 1024 * 1024.

Definition drop_cr (s : string) : string := trim_suffix1 (Z_ascii 13) s.

Definition scan_lines (body : string) : list string :=
  let ls := split (Z_ascii 10) body in
  match last ls with
  | Some EmptyString => take (length ls - 1) ls
  | _ => ls
  end.

(** One line of the file: [None] when the loop [continue]s. *)
Definition parse_line (line : string) : option record :=
  if bool_decide (line = EmptyString) || has_prefix "#" line then None else
  let fields := split "|" line in
  match fields with
  | _ :: ccs :: typ :: startStr :: countStr :: _ :: status :: _ =>
      if negb (String.eqb typ "ipv4") then None else
      if negb (String.eqb status "allocated") && negb (String.eqb status "assigned") then None else
      match ccs with
      | String c0 (String c1 EmptyString) =>
          match ParseIP startStr ≫= To4 with
          | None => None
          | Some ip =>
              match parse_uint 32 countStr with
              | None => None
              | Some count =>
                  if count =? 0 then None else
                  match uint32_be ip with
                  | None => None
                  | Some st =>
                      Some (mkRecord st (wrap_u32 (wrap_u32 (st + count) - 1))
                              (ascii_Z c0, ascii_Z c1))
                  end
              end
          end
      | _ => None
      end
  | _ => None
  end.

(** The whole file: an error when a line overflows the scanner's buffer. *)
Definition parseDelegatedExtended (body : string) : Result unit (list record) :=
  let ls := scan_lines body in
  if existsb (λ l, maxLine <=? Z.of_nat (String.length l)) ls then Err tt
  else Ok (omap parse_line (drop_cr <$> ls)).

(** *** Resolving overlaps *)

(** One iteration of the loop: the records written so far and the current run. *)
Definition resolve_step (st : list record * record) (r : record) : list record * record :=
  let '(out, cur) := st in
  let trueOverlap := start r <=? end_ cur in
  if bool_decide (cc r = cc cur) && (start r <=? wrap_u32 (end_ cur + 1)) then
    if end_ cur <? end_ r then (out, mkRecord (start cur) (end_ r) (cc cur)) else (out, cur)
  else if negb trueOverlap then (out ++ [cur], r)
  else if end_ cur <? end_ r then
    (out ++ [cur], mkRecord (wrap_u32 (end_ cur + 1)) (end_ r) (cc r))
  else (out, cur).

Definition resolveOverlapsAndMergeAdjacent (sorted : list record) : list record :=
  match sorted with
  | [] => []
  | cur :: rest => let '(out, cur) := foldl resolve_step ([], cur) rest in out ++ [cur]
  end.

(** *** Serialisation *)
Definition record_bytes (r : record) : bytes :=
  put_uint32_be (start r) ++ put_uint32_be (end_ r) ++ [(cc r).1; (cc r).2].

(** The bytes [writeTable] puts in the file. *)
Definition writeTable (records : list record) : bytes := records ≫= record_bytes.

Definition less_start (a b : record) : bool := start a <? start b.

(** [main] on the bodies of the fetched files, in the order of [sources]:
    any error aborts the run. *)
Fixpoint parse_all (bodies : list string) : Result unit (list record) :=
  match bodies with
  | [] => Ok []
  | b :: bs =>
      match parseDelegatedExtended b with
      | Err e => Err e
      | Ok recs => match parse_all bs with Err e => Err e | Ok all => Ok (recs ++ all) end
      end
  end.

Definition main (bodies : list string) : Result unit bytes :=
  match parse_all bodies with
  | Err e => Err e
  | Ok all => Ok (writeTable (resolveOverlapsAndMergeAdjacent (stable_sort less_start all)))
  end.

End Gen.

(** ** The lookup *)
Module GeoIP.

Record record := mkRecord { start : Z; end_ : Z; cc : string }.

Definition recordSize : nat := 10.

(** [data[off : off+n]], in range for every call below. *)
Definition slice (data : bytes) (off n : nat) : bytes := take n (drop off data).

Definition record_at (data : bytes) (off : nat) : record :=
  mkRecord (default 0 (uint32_be (slice data off 4)))
           (default 0 (uint32_be (slice data (off + 4) 4)))
           (foldr (λ b s, String (Z_ascii b) s) EmptyString (slice data (off + 8) 2)).

Definition parseTable (data : bytes) : list record :=
  let n := (length data / recordSize)%nat in
  (λ i, record_at data (i * recordSize)%nat) <$> seq 0 n.

(** The lookup of [CountryForIP] in a table: [table[i]] is only read in range. *)
Definition CountryForIP (table : list record) (ip : IP) : option string :=
  match To4 ip ≫= uint32_be with
  | None => None
  | Some target =>
      let i := search (length table)
                 (λ i, match table !! i with Some r => target <=? end_ r | None => false end) in
      match table !! i with
      | Some r => if start r <=? target then Some (cc r) else None
      | None => None
      end
  end.

End GeoIP.

(** ** Correctness of the generator *)
Module GenProofs.
Import Gen.

(** Address [x] lies in the range of [r]. *)
Definition claims (x : Z) (r : record) : bool := (start r <=? x) && (x <=? end_ r).

(** The country a list of records assigns to [x]: the first record that
    claims it decides. *)
Definition first_claim (x : Z) (l : list record) : option (Z * Z) := cc <$> List.find (claims x) l.

(** A record of 32-bit addresses with a non-empty range. *)
Definition rec_ok (r : record) : Prop := in_u 32 (start r) ∧ in_u 32 (end_ r) ∧ start r ≤ end_ r.
Definition rec_okb (r : record) : bool :=
  (0 <=? start r) && (start r <=? end_ r) && (end_ r <? 2 ^ 32).

(** Strictly sorted, non-overlapping, every range non-empty. *)
Definition table_ok (l : list record) : Prop :=
  StronglySorted (λ a b, end_ a < start b) l ∧ Forall rec_ok l.

Lemma claims_spec x r : claims x r = true ↔ start r ≤ x ≤ end_ r.
Proof. rewrite /claims andb_true_iff !Z.leb_le //. Qed.

Lemma first_claim_app x l1 l2 :
  first_claim x (l1 ++ l2) = match first_claim x l1 with Some c => Some c | None => first_claim x l2 end.
Proof. rewrite /first_claim. induction l1 as [|r l1 IH]; simpl; [done|]. by destruct (claims x r). Qed.

Lemma first_claim_one x r : first_claim x [r] = if claims x r then Some (cc r) else None.
Proof. rewrite /first_claim /=. by destruct (claims x r). Qed.

Lemma first_claim_None x l : first_claim x l = None ↔ ∀ r, r ∈ l → ¬ (start r ≤ x ≤ end_ r).
Proof.
  induction l as [|r l IH]; rewrite /first_claim /=.
  - split; [|done]. intros _ r []%elem_of_nil.
  - destruct (claims x r) eqn:E; simpl.
    + split; [done|]. intros H. destruct (H r); [by left|]. by apply claims_spec.
    + rewrite -/(first_claim x l) IH. split.
      * intros H r' [->|Hr]%elem_of_cons; [|by apply H]. rewrite -claims_spec E. done.
      * intros H r' Hr. apply H. by right.
Qed.

Lemma table_ok_snoc l r :
  table_ok (l ++ [r]) ↔ table_ok l ∧ rec_ok r ∧ Forall (λ a, end_ a < start r) l.
Proof.
  rewrite /table_ok Forall_app Forall_singleton StronglySorted_app.
  rewrite (Forall_forall (λ a, end_ a < start r)).
  split; [intros ((H & ? & _) & ? & ?)|intros ((?&?)&?&?)]; split_and!; try done.
  - intros a Ha. apply H; [done|]. by apply list_elem_of_singleton.
  - intros a b Ha ->%list_elem_of_singleton. auto.
  - repeat constructor.
Qed.

(** The loop invariant: after processing the records [p], the output
    with the current run is a well-formed table that answers like [p], and
    the current run ends where some processed record ends, past all others. *)
Record resolved (p out : list record) (cur : record) : Prop := {
  resolved_ok : table_ok (out ++ [cur]);
  resolved_answers : ∀ x, first_claim x (out ++ [cur]) = first_claim x p;
  resolved_max : ∀ r, r ∈ p → end_ r ≤ end_ cur;
  resolved_last : ∃ r, r ∈ p ∧ end_ r = end_ cur;
}.

(** An unclaimed address the next record claims lies past the current run. *)
Lemma resolved_fresh p out cur r x :
  resolved p out cur → (∀ q, q ∈ p → start q ≤ start r) →
  first_claim x p = None → start r ≤ x → end_ cur < x.
Proof.
  intros [_ _ _ (q & Hq & Hend)] Hs Hnone Hx.
  destruct (Z.le_gt_cases x (end_ cur)) as [Hle|]; [|done].
  rewrite first_claim_None in Hnone. specialize (Hs q Hq). destruct (Hnone q Hq). lia.
Qed.

(** Dropping a record that ends within the current run changes no answer. *)
Lemma resolved_drop p out cur r :
  resolved p out cur → (∀ q, q ∈ p → start q ≤ start r) → end_ r ≤ end_ cur →
  resolved (p ++ [r]) out cur.
Proof.
  intros H Hs Hle. pose proof H as [Hok Hans Hmax (q & Hq & Hqe)]. split; [done|..].
  - intros x. rewrite Hans first_claim_app first_claim_one.
    destruct (first_claim x p) eqn:E; [done|]. destruct (claims x r) eqn:C; [|done].
    apply claims_spec in C. pose proof (resolved_fresh p out cur r x H Hs E). lia.
  - intros r' [?| ->%list_elem_of_singleton]%elem_of_app; auto.
  - exists q. split; [|done]. apply elem_of_app. by left.
Qed.

(** Starting a new run [cur'] past the current one, that covers what [r]
    adds. *)
Lemma resolved_push p out cur r cur' :
  resolved p out cur → (∀ q, q ∈ p → start q ≤ start r) → rec_ok cur' →
  end_ cur < start cur' → end_ cur' = end_ r → cc cur' = cc r → start r ≤ start cur' →
  (start cur' = start r ∨ start cur' = end_ cur + 1) → end_ cur < end_ r →
  resolved (p ++ [r]) (out ++ [cur]) cur'.
Proof.
  intros H Hs Hok' Hlt He Hc Hst Hcase Hgt. pose proof H as [Hok Hans Hmax _]. split.
  - apply table_ok_snoc. split_and!; [done..|]. apply Forall_app. split; [|by apply Forall_singleton].
    apply table_ok_snoc in Hok as ((_ & Ho) & Hc0 & Hall).
    eapply Forall_impl; [exact Hall|]. simpl. intros a Ha. destruct Hc0 as (_ & _ & ?). lia.
  - intros x. rewrite !(first_claim_app x _ [_]) -first_claim_app Hans !first_claim_one.
    destruct (first_claim x p) eqn:E; [done|]. rewrite -Hc.
    assert (claims x cur' = claims x r) as ->; [|done]. apply Bool.eq_iff_eq_true.
    rewrite !claims_spec He. split; [lia|]. intros [??].
    pose proof (resolved_fresh p out cur r x H Hs E). lia.
  - intros r' [?%Hmax| ->%list_elem_of_singleton]%elem_of_app; lia.
  - exists r. split; [|done]. apply elem_of_app. right. by apply list_elem_of_singleton.
Qed.

(** Extending the current run by a record of the same country that touches
    or overlaps it. *)
Lemma resolved_extend p out cur r :
  resolved p out cur → (∀ q, q ∈ p → start q ≤ start r) → rec_ok r →
  cc r = cc cur → start r ≤ end_ cur + 1 → end_ cur < end_ r →
  resolved (p ++ [r]) out (mkRecord (start cur) (end_ r) (cc cur)).
Proof.
  intros H Hs (Hr1 & Hr2 & Hr3) Hc Hst Hgt. pose proof H as [Hok Hans Hmax _].
  pose proof Hok as (Ho & (Hcur1 & Hcur2 & Hcur3) & Hall)%table_ok_snoc. split.
  - apply table_ok_snoc. split_and!; [done| |done]. split_and!; simpl; [done..|lia].
  - intros x. rewrite !first_claim_app !first_claim_one -Hans first_claim_app first_claim_one.
    assert (first_claim x out = None → claims x cur = false → start r ≤ x → end_ cur < x) as Hf.
    { intros E1 E2. apply (resolved_fresh p out cur r x H Hs).
      by rewrite -Hans first_claim_app first_claim_one E1 E2. }
    destruct (first_claim x out) eqn:E; [done|]. simpl. rewrite Hc. clear -Hf Hst Hgt Hcur3 Hr3.
    rewrite /claims /= in Hf |- *.
    repeat case_match; rewrite -> ?andb_true_iff, ?andb_false_iff, ?Z.leb_le, ?Z.leb_gt in *;
      done || lia || naive_solver lia.
  - intros r' [?%Hmax| ->%list_elem_of_singleton]%elem_of_app; simpl; lia.
  - exists r. split; [|done]. apply elem_of_app. right. by apply list_elem_of_singleton.
Qed.

Lemma resolve_step_resolved p out cur r :
  resolved p out cur → (∀ q, q ∈ p → start q ≤ start r) → rec_ok r →
  resolved (p ++ [r]) (resolve_step (out, cur) r).1 (resolve_step (out, cur) r).2.
Proof.
  intros H Hs Hr. pose proof Hr as (Hr1 & Hr2 & Hr3).
  pose proof (resolved_ok _ _ _ H) as (_ & (Hc1 & Hc2 & Hc3) & _)%table_ok_snoc.
  unfold in_u in *. simpl.
  assert (end_ cur < end_ r → wrap_u32 (end_ cur + 1) = end_ cur + 1) as Hw.
  { intros ?. apply wrapu_small. unfold in_u. lia. }
  assert (wrap_u32 (end_ cur + 1) ≤ end_ cur + 1) as Hle by (apply Z.mod_le; lia).
  destruct (bool_decide_reflect (cc r = cc cur)) as [Hcc|Hcc];
    destruct (Z.leb_spec (start r) (wrap_u32 (end_ cur + 1)));
    destruct (Z.ltb_spec (end_ cur) (end_ r)); simpl;
    destruct (Z.leb_spec (start r) (end_ cur)); simpl;
    (apply resolved_extend; done || lia) ||
    (apply resolved_drop; done || lia) ||
    (apply resolved_push; simpl; rewrite ?Hw //; try lia; auto) || idtac.
  all: split_and!; unfold in_u; simpl; lia.
Qed.

Lemma resolve_loop_resolved rest p out cur :
  resolved p out cur → StronglySorted (λ a b, start a ≤ start b) (p ++ rest) → Forall rec_ok rest →
  let '(out', cur') := foldl resolve_step (out, cur) rest in resolved (p ++ rest) out' cur'.
Proof.
  revert p out cur. induction rest as [|r rest IH]; intros p out cur H Hs Hok; cbn [foldl].
  - by rewrite app_nil_r.
  - apply Forall_cons in Hok as [Hr Hok].
    assert (∀ q, q ∈ p → start q ≤ start r) as Hq.
    { intros q Hq. eapply StronglySorted_app_1_elem_of in Hs; [exact Hs|done|]. by left. }
    pose proof (resolve_step_resolved p out cur r H Hq Hr) as Hstep.
    destruct (resolve_step (out, cur) r) as [out' cur'].
    rewrite cons_middle app_assoc in Hs |- *. by apply IH.
Qed.

Lemma resolve_resolves l :
  StronglySorted (λ a b, start a ≤ start b) l → Forall rec_ok l →
  table_ok (resolveOverlapsAndMergeAdjacent l) ∧
  ∀ x, first_claim x (resolveOverlapsAndMergeAdjacent l) = first_claim x l.
Proof.
  intros Hs Hok. destruct l as [|cur rest]; [by split; [split; constructor|]|]. simpl.
  apply Forall_cons in Hok as [Hcur Hrest].
  assert (resolved [cur] [] cur) as H0.
  { split; simpl; [|done| |].
    - apply (table_ok_snoc []). split; [|by split]. split; [apply SSorted_nil|done].
    - intros r ->%list_elem_of_singleton. lia.
    - exists cur. split; [by left|done]. }
  pose proof (resolve_loop_resolved rest [cur] [] cur H0 Hs Hrest) as H.
  destruct (foldl _ _ _) as [out' cur']. by destruct H.
Qed.

(** The claim every registry row makes, in the order the generator ranks
    them: by start address, ties by source order. *)
Definition ranked (all : list record) : list record := stable_sort less_start all.

Lemma ranked_sorted all : StronglySorted (λ a b, start a ≤ start b) (ranked all).
Proof. by apply (stable_sort_sorted less_start start). Qed.

Lemma ranked_ok all : Forall rec_ok all → Forall rec_ok (ranked all).
Proof. rewrite /ranked stable_sort_perm //. Qed.
End GenProofs.

(** ** Correctness of the lookup *)
Module GeoIPProofs.
Import GeoIP.

Definition geo_claims (x : Z) (r : record) : bool := (start r <=? x) && (x <=? end_ r).

(** What a scan of the table answers. *)
Definition scan (table : list record) (x : Z) : option string :=
  cc <$> List.find (geo_claims x) table.

(** What binary search needs: strictly sorted, non-overlapping ranges. *)
Definition searchable (table : list record) : Prop :=
  StronglySorted (λ a b, end_ a < start b) table ∧ Forall (λ r, start r ≤ end_ r) table.

Lemma searchable_lookup table i j a b :
  searchable table → table !! i = Some a → table !! j = Some b → (i < j)%nat → end_ a < start b.
Proof.
  intros [Hs _] Hi Hj Hlt. apply list_elem_of_split_length in Hi as (l1 & l2 & -> & ->).
  rewrite cons_middle app_assoc in Hs. eapply StronglySorted_app_1_elem_of in Hs; [exact Hs|..].
  - apply elem_of_app. right. by apply list_elem_of_singleton.
  - rewrite cons_middle app_assoc lookup_app_r in Hj; [rewrite length_app /=; lia|].
    by apply list_elem_of_lookup_2 in Hj.
Qed.

Lemma searchable_order table i a : searchable table → table !! i = Some a → start a ≤ end_ a.
Proof. intros [_ H] Hi. exact (Forall_lookup_1 _ _ _ _ H Hi). Qed.

(** Scanning finds the record at [i] when it claims and no earlier one does. *)
Lemma scan_first table i r x :
  table !! i = Some r → geo_claims x r = true →
  (∀ k q, (k < i)%nat → table !! k = Some q → geo_claims x q = false) →
  scan table x = Some (cc r).
Proof.
  rewrite /scan. revert i. induction table as [|q table IH]; intros i Hi Hc Hb; [done|].
  destruct i as [|i]; simpl in *; [by simplify_eq; rewrite Hc|].
  rewrite (Hb O q) //; [lia|]. apply (IH i Hi Hc).
  intros k q' Hk Hq. apply (Hb (S k) q'); [lia|done].
Qed.

Lemma scan_none table x :
  (∀ k q, table !! k = Some q → geo_claims x q = false) → scan table x = None.
Proof.
  rewrite /scan. induction table as [|q table IH]; intros H; [done|]. simpl.
  rewrite (H O q) //. apply IH. intros k. apply (H (S k)).
Qed.

(** On a sorted table the binary search answers like a scan. *)
Lemma CountryForIP_scan table ip :
  searchable table →
  CountryForIP table ip =
  match To4 ip ≫= uint32_be with Some x => scan table x | None => None end.
Proof.
  intros Hok. rewrite /CountryForIP. destruct (To4 ip ≫= uint32_be) as [x|]; [|done].
  set f := (λ i, match table !! i with Some r => x <=? end_ r | None => false end).
  destruct (search_spec f (length table)) as (Hle & Hlt & Hge).
  { intros a b Hab Hb. rewrite /f. destruct (table !! a) as [ra|] eqn:Ea; [|done].
    destruct (lookup_lt_is_Some_2 table b Hb) as [rb Eb]. rewrite Eb !Z.leb_le. intros ?.
    destruct (decide (a = b)) as [->|]; [by simplify_eq|].
    pose proof (searchable_lookup table a b ra rb Hok Ea Eb ltac:(lia)).
    pose proof (searchable_order table b rb Hok Eb). lia. }
  set i := search _ f in Hle, Hlt, Hge |- *.
  assert (∀ k q, (k < i)%nat → table !! k = Some q → end_ q < x) as Hbefore.
  { intros k q Hk Hq. specialize (Hlt k Hk). rewrite /f Hq in Hlt. lia. }
  destruct (table !! i) as [r|] eqn:Ei.
  - assert (x ≤ end_ r) as Hend.
    { apply lookup_lt_Some in Ei as Hi. specialize (Hge Hi). rewrite /f Ei in Hge. lia. }
    destruct (Z.leb_spec (start r) x) as [Hs|Hs].
    + symmetry. apply (scan_first table i r x Ei).
      * rewrite /geo_claims. lia.
      * intros k q Hk Hq. specialize (Hbefore k q Hk Hq). rewrite /geo_claims. lia.
    + symmetry. apply scan_none. intros k q Hq. rewrite /geo_claims.
      destruct (lt_eq_lt_dec k i) as [[Hk| ->]|Hk]; [|simplify_eq; lia|].
      * specialize (Hbefore k q Hk Hq). lia.
      * pose proof (searchable_lookup table i k r q Hok Ei Hq Hk). lia.
  - symmetry. apply scan_none. intros k q Hq. apply lookup_ge_None in Ei.
    apply lookup_lt_Some in Hq as Hk. specialize (Hbefore k q ltac:(lia) Hq).
    rewrite /geo_claims. lia.
Qed.

(** *** Serialisation *)
Definition cc_string (c : Z * Z) : string :=
  String (Z_ascii c.1) (String (Z_ascii c.2) EmptyString).
Definition to_geo (r : Gen.record) : record :=
  mkRecord (Gen.start r) (Gen.end_ r) (cc_string (Gen.cc r)).

Lemma length_record_bytes r : length (Gen.record_bytes r) = recordSize.
Proof. done. Qed.

Lemma length_writeTable rs : length (Gen.writeTable rs) = (length rs * recordSize)%nat.
Proof.
  induction rs as [|r rs IH]; [done|]. rewrite /Gen.writeTable bind_cons length_app.
  rewrite -/(Gen.writeTable rs) IH length_record_bytes /=. lia.
Qed.

Lemma record_at_app a b off : record_at (a ++ b) (length a + off) = record_at b off.
Proof.
  rewrite /record_at /slice.
  by rewrite -!Nat.add_assoc !drop_app_add.
Qed.

Definition bytes_ok (r : Gen.record) : Prop :=
  in_u 32 (Gen.start r) ∧ in_u 32 (Gen.end_ r).

Lemma record_at_head r data :
  bytes_ok r → record_at (Gen.record_bytes r ++ data) 0 = to_geo r.
Proof.
  intros [Hs He]. rewrite /record_at /to_geo. f_equal.
  - change (slice _ 0 4) with (put_uint32_be (Gen.start r) ++ []). by rewrite uint32_put.
  - change (slice _ (0 + 4) 4) with (put_uint32_be (Gen.end_ r) ++ []). by rewrite uint32_put.
Qed.

(** Loading what the generator wrote gives back its records. *)
Lemma parseTable_writeTable_ok rs :
  Forall bytes_ok rs → parseTable (Gen.writeTable rs) = to_geo <$> rs.
Proof.
  intros Hrs. rewrite /parseTable length_writeTable Nat.div_mul; [done|].
  induction Hrs as [|r rs Hr Hrs IH]; [done|]. cbn [length seq fmap list_fmap].
  rewrite /Gen.writeTable bind_cons -/(Gen.writeTable rs). f_equal; [by apply record_at_head|].
  rewrite -IH -fmap_S_seq -list_fmap_compose. apply list_fmap_ext. intros _ i _. simpl.
  rewrite -(record_at_app (Gen.record_bytes r)). done.
Qed.

Lemma scan_to_geo l x : scan (to_geo <$> l) x = cc_string <$> GenProofs.first_claim x l.
Proof.
  rewrite /scan /GenProofs.first_claim. induction l as [|r l IH]; [done|]. simpl.
  change (geo_claims x (to_geo r)) with (GenProofs.claims x r).
  by destruct (GenProofs.claims x r).
Qed.

Lemma searchable_to_geo l : GenProofs.table_ok l → searchable (to_geo <$> l).
Proof.
  intros [Hs Hok]. split.
  - induction Hs as [|r l Hs IH Hr]; [apply SSorted_nil|].
    apply Forall_cons in Hok as [_ Hok]. rewrite fmap_cons.
    constructor; [by apply IH|]. by rewrite Forall_fmap.
  - rewrite Forall_fmap. eapply Forall_impl; [exact Hok|]. by intros r (_ & _ & ?).
Qed.

(** The embedded table of a generator run, loaded and searched. *)
Lemma table_lookup l a b c d :
  GenProofs.table_ok l →
  CountryForIP (parseTable (Gen.writeTable l)) [a; b; c; d] =
  cc_string <$> GenProofs.first_claim (be32 a b c d) l.
Proof.
  intros Hl. rewrite parseTable_writeTable_ok.
  { destruct Hl as [_ Hok]. eapply Forall_impl; [exact Hok|]. by intros r (? & ? & _). }
  rewrite CountryForIP_scan; [by apply searchable_to_geo|]. by rewrite /To4 /= scan_to_geo.
Qed.
End GeoIPProofs.

(** ** Properties *)
Module GeoProperties.
Import GenProofs GeoIPProofs.

(** C7: the generator's overlap resolution turns any list of well-formed
    allocations sorted by start into a strictly sorted, non-overlapping table
    (what binary search needs), and that table assigns to every address the
    country of the first listed allocation that contains it: earlier claims
    win, nothing is invented and no claimed address is lost, also where
    [cur.end+1] wraps at the top of the address space. *)
Theorem resolve_correct (l : list Gen.record) :
  StronglySorted (λ a b, Gen.start a ≤ Gen.start b) l → Forall rec_ok l →
  table_ok (Gen.resolveOverlapsAndMergeAdjacent l) ∧
  ∀ x, first_claim x (Gen.resolveOverlapsAndMergeAdjacent l) = first_claim x l.
Proof. apply resolve_resolves. Qed.

Definition example_claims : list Gen.record :=
  [ Gen.mkRecord 10 20 (70, 82); Gen.mkRecord 15 30 (85, 83); Gen.mkRecord 31 4294967295 (85, 83);
    Gen.mkRecord 4294967295 4294967295 (85, 83) ].

Lemma resolve_correct_witness :
  Gen.resolveOverlapsAndMergeAdjacent example_claims =
    [Gen.mkRecord 10 20 (70, 82); Gen.mkRecord 21 4294967295 (85, 83)] ∧
  table_ok (Gen.resolveOverlapsAndMergeAdjacent example_claims).
Proof.
  split; [vm_compute; reflexivity|].
  apply (resolve_correct example_claims).
  - repeat (constructor; [|repeat (constructor; [simpl; lia|])]); constructor.
  - repeat (constructor; [unfold rec_ok, in_u; simpl; lia|]); constructor.
Defined.

(** C32: loading the bytes the generator wrote gives back its records, each
    with its range and country code, for all 32-bit ranges. *)
Theorem parseTable_writeTable (rs : list Gen.record) :
  Forall bytes_ok rs → GeoIP.parseTable (Gen.writeTable rs) = to_geo <$> rs.
Proof. apply parseTable_writeTable_ok. Qed.

Lemma parseTable_writeTable_witness :
  GeoIP.parseTable (Gen.writeTable example_claims) = to_geo <$> example_claims.
Proof.
  apply (parseTable_writeTable example_claims).
  repeat (constructor; [unfold bytes_ok, in_u; simpl; lia|]); constructor.
Defined.

(** C17: end to end, from the registries' files to a lookup: when the files
    parse to well-formed allocations, the generator succeeds, and looking an
    IPv4 address up in the table it wrote gives the country of the first
    allocation containing the address, in order of start address and then of
    source; no allocation gives no answer. *)
Theorem country_for_ip_first_claim (bodies : list string) (all : list Gen.record) a b c d :
  Gen.parse_all bodies = Ok all → Forall rec_ok all →
  ∃ data, Gen.main bodies = Ok data ∧
    GeoIP.CountryForIP (GeoIP.parseTable data) [a; b; c; d] =
    cc_string <$> first_claim (be32 a b c d) (ranked all).
Proof.
  intros Hp Hok. rewrite /Gen.main Hp. eexists; split; [done|].
  destruct (resolve_resolves (ranked all)) as [Ht Hans]; [apply ranked_sorted|by apply ranked_ok|].
  by rewrite table_lookup // Hans.
Qed.

Definition example_bodies : list string :=
  [ "ripencc|FR|ipv4|2.0.0.0|256|20100712|allocated"; "arin|US|ipv4|2.0.0.128|512|20100712|assigned" ].

Lemma country_for_ip_first_claim_witness :
  ∃ data, Gen.main example_bodies = Ok data ∧
    GeoIP.CountryForIP (GeoIP.parseTable data) [2; 0; 1; 5] = Some "US"%string.
Proof.
  destruct (country_for_ip_first_claim example_bodies
    [Gen.mkRecord 33554432 33554687 (70, 82); Gen.mkRecord 33554560 33555071 (85, 83)] 2 0 1 5)
    as (data & Hm & Hc).
  - vm_compute; reflexivity.
  - repeat (constructor; [unfold rec_ok, in_u; simpl; lia|]); constructor.
  - exists data. split; [exact Hm|]. rewrite Hc. vm_compute; reflexivity.
Defined.
End GeoProperties.
