(* ===== verification/Bpf.v ===== *)
(** * The capture filter ([internal/capture/bpf.go])

    The filter is a constant BPF program.  The machine that runs it (the
    kernel's, or [golang.org/x/net/bpf]'s) is not part of the program: it is a
    class [BpfMachine] whose laws are the documented behaviour of the four
    instructions used.  For every machine obeying them, the filter accepts
    exactly the untagged and singly tagged IPv4 Ethernet frames. *)

From stdpp Require Import prelude list.
From Stdlib Require Import ZArith Lia.
From Corelib Require Import ssreflect.
From S2P Require Import Prelude GoNet.

Open Scope general_if_scope.
Open Scope Z_scope.

Inductive JumpTest := JumpEqual | JumpNotEqual.

(** The instructions of [golang.org/x/net/bpf] the program uses. *)
Inductive Instruction :=
  | LoadAbsolute (Off : nat) (Size : nat)
  | JumpIf (Cond : JumpTest) (Val : Z) (SkipTrue : nat)
  | RetConstant (Val : Z).

Definition snapLen : Z := 262144.
Definition etherTypeOff : nat := 12.
Definition etherTypeIP4 : Z := 2048.
Definition etherTypeVLAN : Z := 33024.
Definition vlanInnerEtherTypeOff : nat := 16.

(** The program of [CompileIPv4Filter], before assembly. *)
Definition IPv4Filter : list Instruction :=
  [ LoadAbsolute etherTypeOff 2;
    JumpIf JumpEqual etherTypeIP4 4;
    JumpIf JumpNotEqual etherTypeVLAN 2;
    LoadAbsolute vlanInnerEtherTypeOff 2;
    JumpIf JumpEqual etherTypeIP4 1;
    RetConstant 0;
    RetConstant snapLen ].

(** The two-byte big-endian field at an offset, when the frame holds it. *)
Definition load16 (frame : bytes) (off : nat) : option Z :=
  match frame !! off, frame !! S off with
  | Some a, Some b => Some (a * 256 + b)
  | _, _ => None
  end.

Definition jump_taken (c : JumpTest) (acc v : Z) : bool :=
  match c with JumpEqual => acc =? v | JumpNotEqual => negb (acc =? v) end.

(** A machine: the verdict from a program counter and accumulator. *)
Class BpfMachine := {
  bpf_run : list Instruction → bytes → nat → Z → Z;
  (** a half-word load continues with the value, or rejects when out of the
      packet's bounds *)
  bpf_load prog frame pc acc off :
    prog !! pc = Some (LoadAbsolute off 2) →
    bpf_run prog frame pc acc =
    match load16 frame off with Some v => bpf_run prog frame (S pc) v | None => 0 end;
  (** a conditional jump skips instructions when the test holds *)
  bpf_jump prog frame pc acc c v k :
    prog !! pc = Some (JumpIf c v k) →
    bpf_run prog frame pc acc =
    bpf_run prog frame (if jump_taken c acc v then S (pc + k) else S pc) acc;
  (** a return gives its constant *)
  bpf_ret prog frame pc acc v :
    prog !! pc = Some (RetConstant v) → bpf_run prog frame pc acc = v
}.

(** A reference interpreter, which meets the laws on forward-only programs:
    the fuel is the program's length, since every step moves forward. *)
Fixpoint interp (fuel : nat) (prog : list Instruction) (frame : bytes) (pc : nat) (acc : Z) : Z :=
  match fuel with
  | O => 0
  | S f =>
      match prog !! pc with
      | Some (LoadAbsolute off 2) =>
          match load16 frame off with Some v => interp f prog frame (S pc) v | None => 0 end
      | Some (LoadAbsolute _ _) => 0
      | Some (JumpIf c v k) =>
          interp f prog frame (if jump_taken c acc v then S (pc + k) else S pc) acc
      | Some (RetConstant v) => v
      | None => 0
      end
  end.

Definition machine_run (prog : list Instruction) (frame : bytes) (pc : nat) (acc : Z) : Z :=
  interp (S (length prog) - pc) prog frame pc acc.

Lemma interp_fuel prog frame : ∀ f1 f2 pc acc,
  (length prog < f1 + pc)%nat → (length prog < f2 + pc)%nat →
  interp f1 prog frame pc acc = interp f2 prog frame pc acc.
Proof.
  induction f1 as [|f1 IH]; intros [|f2] pc acc H1 H2; simpl.
  - done.
  - by rewrite lookup_ge_None_2; [lia|].
  - by rewrite lookup_ge_None_2; [lia|].
  - destruct (prog !! pc) as [[off [|[|[|]]]|c v k|v]|]; try done.
    + destruct (load16 frame off); [|done]. apply IH; lia.
    + apply IH; destruct (jump_taken c acc v); lia.
Qed.

#[export] Program Instance reference_machine : BpfMachine := {| bpf_run := machine_run |}.
Next Obligation.
  intros prog frame pc acc off H. apply lookup_lt_Some in H as Hlt. rewrite /machine_run.
  rewrite -> (Nat.sub_succ_l pc) by lia. cbn [interp]. rewrite H.
  destruct (load16 frame off); [|done]. apply interp_fuel; lia.
Qed.
Next Obligation.
  intros prog frame pc acc c v k H. apply lookup_lt_Some in H as Hlt. rewrite /machine_run.
  rewrite -> (Nat.sub_succ_l pc) by lia. cbn [interp]. rewrite H.
  apply interp_fuel; destruct (jump_taken c acc v); lia.
Qed.
Next Obligation.
  intros prog frame pc acc v H. apply lookup_lt_Some in H as Hlt. rewrite /machine_run.
  rewrite -> (Nat.sub_succ_l pc) by lia. cbn [interp]. by rewrite H.
Qed.

(** What the filter is meant to accept. *)
Definition is_ipv4_frame (frame : bytes) : bool :=
  bool_decide (load16 frame etherTypeOff = Some etherTypeIP4).
Definition is_tagged_ipv4_frame (frame : bytes) : bool :=
  bool_decide (load16 frame etherTypeOff = Some etherTypeVLAN) &&
  bool_decide (load16 frame vlanInnerEtherTypeOff = Some etherTypeIP4).

Module BpfProperties.

(** C33: on every machine obeying the documented instruction semantics, the
    filter keeps [snapLen] bytes of a frame whose EtherType is IPv4, or is
    802.1Q with an inner EtherType of IPv4, and rejects every other frame:
    shorter ones, other protocols and doubly tagged ones. *)
Theorem filter_accepts_ipv4 `{BpfMachine} (frame : bytes) :
  bpf_run IPv4Filter frame 0 0 =
  if is_ipv4_frame frame || is_tagged_ipv4_frame frame then snapLen else 0.
Proof.
  rewrite /is_tagged_ipv4_frame /is_ipv4_frame.
  rewrite (bpf_load _ _ _ _ etherTypeOff) //.
  destruct (load16 frame etherTypeOff) as [v|]; [|done].
  rewrite (bpf_jump _ _ _ _ JumpEqual etherTypeIP4 4) //=.
  destruct (Z.eqb_spec v etherTypeIP4) as [->|Hne].
  { rewrite bool_decide_eq_true_2 //=. by rewrite (bpf_ret _ _ _ _ snapLen). }
  rewrite (bool_decide_eq_false_2 (Some v = Some etherTypeIP4)); [congruence|].
  rewrite (bpf_jump _ _ _ _ JumpNotEqual etherTypeVLAN 2) //=.
  destruct (Z.eqb_spec v etherTypeVLAN) as [->|Hne']; simpl.
  - rewrite (bpf_load _ _ _ _ vlanInnerEtherTypeOff) //.
    destruct (load16 frame vlanInnerEtherTypeOff) as [w|]; [|done].
    rewrite (bpf_jump _ _ _ _ JumpEqual etherTypeIP4 1) //=.
    destruct (Z.eqb_spec w etherTypeIP4) as [->|Hw].
    + rewrite bool_decide_eq_true_2 //. by rewrite (bpf_ret _ _ _ _ snapLen).
    + rewrite bool_decide_eq_false_2; [congruence|]. by rewrite (bpf_ret _ _ _ _ 0).
  - rewrite (bool_decide_eq_false_2 (Some v = Some etherTypeVLAN)) /=; [congruence|].
    by rewrite (bpf_ret _ _ _ _ 0).
Qed.

(** A VLAN-tagged IPv4 frame, and an ARP frame. *)
Lemma filter_accepts_ipv4_witness :
  bpf_run (BpfMachine := reference_machine) IPv4Filter
    (replicate 12 0 ++ [129; 0; 0; 10; 8; 0; 69]) 0 0 = snapLen ∧
  bpf_run (BpfMachine := reference_machine) IPv4Filter (replicate 12 0 ++ [8; 6; 0; 1]) 0 0 = 0.
Proof.
  split.
  - rewrite (@filter_accepts_ipv4 reference_machine). vm_compute. reflexivity.
  - rewrite (@filter_accepts_ipv4 reference_machine). vm_compute. reflexivity.
Defined.

End BpfProperties.
