(* ===== verification/GoTime.v ===== *)
(** * Go's [time] package

    A [time.Time] is its distance from the Unix epoch in nanoseconds (a [Z]);
    a [time.Duration] is a 64-bit count of nanoseconds, so arithmetic on it
    wraps.  [Truncate] rounds down relative to the zero time (January 1, year 1
    UTC); for durations dividing a day this is rounding down of the Unix time. *)

From stdpp Require Import prelude.
From Stdlib Require Import ZArith Lia.
From Corelib Require Import ssreflect.
From S2P Require Import Prelude.

Open Scope general_if_scope.
Open Scope Z_scope.

Definition Time := Z.
Definition Duration := Z.

Definition Nanosecond : Duration := 1.
Definition Second : Duration := 1000000000.
Definition Minute : Duration := 60 * Second.
Definition Hour : Duration := 60 * Minute.

(** The zero value of [time.Time], in nanoseconds since the epoch. *)
Definition zeroTime : Time := - 62135596800 * Second.
Definition IsZero (t : Time) : bool := t =? zeroTime.

(** [t.Unix()]: whole seconds, rounded down. *)
Definition Unix (t : Time) : Z := t / Second.

(** [t.Add(d)]. *)
Definition Add (t : Time) (d : Duration) : Time := t + d.

(** [t.Truncate(d)] for a positive [d]. *)
Definition Truncate (t : Time) (d : Duration) : Time := t - (t - zeroTime) mod d.

(** Duration arithmetic at 64 bits. *)
Definition dmul (a b : Z) : Duration := wrap_i64 (a * b).

(** [int64(d.Seconds())] for a whole number of seconds. *)
Definition seconds (d : Duration) : Z := d / Second.

(** Rounding the clock down to a bucket of [w] seconds that divides a day
    gives the bucket of the Unix time. *)
Lemma Unix_Truncate t w :
  0 < w → (w | 86400) → Unix (Truncate t (w * Second)) = Unix t / w * w.
Proof.
  intros Hw [k Hk]. rewrite /Unix /Truncate /zeroTime.
  assert ((t - -62135596800 * Second) mod (w * Second) = t mod (w * Second)) as ->.
  { replace (t - -62135596800 * Second) with (t + (719162 * k) * (w * Second)) by (unfold Second; lia).
    apply Z_mod_plus_full. }
  assert (0 < Second) as HS by done.
  rewrite -> (Z.mod_eq t (w * Second)) by lia.
  replace (t - (t - w * Second * (t / (w * Second)))) with ((w * (t / (w * Second))) * Second) by lia.
  rewrite Z.div_mul // (Z.mul_comm w Second) -Z.div_div //. lia.
Qed.

Lemma Unix_Add_seconds t s : Unix (Add t (s * Second)) = Unix t + s.
Proof. rewrite /Unix /Add Z.div_add //. Qed.
