(* ===== verification/Store.v ===== *)
(** * The database ([internal/store])

    The state is the tables of [schema.sql]; a table with an [AUTOINCREMENT]
    id is the list of its rows in insertion order with its sequence, a table
    with a natural primary key is a map.  A statement either takes effect as a
    whole or fails without one: it fails on a constraint, or because the
    database reports an I/O or busy error, which the oracle [faults] decides
    statement by statement.  A transaction that does not commit restores the
    tables.  Every operation of the package is one definition.

    SQL integers are exact here (SQLite's are 64-bit; no operation of the
    program is meant to reach that range), [a/b] truncates towards zero, a
    [GROUP BY] makes one group per distinct key, and the order of rows that
    SQL leaves open is an [Order]. *)

From stdpp Require Import prelude strings gmap list sorting.
From Stdlib Require Import ZArith Lia Ascii.
From Corelib Require Import ssreflect.
From S2P Require Import Prelude GoStrings GoSort.

Open Scope general_if_scope.
Open Scope Z_scope.

(** ** Rows *)

(** [flows.go]: the direction of a flow, from the local host's side. *)
Definition DirLANToWAN : Z := 0.
Definition DirWANToLAN : Z := 1.
Definition DirLANOut : Z := 2.
Definition DirLANIn : Z := 3.

Definition RoleAdmin : string := "admin".
Definition RoleStandard : string := "standard".

Record User := mkUser {
  u_ID : Z; u_Username : string; u_PasswordHash : string; u_Role : string; u_CreatedAt : Z
}.

Definition User_IsAdmin (u : User) : bool := bool_decide (u_Role u = RoleAdmin).

(** A row of [sessions] (its token is the key of the table). *)
Record SessionRow := mkSessionRow {
  sr_UserID : Z; sr_CreatedAt : Z; sr_ExpiresAt : Z; sr_ElevatedUntil : option Z
}.

(** What [SessionByToken] returns: the row joined with the user's role. *)
Record Session := mkSession {
  s_Token : string; s_UserID : Z; s_Role : string; s_CreatedAt : Z; s_ExpiresAt : Z;
  s_ElevatedUntil : option Z
}.

Definition Session_IsAdmin (s : Session) : bool := bool_decide (s_Role s = RoleAdmin).

Record Host := mkHost {
  h_ID : Z; h_IP : string; h_DisplayName : option string; h_MACAddress : option string;
  h_FirstSeen : Z; h_LastSeen : Z
}.

Record FlowRecord := mkFlowRecord {
  f_HostID : Z; f_Direction : Z; f_Proto : Z; f_LocalIP : string; f_LocalPort : Z;
  f_RemoteIP : string; f_RemotePort : Z; f_FirstSeen : Z; f_LastSeen : Z;
  f_BytesSent : Z; f_BytesRecv : Z; f_PacketsSent : Z; f_PacketsRecv : Z
}.

Record FlowDetail := mkFlowDetail {
  fd_RemoteIP : string; fd_RemotePort : Z; fd_Proto : Z; fd_Direction : Z;
  fd_FirstSeen : Z; fd_LastSeen : Z; fd_BytesSent : Z; fd_BytesRecv : Z;
  fd_PacketsSent : Z; fd_PacketsRecv : Z
}.

Record DNSQueryRecord := mkDNSQueryRecord { q_HostID : Z; q_QName : string; q_QType : Z; q_TS : Z }.

Record AlertRecord := mkAlertRecord {
  a_HostID : Z; a_Kind : string; a_Severity : string; a_Summary : string; a_Detail : string;
  a_DedupeKey : string; a_DetectedAt : Z
}.

(** A row of [alerts]. *)
Record AlertRow := mkAlertRow { ar_ID : Z; ar_rec : AlertRecord; ar_Acknowledged : bool }.

(** An alert joined with its host's address. *)
Record Alert := mkAlert { al_ID : Z; al_HostIP : string; al_rec : AlertRecord; al_Acknowledged : bool }.

(** The four counters of a rollup row. *)
Record Counters := mkCounters { c_sent : Z; c_recv : Z; c_psent : Z; c_precv : Z }.

(** [(host_id, direction, bucket_ts)]. *)
Abbreviation BucketKey := (Z * Z * Z)%type.
Abbreviation RollupTable := (gmap BucketKey Counters).

(** [(host_id, remote_ip, remote_port)], with first and last seen. *)
Abbreviation PeerKey := (Z * string * Z)%type.

Record SeriesPoint := mkSeriesPoint { p_BucketTS : Z; p_BytesSent : Z; p_BytesRecv : Z }.

#[export] Instance Host_eq_dec : EqDecision Host.
Proof. solve_decision. Defined.
#[export] Instance FlowRecord_eq_dec : EqDecision FlowRecord.
Proof. solve_decision. Defined.
#[export] Instance AlertRecord_eq_dec : EqDecision AlertRecord.
Proof. solve_decision. Defined.
#[export] Instance Counters_eq_dec : EqDecision Counters.
Proof. solve_decision. Defined.

(** ** The tables *)
Record Tables := mkTables {
  settings : gmap string string;
  users : list User; users_seq : Z;
  sessions : gmap string SessionRow;
  hosts : list Host; hosts_seq : Z;
  dhcp_hostnames : gmap string (string * Z);
  flows_recent : list (Z * FlowRecord); flows_seq : Z;
  rollups : gmap string RollupTable;
  known_peers : gmap PeerKey (Z * Z);
  dns_queries : list (Z * DNSQueryRecord); dns_seq : Z;
  alerts : list AlertRow; alerts_seq : Z
}.

(** A database just created: every table of the schema, empty. *)
Definition emptyTables : Tables := mkTables ∅ [] 0 ∅ [] 0 ∅ [] 0 ∅ ∅ [] 0 [] 0.

Definition set_settings x t := mkTables x (users t) (users_seq t) (sessions t) (hosts t) (hosts_seq t)
  (dhcp_hostnames t) (flows_recent t) (flows_seq t) (rollups t) (known_peers t) (dns_queries t) (dns_seq t) (alerts t) (alerts_seq t).
Definition set_users x n t := mkTables (settings t) x n (sessions t) (hosts t) (hosts_seq t)
  (dhcp_hostnames t) (flows_recent t) (flows_seq t) (rollups t) (known_peers t) (dns_queries t) (dns_seq t) (alerts t) (alerts_seq t).
Definition set_sessions x t := mkTables (settings t) (users t) (users_seq t) x (hosts t) (hosts_seq t)
  (dhcp_hostnames t) (flows_recent t) (flows_seq t) (rollups t) (known_peers t) (dns_queries t) (dns_seq t) (alerts t) (alerts_seq t).
Definition set_hosts x n t := mkTables (settings t) (users t) (users_seq t) (sessions t) x n
  (dhcp_hostnames t) (flows_recent t) (flows_seq t) (rollups t) (known_peers t) (dns_queries t) (dns_seq t) (alerts t) (alerts_seq t).
Definition set_dhcp x t := mkTables (settings t) (users t) (users_seq t) (sessions t) (hosts t) (hosts_seq t)
  x (flows_recent t) (flows_seq t) (rollups t) (known_peers t) (dns_queries t) (dns_seq t) (alerts t) (alerts_seq t).
Definition set_flows x n t := mkTables (settings t) (users t) (users_seq t) (sessions t) (hosts t) (hosts_seq t)
  (dhcp_hostnames t) x n (rollups t) (known_peers t) (dns_queries t) (dns_seq t) (alerts t) (alerts_seq t).
Definition set_rollups x t := mkTables (settings t) (users t) (users_seq t) (sessions t) (hosts t) (hosts_seq t)
  (dhcp_hostnames t) (flows_recent t) (flows_seq t) x (known_peers t) (dns_queries t) (dns_seq t) (alerts t) (alerts_seq t).
Definition set_peers x t := mkTables (settings t) (users t) (users_seq t) (sessions t) (hosts t) (hosts_seq t)
  (dhcp_hostnames t) (flows_recent t) (flows_seq t) (rollups t) x (dns_queries t) (dns_seq t) (alerts t) (alerts_seq t).
Definition set_dns x n t := mkTables (settings t) (users t) (users_seq t) (sessions t) (hosts t) (hosts_seq t)
  (dhcp_hostnames t) (flows_recent t) (flows_seq t) (rollups t) (known_peers t) x n (alerts t) (alerts_seq t).
Definition set_alerts x n t := mkTables (settings t) (users t) (users_seq t) (sessions t) (hosts t) (hosts_seq t)
  (dhcp_hostnames t) (flows_recent t) (flows_seq t) (rollups t) (known_peers t) (dns_queries t) (dns_seq t) x n.

(** ** Statements and transactions *)
Inductive DBError :=
  | ErrIO                              (* disk, busy or connection error *)
  | ErrForeignKey | ErrUnique          (* constraint failures *)
  | ErrNotFound
  | ErrUnknownGranularity (g : string).

#[export] Instance DBError_eq_dec : EqDecision DBError.
Proof. solve_decision. Defined.

(** The oracle lists, for the statements to come, which ones the database
    will fail; past its end they succeed. *)
Record Store := mkStore { tables : Tables; faults : list bool }.

Abbreviation DB A := (M Store (Result DBError A)).

(** A statement: [f] is its effect on the tables when the database accepts
    to run it. *)
Definition stmt {A} (f : Tables → Result DBError (A * Tables)) : DB A := λ s,
  if default false (head (faults s)) then (Err ErrIO, mkStore (tables s) (tail (faults s)))
  else match f (tables s) with
       | Ok (a, t') => (Ok a, mkStore t' (tail (faults s)))
       | Err e => (Err e, mkStore (tables s) (tail (faults s)))
       end.

(** A query: a statement that changes nothing. *)
Definition query {A} (f : Tables → A) : DB A := stmt (λ t, Ok (f t, t)).
(** A statement with no result and no constraint to violate. *)
Definition exec (f : Tables → Tables) : DB unit := stmt (λ t, Ok (tt, f t)).

(** [tx := Begin(); defer tx.Rollback(); body; return tx.Commit()]. *)
Definition transaction {A} (body : DB A) : DB A := λ s,
  let '(b, s1) := exec id s in
  match b with
  | Err e => (Err e, s1)
  | Ok _ =>
      let '(r, s2) := body s1 in
      match r with
      | Err e => (Err e, mkStore (tables s) (faults s2))
      | Ok a =>
          let '(c, s3) := exec id s2 in
          match c with
          | Ok _ => (Ok a, s3)
          | Err e => (Err e, mkStore (tables s) (faults s3))
          end
      end
  end.

(** A loop that stops at the first error. *)
Fixpoint try_each {S E A} (f : A → M S (Result E unit)) (l : list A) : M S (Result E unit) :=
  match l with
  | [] => ret (Ok tt)
  | x :: l' => let? _ := f x in try_each f l'
  end.

(** The caller logs an error and goes on. *)
Definition ignore {A} (m : DB A) : M Store unit := m ;;! ret tt.

(** ** SQL helpers *)
Definition sql_div (a b : Z) : Z := Z.quot a b.
Definition limit_rows {A} (n : Z) (l : list A) : list A := if n <? 0 then l else take (Z.to_nat n) l.
Definition order_asc {A} (o : Order) (key : A → Z) (l : list A) : list A :=
  stable_sort (λ x y, key x <? key y) (ord o l).
Definition order_desc {A} (o : Order) (key : A → Z) (l : list A) : list A :=
  order_asc o (λ x, - key x) l.

(** Give consecutive ids to new rows. *)
Fixpoint number {A} (n : Z) (l : list A) : list (Z * A) :=
  match l with
  | [] => []
  | x :: l' => (n, x) :: number (n + 1) l'
  end.

Definition host_exists (t : Tables) (id : Z) : bool := existsb (λ h, h_ID h =? id) (hosts t).
Definition find_host (t : Tables) (id : Z) : option Host := head (filter (λ h, h_ID h = id) (hosts t)).
Definition find_user (t : Tables) (id : Z) : option User := head (filter (λ u, u_ID u = id) (users t)).

(** ** [hosts.go] *)

(** [INSERT ... ON CONFLICT(ip) DO UPDATE SET last_seen = MAX(...) RETURNING id].
    A conflict leaves the sequence of ids as it is; whether SQLite leaves a gap
    there is not observed by the program, which only uses ids as names. *)
Definition upsert_host (ip : string) (seenAt : Z) (t : Tables) : Z * Tables :=
  match head (filter (λ h, h_IP h = ip) (hosts t)) with
  | Some h0 =>
      (h_ID h0,
       set_hosts ((λ h, if bool_decide (h_IP h = ip)
                        then mkHost (h_ID h) (h_IP h) (h_DisplayName h) (h_MACAddress h)
                               (h_FirstSeen h) (Z.max (h_LastSeen h) seenAt)
                        else h) <$> hosts t) (hosts_seq t) t)
  | None =>
      let id := hosts_seq t + 1 in
      (id, set_hosts (hosts t ++ [mkHost id ip None None seenAt seenAt]) id t)
  end.

Definition UpsertHost (ip : string) (seenAt : Z) : DB Z := stmt (λ t, Ok (upsert_host ip seenAt t)).

(** The updates only touch rows whose value differs; writing an equal value
    leaves the row as it is, so the guard on the old value is kept. *)
Definition set_host_mac (hostID : Z) (mac : string) (t : Tables) : Tables :=
  set_hosts ((λ h, if (h_ID h =? hostID) && negb (bool_decide (h_MACAddress h = Some mac))
                   then mkHost (h_ID h) (h_IP h) (h_DisplayName h) (Some mac) (h_FirstSeen h) (h_LastSeen h)
                   else h) <$> hosts t) (hosts_seq t) t.

Definition SetHostMAC (hostID : Z) (mac : string) : DB unit := exec (set_host_mac hostID mac).

Definition set_display_name (mac hostname : string) (t : Tables) : Tables :=
  set_hosts ((λ h, if bool_decide (h_MACAddress h = Some mac) &&
                      negb (bool_decide (h_DisplayName h = Some hostname))
                   then mkHost (h_ID h) (h_IP h) (Some hostname) (h_MACAddress h) (h_FirstSeen h) (h_LastSeen h)
                   else h) <$> hosts t) (hosts_seq t) t.

Definition SetHostDisplayNameByMAC (mac hostname : string) : DB unit :=
  exec (set_display_name mac hostname).

Definition ListHosts {o : Order} : DB (list Host) := query (λ t, order_desc o h_LastSeen (hosts t)).

Definition HostByID (id : Z) : DB Host :=
  stmt (λ t, match find_host t id with Some h => Ok (h, t) | None => Err ErrNotFound end).

(** ** [dhcp.go] *)
Definition UpsertDHCPHostname (mac hostname : string) (seenAt : Z) : DB unit :=
  transaction (
    let? _ := exec (λ t, set_dhcp (<[mac := (hostname, seenAt)]> (dhcp_hostnames t)) t) in
    exec (set_display_name mac hostname)).

Definition HostnameByMAC (mac : string) : DB (option string) :=
  query (λ t, fst <$> dhcp_hostnames t !! mac).

(** ** [flows.go] *)
Definition flowInsertChunk : nat := 500.

(** Consecutive slices of at most [n] elements; [S fuel] of them at most. *)
Fixpoint chunks_go {A} (fuel : nat) (n : nat) (l : list A) : list (list A) :=
  match fuel, l with
  | _, [] => []
  | O, _ => []
  | S f, _ => take n l :: chunks_go f n (drop n l)
  end.
Definition chunks {A} (n : nat) (l : list A) : list (list A) := chunks_go (length l) n l.

(** One multi-row [INSERT]: all rows or none. *)
Definition insertFlowChunk (chunk : list FlowRecord) : DB unit :=
  stmt (λ t,
    if forallb (λ r, host_exists t (f_HostID r)) chunk
    then Ok (tt, set_flows (flows_recent t ++ number (flows_seq t + 1) chunk)
                   (flows_seq t + Z.of_nat (length chunk)) t)
    else Err ErrForeignKey).

Definition InsertFlows (records : list FlowRecord) : DB unit :=
  match records with
  | [] => ret (Ok tt)
  | _ => transaction (try_each insertFlowChunk (chunks flowInsertChunk records))
  end.

Definition PruneFlowsRecent (cutoff : Z) : DB unit :=
  exec (λ t, set_flows (filter (λ r, ¬ f_LastSeen r.2 < cutoff) (flows_recent t)) (flows_seq t) t).

Definition flow_detail (f : FlowRecord) : FlowDetail :=
  mkFlowDetail (f_RemoteIP f) (f_RemotePort f) (f_Proto f) (f_Direction f) (f_FirstSeen f)
    (f_LastSeen f) (f_BytesSent f) (f_BytesRecv f) (f_PacketsSent f) (f_PacketsRecv f).

Definition HostFlows {o : Order} (hostID from to limit : Z) : DB (list FlowDetail) :=
  query (λ t, limit_rows limit (order_desc o fd_LastSeen
    (flow_detail <$> filter (λ f, f_HostID f = hostID ∧ from ≤ f_LastSeen f ≤ to) (flows_recent t).*2))).

(** The direction filter of [directionClause]. *)
Definition directionClause (direction : Z) (d : Z) : bool :=
  if direction <? 0 then true else d =? direction.

(** [SELECT bucket, SUM(..), SUM(..) ... GROUP BY bucket ORDER BY bucket]. *)
Definition series {A} (bucket sent recv : A → Z) (rows : list A) : list SeriesPoint :=
  stable_sort (λ x y, p_BucketTS x <? p_BucketTS y)
    ((λ '(b, g), mkSeriesPoint b (sumZ sent g) (sumZ recv g)) <$> group_by bucket rows).

Definition minute_bucket (f : FlowRecord) : Z := sql_div (f_LastSeen f) 60 * 60.

Definition HostSeriesFromFlowsRecent (hostID from to direction : Z) : DB (list SeriesPoint) :=
  query (λ t, series minute_bucket f_BytesSent f_BytesRecv
    (filter (λ f, f_HostID f = hostID ∧ from ≤ f_LastSeen f ≤ to ∧
                  directionClause direction (f_Direction f) = true) (flows_recent t).*2)).

(** ** [dns.go] *)
Definition dnsInsertChunk : nat := 500.

Definition insertDNSChunk (chunk : list DNSQueryRecord) : DB unit :=
  stmt (λ t,
    if forallb (λ r, host_exists t (q_HostID r)) chunk
    then Ok (tt, set_dns (dns_queries t ++ number (dns_seq t + 1) chunk)
                   (dns_seq t + Z.of_nat (length chunk)) t)
    else Err ErrForeignKey).

Definition InsertDNSQueries (records : list DNSQueryRecord) : DB unit :=
  match records with
  | [] => ret (Ok tt)
  | _ => transaction (try_each insertDNSChunk (chunks dnsInsertChunk records))
  end.

Definition PruneDNSQueries (cutoff : Z) : DB unit :=
  exec (λ t, set_dns (filter (λ r, ¬ q_TS r.2 < cutoff) (dns_queries t)) (dns_seq t) t).

(** Per-host query counts. *)
Definition DNSQueryCounts {o : Order} (since now : Z) : DB (list (Z * Z)) :=
  query (λ t, ord o ((λ '(h, g), (h, Z.of_nat (length g))) <$>
    group_by q_HostID (filter (λ q, since ≤ q_TS q ≤ now) (dns_queries t).*2))).

Definition DNSQueriesInRange {o : Order} (since now : Z) : DB (list (Z * string * Z)) :=
  query (λ t, ord o ((λ q, (q_HostID q, q_QName q, q_TS q)) <$>
    filter (λ q, since ≤ q_TS q ≤ now) (dns_queries t).*2)).

(** ** [known_peers.go] *)
Definition KnownPeerLastSeen (hostID : Z) (remoteIP : string) (remotePort : Z) : DB (option Z) :=
  query (λ t, snd <$> known_peers t !! (hostID, remoteIP, remotePort)).

Definition UpsertKnownPeer (hostID : Z) (remoteIP : string) (remotePort seenAt : Z) : DB unit :=
  stmt (λ t,
    let k := (hostID, remoteIP, remotePort) in
    match known_peers t !! k with
    | Some (first, _) => Ok (tt, set_peers (<[k := (first, seenAt)]> (known_peers t)) t)
    | None =>
        if host_exists t hostID
        then Ok (tt, set_peers (<[k := (seenAt, seenAt)]> (known_peers t)) t)
        else Err ErrForeignKey
    end).

Record DistinctRecentPeer := mkDistinctRecentPeer {
  dp_HostID : Z; dp_RemoteIP : string; dp_RemotePort : Z; dp_FirstSeen : Z;
  dp_HadOutbound : bool; dp_HadInbound : bool
}.

Definition peer_key (f : FlowRecord) : PeerKey := (f_HostID f, f_RemoteIP f, f_RemotePort f).

(** [MIN(x)] over a non-empty group. *)
Fixpoint min_list (l : list Z) : Z :=
  match l with
  | [] => 0
  | [x] => x
  | x :: l' => Z.min x (min_list l')
  end.

Definition RecentFlowPeers {o : Order} (since now : Z) : DB (list DistinctRecentPeer) :=
  query (λ t, ord o ((λ '(h, ip, port, g),
      mkDistinctRecentPeer h ip port (min_list (f_FirstSeen <$> g))
        (existsb (λ f, f_Direction f =? DirLANToWAN) g) (existsb (λ f, f_Direction f =? DirWANToLAN) g)) <$>
    group_by peer_key (filter (λ f, since ≤ f_LastSeen f ≤ now) (flows_recent t).*2))).

(** ** [detect_queries.go] *)
Record PeerFlowTimestamp := mkPeerFlowTimestamp {
  pf_HostID : Z; pf_RemoteIP : string; pf_RemotePort : Z; pf_FirstSeen : Z
}.

(** [ORDER BY host_id, remote_ip, remote_port, first_seen]; text compares
    byte by byte. *)
Definition pf_less (x y : PeerFlowTimestamp) : bool :=
  match pf_HostID x ?= pf_HostID y with
  | Lt => true | Gt => false
  | Eq =>
      match String.compare (pf_RemoteIP x) (pf_RemoteIP y) with
      | Lt => true | Gt => false
      | Eq =>
          match pf_RemotePort x ?= pf_RemotePort y with
          | Lt => true | Gt => false
          | Eq => pf_FirstSeen x <? pf_FirstSeen y
          end
      end
  end.

Definition PeerFlowTimestamps {o : Order} (since now : Z) : DB (list PeerFlowTimestamp) :=
  query (λ t, stable_sort pf_less (ord o
    ((λ f, mkPeerFlowTimestamp (f_HostID f) (f_RemoteIP f) (f_RemotePort f) (f_FirstSeen f)) <$>
     filter (λ f, since ≤ f_LastSeen f ≤ now) (flows_recent t).*2))).

Record HostByteTotals := mkHostByteTotals { hb_HostID : Z; hb_BytesSent : Z; hb_BytesRecv : Z }.

Definition HostOutboundTotals {o : Order} (since now : Z) : DB (list HostByteTotals) :=
  query (λ t, ord o ((λ '(h, g), mkHostByteTotals h (sumZ f_BytesSent g) (sumZ f_BytesRecv g)) <$>
    group_by f_HostID (filter (λ f, f_Direction f = DirLANToWAN ∧ since ≤ f_LastSeen f ≤ now)
                         (flows_recent t).*2))).

Record TargetPortScan := mkTargetPortScan {
  ts_HostID : Z; ts_RemoteIP : string; ts_PortsCSV : string; ts_PortCount : Z
}.

Definition HostTargetPortScans {o : Order} (since now direction : Z) (countLocalPort : bool)
    (minPorts : Z) : DB (list TargetPortScan) :=
  let port f := if countLocalPort then f_LocalPort f else f_RemotePort f in
  query (λ t, ord o (filter (λ r, minPorts ≤ ts_PortCount r)
    ((λ '(h, ip, g),
        let ports := distinct_keys port g in
        mkTargetPortScan h ip (join ","%char (itoa <$> ord o ports)) (Z.of_nat (length ports))) <$>
     group_by (λ f, (f_HostID f, f_RemoteIP f))
       (filter (λ f, f_Direction f = direction ∧ since ≤ f_LastSeen f ≤ now) (flows_recent t).*2)))).

(** ** [alerts.go] *)
Definition AlertKindNewDestination : string := "new_destination".
Definition AlertKindBeaconing : string := "beaconing".
Definition AlertKindExfilRatio : string := "exfil_ratio".
Definition AlertKindDNSAnomaly : string := "dns_anomaly".
Definition AlertKindPortScan : string := "port_scan".
Definition AlertKindGeoWatchlist : string := "geo_watchlist".

Definition SeverityInfo : string := "info".
Definition SeverityWarning : string := "warning".
Definition SeverityCritical : string := "critical".

Definition alert_matches (hostID : Z) (kind dedupeKey : string) (since : Z) (a : AlertRecord) : bool :=
  (a_HostID a =? hostID) && bool_decide (a_Kind a = kind) &&
  bool_decide (a_DedupeKey a = dedupeKey) && (since <=? a_DetectedAt a).

Definition RecentAlertExists (hostID : Z) (kind dedupeKey : string) (since : Z) : DB bool :=
  query (λ t, existsb (alert_matches hostID kind dedupeKey since) (ar_rec <$> alerts t)).

Definition InsertAlert (a : AlertRecord) : DB unit :=
  stmt (λ t,
    if host_exists t (a_HostID a)
    then let id := alerts_seq t + 1 in Ok (tt, set_alerts (alerts t ++ [mkAlertRow id a false]) id t)
    else Err ErrForeignKey).

(** The join with [hosts] that every listing makes. *)
Definition scanAlerts (t : Tables) (rows : list AlertRow) : list Alert :=
  omap (λ r, (λ h, mkAlert (ar_ID r) (h_IP h) (ar_rec r) (ar_Acknowledged r)) <$>
             find_host t (a_HostID (ar_rec r))) rows.

Definition ListAlerts {o : Order} (limit : Z) (unackedOnly : bool) (kind : string) : DB (list Alert) :=
  query (λ t, limit_rows limit (order_desc o (a_DetectedAt ∘ al_rec) (scanAlerts t
    (filter (λ r, (unackedOnly = true → ar_Acknowledged r = false) ∧
                  (kind ≠ EmptyString → a_Kind (ar_rec r) = kind)) (alerts t))))).

Definition ListAlertsForHost {o : Order} (hostID limit : Z) : DB (list Alert) :=
  query (λ t, limit_rows limit (order_desc o (a_DetectedAt ∘ al_rec) (scanAlerts t
    (filter (λ r, a_HostID (ar_rec r) = hostID) (alerts t))))).

Definition acknowledge (r : AlertRow) : AlertRow := mkAlertRow (ar_ID r) (ar_rec r) true.

Definition AcknowledgeAlert (id : Z) : DB unit :=
  exec (λ t, set_alerts ((λ r, if ar_ID r =? id then acknowledge r else r) <$> alerts t) (alerts_seq t) t).

Definition ack_all_selects (kind : string) (r : AlertRow) : bool :=
  negb (ar_Acknowledged r) && (bool_decide (kind = EmptyString) || bool_decide (a_Kind (ar_rec r) = kind)).

(** The number of rows the update selected. *)
Definition AcknowledgeAllAlerts (kind : string) : DB Z :=
  stmt (λ t, Ok (Z.of_nat (length (filter (λ r, ack_all_selects kind r = true) (alerts t))),
                 set_alerts ((λ r, if ack_all_selects kind r then acknowledge r else r) <$> alerts t)
                   (alerts_seq t) t)).

Definition CountUnacknowledgedAlerts : DB Z :=
  query (λ t, Z.of_nat (length (filter (λ r, ar_Acknowledged r = false) (alerts t)))).

(** ** [rollup.go] *)

(** Granularities and their tables. *)
Definition rollupTables : gmap string string :=
  list_to_map [("1m", "rollup_1m"); ("5m", "rollup_5m"); ("1h", "rollup_1h"); ("1d", "rollup_1d")]%string.

Definition rollup_table (t : Tables) (table : string) : RollupTable := default ∅ (rollups t !! table).

Definition add_counters (x y : Counters) : Counters :=
  mkCounters (c_sent x + c_sent y) (c_recv x + c_recv y) (c_psent x + c_psent y) (c_precv x + c_precv y).

(** [INSERT ... ON CONFLICT DO UPDATE SET bytes_sent = bytes_sent + excluded.bytes_sent, ...]. *)
Definition upsert_counters (tbl : RollupTable) (kc : BucketKey * Counters) : RollupTable :=
  <[kc.1 := match tbl !! kc.1 with Some c => add_counters c kc.2 | None => kc.2 end]> tbl.

(** Upsert the selected rows into a rollup table, all or none. *)
Definition upsert_rollup (table : string) (select : Tables → list (BucketKey * Counters)) : DB unit :=
  stmt (λ t,
    let rows := select t in
    let tbl := rollup_table t table in
    if forallb (λ kc : BucketKey * Counters,
         bool_decide (is_Some (tbl !! kc.1)) || host_exists t kc.1.1.1) rows
    then Ok (tt, set_rollups (<[table := foldl upsert_counters tbl rows]> (rollups t)) t)
    else Err ErrForeignKey).

Definition flow_counters (f : FlowRecord) : Counters :=
  mkCounters (f_BytesSent f) (f_BytesRecv f) (f_PacketsSent f) (f_PacketsRecv f).

(** The four [SUM]s of a group. *)
Definition sum_counters {A} (c : A → Counters) (g : list A) : Counters :=
  mkCounters (sumZ (c_sent ∘ c) g) (sumZ (c_recv ∘ c) g) (sumZ (c_psent ∘ c) g) (sumZ (c_precv ∘ c) g).

Definition minute_key (f : FlowRecord) : BucketKey := (f_HostID f, f_Direction f, minute_bucket f).

Definition select_minutes {o : Order} (from to : Z) (t : Tables) : list (BucketKey * Counters) :=
  ord o ((λ '(k, g), (k, sum_counters flow_counters g)) <$>
    group_by minute_key (filter (λ f, from ≤ f_LastSeen f < to) (flows_recent t).*2)).

Definition RollupFromFlowsRecent {o : Order} (from to : Z) : DB unit :=
  upsert_rollup "rollup_1m" (select_minutes from to).

(** The bucket a finer bucket falls in. *)
Definition coarsen (width : Z) (k : BucketKey) : BucketKey :=
  (k.1.1, k.1.2, sql_div k.2 width * width).

(** [GROUP BY host_id, direction, bucket_ts] names the column [bucket_ts] of
    the source table before the alias of the same name in the select list, so
    the groups are the source's own rows and it is the conflict clause that
    merges them into the coarser bucket. *)
Definition select_finer {o : Order} (srcTable : string) (width from to : Z) (t : Tables) :
    list (BucketKey * Counters) :=
  ord o ((λ '(k, g), (coarsen width k, sum_counters snd g)) <$>
    group_by fst (filter (λ kc : BucketKey * Counters, from ≤ kc.1.2 < to)
                    (map_to_list (rollup_table t srcTable)))).

Definition RollupFromFiner {o : Order} (srcGranularity dstGranularity : string)
    (bucketWidth from to : Z) : DB unit :=
  match rollupTables !! srcGranularity with
  | None => ret (Err (ErrUnknownGranularity srcGranularity))
  | Some srcTable =>
      match rollupTables !! dstGranularity with
      | None => ret (Err (ErrUnknownGranularity dstGranularity))
      | Some dstTable => upsert_rollup dstTable (select_finer srcTable bucketWidth from to)
      end
  end.

Definition prune_rollup (table : string) (cutoff : Z) (t : Tables) : Tables :=
  set_rollups (<[table := filter (λ kc : BucketKey * Counters, ¬ kc.1.2 < cutoff) (rollup_table t table)]>
                 (rollups t)) t.

Definition PruneRollup (granularity : string) (cutoff : Z) : DB unit :=
  match rollupTables !! granularity with
  | None => ret (Err (ErrUnknownGranularity granularity))
  | Some table => exec (prune_rollup table cutoff)
  end.

(** Frees unused pages; the tables do not change. *)
Definition IncrementalVacuum : DB unit := exec id.

Definition rollup_series (table : string) (hostID from to direction : Z) (t : Tables) : list SeriesPoint :=
  series (λ kc : BucketKey * Counters, kc.1.2) (c_sent ∘ snd) (c_recv ∘ snd)
    (filter (λ kc : BucketKey * Counters, kc.1.1.1 = hostID ∧ from ≤ kc.1.2 ≤ to ∧
                  directionClause direction kc.1.1.2 = true)
       (map_to_list (rollup_table t table))).

Definition HostSeriesFromRollup (granularity : string) (hostID from to direction : Z) :
    DB (list SeriesPoint) :=
  match rollupTables !! granularity with
  | None => ret (Err (ErrUnknownGranularity granularity))
  | Some table => query (rollup_series table hostID from to direction)
  end.

(** No direction filter: any negative direction. *)
Definition SparklineSeries (hostID from to : Z) : DB (list SeriesPoint) :=
  query (rollup_series "rollup_1m" hostID from to (-1)).

(** ** [sessions.go] *)
Definition CreateSession (token : string) (userID createdAt expiresAt : Z) : DB unit :=
  stmt (λ t,
    if sessions t !! token is Some _ then Err ErrUnique
    else if find_user t userID is Some _
    then Ok (tt, set_sessions (<[token := mkSessionRow userID createdAt expiresAt None]> (sessions t)) t)
    else Err ErrForeignKey).

Definition SessionByToken (token : string) : DB Session :=
  stmt (λ t,
    match sessions t !! token with
    | None => Err ErrNotFound
    | Some r =>
        match find_user t (sr_UserID r) with
        | None => Err ErrNotFound
        | Some u => Ok (mkSession token (sr_UserID r) (u_Role u) (sr_CreatedAt r) (sr_ExpiresAt r)
                          (sr_ElevatedUntil r), t)
        end
    end).

Definition ElevateSession (token : string) (elevatedUntil : Z) : DB unit :=
  exec (λ t, set_sessions (alter (λ r, mkSessionRow (sr_UserID r) (sr_CreatedAt r) (sr_ExpiresAt r)
                                         (Some elevatedUntil)) token (sessions t)) t).

Definition DeleteSession (token : string) : DB unit :=
  exec (λ t, set_sessions (delete token (sessions t)) t).

Definition PruneExpiredSessions (now : Z) : DB unit :=
  exec (λ t, set_sessions (filter (λ kr : string * SessionRow, ¬ sr_ExpiresAt kr.2 < now) (sessions t)) t).

(** ** [settings.go] *)
Definition KeyCaptureInterface : string := "capture_interface".
Definition KeyLANSubnetCIDR : string := "lan_subnet_cidr".
Definition KeyRetentionDays : string := "retention_days".
Definition KeyTLSCertPath : string := "tls_cert_path".
Definition KeyTLSKeyPath : string := "tls_key_path".
Definition KeyHTTPListenAddr : string := "http_listen_addr".
Definition KeyFlushIntervalSecs : string := "flush_interval_seconds".
Definition KeySetupComplete : string := "setup_complete".
Definition KeyDetectorNewDestination : string := "detector_new_destination_enabled".
Definition KeyDetectorBeaconing : string := "detector_beaconing_enabled".
Definition KeyDetectorExfilRatio : string := "detector_exfil_ratio_enabled".
Definition KeyDetectorDNSAnomaly : string := "detector_dns_anomaly_enabled".
Definition KeyDetectorPortScan : string := "detector_port_scan_enabled".
Definition KeyDetectorGeoWatchlist : string := "detector_geo_watchlist_enabled".
Definition KeyGeoWatchlistCountries : string := "geo_watchlist_countries".

Definition GetSetting (key : string) : DB (option string) := query (λ t, settings t !! key).

Definition set_setting (key value : string) (t : Tables) : Tables :=
  set_settings (<[key := value]> (settings t)) t.
Definition SetSetting (key value : string) : DB unit := exec (set_setting key value).

(** Begin, prepare, one statement per entry in the map's iteration order,
    commit. *)
Definition SetSettings {o : Order} (kv : gmap string string) : DB unit :=
  transaction (
    let? _ := exec id in
    try_each (λ '(k, v), exec (set_setting k v)) (ord o (map_to_list kv))).

Definition AllSettings : DB (gmap string string) := query settings.

Definition DetectorEnabled (settingKey : string) : M Store bool :=
  let! r := GetSetting settingKey in
  ret (match r with
       | Ok (Some v) => negb (bool_decide (v = "0"%string))
       | _ => true
       end).

(** ** [users.go] *)
Definition CreateUser (username passwordHash role : string) (createdAt : Z) : DB Z :=
  stmt (λ t,
    if existsb (λ u, bool_decide (u_Username u = username)) (users t) then Err ErrUnique
    else let id := users_seq t + 1 in
         Ok (id, set_users (users t ++ [mkUser id username passwordHash role createdAt]) id t)).

Definition UserByUsername (username : string) : DB User :=
  stmt (λ t, match head (filter (λ u, u_Username u = username) (users t)) with
             | Some u => Ok (u, t) | None => Err ErrNotFound end).

Definition UserByID (id : Z) : DB User :=
  stmt (λ t, match find_user t id with Some u => Ok (u, t) | None => Err ErrNotFound end).

Definition PasswordHashByUserID (id : Z) : DB string :=
  stmt (λ t, match find_user t id with Some u => Ok (u_PasswordHash u, t) | None => Err ErrNotFound end).

Definition AnyUserExists : DB bool := query (λ t, (0 <? length (users t))%nat).

Definition ListUsers {o : Order} : DB (list User) := query (λ t, order_asc o u_CreatedAt (users t)).

Definition admins (t : Tables) : list User := filter (λ u, u_Role u = RoleAdmin) (users t).

Definition CountAdmins : DB Z := query (λ t, Z.of_nat (length (admins t))).

Definition UpdateUserRole (id : Z) (role : string) : DB unit :=
  exec (λ t, set_users ((λ u, if u_ID u =? id
                              then mkUser (u_ID u) (u_Username u) (u_PasswordHash u) role (u_CreatedAt u)
                              else u) <$> users t) (users_seq t) t).

(** The user's sessions go with it ([ON DELETE CASCADE]). *)
Definition DeleteUser (id : Z) : DB unit :=
  exec (λ t, set_sessions (filter (λ kr : string * SessionRow, sr_UserID kr.2 ≠ id) (sessions t))
               (set_users (filter (λ u, u_ID u ≠ id) (users t)) (users_seq t) t)).
