(* ===== verification/StoreProofs.v ===== *)
(** * The database keeps its constraints

    [wf] is what the schema promises of the tables: unique ids, user names and
    addresses, ids within the sequence, and every foreign key pointing at a
    row.  Each operation of the package preserves it, whatever statements the
    database fails; operations that only read leave the tables alone; and a
    transaction that reports an error leaves no trace. *)

From stdpp Require Import prelude strings gmap list sorting.
From Stdlib Require Import ZArith Lia.
From Corelib Require Import ssreflect.
From S2P Require Import Prelude GoStrings GoSort Store.

Open Scope general_if_scope.
Open Scope Z_scope.

Definition host_ids (t : Tables) : list Z := h_ID <$> hosts t.
Definition user_ids (t : Tables) : list Z := u_ID <$> users t.

(** Unique ids between 1 and the sequence. *)
Definition wf_ids (seq : Z) (ids : list Z) : Prop := NoDup ids ∧ Forall (λ i, 1 ≤ i ≤ seq) ids.

Record wf (t : Tables) : Prop := mkWf {
  wf_user_ids : wf_ids (users_seq t) (user_ids t) ∧ 0 ≤ users_seq t;
  wf_usernames : NoDup (u_Username <$> users t);
  wf_sessions : map_Forall (λ _ r, sr_UserID r ∈ user_ids t) (sessions t);
  wf_host_ids : wf_ids (hosts_seq t) (host_ids t) ∧ 0 ≤ hosts_seq t;
  wf_host_ips : NoDup (h_IP <$> hosts t);
  wf_flow_ids : wf_ids (flows_seq t) (flows_recent t).*1 ∧ 0 ≤ flows_seq t;
  wf_flows : Forall (λ f, f_HostID f ∈ host_ids t) (flows_recent t).*2;
  wf_rollups : map_Forall (λ _ tbl, map_Forall (λ (k : BucketKey) (_ : Counters), k.1.1 ∈ host_ids t) tbl)
                 (rollups t);
  wf_peers : map_Forall (λ (k : PeerKey) _, k.1.1 ∈ host_ids t) (known_peers t);
  wf_dns_ids : wf_ids (dns_seq t) (dns_queries t).*1 ∧ 0 ≤ dns_seq t;
  wf_dns : Forall (λ q, q_HostID q ∈ host_ids t) (dns_queries t).*2;
  wf_alert_ids : wf_ids (alerts_seq t) (ar_ID <$> alerts t) ∧ 0 ≤ alerts_seq t;
  wf_alerts : Forall (λ a, a_HostID a ∈ host_ids t) (ar_rec <$> alerts t)
}.

Definition store_wf (s : Store) : Prop := wf (tables s).

(** ** Statements and transactions *)
Section statements.
Context (P : Tables → Prop).
Abbreviation onP := (λ s : Store, P (tables s)).

Lemma preserves_stmt {A} (f : Tables → Result DBError (A * Tables)) :
  (∀ t a t', P t → f t = Ok (a, t') → P t') → Preserves onP (stmt f).
Proof.
  intros Hf [t fs] Ht. rewrite /stmt /=. destruct (default false (head fs)); [done|].
  destruct (f t) as [[a t']|e] eqn:E; simpl; [exact (Hf t a t' Ht E)|done].
Qed.

#[export] Instance preserves_query {A} (f : Tables → A) : Preserves onP (query f).
Proof. apply preserves_stmt. by intros t a t' Ht [= <- <-]. Qed.

Lemma preserves_exec (f : Tables → Tables) : (∀ t, P t → P (f t)) → Preserves onP (exec f).
Proof. intros Hf. apply preserves_stmt. intros t a t' Ht [= <- <-]. by apply Hf. Qed.

#[export] Instance preserves_exec_id : Preserves onP (exec id).
Proof. by apply preserves_exec. Qed.

#[export] Instance preserves_transaction {A} (body : DB A) : Preserves onP body → Preserves onP (transaction body).
Proof.
  intros Hb s Hs. rewrite /transaction.
  pose proof (preserves_exec_id s Hs) as H1. destruct (exec id s) as [[|] s1]; [|done].
  specialize (Hb s1 H1). destruct (body s1) as [[|] s2]; [|done]. simpl in *.
  pose proof (preserves_exec_id s2 Hb) as H3. by destruct (exec id s2) as [[|] s3].
Qed.

#[export] Instance preserves_try_each {A} (f : A → DB unit) l :
  (∀ x, Preserves onP (f x)) → Preserves onP (try_each f l).
Proof. intros Hf. induction l as [|x l IH]; simpl; preserves_tac. Qed.
End statements.

(** A statement leaves the tables alone when it fails. *)
Lemma stmt_cases {A} (f : Tables → Result DBError (A * Tables)) s r s' :
  stmt f s = (r, s') →
  match r with
  | Ok a => f (tables s) = Ok (a, tables s')
  | Err e => tables s' = tables s ∧ (e = ErrIO ∨ f (tables s) = Err e)
  end ∧ faults s' = tail (faults s).
Proof.
  rewrite /stmt. destruct (default false (head (faults s))).
  - intros [= <- <-]. simpl. auto.
  - destruct (f (tables s)) as [[a t']|e] eqn:E; intros [= <- <-]; simpl; auto.
Qed.

Lemma query_cases {A} (f : Tables → A) s r s' :
  query f s = (r, s') → tables s' = tables s ∧ (r = Ok (f (tables s)) ∨ r = Err ErrIO).
Proof. intros H%stmt_cases. destruct r; naive_solver. Qed.

Lemma exec_cases f s r s' :
  exec f s = (r, s') →
  (r = Ok tt ∧ tables s' = f (tables s)) ∨ (r = Err ErrIO ∧ tables s' = tables s).
Proof. intros H%stmt_cases. destruct r as [[]|]; naive_solver. Qed.

(** A transaction that reports an error has no effect; one that succeeds had
    a body that succeeded. *)
Lemma transaction_cases {A} (body : DB A) s r s' :
  transaction body s = (r, s') →
  match r with
  | Ok a => ∃ s1 s2, tables s1 = tables s ∧ body s1 = (Ok a, s2) ∧ tables s' = tables s2
  | Err _ => tables s' = tables s
  end.
Proof.
  rewrite /transaction. destruct (exec id s) as [rb s1] eqn:E1.
  apply exec_cases in E1. destruct rb as [[]|e1]; [|intros [= <- <-]; naive_solver].
  destruct E1 as [[_ E1]|[? _]]; [|done].
  destruct (body s1) as [[a|e] s2] eqn:E2; [|by intros [= <- <-]].
  destruct (exec id s2) as [rc s3] eqn:E3. apply exec_cases in E3.
  destruct rc as [[]|e3]; intros [= <- <-]; [|done].
  destruct E3 as [[_ E3]|[? _]]; [|done]. by exists s1, s2.
Qed.

Lemma try_each_ok {S Er A} (f : A → M S (Result Er unit)) (R : list A → S → S → Prop) :
  (∀ s, R [] s s) →
  (∀ x l s s1 s2, f x s = (Ok tt, s1) → R l s1 s2 → R (x :: l) s s2) →
  ∀ l s s', try_each f l s = (Ok tt, s') → R l s s'.
Proof.
  intros Hnil Hcons l. induction l as [|x l IH]; simpl; intros s s'.
  - by intros [= <-].
  - rewrite /bind. destruct (f x s) as [[[]|e] s1] eqn:E; [|done]. eauto.
Qed.

(** ** Lookups *)
Lemma host_exists_spec t id : host_exists t id = true ↔ id ∈ host_ids t.
Proof.
  rewrite /host_exists /host_ids existsb_exists list_elem_of_fmap.
  setoid_rewrite list_elem_of_In. split.
  - intros (h & ? & <-%Z.eqb_eq). by exists h.
  - intros (h & -> & ?). exists h. by rewrite Z.eqb_refl.
Qed.

Lemma head_filter_some {A} (P : A → Prop) `{∀ x, Decision (P x)} l x :
  head (filter P l) = Some x → P x ∧ x ∈ l.
Proof.
  intros H1. assert (x ∈ filter P l) as Hx; [|by apply list_elem_of_filter in Hx].
  destruct (filter P l); simplify_eq/=. by left.
Qed.

Lemma head_filter_none {A} (P : A → Prop) `{∀ x, Decision (P x)} l :
  head (filter P l) = None → ∀ x, x ∈ l → ¬ P x.
Proof.
  intros H1 x Hx HP. assert (x ∈ filter P l) as Hf by (by apply list_elem_of_filter).
  destruct (filter P l); [by apply elem_of_nil in Hf|done].
Qed.

(** A key that identifies rows finds the row. *)
Lemma head_filter_key {A K} `{EqDecision K} (key : A → K) l x :
  NoDup (key <$> l) → x ∈ l → head (filter (λ y, key y = key x) l) = Some x.
Proof.
  intros Hnd Hx. destruct (head (filter (λ y, key y = key x) l)) as [y|] eqn:E.
  - apply head_filter_some in E as [Hk Hy]. f_equal.
    apply list_elem_of_lookup in Hx as [i Hi]. apply list_elem_of_lookup in Hy as [j Hj].
    assert (i = j) as <-; [|congruence].
    eapply NoDup_lookup; [exact Hnd|rewrite list_lookup_fmap Hi //|rewrite list_lookup_fmap Hj /= Hk //].
  - by destruct (head_filter_none _ _ E x Hx).
Qed.

Lemma find_user_some t id u : find_user t id = Some u → u_ID u = id ∧ u ∈ users t.
Proof. by intros ?%head_filter_some. Qed.
Lemma find_host_some t id h : find_host t id = Some h → h_ID h = id ∧ h ∈ hosts t.
Proof. by intros ?%head_filter_some. Qed.
Lemma find_user_wf t u : wf t → u ∈ users t → find_user t (u_ID u) = Some u.
Proof. intros Ht Hu. rewrite /find_user. apply (head_filter_key u_ID); [apply Ht|done]. Qed.
Lemma find_host_wf t h : wf t → h ∈ hosts t → find_host t (h_ID h) = Some h.
Proof. intros Ht Hh. rewrite /find_host. apply (head_filter_key h_ID); [apply Ht|done]. Qed.

(** ** Changing one table *)
Lemma wf_empty : wf emptyTables.
Proof. split; simpl; repeat split; try constructor; done. Qed.

Lemma wf_set_settings x t : wf t → wf (set_settings x t).
Proof. by intros []. Qed.
Lemma wf_set_dhcp x t : wf t → wf (set_dhcp x t).
Proof. by intros []. Qed.

Lemma wf_set_sessions x t :
  map_Forall (λ _ r, sr_UserID r ∈ user_ids t) x → wf t → wf (set_sessions x t).
Proof. by intros ? []. Qed.

(** Rewriting host rows in place, keeping their ids and addresses. *)
Lemma wf_map_hosts (f : Host → Host) t :
  (∀ h, h_ID (f h) = h_ID h ∧ h_IP (f h) = h_IP h) → wf t → wf (set_hosts (f <$> hosts t) (hosts_seq t) t).
Proof.
  intros Hf Ht.
  assert (h_ID <$> (f <$> hosts t) = h_ID <$> hosts t) as E1.
  { rewrite -list_fmap_compose. apply list_fmap_ext. intros ? h ?. apply Hf. }
  assert (h_IP <$> (f <$> hosts t) = h_IP <$> hosts t) as E2.
  { rewrite -list_fmap_compose. apply list_fmap_ext. intros ? h ?. apply Hf. }
  destruct Ht. split; rewrite /host_ids /= ?E1 ?E2 //.
Qed.

Lemma wf_ids_snoc seq ids n : 0 ≤ seq → seq < n → wf_ids seq ids → wf_ids n (ids ++ [n]).
Proof.
  intros ? ? [Hnd Hr]. split.
  - apply NoDup_app. split_and!; [done| |apply NoDup_singleton].
    intros i Hi ->%list_elem_of_singleton. rewrite Forall_forall in Hr. apply Hr in Hi. lia.
  - apply Forall_app. split; [|by repeat constructor; lia].
    eapply Forall_impl; [exact Hr|]. simpl. lia.
Qed.

Lemma wf_add_host h t :
  hosts_seq t < h_ID h → h_IP h ∉ h_IP <$> hosts t → wf t → wf (set_hosts (hosts t ++ [h]) (h_ID h) t).
Proof.
  intros Hid Hip Ht.
  assert (∀ i, i ∈ host_ids t → i ∈ h_ID <$> (hosts t ++ [h])) as Hmono.
  { intros i Hi. rewrite fmap_app. apply elem_of_app. by left. }
  destruct Ht. split; try done; rewrite /host_ids /=.
  - rewrite fmap_app. split; [|lia]. apply (wf_ids_snoc (hosts_seq t)); naive_solver.
  - rewrite fmap_app. apply NoDup_app. split_and!; [done| |apply NoDup_singleton].
    by intros i Hi ->%list_elem_of_singleton.
  - eapply Forall_impl; [eassumption|]. simpl. auto.
  - eapply map_Forall_impl; [eassumption|]. simpl. intros _ tbl Htbl. eapply map_Forall_impl; [eassumption|]. simpl. auto.
  - eapply map_Forall_impl; [eassumption|]. simpl. auto.
  - eapply Forall_impl; [eassumption|]. simpl. auto.
  - eapply Forall_impl; [eassumption|]. simpl. auto.
Qed.

Lemma number_fst {A} (l : list A) : ∀ n, (number n l).*1 = seqZ n (Z.of_nat (length l)).
Proof.
  induction l as [|x l IH]; intros n; [done|].
  rewrite (seqZ_cons n (Z.of_nat (length (x :: l)))); [simpl; lia|].
  cbn [number]. rewrite fmap_cons IH. f_equal. f_equal; simpl; lia.
Qed.
Lemma number_snd {A} (l : list A) : ∀ n, (number n l).*2 = l.
Proof. induction l as [|x l IH]; intros n; [done|]. cbn [number]. by rewrite fmap_cons IH. Qed.

Lemma wf_ids_app seq ids n :
  0 ≤ seq → 0 ≤ n → wf_ids seq ids → wf_ids (seq + n) (ids ++ seqZ (seq + 1) n).
Proof.
  intros ? ? [Hnd Hr]. rewrite Forall_forall in Hr. split.
  - apply NoDup_app. split_and!; [done| |apply NoDup_seqZ].
    intros i Hi Hs%elem_of_seqZ. apply Hr in Hi. lia.
  - apply Forall_app. split; apply Forall_forall.
    + intros i Hi%Hr. lia.
    + intros i Hi%elem_of_seqZ. lia.
Qed.

(** Appending freshly numbered rows. *)
Lemma wf_append_flows rs t :
  Forall (λ r, f_HostID r ∈ host_ids t) rs → wf t →
  wf (set_flows (flows_recent t ++ number (flows_seq t + 1) rs) (flows_seq t + Z.of_nat (length rs)) t).
Proof.
  intros Hrs Ht. destruct Ht. split; try done; simpl; rewrite fmap_app.
  - rewrite number_fst. split; [apply wf_ids_app; naive_solver lia|lia].
  - rewrite number_snd. by apply Forall_app.
Qed.

Lemma wf_append_dns rs t :
  Forall (λ r, q_HostID r ∈ host_ids t) rs → wf t →
  wf (set_dns (dns_queries t ++ number (dns_seq t + 1) rs) (dns_seq t + Z.of_nat (length rs)) t).
Proof.
  intros Hrs Ht. destruct Ht. split; try done; simpl; rewrite fmap_app.
  - rewrite number_fst. split; [apply wf_ids_app; naive_solver lia|lia].
  - rewrite number_snd. by apply Forall_app.
Qed.

(** Deleting rows. *)
Lemma wf_ids_sublist seq ids ids' : ids' `sublist_of` ids → wf_ids seq ids → wf_ids seq ids'.
Proof.
  intros Hs [? Hr]. split; [by apply (sublist_NoDup _ ids)|]. rewrite !Forall_forall in Hr |- *.
  intros i Hi. apply Hr. by apply (sublist_subseteq ids').
Qed.

Lemma sublist_fmap_filter {A B} (g : A → B) (P : A → Prop) `{∀ x, Decision (P x)} l :
  (g <$> filter P l) `sublist_of` (g <$> l).
Proof.
  induction l as [|x l IH]; [constructor|].
  rewrite filter_cons. case_decide; rewrite !fmap_cons; by constructor.
Qed.

Lemma Forall_fmap_filter {A B} (g : A → B) (Q : B → Prop) (P : A → Prop) `{∀ x, Decision (P x)} l :
  Forall Q (g <$> l) → Forall Q (g <$> filter P l).
Proof.
  rewrite !Forall_fmap !Forall_forall. intros HQ x [_ Hx]%list_elem_of_filter. by apply HQ.
Qed.

Lemma wf_filter_flows (P : Z * FlowRecord → Prop) `{∀ x, Decision (P x)} t :
  wf t → wf (set_flows (filter P (flows_recent t)) (flows_seq t) t).
Proof.
  intros Ht. destruct Ht as [?????[??]]. split; try done; simpl.
  - split; [|done]. eapply wf_ids_sublist; [apply sublist_fmap_filter|done].
  - by apply Forall_fmap_filter.
Qed.

Lemma wf_filter_dns (P : Z * DNSQueryRecord → Prop) `{∀ x, Decision (P x)} t :
  wf t → wf (set_dns (filter P (dns_queries t)) (dns_seq t) t).
Proof.
  intros Ht. destruct Ht as [?????????[??]]. split; try done; simpl.
  - split; [|done]. eapply wf_ids_sublist; [apply sublist_fmap_filter|done].
  - by apply Forall_fmap_filter.
Qed.

(** Rewriting alert rows in place, keeping their ids and contents. *)
Lemma wf_map_alerts (f : AlertRow → AlertRow) t :
  (∀ r, ar_ID (f r) = ar_ID r ∧ ar_rec (f r) = ar_rec r) → wf t →
  wf (set_alerts (f <$> alerts t) (alerts_seq t) t).
Proof.
  intros Hf Ht.
  assert (ar_ID <$> (f <$> alerts t) = ar_ID <$> alerts t) as E1.
  { rewrite -list_fmap_compose. apply list_fmap_ext. intros ? h ?. apply Hf. }
  assert (ar_rec <$> (f <$> alerts t) = ar_rec <$> alerts t) as E2.
  { rewrite -list_fmap_compose. apply list_fmap_ext. intros ? h ?. apply Hf. }
  destruct Ht. split; simpl; rewrite ?E1 ?E2 //.
Qed.

Lemma wf_set_rollup table tbl t :
  map_Forall (λ (k : BucketKey) (_ : Counters), k.1.1 ∈ host_ids t) tbl → wf t →
  wf (set_rollups (<[table := tbl]> (rollups t)) t).
Proof. intros Htbl Ht. destruct Ht. split; try done; simpl. by apply map_Forall_insert_2. Qed.

Lemma wf_rollup_table t table :
  wf t → map_Forall (λ (k : BucketKey) (_ : Counters), k.1.1 ∈ host_ids t) (rollup_table t table).
Proof.
  intros Ht. rewrite /rollup_table. destruct (rollups t !! table) as [tbl|] eqn:E; simpl.
  - by apply (wf_rollups _ Ht table).
  - apply map_Forall_empty.
Qed.

Lemma upsert_counters_keys (Q : BucketKey → Prop) tbl kc :
  Q kc.1 → map_Forall (λ k _, Q k) tbl → map_Forall (λ k _, Q k) (upsert_counters tbl kc).
Proof. intros ? ?. by apply map_Forall_insert_2. Qed.

Lemma foldl_upsert_keys (Q : BucketKey → Prop) rows : ∀ tbl,
  Forall (λ kc, Q kc.1) rows → map_Forall (λ k _, Q k) tbl →
  map_Forall (λ k _, Q k) (foldl upsert_counters tbl rows).
Proof.
  induction rows as [|kc rows IH]; intros tbl Hr Ht; [done|]. simpl.
  inversion Hr; subst. apply IH; [done|]. by apply upsert_counters_keys.
Qed.

Lemma map_Forall_filter {K A} `{Countable K} (P : K → A → Prop) (Q : K * A → Prop) `{∀ x, Decision (Q x)}
    (m : gmap K A) : map_Forall P m → map_Forall P (filter Q m).
Proof. intros HP k x [Hx _]%map_lookup_filter_Some. by apply HP. Qed.

(** ** Every operation preserves the constraints *)
Ltac wf_stmt := apply preserves_stmt; intros t ? t' Ht ?; repeat (case_match; simplify_eq/=); simplify_eq/=; try done.

Lemma forallb_host_exists {A} (id : A → Z) t l :
  forallb (λ r, host_exists t (id r)) l = true → Forall (λ r, id r ∈ host_ids t) l.
Proof.
  rewrite forallb_forall Forall_forall. intros H x Hx. apply host_exists_spec, H.
  by apply list_elem_of_In.
Qed.

Lemma wf_upsert_host ip seenAt t : wf t → wf (upsert_host ip seenAt t).2.
Proof.
  intros Ht. rewrite /upsert_host. destruct (head _) as [h0|] eqn:E; simpl.
  - apply wf_map_hosts; [|done]. intros h. by destruct (bool_decide _).
  - apply (wf_add_host (mkHost (hosts_seq t + 1) ip None None seenAt seenAt)); [simpl; lia| |done].
    simpl. intros (h & -> & Hh)%list_elem_of_fmap. by destruct (head_filter_none _ _ E h Hh).
Qed.

#[export] Instance wf_UpsertHost ip seenAt : Preserves store_wf (UpsertHost ip seenAt).
Proof.
  apply preserves_stmt. intros t a t' Ht [= E]. replace t' with (upsert_host ip seenAt t).2 by (by rewrite E).
  by apply wf_upsert_host.
Qed.
#[export] Instance wf_SetHostMAC id mac : Preserves store_wf (SetHostMAC id mac).
Proof. apply preserves_exec. intros t Ht. apply wf_map_hosts; [|done]. intros h. by case_match. Qed.
Lemma wf_set_display_name mac name t : wf t → wf (set_display_name mac name t).
Proof. apply wf_map_hosts. intros h. by case_match. Qed.
#[export] Instance wf_SetHostDisplayNameByMAC mac name : Preserves store_wf (SetHostDisplayNameByMAC mac name).
Proof. apply preserves_exec. apply wf_set_display_name. Qed.
#[export] Instance wf_UpsertDHCPHostname mac name ts : Preserves store_wf (UpsertDHCPHostname mac name ts).
Proof.
  apply preserves_transaction. apply preserves_bind.
  - apply preserves_exec. intros t. apply wf_set_dhcp.
  - intros [[]|e]; [|apply _]. apply preserves_exec, wf_set_display_name.
Qed.

#[export] Instance wf_insertFlowChunk chunk : Preserves store_wf (insertFlowChunk chunk).
Proof. wf_stmt. apply wf_append_flows; [by apply forallb_host_exists|done]. Qed.
#[export] Instance wf_InsertFlows rs : Preserves store_wf (InsertFlows rs).
Proof. rewrite /InsertFlows. case_match; apply _. Qed.
#[export] Instance wf_PruneFlowsRecent c : Preserves store_wf (PruneFlowsRecent c).
Proof. apply preserves_exec. intros t. apply wf_filter_flows. Qed.
#[export] Instance wf_insertDNSChunk chunk : Preserves store_wf (insertDNSChunk chunk).
Proof. wf_stmt. apply wf_append_dns; [by apply forallb_host_exists|done]. Qed.
#[export] Instance wf_InsertDNSQueries rs : Preserves store_wf (InsertDNSQueries rs).
Proof. rewrite /InsertDNSQueries. case_match; apply _. Qed.
#[export] Instance wf_PruneDNSQueries c : Preserves store_wf (PruneDNSQueries c).
Proof. apply preserves_exec. intros t. apply wf_filter_dns. Qed.

Lemma wf_set_peer k v t : k.1.1 ∈ host_ids t → wf t → wf (set_peers (<[k := v]> (known_peers t)) t).
Proof. intros Hk Ht. destruct Ht. split; try done. by apply map_Forall_insert_2. Qed.

#[export] Instance wf_UpsertKnownPeer h ip port ts : Preserves store_wf (UpsertKnownPeer h ip port ts).
Proof.
  wf_stmt; (apply wf_set_peer; [|done]);
    first [by apply host_exists_spec
          |match goal with H : _ !! _ = Some _ |- _ => exact (wf_peers _ Ht _ _ H) end].
Qed.

#[export] Instance wf_InsertAlert a : Preserves store_wf (InsertAlert a).
Proof.
  wf_stmt. destruct Ht as [???????????[??]?]. split; try done; simpl; rewrite fmap_app.
  - split; [|lia]. apply (wf_ids_snoc (alerts_seq t)); [done|lia|done].
  - apply Forall_app. split; [done|]. repeat constructor. by apply host_exists_spec.
Qed.
#[export] Instance wf_AcknowledgeAlert id : Preserves store_wf (AcknowledgeAlert id).
Proof. apply preserves_exec. intros t Ht. apply wf_map_alerts; [|done]. intros r. by case_match. Qed.
#[export] Instance wf_AcknowledgeAllAlerts kind : Preserves store_wf (AcknowledgeAllAlerts kind).
Proof. wf_stmt. apply wf_map_alerts; [|done]. intros r. by case_match. Qed.

#[export] Instance wf_upsert_rollup table select : Preserves store_wf (upsert_rollup table select).
Proof.
  apply preserves_stmt. intros t [] t' Ht. simpl.
  match goal with |- context [forallb ?f ?l] => destruct (forallb f l) eqn:Hr end; [|done]. intros [= <-].
  apply wf_set_rollup; [|done]. apply (foldl_upsert_keys (λ k, k.1.1 ∈ host_ids t)).
  - rewrite forallb_forall in Hr. apply Forall_forall. intros kc Hkc. apply list_elem_of_In in Hkc.
    apply Hr in Hkc as [[c Hc]%bool_decide_eq_true|Hh]%orb_true_iff.
    + exact (wf_rollup_table t table Ht _ _ Hc).
    + by apply host_exists_spec.
  - by apply wf_rollup_table.
Qed.
#[export] Instance wf_RollupFromFlowsRecent {o : Order} from to : Preserves store_wf (RollupFromFlowsRecent from to).
Proof. apply _. Qed.
#[export] Instance wf_RollupFromFiner {o : Order} src dst w from to :
  Preserves store_wf (RollupFromFiner src dst w from to).
Proof. rewrite /RollupFromFiner. repeat case_match; apply _. Qed.
#[export] Instance wf_PruneRollup g c : Preserves store_wf (PruneRollup g c).
Proof.
  rewrite /PruneRollup. case_match; [|apply _]. apply preserves_exec. intros t Ht.
  apply wf_set_rollup; [|done]. apply map_Forall_filter. by apply wf_rollup_table.
Qed.
#[export] Instance wf_IncrementalVacuum : Preserves store_wf IncrementalVacuum.
Proof. apply _. Qed.

#[export] Instance wf_CreateSession token u c e : Preserves store_wf (CreateSession token u c e).
Proof.
  wf_stmt. apply wf_set_sessions; [|done]. apply map_Forall_insert_2; [|apply Ht]. simpl.
  match goal with H : find_user _ _ = Some _ |- _ => apply find_user_some in H as [<- ?] end.
  by apply list_elem_of_fmap_2.
Qed.
#[export] Instance wf_ElevateSession token u : Preserves store_wf (ElevateSession token u).
Proof.
  apply preserves_exec. intros t Ht. apply wf_set_sessions; [|done]. intros k r.
  rewrite lookup_alter_Some. intros [(-> & r0 & Hr0 & ->)|[_ Hr]];
    [by apply (wf_sessions _ Ht k r0)|by apply (wf_sessions _ Ht k r)].
Qed.
#[export] Instance wf_DeleteSession token : Preserves store_wf (DeleteSession token).
Proof. apply preserves_exec. intros t Ht. apply wf_set_sessions; [|done]. by apply map_Forall_delete, Ht. Qed.
#[export] Instance wf_PruneExpiredSessions now : Preserves store_wf (PruneExpiredSessions now).
Proof. apply preserves_exec. intros t Ht. apply wf_set_sessions; [|done]. apply map_Forall_filter, Ht. Qed.

#[export] Instance wf_SetSetting k v : Preserves store_wf (SetSetting k v).
Proof. apply preserves_exec. intros t. apply wf_set_settings. Qed.
#[export] Instance wf_SetSettings {o : Order} kv : Preserves store_wf (SetSettings kv).
Proof.
  apply preserves_transaction. apply preserves_bind; [apply _|]. intros [[]|]; [|apply _].
  apply preserves_try_each. intros [k v]. apply preserves_exec. intros t. apply wf_set_settings.
Qed.
#[export] Instance wf_DetectorEnabled k : Preserves store_wf (DetectorEnabled k).
Proof. apply _. Qed.

#[export] Instance wf_CreateUser name hash role ts : Preserves store_wf (CreateUser name hash role ts).
Proof.
  wf_stmt. destruct Ht as [[??]]. split; try done; simpl; rewrite /user_ids /= ?fmap_app.
  - split; [|lia]. apply (wf_ids_snoc (users_seq t)); [done|lia|done].
  - apply NoDup_app. split_and!; [done| |apply NoDup_singleton].
    intros i Hi Hn%list_elem_of_singleton. apply list_elem_of_fmap in Hi as (u & Hi & Hu).
    match goal with H : existsb _ _ = false |- _ => apply not_true_iff_false in H; apply H end.
    apply existsb_exists. exists u. split; [by apply list_elem_of_In|apply bool_decide_eq_true; simpl in *; congruence].
  - eapply map_Forall_impl; [eassumption|]. simpl. intros _ r Hr. apply elem_of_app. by left.
Qed.
#[export] Instance wf_UpdateUserRole id role : Preserves store_wf (UpdateUserRole id role).
Proof.
  apply preserves_exec. intros t Ht.
  assert (∀ B (g : User → B), (∀ u, g (mkUser (u_ID u) (u_Username u) (u_PasswordHash u) role (u_CreatedAt u)) = g u) →
    g <$> ((λ u, if u_ID u =? id then mkUser (u_ID u) (u_Username u) (u_PasswordHash u) role (u_CreatedAt u)
                 else u) <$> users t) = g <$> users t) as E.
  { intros B g Hg. rewrite -list_fmap_compose. apply list_fmap_ext. intros ? u ?. simpl. by case_match. }
  destruct Ht. split; rewrite /user_ids /= ?E //.
Qed.
#[export] Instance wf_DeleteUser id : Preserves store_wf (DeleteUser id).
Proof.
  apply preserves_exec. intros t Ht. destruct Ht as [[??]]. split; try done; simpl.
  - split; [|done]. eapply wf_ids_sublist; [apply sublist_fmap_filter|done].
  - eapply sublist_NoDup; [|apply sublist_fmap_filter]; done.
  - intros k r [Hr Hne]%map_lookup_filter_Some. simpl in Hne.
    match goal with H : map_Forall _ (sessions t) |- _ => specialize (H k r Hr); simpl in H; rename H into Hu end.
    apply list_elem_of_fmap in Hu as (u & Hu1 & Hu2). apply list_elem_of_fmap. exists u.
    split; [done|]. apply list_elem_of_filter. split; [congruence|done].
Qed.

#[export] Instance wf_find_stmt {A} (f : Tables → option A) :
  Preserves store_wf (stmt (λ t, match f t with Some x => Ok (x, t) | None => Err ErrNotFound end)).
Proof. wf_stmt. Qed.
#[export] Instance wf_SessionByToken token : Preserves store_wf (SessionByToken token).
Proof. wf_stmt. Qed.
#[export] Instance wf_PasswordHashByUserID id : Preserves store_wf (PasswordHashByUserID id).
Proof. wf_stmt. Qed.

(** ** Batched inserts *)
Lemma chunks_go_concat {A} n : (0 < n)%nat → ∀ fuel (l : list A), (length l ≤ fuel)%nat → concat (chunks_go fuel n l) = l.
Proof.
  intros Hn. induction fuel as [|f IH]; intros l Hl.
  - by destruct l; simpl in Hl; [|lia].
  - destruct l as [|x l]; [done|]. rewrite -{2}(take_drop n (x :: l)). simpl concat. f_equal.
    apply IH. rewrite length_drop. simpl in *. lia.
Qed.

Lemma chunks_concat {A} n (l : list A) : (0 < n)%nat → concat (chunks n l) = l.
Proof. intros Hn. by apply chunks_go_concat. Qed.

Lemma number_app {A} (l1 l2 : list A) : ∀ n,
  number n (l1 ++ l2) = number n l1 ++ number (n + Z.of_nat (length l1)) l2.
Proof.
  induction l1 as [|x l1 IH]; intros n; simpl; [by rewrite Z.add_0_r|].
  rewrite IH. do 2 f_equal. f_equal. lia.
Qed.

(** A table of rows that belong to hosts, filled by multi-row inserts in one
    transaction: [append] adds rows, [chunk] is the insert of one slice. *)
Section batch.
Context {R : Type} (host : R → Z) (append : list R → Tables → Tables) (n : nat).
Context (append_nil : ∀ t, append [] t = t)
        (append_app : ∀ l1 l2 t, append (l1 ++ l2) t = append l2 (append l1 t))
        (append_hosts : ∀ l t, hosts (append l t) = hosts t)
        (n_pos : (0 < n)%nat).

Definition insert_chunk (chunk : list R) : DB unit :=
  stmt (λ t, if forallb (λ r, host_exists t (host r)) chunk then Ok (tt, append chunk t) else Err ErrForeignKey).
Definition insert_batch (rs : list R) : DB unit :=
  match rs with
  | [] => ret (Ok tt)
  | _ => transaction (try_each insert_chunk (chunks n rs))
  end.

Lemma host_exists_append l t id : host_exists (append l t) id = host_exists t id.
Proof. by rewrite /host_exists append_hosts. Qed.

Lemma try_chunks_ok cs s s' :
  try_each insert_chunk cs s = (Ok tt, s') → tables s' = append (concat cs) (tables s).
Proof.
  revert s s'. apply (try_each_ok _ (λ cs s s', tables s' = append (concat cs) (tables s))).
  - intros s. simpl. by rewrite append_nil.
  - intros c l s s1 s2 H%stmt_cases ->. simpl. rewrite append_app. f_equal.
    destruct H as [H _]. by case_match; simplify_eq.
Qed.

Lemma try_chunks_run cs : ∀ t,
  Forall (λ r, host_exists t (host r) = true) (concat cs) →
  try_each insert_chunk cs (mkStore t []) = (Ok tt, mkStore (append (concat cs) t) []).
Proof.
  induction cs as [|c cs IH]; intros t Hcs; simpl.
  - by rewrite append_nil.
  - simpl in Hcs. apply Forall_app in Hcs as [Hc Hcs].
    rewrite /bind {1}/insert_chunk /stmt /=.
    assert (forallb (λ r, host_exists t (host r)) c = true) as ->.
    { apply forallb_forall. intros r Hr%list_elem_of_In. rewrite Forall_forall in Hc. by apply Hc. }
    rewrite append_app. apply (IH (append c t)). eapply Forall_impl; [exact Hcs|].
    intros r. by rewrite host_exists_append.
Qed.

(** The whole batch is appended in order, or nothing is and an error is
    reported. *)
Lemma insert_batch_cases rs s r s' :
  insert_batch rs s = (r, s') → tables s' = if is_ok r then append rs (tables s) else tables s.
Proof.
  rewrite /insert_batch. destruct rs as [|r0 rs0]; [intros [= <- <-]; by rewrite append_nil|].
  intros H%transaction_cases. destruct r as [[]|e]; simpl; [|done].
  destruct H as (s1 & s2 & E1 & E2%try_chunks_ok & E3). by rewrite E3 E2 E1 chunks_concat.
Qed.

Lemma insert_batch_run rs t :
  Forall (λ r, host r ∈ host_ids t) rs →
  insert_batch rs (mkStore t []) = (Ok tt, mkStore (append rs t) []).
Proof.
  intros Hrs. rewrite /insert_batch. destruct rs as [|r0 rs0]; [by rewrite append_nil|].
  pose proof (try_chunks_run (chunks n (r0 :: rs0)) t) as H. rewrite chunks_concat // in H.
  remember (chunks n (r0 :: rs0)) as cs. rewrite /transaction /exec /stmt /= H //.
  eapply Forall_impl; [exact Hrs|]. intros r. apply host_exists_spec.
Qed.

Lemma insert_batch_missing rs s r :
  r ∈ rs → host r ∉ host_ids (tables s) → is_ok (insert_batch rs s).1 = false.
Proof.
  intros Hr Hh. rewrite -host_exists_spec in Hh. apply not_true_is_false in Hh.
  destruct (insert_batch rs s) as [res s'] eqn:E. simpl. destruct res as [[]|]; [|done]. exfalso.
  rewrite /insert_batch in E. destruct rs as [|r0 rs0]; [by apply elem_of_nil in Hr|].
  apply transaction_cases in E as (s1 & s2 & E1 & E2 & _).
  rewrite -(chunks_concat n (r0 :: rs0)) // in Hr. revert Hr. rewrite -E1 in Hh. clear E1.
  revert s1 s2 E2 Hh. generalize (chunks n (r0 :: rs0)) as cs.
  induction cs as [|c cs IH]; intros s1 s2 E Hh Hr; [by apply elem_of_nil in Hr|].
  simpl in E, Hr. rewrite /bind in E. destruct (insert_chunk c s1) as [[[]|] s3] eqn:E3; [|done].
  apply stmt_cases in E3 as [E3 _].
  destruct (forallb (λ r, host_exists (tables s1) (host r)) c) eqn:Ec; [|done].
  injection E3 as E3. apply elem_of_app in Hr as [Hr|Hr].
  - rewrite forallb_forall in Ec. apply list_elem_of_In, Ec in Hr. congruence.
  - apply (IH s3 s2 E); [by rewrite -E3 host_exists_append|done].
Qed.
End batch.

(** The two tables filled that way. *)
Definition appended_flows (rs : list FlowRecord) (t : Tables) : Tables :=
  set_flows (flows_recent t ++ number (flows_seq t + 1) rs) (flows_seq t + Z.of_nat (length rs)) t.
Definition appended_dns (rs : list DNSQueryRecord) (t : Tables) : Tables :=
  set_dns (dns_queries t ++ number (dns_seq t + 1) rs) (dns_seq t + Z.of_nat (length rs)) t.

Lemma appended_flows_app l1 l2 t : appended_flows (l1 ++ l2) t = appended_flows l2 (appended_flows l1 t).
Proof.
  rewrite /appended_flows /set_flows /=. f_equal; [|rewrite length_app; lia].
  rewrite -app_assoc number_app. do 2 f_equal. f_equal. lia.
Qed.
Lemma appended_flows_nil t : appended_flows [] t = t.
Proof. destruct t. rewrite /appended_flows /set_flows /= app_nil_r Z.add_0_r //. Qed.
Lemma appended_dns_app l1 l2 t : appended_dns (l1 ++ l2) t = appended_dns l2 (appended_dns l1 t).
Proof.
  rewrite /appended_dns /set_dns /=. f_equal; [|rewrite length_app; lia].
  rewrite -app_assoc number_app. do 2 f_equal. f_equal. lia.
Qed.
Lemma appended_dns_nil t : appended_dns [] t = t.
Proof. destruct t. rewrite /appended_dns /set_dns /= app_nil_r Z.add_0_r //. Qed.

Lemma InsertFlows_batch : InsertFlows = insert_batch f_HostID appended_flows flowInsertChunk.
Proof. done. Qed.
Lemma InsertDNSQueries_batch : InsertDNSQueries = insert_batch q_HostID appended_dns dnsInsertChunk.
Proof. done. Qed.

Lemma chunk_pos : (0 < 500)%nat.
Proof. lia. Qed.

Lemma InsertFlows_cases rs s r s' :
  InsertFlows rs s = (r, s') → tables s' = if is_ok r then appended_flows rs (tables s) else tables s.
Proof.
  rewrite InsertFlows_batch. apply insert_batch_cases; [apply appended_flows_nil|apply appended_flows_app|apply chunk_pos].
Qed.
Lemma InsertFlows_run rs t :
  Forall (λ r, f_HostID r ∈ host_ids t) rs →
  InsertFlows rs (mkStore t []) = (Ok tt, mkStore (appended_flows rs t) []).
Proof.
  rewrite InsertFlows_batch.
  apply insert_batch_run; [apply appended_flows_nil|apply appended_flows_app|done|apply chunk_pos].
Qed.
Lemma InsertFlows_missing rs s r :
  r ∈ rs → f_HostID r ∉ host_ids (tables s) → is_ok (InsertFlows rs s).1 = false.
Proof. rewrite InsertFlows_batch. apply insert_batch_missing; [done|apply chunk_pos]. Qed.
Lemma InsertDNSQueries_run rs t :
  Forall (λ r, q_HostID r ∈ host_ids t) rs →
  InsertDNSQueries rs (mkStore t []) = (Ok tt, mkStore (appended_dns rs t) []).
Proof.
  rewrite InsertDNSQueries_batch.
  apply insert_batch_run; [apply appended_dns_nil|apply appended_dns_app|done|apply chunk_pos].
Qed.

(** ** Hosts *)
Lemma upsert_host_found ip seenAt t h :
  wf t → h ∈ hosts t → h_IP h = ip → (upsert_host ip seenAt t).1 = h_ID h.
Proof.
  intros Ht Hh <-. rewrite /upsert_host. by rewrite (head_filter_key h_IP _ h (wf_host_ips _ Ht) Hh).
Qed.

Lemma upsert_host_row ip seenAt t :
  wf t →
  let '(id, t') := upsert_host ip seenAt t in
  ∃ h', h' ∈ hosts t' ∧ h_ID h' = id ∧ h_IP h' = ip ∧ seenAt ≤ h_LastSeen h'.
Proof.
  intros Ht. rewrite /upsert_host. destruct (head _) as [h0|] eqn:E; simpl.
  - apply head_filter_some in E as [Hip Hh0].
    exists (mkHost (h_ID h0) (h_IP h0) (h_DisplayName h0) (h_MACAddress h0) (h_FirstSeen h0)
              (Z.max (h_LastSeen h0) seenAt)). simpl. split_and!; try done; try lia.
    apply list_elem_of_fmap. exists h0. by rewrite bool_decide_eq_true_2.
  - eexists. split; [apply elem_of_app; right; by left|]. split_and!; simpl; done || lia.
Qed.

Lemma upsert_host_others ip seenAt t h :
  h_IP h ≠ ip → h ∈ hosts (upsert_host ip seenAt t).2 ↔ h ∈ hosts t.
Proof.
  intros Hne. rewrite /upsert_host. destruct (head _) as [h0|] eqn:E; simpl.
  - rewrite list_elem_of_fmap. split.
    + intros (h1 & -> & Hh1). case_bool_decide; [done|done].
    + intros Hh. exists h. by rewrite bool_decide_eq_false_2.
  - rewrite elem_of_app list_elem_of_singleton. split; [|by left]. by intros [?| ->].
Qed.

Lemma upsert_host_ids ip seenAt t i : i ∈ host_ids t → i ∈ host_ids (upsert_host ip seenAt t).2.
Proof.
  rewrite /upsert_host. destruct (head _) as [h0|] eqn:E; simpl; rewrite /host_ids /=.
  - intros (h & -> & Hh)%list_elem_of_fmap. rewrite -list_fmap_compose. apply list_elem_of_fmap.
    exists h. split; [|done]. simpl. by case_match.
  - intros Hi. rewrite fmap_app. apply elem_of_app. by left.
Qed.

(** ** The store as a whole *)

(** A call of an operation that changes the database. *)
Inductive Call :=
  | CUpsertHost (ip : string) (seenAt : Z) | CSetHostMAC (id : Z) (mac : string)
  | CSetHostDisplayNameByMAC (mac hostname : string)
  | CUpsertDHCPHostname (mac hostname : string) (seenAt : Z)
  | CInsertFlows (rs : list FlowRecord) | CPruneFlowsRecent (cutoff : Z)
  | CInsertDNSQueries (rs : list DNSQueryRecord) | CPruneDNSQueries (cutoff : Z)
  | CUpsertKnownPeer (id : Z) (ip : string) (port seenAt : Z)
  | CInsertAlert (a : AlertRecord) | CAcknowledgeAlert (id : Z) | CAcknowledgeAllAlerts (kind : string)
  | CRollupFromFlowsRecent (from to : Z)
  | CRollupFromFiner (src dst : string) (width from to : Z) | CPruneRollup (g : string) (cutoff : Z)
  | CCreateSession (token : string) (user created expires : Z) | CElevateSession (token : string) (until : Z)
  | CDeleteSession (token : string) | CPruneExpiredSessions (now : Z)
  | CSetSetting (k v : string) | CSetSettings (kv : gmap string string)
  | CCreateUser (name hash role : string) (created : Z) | CUpdateUserRole (id : Z) (role : string)
  | CDeleteUser (id : Z).

Definition run_call {o : Order} (c : Call) : M Store unit :=
  match c with
  | CUpsertHost ip ts => ignore (UpsertHost ip ts)
  | CSetHostMAC id mac => ignore (SetHostMAC id mac)
  | CSetHostDisplayNameByMAC mac name => ignore (SetHostDisplayNameByMAC mac name)
  | CUpsertDHCPHostname mac name ts => ignore (UpsertDHCPHostname mac name ts)
  | CInsertFlows rs => ignore (InsertFlows rs)
  | CPruneFlowsRecent c => ignore (PruneFlowsRecent c)
  | CInsertDNSQueries rs => ignore (InsertDNSQueries rs)
  | CPruneDNSQueries c => ignore (PruneDNSQueries c)
  | CUpsertKnownPeer id ip port ts => ignore (UpsertKnownPeer id ip port ts)
  | CInsertAlert a => ignore (InsertAlert a)
  | CAcknowledgeAlert id => ignore (AcknowledgeAlert id)
  | CAcknowledgeAllAlerts kind => ignore (AcknowledgeAllAlerts kind)
  | CRollupFromFlowsRecent from to => ignore (RollupFromFlowsRecent from to)
  | CRollupFromFiner src dst w from to => ignore (RollupFromFiner src dst w from to)
  | CPruneRollup g c => ignore (PruneRollup g c)
  | CCreateSession token u c e => ignore (CreateSession token u c e)
  | CElevateSession token u => ignore (ElevateSession token u)
  | CDeleteSession token => ignore (DeleteSession token)
  | CPruneExpiredSessions now => ignore (PruneExpiredSessions now)
  | CSetSetting k v => ignore (SetSetting k v)
  | CSetSettings kv => ignore (SetSettings kv)
  | CCreateUser name hash role ts => ignore (CreateUser name hash role ts)
  | CUpdateUserRole id role => ignore (UpdateUserRole id role)
  | CDeleteUser id => ignore (DeleteUser id)
  end.

#[export] Instance wf_run_call {o : Order} c : Preserves store_wf (run_call c).
Proof. destruct c; apply _. Qed.

(** A host with the address of its network card filled in. *)
Definition with_mac (mac : string) (h : Host) : Host :=
  mkHost (h_ID h) (h_IP h) (h_DisplayName h) (Some mac) (h_FirstSeen h) (h_LastSeen h).

Module StoreProperties.

(** The invariant the other theorems assume is not vacuous: whatever sequence of
    operations runs from an empty database, whichever
    statements the database fails, and in whatever order rows are visited,
    the schema's constraints hold: ids, user names and host addresses are
    unique, ids stay within their sequence, and every flow, rollup, known
    peer, DNS query and alert belongs to an existing host and every session
    to an existing user, as SQLite enforces it with [foreign_keys] on. *)
Theorem store_constraints_hold {o : Order} (calls : list Call) (fs : list bool) :
  wf (tables (for_each run_call calls (mkStore emptyTables fs)).2).
Proof. apply (preserves (I := store_wf) (m := for_each run_call calls)). apply wf_empty. Qed.

(** C11: a batch of flows is stored as a whole and in order, or not at all:
    when the insert reports success the new rows are exactly the batch after
    the old ones; when it reports an error nothing changed; and when the
    database does not fail a statement, it succeeds exactly when every record
    belongs to a known host, so one unknown host loses the batch. *)
Theorem insert_flows_atomic (rs : list FlowRecord) (s : Store) :
  let '(r, s') := InsertFlows rs s in
  (if is_ok r
   then (flows_recent (tables s')).*2 = (flows_recent (tables s)).*2 ++ rs ∧ hosts (tables s') = hosts (tables s)
   else tables s' = tables s) ∧
  (faults s = [] → is_ok r = true ↔ Forall (λ f, f_HostID f ∈ host_ids (tables s)) rs).
Proof.
  destruct (InsertFlows rs s) as [r s'] eqn:E. split.
  - pose proof (InsertFlows_cases rs s r s' E) as H. destruct (is_ok r); [|done].
    rewrite H /appended_flows /= fmap_app number_snd //.
  - intros Hf. destruct s as [t fs]. simpl in Hf. subst fs. split.
    + intros Hok. apply Forall_forall. intros f Hin.
      destruct (decide (f_HostID f ∈ host_ids t)) as [|Hn]; [done|].
      pose proof (InsertFlows_missing rs (mkStore t []) f Hin Hn) as Hm. rewrite E /= Hok // in Hm.
    + intros Hall. rewrite InsertFlows_run // in E. by injection E as <- <-.
Qed.

Definition flow0 (host : Z) : FlowRecord :=
  mkFlowRecord host 0 6 "192.168.1.5" 40000 "8.8.8.8" 443 100 160 1500 4200 3 5.

Lemma insert_flows_atomic_witness :
  let s := mkStore (upsert_host "192.168.1.5" 100 emptyTables).2 [] in
  is_ok (InsertFlows [flow0 1; flow0 1] s).1 = true ∧ is_ok (InsertFlows [flow0 1; flow0 2] s).1 = false.
Proof.
  intros s. split.
  - pose proof (insert_flows_atomic [flow0 1; flow0 1] s) as H.
    destruct (InsertFlows [flow0 1; flow0 1] s) as [r s']. apply H; [reflexivity|].
    repeat constructor; vm_compute; left.
  - pose proof (insert_flows_atomic [flow0 1; flow0 2] s) as H.
    destruct (InsertFlows [flow0 1; flow0 2] s) as [r s']. destruct H as [_ H]. simpl.
    destruct (is_ok r); [|reflexivity]. exfalso.
    assert (Forall (λ f, f_HostID f ∈ host_ids (tables s)) [flow0 1; flow0 2]) as Hall
      by (apply H; reflexivity).
    apply Forall_cons_1 in Hall as [_ Hall]. apply Forall_cons_1 in Hall as [Hall _].
    change (2 ∈ [1]) in Hall. apply list_elem_of_singleton in Hall. discriminate Hall.
Defined.

(** Recording an address returns the id of the one host with that
    address, creates it if it was new, never moves its last activity back, and
    leaves every other host as it was; asking again gives the same id. *)
Theorem upsert_host_identity (ip : string) (seenAt seenAt' : Z) (t : Tables) :
  wf t →
  let '(id, t') := upsert_host ip seenAt t in
  (∃ h, find_host t' id = Some h ∧ h_IP h = ip ∧ seenAt ≤ h_LastSeen h) ∧
  (∀ h, h_IP h ≠ ip → h ∈ hosts t' ↔ h ∈ hosts t) ∧
  (∀ h, h ∈ hosts t → h_IP h = ip → id = h_ID h) ∧
  (upsert_host ip seenAt' t').1 = id.
Proof.
  intros Ht. destruct (upsert_host ip seenAt t) as [id t'] eqn:E.
  pose proof (upsert_host_row ip seenAt t Ht) as Hr. rewrite E in Hr.
  assert (wf t') as Ht' by (pose proof (wf_upsert_host ip seenAt t Ht) as H; by rewrite E in H).
  destruct Hr as (h' & Hin & Hid & Hip & Hseen). split_and!.
  - exists h'. rewrite -Hid. by rewrite find_host_wf.
  - intros h Hne. pose proof (upsert_host_others ip seenAt t h Hne) as H. by rewrite E in H.
  - intros h Hh Hh'. pose proof (upsert_host_found ip seenAt t h Ht Hh Hh') as H. by rewrite E in H.
  - by rewrite (upsert_host_found ip seenAt' t' h').
Qed.

Lemma upsert_host_identity_witness :
  (upsert_host "10.0.0.2" 50 (upsert_host "10.0.0.2" 10 (upsert_host "10.0.0.1" 5 emptyTables).2).2).1 = 2.
Proof.
  assert (wf (upsert_host "10.0.0.1" 5 emptyTables).2) as Hwf by apply wf_upsert_host, wf_empty.
  pose proof (upsert_host_identity "10.0.0.2" 10 50 _ Hwf) as H.
  destruct (upsert_host "10.0.0.2" 10 (upsert_host "10.0.0.1" 5 emptyTables).2) as [id t'] eqn:E.
  destruct H as (_ & _ & _ & H). simpl. rewrite H.
  vm_compute in E. injection E as <- _. reflexivity.
Defined.

(** A successful DHCP sighting names every host that carries the MAC
    address at that moment and records the name under the MAC; but a host
    whose MAC is only learned afterwards keeps its old display name, so the
    two tables then disagree until the next sighting. *)
Theorem dhcp_name_propagation (mac name : string) (seenAt : Z) (s : Store) :
  let '(r, s') := UpsertDHCPHostname mac name seenAt s in
  is_ok r = true →
  (∀ h, h ∈ hosts (tables s') → h_MACAddress h = Some mac → h_DisplayName h = Some name) ∧
  fst <$> dhcp_hostnames (tables s') !! mac = Some name ∧
  (∀ h, h ∈ hosts (tables s') → h_MACAddress h ≠ Some mac →
     with_mac mac h ∈ hosts (set_host_mac (h_ID h) mac (tables s'))).
Proof.
  rewrite /with_mac.
  destruct (UpsertDHCPHostname mac name seenAt s) as [r s'] eqn:E. intros Hok.
  apply transaction_cases in E. destruct r as [[]|]; [|done].
  destruct E as (s1 & s2 & E1 & E2 & E3). rewrite /bind in E2.
  destruct (exec _ s1) as [r1 s3] eqn:E4 in E2. apply exec_cases in E4.
  destruct r1 as [[]|]; [|done]. destruct E4 as [[_ E4]|[? _]]; [|done].
  apply exec_cases in E2 as [[_ E2]|[? _]]; [|done]. rewrite E3 E2 E4. split_and!.
  - simpl. intros h (h0 & -> & Hh0)%list_elem_of_fmap.
    destruct (bool_decide (h_MACAddress h0 = Some mac)) eqn:B1; simpl.
    + destruct (bool_decide (h_DisplayName h0 = Some name)) eqn:B2; simpl; [|done].
      by apply bool_decide_eq_true in B2.
    + intros Hm. by apply bool_decide_eq_false in B1.
  - simpl. by rewrite lookup_insert_eq.
  - intros h Hh Hm. rewrite /set_host_mac /=. apply list_elem_of_fmap. exists h.
    split; [|done]. by rewrite Z.eqb_refl bool_decide_eq_false_2.
Qed.

(** Host 1 gets the MAC address after the name was seen: no display name. *)
Lemma dhcp_name_propagation_witness :
  let s := mkStore (upsert_host "192.168.1.5" 100 emptyTables).2 [] in
  let s' := (UpsertDHCPHostname "aa:bb" "laptop" 100 s).2 in
  mkHost 1 "192.168.1.5" None (Some "aa:bb"%string) 100 100 ∈ hosts (set_host_mac 1 "aa:bb" (tables s')).
Proof.
  intros s. pose proof (dhcp_name_propagation "aa:bb" "laptop" 100 s) as H.
  destruct (UpsertDHCPHostname "aa:bb" "laptop" 100 s) as [r s'] eqn:E.
  vm_compute in E. injection E as <- <-. destruct (H eq_refl) as (_ & _ & H').
  apply (H' (mkHost 1 "192.168.1.5" None None 100 100)); [left|discriminate].
Defined.

End StoreProperties.
