(* ===== verification/Capture.v ===== *)
(** * Capture data types ([internal/capture/capture.go])

    Packets, flow keys and the events a decoded packet produces, with the
    decidable equality and countability the maps keyed by them need. *)

From stdpp Require Import prelude strings gmap.
From Stdlib Require Import ZArith.
From Corelib Require Import ssreflect.
From S2P Require Import Prelude GoNet GoTime.

Open Scope Z_scope.

(** One captured frame, timestamped by the source. *)
Record RawPacket := mkRawPacket { Data : bytes; PTimestamp : Time }.

(** A flow's identity for aggregation. *)
Record FlowKey := mkFlowKey {
  Direction : Z; Proto : Z;
  LocalIP : string; LocalPort : Z;
  RemoteIP : string; RemotePort : Z
}.

#[export] Instance FlowKey_eq_dec : EqDecision FlowKey.
Proof. solve_decision. Defined.
#[export] Instance FlowKey_countable : Countable FlowKey.
Proof.
  apply (inj_countable'
    (λ k, (Direction k, Proto k, LocalIP k, LocalPort k, RemoteIP k, RemotePort k))
    (λ '(d, p, li, lp, ri, rp), mkFlowKey d p li lp ri rp)).
  by intros [].
Defined.

(** One decoded packet's contribution to a flow. *)
Record FlowEvent := mkFlowEvent {
  Key : FlowKey;
  FTimestamp : Time;
  Bytes : Z;
  IsLocalSrc : bool;
  LocalMAC : string
}.

Record DNSQueryEvent := mkDNSQueryEvent {
  DLocalIP : string; DQName : string; DQType : Z; DTimestamp : Time
}.

Record DHCPHostnameEvent := mkDHCPHostnameEvent {
  HMAC : string; HHostname : string; HTimestamp : Time
}.
