(* ===== verification/Aggregator.v ===== *)
(** * The flow aggregator ([internal/capture/aggregator.go])

    The mutex-guarded table of flow counters between flushes.  [Add] and
    [Drain] each run under the lock, so they are atomic steps; counters are
    [int64] and wrap.

    The abstract specification is the list of events since the last drain: the
    theorems show that the table is a function of that list (earliest and
    latest time, sums modulo 2^64), that the order of the events does not
    matter, that no byte is lost between drains, and that any interleaving of
    adds and drains splits the events into the drained tables. *)

From stdpp Require Import prelude strings gmap list.
From Stdlib Require Import ZArith Lia.
From Corelib Require Import ssreflect.
From S2P Require Import Prelude GoTime Capture.

Open Scope general_if_scope.
Open Scope Z_scope.

Record FlowAccum := mkFlowAccum {
  FirstSeen : Z; LastSeen : Z;
  BytesSent : Z; BytesRecv : Z;
  PacketsSent : Z; PacketsRecv : Z
}.

Abbreviation Table := (gmap FlowKey FlowAccum).

Record Aggregator := mkAggregator { table : Table }.

Definition NewAggregator : Aggregator := mkAggregator ∅.

(** The body of [Add] on an existing accumulator. *)
Definition accumulate (evt : FlowEvent) (acc : FlowAccum) : FlowAccum :=
  let ts := Unix (FTimestamp evt) in
  let first := if ts <? FirstSeen acc then ts else FirstSeen acc in
  let last := if LastSeen acc <? ts then ts else LastSeen acc in
  if IsLocalSrc evt then
    mkFlowAccum first last (wrap_i64 (BytesSent acc + Bytes evt)) (BytesRecv acc)
      (wrap_i64 (PacketsSent acc + 1)) (PacketsRecv acc)
  else
    mkFlowAccum first last (BytesSent acc) (wrap_i64 (BytesRecv acc + Bytes evt))
      (PacketsSent acc) (wrap_i64 (PacketsRecv acc + 1)).

Definition fresh_accum (ts : Z) : FlowAccum := mkFlowAccum ts ts 0 0 0 0.

Definition Add (evt : FlowEvent) (a : Aggregator) : Aggregator :=
  let ts := Unix (FTimestamp evt) in
  let acc := default (fresh_accum ts) (table a !! Key evt) in
  mkAggregator (<[Key evt := accumulate evt acc]> (table a)).

(** Swap in a fresh table and return the previous one. *)
Definition Drain (a : Aggregator) : Table * Aggregator := (table a, mkAggregator ∅).

(** ** The specification *)

Definition ts_of (e : FlowEvent) : Z := Unix (FTimestamp e).
Definition sent_of (e : FlowEvent) : Z := if IsLocalSrc e then Bytes e else 0.
Definition recv_of (e : FlowEvent) : Z := if IsLocalSrc e then 0 else Bytes e.
Definition psent_of (e : FlowEvent) : Z := if IsLocalSrc e then 1 else 0.
Definition precv_of (e : FlowEvent) : Z := if IsLocalSrc e then 0 else 1.

Definition min_ts (t : Z) (es : list FlowEvent) : Z := foldr (λ e m, Z.min (ts_of e) m) t es.
Definition max_ts (t : Z) (es : list FlowEvent) : Z := foldr (λ e m, Z.max (ts_of e) m) t es.

(** The accumulator of a non-empty list of events of one flow. *)
Definition accum_of (e : FlowEvent) (es : list FlowEvent) : FlowAccum :=
  mkFlowAccum (min_ts (ts_of e) es) (max_ts (ts_of e) es)
    (wrap_i64 (sumZ sent_of (e :: es))) (wrap_i64 (sumZ recv_of (e :: es)))
    (wrap_i64 (sumZ psent_of (e :: es))) (wrap_i64 (sumZ precv_of (e :: es))).

Definition flow_events (k : FlowKey) (es : list FlowEvent) : list FlowEvent :=
  filter (λ e, Key e = k) es.

(** What the table holds for a flow after the events [es]. *)
Definition spec_lookup (k : FlowKey) (es : list FlowEvent) : option FlowAccum :=
  match flow_events k es with
  | [] => None
  | e :: es' => Some (accum_of e es')
  end.

Definition add_all (es : list FlowEvent) (a : Aggregator) : Aggregator :=
  foldl (λ a e, Add e a) a es.

(** ** Lemmas *)
Lemma min_ts_snoc t es e : min_ts t (es ++ [e]) = Z.min (ts_of e) (min_ts t es).
Proof. rewrite /min_ts. induction es as [|x es IH]; simpl; [done|]. rewrite IH. lia. Qed.
Lemma max_ts_snoc t es e : max_ts t (es ++ [e]) = Z.max (ts_of e) (max_ts t es).
Proof. rewrite /max_ts. induction es as [|x es IH]; simpl; [done|]. rewrite IH. lia. Qed.

Lemma wrap_i64_add x y : wrap_i64 (wrap_i64 x + y) = wrap_i64 (x + y).
Proof. apply wraps_add_l. Qed.

(** One more event of the flow. *)
Lemma accumulate_accum_of x e es : accumulate x (accum_of e es) = accum_of e (es ++ [x]).
Proof.
  rewrite /accumulate /accum_of min_ts_snoc max_ts_snoc /= !sumZ_cons !sumZ_app !sumZ_cons !sumZ_nil.
  rewrite /ts_of /sent_of /recv_of /psent_of /precv_of.
  destruct (IsLocalSrc x); rewrite !wrap_i64_add ?Z.add_0_r; f_equal;
    try (f_equal; lia); repeat case_match; lia.
Qed.

Lemma accumulate_fresh x : accumulate x (fresh_accum (ts_of x)) = accum_of x [].
Proof.
  rewrite /accumulate /accum_of /= !sumZ_cons !sumZ_nil.
  rewrite /ts_of /sent_of /recv_of /psent_of /precv_of !Z.ltb_irrefl.
  by destruct (IsLocalSrc x); rewrite !Z.add_0_r.
Qed.

Lemma add_all_snoc es e a : add_all (es ++ [e]) a = Add e (add_all es a).
Proof. by rewrite /add_all foldl_app. Qed.

(** The table is the specification of the events added to an empty one. *)
Lemma add_all_lookup es k : table (add_all es NewAggregator) !! k = spec_lookup k es.
Proof.
  induction es as [|e es IH] using rev_ind.
  { by rewrite /add_all /= lookup_empty. }
  rewrite add_all_snoc /Add /=. rewrite /spec_lookup /flow_events filter_app.
  rewrite -/(flow_events k es) filter_cons filter_nil.
  destruct (decide (Key e = k)) as [<-|Hk].
  - rewrite lookup_insert_eq IH /spec_lookup.
    destruct (flow_events (Key e) es) as [|x xs]; simpl.
    + f_equal. apply accumulate_fresh.
    + f_equal. apply accumulate_accum_of.
  - rewrite lookup_insert_ne // app_nil_r. exact IH.
Qed.

(** *** Order *)
Lemma min_ts_min es : ∀ t t', min_ts (Z.min t t') es = Z.min t (min_ts t' es).
Proof. induction es as [|x es IH]; intros t t'; simpl; [done|]. rewrite IH. lia. Qed.
Lemma max_ts_max es : ∀ t t', max_ts (Z.max t t') es = Z.max t (max_ts t' es).
Proof. induction es as [|x es IH]; intros t t'; simpl; [done|]. rewrite IH. lia. Qed.

(** The earliest time of a flow's events, whichever comes first. *)
Lemma min_ts_le t es z : z ≤ min_ts t es ↔ z ≤ t ∧ ∀ e, e ∈ es → z ≤ ts_of e.
Proof.
  induction es as [|x es IH]; simpl.
  - split; [|by intros []]. intros ?. split; [done|]. by intros e ?%elem_of_nil.
  - rewrite Z.min_glb_iff IH. setoid_rewrite elem_of_cons. naive_solver.
Qed.
Lemma max_ts_ge t es z : max_ts t es ≤ z ↔ t ≤ z ∧ ∀ e, e ∈ es → ts_of e ≤ z.
Proof.
  induction es as [|x es IH]; simpl.
  - split; [|by intros []]. intros ?. split; [done|]. by intros e ?%elem_of_nil.
  - rewrite Z.max_lub_iff IH. setoid_rewrite elem_of_cons. naive_solver.
Qed.

Lemma min_ts_perm e es e' es' :
  e :: es ≡ₚ e' :: es' → min_ts (ts_of e) es = min_ts (ts_of e') es'.
Proof.
  intros Hp. assert (∀ z, z ≤ min_ts (ts_of e) es ↔ z ≤ min_ts (ts_of e') es') as H.
  { intros z. rewrite !min_ts_le. rewrite -!(Forall_forall (λ x, z ≤ ts_of x)).
    rewrite -!(Forall_cons (λ x, z ≤ ts_of x)). by rewrite Hp. }
  apply Z.le_antisymm; [apply H|apply H]; lia.
Qed.
Lemma max_ts_perm e es e' es' :
  e :: es ≡ₚ e' :: es' → max_ts (ts_of e) es = max_ts (ts_of e') es'.
Proof.
  intros Hp. assert (∀ z, max_ts (ts_of e) es ≤ z ↔ max_ts (ts_of e') es' ≤ z) as H.
  { intros z. rewrite !max_ts_ge. rewrite -!(Forall_forall (λ x, ts_of x ≤ z)).
    rewrite -!(Forall_cons (λ x, ts_of x ≤ z)). by rewrite Hp. }
  apply Z.le_antisymm; [apply H|apply H]; lia.
Qed.

Lemma accum_of_perm e es e' es' : e :: es ≡ₚ e' :: es' → accum_of e es = accum_of e' es'.
Proof.
  intros Hp. rewrite /accum_of (min_ts_perm _ _ _ _ Hp) (max_ts_perm _ _ _ _ Hp).
  by rewrite !(sumZ_perm _ _ _ Hp).
Qed.

Lemma spec_lookup_perm k es es' : es ≡ₚ es' → spec_lookup k es = spec_lookup k es'.
Proof.
  intros Hp. rewrite /spec_lookup.
  assert (flow_events k es ≡ₚ flow_events k es') as Hf by (by rewrite /flow_events Hp).
  destruct (flow_events k es) as [|e l], (flow_events k es') as [|e' l'].
  - done.
  - by apply Permutation_nil_cons in Hf.
  - by apply symmetry, Permutation_nil_cons in Hf.
  - by rewrite (accum_of_perm _ _ _ _ Hf).
Qed.

(** *** Conservation *)
Definition sent_total (t : Table) : Z := sumZ (λ kv, BytesSent kv.2) (map_to_list t).
Definition recv_total (t : Table) : Z := sumZ (λ kv, BytesRecv kv.2) (map_to_list t).

(** The flow keys of some events, and the per-flow sums they carry. *)
Lemma map_to_list_add_all es :
  map_to_list (table (add_all es NewAggregator)) ≡ₚ
  omap (λ k, (k,.) <$> spec_lookup k es) (distinct_keys Key es).
Proof.
  set (m := table (add_all es NewAggregator)).
  assert (∀ k a, (k, a) ∈ omap (λ k, (k,.) <$> spec_lookup k es) (distinct_keys Key es) ↔
                 spec_lookup k es = Some a) as Hin.
  { intros k a. rewrite list_elem_of_omap. split.
    - intros (k' & _ & Hs). destruct (spec_lookup k' es) eqn:E; simplify_eq/=. done.
    - intros Hs. exists k. rewrite Hs. split; [|done]. apply elem_of_distinct_keys.
      rewrite /spec_lookup in Hs. destruct (flow_events k es) as [|e l] eqn:E; [done|].
      exists e. assert (e ∈ flow_events k es) as He by (rewrite E; left).
      by apply list_elem_of_filter in He as [? ?]. }
  apply NoDup_Permutation.
  - apply NoDup_map_to_list.
  - generalize (NoDup_distinct_keys Key es). clear Hin.
    induction (distinct_keys Key es) as [|k ks IH]; simpl; [constructor|].
    intros [Hk Hnd]%NoDup_cons. destruct (spec_lookup k es) as [a|]; simpl; [|by apply IH].
    constructor; [|by apply IH]. rewrite list_elem_of_omap.
    intros (k' & Hk' & Hs). by destruct (spec_lookup k' es); simplify_eq/=.
  - intros [k a]. rewrite elem_of_map_to_list Hin /m add_all_lookup //.
Qed.

(** A per-flow total that stays within [int64] is a plain sum. *)
Lemma table_sum (f : FlowAccum → Z) (g : FlowEvent → Z) es :
  (∀ e l, f (accum_of e l) = wrap_i64 (sumZ g (e :: l))) →
  (∀ e, e ∈ es → 0 ≤ g e) → sumZ g es ≤ max_i64 →
  sumZ (λ kv, f kv.2) (map_to_list (table (add_all es NewAggregator))) = sumZ g es.
Proof.
  intros Hf Hpos Hmax. rewrite map_to_list_add_all.
  rewrite -(sumZ_distinct_keys Key g (distinct_keys Key es) es);
    [apply NoDup_distinct_keys|intros x Hx; apply elem_of_distinct_keys; by exists x|].
  assert (∀ k, k ∈ distinct_keys Key es → ∃ a, spec_lookup k es = Some a ∧
            f a = sumZ g (filter (λ x, Key x = k) es)) as H.
  { intros k (e & He & Hk)%elem_of_distinct_keys. rewrite /spec_lookup /flow_events.
    destruct (filter (λ x, Key x = k) es) as [|x l] eqn:E.
    { assert (e ∈ filter (λ x, Key x = k) es) as Hin by (by apply list_elem_of_filter).
      rewrite E in Hin. by apply elem_of_nil in Hin. }
    eexists; split; [done|]. rewrite Hf. apply wraps_small; [done|]. rewrite -E /in_i.
    pose proof (sumZ_filter_split (λ x, Key x = k) g es) as Hs.
    assert (∀ P (Hd : ∀ x, Decision (P x)), 0 ≤ sumZ g (filter P es)) as Hnn.
    { intros P Hd. apply sumZ_nonneg. intros y [_ Hy]%list_elem_of_filter. auto. }
    pose proof (Hnn (λ x, Key x = k) _). pose proof (Hnn (λ x, ¬ Key x = k) _).
    cbn beta in *. change (64 - 1) with 63. lia. }
  clear Hmax. induction (distinct_keys Key es) as [|k ks IH]; [done|]. simpl.
  destruct (H k) as (a & Ha & Hfa); [by left|]. rewrite Ha /= !sumZ_cons /= Hfa. f_equal.
  apply IH. intros k' Hk'. apply H. by right.
Qed.

(** *** Interleavings of adds and drains *)
Inductive agg_op := OpAdd (e : FlowEvent) | OpDrain.

(** Running a sequence of operations: the tables drained, in order, and the
    aggregator left. *)
Fixpoint run_ops (ops : list agg_op) (a : Aggregator) : list Table * Aggregator :=
  match ops with
  | [] => ([], a)
  | OpAdd e :: ops' => run_ops ops' (Add e a)
  | OpDrain :: ops' =>
      let '(t, a') := Drain a in
      let '(ts, a'') := run_ops ops' a' in (t :: ts, a'')
  end.

(** The events between consecutive drains, the open segment last. *)
Fixpoint segments (ops : list agg_op) (cur : list FlowEvent) : list (list FlowEvent) * list FlowEvent :=
  match ops with
  | [] => ([], cur)
  | OpAdd e :: ops' => segments ops' (cur ++ [e])
  | OpDrain :: ops' => let '(ss, last) := segments ops' [] in (cur :: ss, last)
  end.

Definition table_of (es : list FlowEvent) : Table := table (add_all es NewAggregator).

Lemma run_ops_segments ops cur :
  let '(ts, a) := run_ops ops (add_all cur NewAggregator) in
  let '(ss, last) := segments ops cur in
  ts = table_of <$> ss ∧ table a = table_of last.
Proof.
  revert cur. induction ops as [|[e|] ops IH]; intros cur; simpl.
  - done.
  - rewrite -add_all_snoc. apply IH.
  - specialize (IH []). change (mkAggregator ∅) with (add_all [] NewAggregator).
    destruct (run_ops ops _) as [ts a], (segments ops []) as [ss last]. destruct IH as [-> ->].
    by split.
Qed.

(** The segments hold every event exactly once, in order. *)
Definition op_events (ops : list agg_op) : list FlowEvent :=
  omap (λ o, match o with OpAdd e => Some e | OpDrain => None end) ops.

Lemma segments_concat ops cur :
  mjoin (segments ops cur).1 ++ (segments ops cur).2 = cur ++ op_events ops.
Proof.
  revert cur. induction ops as [|[e|] ops IH]; intros cur; simpl.
  - by rewrite app_nil_r.
  - rewrite IH /op_events /= -app_assoc //.
  - specialize (IH []). destruct (segments ops []) as [ss last]. simpl in *.
    by rewrite -app_assoc IH.
Qed.

Module AggregatorProperties.

(** A small trace: two packets of one flow in each direction, one of another. *)
Definition key_a : FlowKey := mkFlowKey 0 6 "192.168.1.5" 40000 "8.8.8.8" 443.
Definition key_b : FlowKey := mkFlowKey 0 17 "192.168.1.6" 40001 "8.8.4.4" 53.
Definition ev (k : FlowKey) (t n : Z) (out : bool) : FlowEvent :=
  mkFlowEvent k (t * Second) n out EmptyString.
Definition sample : list FlowEvent :=
  [ev key_a 100 60 true; ev key_b 101 70 true; ev key_a 103 1500 false; ev key_a 99 40 true].

(** C6: after any sequence of events the accumulator of a flow holds the
    earliest and latest second of its events and, modulo 2^64, the sums of its
    bytes and packets in each direction; a flow without events has no entry.
    The table therefore does not depend on the order in which the events were
    added. *)
Theorem aggregator_refines_events (es : list FlowEvent) (k : FlowKey) :
  table (add_all es NewAggregator) !! k = spec_lookup k es ∧
  ∀ es', es' ≡ₚ es → table (add_all es' NewAggregator) !! k = spec_lookup k es.
Proof.
  split; [apply add_all_lookup|]. intros es' Hp. rewrite add_all_lookup. by apply spec_lookup_perm.
Qed.

(** No bytes are lost or counted twice between drains: as long as the
    totals stay within [int64], the bytes recorded over all flows of the table
    are exactly the bytes of the events, per direction. *)
Theorem aggregator_conserves_bytes (es : list FlowEvent) :
  (∀ e, e ∈ es → 0 ≤ Bytes e) → sumZ Bytes es ≤ max_i64 →
  sent_total (table (add_all es NewAggregator)) = sumZ sent_of es ∧
  recv_total (table (add_all es NewAggregator)) = sumZ recv_of es.
Proof.
  intros Hpos Hmax.
  assert (sumZ Bytes es = sumZ sent_of es + sumZ recv_of es) as Hsplit.
  { rewrite -sumZ_add. apply sumZ_ext. intros e _. rewrite /sent_of /recv_of. case_match; lia. }
  assert (∀ e, e ∈ es → 0 ≤ sent_of e ∧ 0 ≤ recv_of e) as Hp.
  { intros e He. specialize (Hpos e He). rewrite /sent_of /recv_of. case_match; lia. }
  assert (0 ≤ sumZ sent_of es ∧ 0 ≤ sumZ recv_of es) as [? ?].
  { split; apply sumZ_nonneg; intros e He; by apply Hp. }
  split; apply table_sum; try done; try lia; intros e He; by apply Hp.
Qed.

Lemma aggregator_conserves_bytes_witness :
  sent_total (table (add_all sample NewAggregator)) = 170.
Proof.
  destruct (aggregator_conserves_bytes sample) as [-> _].
  - intros e He. repeat (apply elem_of_cons in He as [->|He]; [simpl; lia|]). by apply elem_of_nil in He.
  - vm_compute. discriminate.
  - reflexivity.
Defined.

(** For every interleaving of adds and drains, the drained tables are the
    tables of consecutive segments of the event sequence, and the segments
    together with what is still pending hold every event exactly once and in
    order: a drain neither drops nor duplicates an event. *)
Theorem drains_partition_events (ops : list agg_op) :
  let '(ts, a) := run_ops ops NewAggregator in
  let '(ss, pending) := segments ops [] in
  ts = table_of <$> ss ∧ table a = table_of pending ∧ mjoin ss ++ pending = op_events ops.
Proof.
  pose proof (run_ops_segments ops []) as H. change (add_all [] NewAggregator) with NewAggregator in H.
  pose proof (segments_concat ops []) as Hc.
  destruct (run_ops ops NewAggregator) as [ts a], (segments ops []) as [ss pending].
  by destruct H as [-> ->].
Qed.

End AggregatorProperties.
