(* ===== verification/Decode.v ===== *)
(** * The packet decoder ([internal/capture/decode.go])

    The layer parsers of [gopacket] are not part of the program: the class
    [Gopacket] holds what [Decode] uses of them.  [DecodeLayers] overwrites the
    decoder's layer structs and lists the layers it recognised, so the structs
    of layers it did not recognise keep the values of an earlier packet, as in
    the Go code.

    The theorems: every endpoint inside the LAN gets exactly one flow event
    from its own perspective and no other event is made; the local side of every
    event is an address of the LAN; broadcast and unspecified addresses make no
    flow; and a DNS event is a query of a LAN endpoint. *)

From stdpp Require Import prelude strings list.
From Stdlib Require Import Ascii.
From Stdlib Require Import ZArith Lia.
From Corelib Require Import ssreflect.
From S2P Require Import Prelude GoStrings GoNet GoTime Capture Store.

Open Scope general_if_scope.
Open Scope Z_scope.

Definition dnsServicePort : Z := 53.
Definition dhcpServerPort : Z := 67.
Definition dhcpClientPort : Z := 68.

(** ** What the program uses of [gopacket] *)
Inductive LayerType :=
  | LayerTypeEthernet | LayerTypeDot1Q | LayerTypeIPv4 | LayerTypeIPv6
  | LayerTypeTCP | LayerTypeUDP | LayerTypeICMPv4 | LayerTypeICMPv6.

#[export] Instance LayerType_eq_dec : EqDecision LayerType.
Proof. solve_decision. Defined.

(** The layer structs the parser fills in. *)
Record Layers := mkLayers {
  eth_SrcMAC : bytes; eth_DstMAC : bytes;
  ip4_SrcIP : IP; ip4_DstIP : IP; ip4_Protocol : Z;
  ip6_SrcIP : IP; ip6_DstIP : IP; ip6_NextHeader : Z;
  tcp_SrcPort : Z; tcp_DstPort : Z;
  udp_SrcPort : Z; udp_DstPort : Z; udp_Payload : bytes
}.

(** The fields read of a decoded DNS message: whether it is a response, and
    its questions' names and types. *)
Record DNSMessage := mkDNSMessage { dns_QR : bool; dns_Questions : list (string * Z) }.

(** The fields read of a decoded DHCPv4 message: the operation, the options'
    codes and data, and the client's hardware address. *)
Record DHCPMessage := mkDHCPMessage {
  dhcp_Operation : Z; dhcp_Options : list (Z * string); dhcp_ClientHWAddr : bytes
}.

Definition DHCPOpRequest : Z := 1.
Definition DHCPOptHostname : Z := 12.

Class Gopacket := {
  DecodeLayers : Layers → bytes → Layers * list LayerType;
  DecodeDNS : bytes → option DNSMessage;
  DecodeDHCP : bytes → option DHCPMessage
}.

(** ** The decoder *)
Record Decoder := mkDecoder { layers : Layers; lan : IPNet }.

(** A value and its [Has] flag of the Go struct are one [option] here. *)
Record DecodeResult := mkDecodeResult {
  Flow : option FlowEvent; Flow2 : option FlowEvent;
  DNS : option DNSQueryEvent; DHCP : option DHCPHostnameEvent
}.

Definition emptyResult : DecodeResult := mkDecodeResult None None None None.

(** The local variables of [Decode] set by the loop over decoded layers. *)
Record View := mkView {
  haveIP : bool; haveUDP : bool; srcIP : IP; dstIP : IP; proto : Z; srcPort : Z; dstPort : Z
}.

Definition view0 : View := mkView false false [] [] 0 0 0.

Definition see_layer (l : Layers) (v : View) (lt : LayerType) : View :=
  match lt with
  | LayerTypeIPv4 =>
      mkView true (haveUDP v) (ip4_SrcIP l) (ip4_DstIP l) (ip4_Protocol l) (srcPort v) (dstPort v)
  | LayerTypeIPv6 =>
      mkView true (haveUDP v) (ip6_SrcIP l) (ip6_DstIP l) (ip6_NextHeader l) (srcPort v) (dstPort v)
  | LayerTypeTCP =>
      mkView (haveIP v) (haveUDP v) (srcIP v) (dstIP v) (proto v) (tcp_SrcPort l) (tcp_DstPort l)
  | LayerTypeUDP =>
      mkView (haveIP v) true (srcIP v) (dstIP v) (proto v) (udp_SrcPort l) (udp_DstPort l)
  | _ => v
  end.

Definition view_of (l : Layers) (decoded : list LayerType) : View :=
  foldl (see_layer l) view0 decoded.

Definition buildFlowEvent (direction proto : Z) (localIP : IP) (localPort : Z) (remoteIP : IP)
    (remotePort : Z) (localMAC : bytes) (ts : Time) (nbytes : Z) (isLocalSrc : bool) : FlowEvent :=
  mkFlowEvent
    (mkFlowKey direction proto (IP_String localIP) localPort (IP_String remoteIP) remotePort)
    ts nbytes isLocalSrc (HardwareAddr_String localMAC).

Section decode.
Context `{Gopacket}.

(** Only queries with at least one question are reported; the question type
    is truncated to 16 bits. *)
Definition decodeDNSQuery (l : Layers) (localIP : string) (ts : Time) : option DNSQueryEvent :=
  match DecodeDNS (udp_Payload l) with
  | None => None
  | Some m =>
      if dns_QR m then None else
      match dns_Questions m with
      | [] => None
      | (name, ty) :: _ => Some (mkDNSQueryEvent localIP name (wrapu 16 ty) ts)
      end
  end.

(** The loop over the DHCP options: the first non-empty hostname. *)
Fixpoint hostname_option (opts : list (Z * string)) : option string :=
  match opts with
  | [] => None
  | (ty, data) :: opts' =>
      if (ty =? DHCPOptHostname) && negb (bool_decide (data = EmptyString)) then Some data
      else hostname_option opts'
  end.

Definition decodeDHCPHostname (l : Layers) (ts now : Time) : option DHCPHostnameEvent :=
  match DecodeDHCP (udp_Payload l) with
  | None => None
  | Some m =>
      if negb (dhcp_Operation m =? DHCPOpRequest) then None else
      match hostname_option (dhcp_Options m) with
      | None => None
      | Some name =>
          Some (mkDHCPHostnameEvent (HardwareAddr_String (dhcp_ClientHWAddr m)) name
                  (if IsZero ts then now else ts))
      end
  end.

(** [Decode]; [now] is what [time.Now()] returns. *)
Definition Decode (d : Decoder) (pkt : RawPacket) (now : Time) : DecodeResult * Decoder :=
  let '(l, decoded) := DecodeLayers (layers d) (Data pkt) in
  let d' := mkDecoder l (lan d) in
  let v := view_of l decoded in
  if negb (haveIP v) then (emptyResult, d') else
  let dhcp :=
    if haveUDP v && ((srcPort v =? dhcpClientPort) || (dstPort v =? dhcpServerPort))
    then decodeDHCPHostname l (PTimestamp pkt) now else None in
  if IsUnspecified (srcIP v) || Equal (dstIP v) IPv4bcast
  then (mkDecodeResult None None None dhcp, d') else
  let srcLocal := Contains (lan d) (srcIP v) in
  let dstLocal := Contains (lan d) (dstIP v) in
  let ts := if IsZero (PTimestamp pkt) then now else PTimestamp pkt in
  let nbytes := Z.of_nat (length (Data pkt)) in
  let dns (ip : IP) :=
    if haveUDP v && ((srcPort v =? dnsServicePort) || (dstPort v =? dnsServicePort))
    then decodeDNSQuery l (IP_String ip) ts else None in
  let result :=
    match srcLocal, dstLocal with
    | true, true =>
        mkDecodeResult
          (Some (buildFlowEvent DirLANOut (proto v) (srcIP v) (srcPort v) (dstIP v) (dstPort v)
                   (eth_SrcMAC l) ts nbytes true))
          (Some (buildFlowEvent DirLANIn (proto v) (dstIP v) (dstPort v) (srcIP v) (srcPort v)
                   (eth_DstMAC l) ts nbytes false))
          (dns (srcIP v)) dhcp
    | true, false =>
        mkDecodeResult
          (Some (buildFlowEvent DirLANToWAN (proto v) (srcIP v) (srcPort v) (dstIP v) (dstPort v)
                   (eth_SrcMAC l) ts nbytes true))
          None (dns (srcIP v)) dhcp
    | false, true =>
        mkDecodeResult
          (Some (buildFlowEvent DirWANToLAN (proto v) (dstIP v) (dstPort v) (srcIP v) (srcPort v)
                   (eth_DstMAC l) ts nbytes false))
          None (dns (dstIP v)) dhcp
    | false, false => mkDecodeResult None None None dhcp
    end in
  (result, d').

(** The flow events of a result, in the order the pipeline handles them. *)
Definition flows (r : DecodeResult) : list FlowEvent := option_list (Flow r) ++ option_list (Flow2 r).

(** ** Specification *)

(** What the decoder sees of a packet. *)
Definition packet_view (d : Decoder) (pkt : RawPacket) : View :=
  let '(l, decoded) := DecodeLayers (layers d) (Data pkt) in view_of l decoded.

(** An independent reading of the recognised layers: the addresses and the
    protocol number a layer carries, and the ports it carries.  When layers are
    nested (a tunnel), the innermost one counts. *)
Definition addresses (l : Layers) (lt : LayerType) : option (IP * IP * Z) :=
  match lt with
  | LayerTypeIPv4 => Some (ip4_SrcIP l, ip4_DstIP l, ip4_Protocol l)
  | LayerTypeIPv6 => Some (ip6_SrcIP l, ip6_DstIP l, ip6_NextHeader l)
  | _ => None
  end.

Definition ports (l : Layers) (lt : LayerType) : option (Z * Z) :=
  match lt with
  | LayerTypeTCP => Some (tcp_SrcPort l, tcp_DstPort l)
  | LayerTypeUDP => Some (udp_SrcPort l, udp_DstPort l)
  | _ => None
  end.

Definition innermost {A} (f : LayerType → option A) (decoded : list LayerType) : option A :=
  last (omap f decoded).

(** The packet as its source reports it: it is the local side and it sends. *)
Definition source_event (lan : IPNet) (smac : bytes) (src dst : IP) (p sport dport : Z)
    (ts : Time) (n : Z) : FlowEvent :=
  {| Key := {| Direction := if Contains lan dst then DirLANOut else DirLANToWAN; Proto := p;
               LocalIP := IP_String src; LocalPort := sport;
               RemoteIP := IP_String dst; RemotePort := dport |};
     FTimestamp := ts; Bytes := n; IsLocalSrc := true; LocalMAC := HardwareAddr_String smac |}.

(** The packet as its destination reports it: it is the local side and it
    receives. *)
Definition dest_event (lan : IPNet) (dmac : bytes) (src dst : IP) (p sport dport : Z)
    (ts : Time) (n : Z) : FlowEvent :=
  {| Key := {| Direction := if Contains lan src then DirLANIn else DirWANToLAN; Proto := p;
               LocalIP := IP_String dst; LocalPort := dport;
               RemoteIP := IP_String src; RemotePort := sport |};
     FTimestamp := ts; Bytes := n; IsLocalSrc := false; LocalMAC := HardwareAddr_String dmac |}.

(** The flow events of a packet whose recognised layers are [decoded]. *)
Definition perspectives (lan : IPNet) (l : Layers) (decoded : list LayerType) (ts : Time) (n : Z) :
    list FlowEvent :=
  match innermost (addresses l) decoded with
  | None => []
  | Some (src, dst, p) =>
      let '(sport, dport) := default (0, 0) (innermost (ports l) decoded) in
      if IsUnspecified src || Equal dst IPv4bcast then [] else
      (if Contains lan src then [source_event lan (eth_SrcMAC l) src dst p sport dport ts n] else []) ++
      (if Contains lan dst then [dest_event lan (eth_DstMAC l) src dst p sport dport ts n] else [])
  end.

(** The loop of [Decode] computes that reading. *)
Lemma view_of_layers l decoded :
  let v := view_of l decoded in
  (haveIP v, (srcIP v, dstIP v, proto v)) =
    (bool_decide (is_Some (innermost (addresses l) decoded)),
     default ([], [], 0) (innermost (addresses l) decoded)) ∧
  (srcPort v, dstPort v) = default (0, 0) (innermost (ports l) decoded) ∧
  haveUDP v = bool_decide (LayerTypeUDP ∈ decoded).
Proof.
  rewrite /view_of /innermost. induction decoded as [|lt decoded IH] using rev_ind; [done|].
  rewrite foldl_app !omap_app /=. destruct IH as (Ei & Ep & Eu).
  set v := foldl (see_layer l) view0 decoded in Ei Ep Eu |- *.
  assert (∀ b, (b = true ↔ LayerTypeUDP ∈ decoded ++ [lt]) →
    b = bool_decide (LayerTypeUDP ∈ decoded ++ [lt])) as Hb.
  { intros [] Hb; symmetry; [by apply bool_decide_eq_true, Hb|apply bool_decide_eq_false].
    by intros ?%Hb. }
  destruct lt; simpl; rewrite ?app_nil_r ?last_snoc; (split_and!; [done..|]);
    apply Hb; rewrite elem_of_app list_elem_of_singleton ?Eu ?bool_decide_eq_true; naive_solver.
Qed.

(** Addressed to or from nobody in particular: no flow. *)
Definition flowless (v : View) : bool :=
  negb (haveIP v) || IsUnspecified (srcIP v) || Equal (dstIP v) IPv4bcast.

Definition packet_time (pkt : RawPacket) (now : Time) : Time :=
  if IsZero (PTimestamp pkt) then now else PTimestamp pkt.

Lemma flows_Decode d pkt now :
  let '(l, decoded) := DecodeLayers (layers d) (Data pkt) in
  flows (Decode d pkt now).1 =
  perspectives (lan d) l decoded (packet_time pkt now) (Z.of_nat (length (Data pkt))).
Proof.
  rewrite /Decode /perspectives /packet_time.
  destruct (DecodeLayers (layers d) (Data pkt)) as [l decoded].
  destruct (view_of_layers l decoded) as (Ei & Ep & _). set v := view_of l decoded in Ei Ep |- *.
  destruct (innermost (addresses l) decoded) as [[[src dst] p]|] eqn:Ea; last first.
  { rewrite bool_decide_eq_false_2 in Ei; [by intros [? ?]|]. by injection Ei as -> _ _ _. }
  rewrite bool_decide_eq_true_2 in Ei; [by eexists|]. injection Ei as -> -> -> ->. rewrite -Ep. simpl.
  destruct (IsUnspecified src || Equal dst IPv4bcast); [done|].
  rewrite /source_event /dest_event.
  by destruct (Contains (lan d) src), (Contains (lan d) dst).
Qed.

Lemma lan_Decode d pkt now : lan (Decode d pkt now).2 = lan d.
Proof.
  rewrite /Decode. destruct (DecodeLayers (layers d) (Data pkt)) as [l decoded].
  repeat case_match; simplify_eq/=; done.
Qed.

(** Every flow event accounts the whole frame to a host of the LAN. *)
Lemma flows_Decode_local d pkt now e :
  e ∈ flows (Decode d pkt now).1 →
  Bytes e = Z.of_nat (length (Data pkt)) ∧ FTimestamp e = packet_time pkt now ∧
  ∃ ip, LocalIP (Key e) = IP_String ip ∧ Contains (lan d) ip = true.
Proof.
  pose proof (flows_Decode d pkt now) as E. destruct (DecodeLayers _ _) as [l decoded].
  rewrite E /perspectives. destruct (innermost _ _) as [[[src dst] p]|]; [|by intros ?%elem_of_nil].
  destruct (default _ _) as [sport dport]. destruct (_ || _); [by intros ?%elem_of_nil|].
  intros [He|He]%elem_of_app; case_match; try (by apply elem_of_nil in He);
    apply list_elem_of_singleton in He as ->; (split_and!; [done..|by eexists]).
Qed.

(** A DNS event comes from a message that is a query, of a LAN endpoint. *)
Lemma DNS_Decode_query d pkt now q :
  DNS (Decode d pkt now).1 = Some q →
  ∃ m name ty rest, DecodeDNS (udp_Payload (DecodeLayers (layers d) (Data pkt)).1) = Some m ∧
    dns_QR m = false ∧ dns_Questions m = (name, ty) :: rest ∧ DQName q = name ∧
    ∃ ip, DLocalIP q = IP_String ip ∧ Contains (lan d) ip = true.
Proof.
  rewrite /Decode. destruct (DecodeLayers (layers d) (Data pkt)) as [l decoded]. simpl.
  set v := view_of l decoded. destruct (haveIP v); [|done]. simpl.
  destruct (IsUnspecified (srcIP v) || Equal (dstIP v) IPv4bcast); [done|].
  destruct (haveUDP v && ((srcPort v =? dnsServicePort) || (dstPort v =? dnsServicePort)));
    [|by destruct (Contains (lan d) (srcIP v)), (Contains (lan d) (dstIP v))].
  assert (∀ ip ts, Contains (lan d) ip = true → decodeDNSQuery l (IP_String ip) ts = Some q →
    ∃ m name ty rest, DecodeDNS (udp_Payload l) = Some m ∧ dns_QR m = false ∧
      dns_Questions m = (name, ty) :: rest ∧ DQName q = name ∧
      ∃ ip, DLocalIP q = IP_String ip ∧ Contains (lan d) ip = true) as Hq.
  { intros ip ts Hip. rewrite /decodeDNSQuery. destruct (DecodeDNS _) as [m|]; [|done].
    destruct (dns_QR m) eqn:Hqr; [done|].
    destruct (dns_Questions m) as [|[name ty] rest] eqn:Hqs; [done|]. intros [= <-].
    exists m, name, ty, rest. split_and!; try done. by exists ip. }
  destruct (Contains (lan d) (srcIP v)) eqn:Es, (Contains (lan d) (dstIP v)) eqn:Ed; simpl; [by apply Hq..|done].
Qed.
End decode.

(** ** A small concrete parser

    Ethernet, one 802.1Q tag, IPv4, TCP and UDP ports, the header and first
    question of a DNS message.  It instantiates [Gopacket] on concrete frames
    below; no theorem depends on it. *)
Module MiniParser.

Definition u16_at (l : bytes) (off : nat) : Z := default 0 (l !! off) * 256 + default 0 (l !! S off).

Definition layers0 : Layers := mkLayers [] [] [] [] 0 [] [] 0 0 0 0 0 [].

(** An IPv4 packet and the transport header in it. *)
Definition parse_ip (smac dmac pkt : bytes) : Layers * list LayerType :=
  let ihl := Z.to_nat (4 * Z.land (default 0 (pkt !! 0%nat)) 15) in
  let p := default 0 (pkt !! 9%nat) in
  let src := take 4 (drop 12 pkt) in
  let dst := take 4 (drop 16 pkt) in
  let l4 := drop ihl pkt in
  let l := mkLayers smac dmac src dst p [] [] 0 (u16_at l4 0) (u16_at l4 2)
             (u16_at l4 0) (u16_at l4 2) (drop 8 l4) in
  (l, [LayerTypeIPv4] ++ (if p =? 6 then [LayerTypeTCP] else if p =? 17 then [LayerTypeUDP] else [])).

Definition parse_frame (l0 : Layers) (data : bytes) : Layers * list LayerType :=
  let dmac := take 6 data in
  let smac := take 6 (drop 6 data) in
  let ty := u16_at data 12 in
  if ty =? 2048 then
    let '(l, ts) := parse_ip smac dmac (drop 14 data) in (l, LayerTypeEthernet :: ts)
  else if (ty =? 33024) && (u16_at data 16 =? 2048) then
    let '(l, ts) := parse_ip smac dmac (drop 18 data) in (l, LayerTypeEthernet :: LayerTypeDot1Q :: ts)
  else (l0, []).

Fixpoint parse_name (fuel : nat) (l : bytes) : string :=
  match fuel, l with
  | S f, n :: l' =>
      if n =? 0 then EmptyString else
      let label := foldr (λ b s, String (Z_ascii b) s) EmptyString (take (Z.to_nat n) l') in
      let rest := drop (Z.to_nat n) l' in
      match rest with
      | 0 :: _ => label
      | _ => label +:+ String "."%char (parse_name f rest)
      end
  | _, _ => EmptyString
  end.

Definition parse_dns (payload : bytes) : option DNSMessage :=
  if (length payload <? 12)%nat then None
  else Some (mkDNSMessage (128 <=? default 0 (payload !! 2%nat))
               (if u16_at payload 4 =? 0 then [] else [(parse_name 128 (drop 12 payload), 1)])).

Definition parse_dhcp (payload : bytes) : option DHCPMessage :=
  if (length payload <? 240)%nat then None
  else Some (mkDHCPMessage (default 0 (payload !! 0%nat)) [] (take 6 (drop 28 payload))).

Definition mini : Gopacket :=
  {| DecodeLayers := parse_frame; DecodeDNS := parse_dns; DecodeDHCP := parse_dhcp |}.

(** A UDP packet carrying [payload] in an Ethernet frame. *)
Definition udp_frame (src dst : IP) (sport dport : Z) (payload : bytes) : bytes :=
  [2; 0; 0; 0; 0; 2; 2; 0; 0; 0; 0; 1; 8; 0] ++
  [69; 0; 0; 0; 0; 0; 0; 0; 64; 17; 0; 0] ++ src ++ dst ++
  [sport / 256; sport mod 256; dport / 256; dport mod 256; 0; 0; 0; 0] ++ payload.

(** The query "example.com". *)
Definition dns_query : bytes :=
  [0; 1; 1; 0; 0; 1; 0; 0; 0; 0; 0; 0; 7; 101; 120; 97; 109; 112; 108; 101; 3; 99; 111; 109; 0; 0; 1; 0; 1].

Definition lan24 : IPNet := mkIPNet [192; 168; 1; 0] (CIDRMask 24 4).
Definition decoder0 : Decoder := mkDecoder layers0 lan24.

End MiniParser.

Module DecodeProperties.
Import MiniParser.

(** C3: for every packet and every behaviour of the layer parsers, the decoder
    produces exactly one flow event per endpoint inside the LAN.  The source's
    event has the source's address, port and MAC address on the local side and
    is marked as sent; the destination's has the destination's and is marked as
    received; the direction is LAN-to-LAN when the other side is local too; both
    carry the innermost IP layer's protocol, the innermost transport layer's
    ports (0 without one), the whole frame's length and the packet's time.
    Packets without an IP layer, from the unspecified address or to the broadcast
    address produce none, and every event's local address is in the LAN. *)
Theorem decode_perspectives `{Gopacket} (d : Decoder) (pkt : RawPacket) (now : Time) :
  let '(l, decoded) := DecodeLayers (layers d) (Data pkt) in
  let ts := if IsZero (PTimestamp pkt) then now else PTimestamp pkt in
  flows (Decode d pkt now).1 =
    perspectives (lan d) l decoded ts (Z.of_nat (length (Data pkt))) ∧
  (∀ e, e ∈ flows (Decode d pkt now).1 →
     ∃ ip, LocalIP (Key e) = IP_String ip ∧ Contains (lan d) ip = true).
Proof.
  pose proof (flows_Decode d pkt now) as E. pose proof (flows_Decode_local d pkt now) as L.
  destruct (DecodeLayers (layers d) (Data pkt)) as [l decoded].
  split; [exact E|]. intros e He. by destruct (L e He) as (_ & _ & ?).
Qed.

(** A LAN-to-LAN packet yields the two mirrored events. *)
Lemma decode_perspectives_witness :
  let pkt := mkRawPacket (udp_frame [192; 168; 1; 5] [192; 168; 1; 9] 4000 5000 []) Second in
  let e dir l lp r rp b m := mkFlowEvent (mkFlowKey dir 17 l lp r rp) Second 42 b m in
  flows (Decode (H := mini) decoder0 pkt 0).1 =
  [e DirLANOut "192.168.1.5" 4000 "192.168.1.9" 5000 true "02:00:00:00:00:01";
   e DirLANIn "192.168.1.9" 5000 "192.168.1.5" 4000 false "02:00:00:00:00:02"]%string.
Proof.
  intros pkt e. pose proof (@decode_perspectives mini decoder0 pkt 0) as [E _].
  rewrite E. vm_compute. reflexivity.
Defined.

(** An IPv4 address is local to a configured CIDR block exactly when its
    leading bits are the block's, so the direction of a flow is decided by the
    subnet prefix alone. *)
Theorem lan_membership_prefix (k n1 n2 n3 n4 a b c d : Z) (dec : Decoder) :
  0 ≤ k ≤ 32 → Forall is_byte [n1; n2; n3; n4] → Forall is_byte [a; b; c; d] →
  lan dec = mkIPNet [n1; n2; n3; n4] (CIDRMask k 4) →
  Contains (lan dec) [a; b; c; d] =
  bool_decide (be32 a b c d / 2 ^ (32 - k) = be32 n1 n2 n3 n4 / 2 ^ (32 - k)).
Proof. intros Hk Hn Ha ->. by apply Contains_prefix. Qed.

Lemma lan_membership_prefix_witness :
  Contains (lan decoder0) [192; 168; 1; 200] = true ∧ Contains (lan decoder0) [192; 168; 2; 1] = false.
Proof.
  split.
  - rewrite (lan_membership_prefix 24 192 168 1 0 192 168 1 200 decoder0); try reflexivity;
      [lia|repeat constructor; simpl; lia..].
  - rewrite (lan_membership_prefix 24 192 168 1 0 192 168 2 1 decoder0); try reflexivity;
      [lia|repeat constructor; simpl; lia..].
Defined.

(** A DNS event is only ever made of a message that decodes as a query
    with a question, and names an address of the LAN; but the address is the
    local endpoint whichever way the packet travels: a query that arrives from
    the WAN is recorded as a query by the LAN host it was sent to. *)
Theorem dns_event_of_query `{Gopacket} (d : Decoder) (pkt : RawPacket) (now : Time) :
  (∀ q, DNS (Decode d pkt now).1 = Some q →
     ∃ m name ty rest, DecodeDNS (udp_Payload (DecodeLayers (layers d) (Data pkt)).1) = Some m ∧
       dns_QR m = false ∧ dns_Questions m = (name, ty) :: rest ∧ DQName q = name ∧
       ∃ ip, DLocalIP q = IP_String ip ∧ Contains (lan d) ip = true) ∧
  (∀ m name ty rest, let v := packet_view d pkt in
     flowless v = false → haveUDP v = true → dstPort v = dnsServicePort →
     Contains (lan d) (srcIP v) = false → Contains (lan d) (dstIP v) = true →
     DecodeDNS (udp_Payload (DecodeLayers (layers d) (Data pkt)).1) = Some m →
     dns_QR m = false → dns_Questions m = (name, ty) :: rest →
     ∃ q, DNS (Decode d pkt now).1 = Some q ∧ DLocalIP q = IP_String (dstIP v)).
Proof.
  split; [apply DNS_Decode_query|]. rewrite /packet_view /Decode /flowless.
  destruct (DecodeLayers (layers d) (Data pkt)) as [l decoded]. simpl.
  set v := view_of l decoded. intros m name ty rest Hf Hu Hp Hs Hd Hm Hqr Hqs.
  destruct (haveIP v); [|done]. simpl in *. rewrite Hf Hs Hd Hu Hp. simpl.
  rewrite orb_true_r /decodeDNSQuery Hm Hqr Hqs. by eexists.
Qed.

(** A query from 8.8.8.8 to the LAN host 192.168.1.9. *)
Lemma dns_event_of_query_witness :
  let pkt := mkRawPacket (udp_frame [8; 8; 8; 8] [192; 168; 1; 9] 4000 53 dns_query) Second in
  ∃ q, DNS (Decode (H := mini) decoder0 pkt 0).1 = Some q ∧ DLocalIP q = "192.168.1.9"%string ∧
       DQName q = "example.com"%string.
Proof.
  intros pkt. destruct (@dns_event_of_query mini decoder0 pkt 0) as [Hq Hr].
  destruct (Hr (mkDNSMessage false [("example.com"%string, 1)]) "example.com"%string 1 [])
    as (q & Eq & El); try (vm_compute; reflexivity).
  exists q. split; [exact Eq|]. split; [rewrite El; vm_compute; reflexivity|].
  vm_compute in Eq. injection Eq as <-. reflexivity.
Defined.

End DecodeProperties.
