(* ===== verification/Rollup.v ===== *)
(** * Rollups and retention ([internal/rollupjob], [internal/store/rollup.go])

    The scheduler turns the flows of the last whole minute into rows of
    [rollup_1m], whole 5-minute, hour and day buckets of one table into the
    next, and prunes each table.  [Run] serves one ticker at a time, so its
    behaviour is a sequence of [Tick]s, each at the time [time.Now()] gives.

    The theorems: a rollup adds to each bucket the exact sums of its window,
    merging a finer table gives what grouping by the coarser bucket would; a
    flow ends up in its minute's bucket once per 1-minute run that falls in
    the next minute after it was flushed, so the count is right when there is
    one such run, doubled when there are two, and lost when it is flushed after
    that run; and pruning keeps what the retention promises as long as the
    retention fits a [time.Duration]. *)

From stdpp Require Import prelude strings gmap list sorting.
From Stdlib Require Import ZArith Lia.
From Corelib Require Import ssreflect.
From S2P Require Import Prelude GoStrings GoTime Store StoreProofs.

Open Scope general_if_scope.
Open Scope Z_scope.

(** ** The scheduler *)
Definition flowsRecentWindow : Duration := 24 * Hour.
Definition rollup1mRetention : Duration := 7 * 24 * Hour.
Definition rollup5mRetention : Duration := 60 * 24 * Hour.
Definition rollup1hRetention : Duration := 2 * 365 * 24 * Hour.

Record Scheduler := mkScheduler { retentionDays : Z }.

Section scheduler.
Context {o : Order}.

(** A failed statement is logged and otherwise ignored. *)
Definition rollup1m (now : Time) : M Store unit :=
  let to := Truncate now Minute in
  let from := Add to (- Minute) in
  ignore (RollupFromFlowsRecent (Unix from) (Unix to)).

Definition rollupFiner (src dst : string) (width : Duration) (now : Time) : M Store unit :=
  let to := Truncate now width in
  let from := Add to (- width) in
  ignore (RollupFromFiner src dst (seconds width) (Unix from) (Unix to)).

(** [time.Duration(s.retentionDays) * 24 * time.Hour], at 64 bits. *)
Definition retention (s : Scheduler) : Duration := dmul (dmul (wrap_i64 (retentionDays s)) 24) Hour.

Definition prune (s : Scheduler) (now : Time) : M Store unit :=
  ignore (PruneFlowsRecent (Unix (Add now (- flowsRecentWindow)))) ;;!
  ignore (PruneRollup "1m" (Unix (Add now (- rollup1mRetention)))) ;;!
  ignore (PruneRollup "5m" (Unix (Add now (- rollup5mRetention)))) ;;!
  ignore (PruneRollup "1h" (Unix (Add now (- rollup1hRetention)))) ;;!
  ignore (PruneRollup "1d" (Unix (Add now (wrap_i64 (- retention s))))) ;;!
  ignore IncrementalVacuum.

(** The tickers of [Run], and what the loop does when one fires. *)
Inductive Tick := Tick1m | Tick5m | Tick1h | Tick1d | TickPrune.

Definition on_tick (s : Scheduler) (tk : Tick) (now : Time) : M Store unit :=
  match tk with
  | Tick1m => rollup1m now
  | Tick5m => rollupFiner "1m" "5m" (5 * Minute) now
  | Tick1h => rollupFiner "5m" "1h" Hour now
  | Tick1d => rollupFiner "1h" "1d" (24 * Hour) now
  | TickPrune => prune s now
  end.

Definition Run (s : Scheduler) (ticks : list (Tick * Time)) : M Store unit :=
  for_each (λ '(tk, now), on_tick s tk now) ticks.

#[export] Instance wf_on_tick s tk now : Preserves store_wf (on_tick s tk now).
Proof. destruct tk; apply _. Qed.
End scheduler.

(** ** What a bucket holds *)
Definition zero_counters : Counters := mkCounters 0 0 0 0.
Definition bucket (tbl : RollupTable) (k : BucketKey) : Counters := default zero_counters (tbl !! k).

Lemma counters_eq x y :
  c_sent x = c_sent y → c_recv x = c_recv y → c_psent x = c_psent y → c_precv x = c_precv y → x = y.
Proof. destruct x, y. simpl. by intros -> -> -> ->. Qed.

Lemma add_counters_0_l x : add_counters zero_counters x = x.
Proof. by destruct x. Qed.
Lemma add_counters_0_r x : add_counters x zero_counters = x.
Proof. apply counters_eq; simpl; lia. Qed.
Lemma add_counters_assoc x y z : add_counters x (add_counters y z) = add_counters (add_counters x y) z.
Proof. apply counters_eq; simpl; lia. Qed.

Lemma sum_counters_cons {A} (c : A → Counters) x l :
  sum_counters c (x :: l) = add_counters (c x) (sum_counters c l).
Proof. done. Qed.
Lemma sum_counters_app {A} (c : A → Counters) l1 l2 :
  sum_counters c (l1 ++ l2) = add_counters (sum_counters c l1) (sum_counters c l2).
Proof. apply counters_eq; simpl; apply sumZ_app. Qed.
Lemma sum_counters_perm {A} (c : A → Counters) l1 l2 : l1 ≡ₚ l2 → sum_counters c l1 = sum_counters c l2.
Proof. intros H. apply counters_eq; simpl; by apply sumZ_perm. Qed.

(** The rows of a group merge into the bucket of its key. *)
Lemma bucket_upsert tbl kc k :
  bucket (upsert_counters tbl kc) k =
  if decide (kc.1 = k) then add_counters (bucket tbl k) kc.2 else bucket tbl k.
Proof.
  rewrite /bucket /upsert_counters. case_decide as Hk; simplify_map_eq; [|done].
  destruct (tbl !! kc.1); simpl; [done|by rewrite add_counters_0_l].
Qed.

Lemma bucket_foldl rows : ∀ tbl k,
  bucket (foldl upsert_counters tbl rows) k =
  add_counters (bucket tbl k) (sum_counters snd (filter (λ kc : BucketKey * Counters, kc.1 = k) rows)).
Proof.
  induction rows as [|kc rows IH]; intros tbl k; simpl.
  - by rewrite add_counters_0_r.
  - rewrite IH bucket_upsert filter_cons. case_decide; [|done].
    by rewrite sum_counters_cons add_counters_assoc.
Qed.

(** Summing the sums of the groups that go to a bucket is summing the rows
    that go there: [f] maps a group's key to its bucket. *)
Lemma sum_groups {A K} `{EqDecision K} (key : A → K) (f : K → BucketKey) (c : A → Counters) k l :
  sum_counters snd (filter (λ kc : BucketKey * Counters, kc.1 = k)
     ((λ '(k', g), (f k', sum_counters c g)) <$> group_by key l)) =
  sum_counters c (filter (λ x, f (key x) = k) l).
Proof.
  assert (∀ p : Counters → Z, (∀ B (c : B → Counters) l, p (sum_counters c l) = sumZ (p ∘ c) l) →
    p (sum_counters snd (filter (λ kc : BucketKey * Counters, kc.1 = k)
        ((λ '(k', g), (f k', sum_counters c g)) <$> group_by key l))) =
    p (sum_counters c (filter (λ x, f (key x) = k) l))) as H; [|by apply counters_eq; apply H].
  intros p Hp. rewrite !Hp sumZ_filter sumZ_filter sumZ_fmap.
  rewrite -(sumZ_group_by key (λ x, if decide (f (key x) = k) then p (c x) else 0) l).
  apply sumZ_ext. intros [k' g] [_ ->]%elem_of_group_by. simpl.
  rewrite Hp. case_decide as Hk.
  - apply sumZ_ext. intros x [<- _]%list_elem_of_filter. by rewrite decide_True.
  - symmetry. apply sumZ_zero. intros x [<- _]%list_elem_of_filter. by rewrite decide_False.
Qed.

(** ** One run *)
Definition rolled (table : string) (rows : list (BucketKey * Counters)) (t : Tables) : Tables :=
  set_rollups (<[table := foldl upsert_counters (rollup_table t table) rows]> (rollups t)) t.

Lemma upsert_rollup_run table select t :
  (∀ kc, kc ∈ select t → kc.1.1.1 ∈ host_ids t) →
  upsert_rollup table select (mkStore t []) = (Ok tt, mkStore (rolled table (select t) t) []).
Proof.
  intros Hk. rewrite /upsert_rollup /stmt /=.
  match goal with |- context [forallb ?f ?l] => assert (forallb f l = true) as -> end; [|done].
  apply forallb_forall. intros kc Hkc%list_elem_of_In. apply orb_true_iff. right.
  by apply host_exists_spec, Hk.
Qed.

Lemma rollup_table_rolled table rows t :
  rollup_table (rolled table rows t) table = foldl upsert_counters (rollup_table t table) rows.
Proof. by rewrite /rollup_table /rolled /= lookup_insert_eq. Qed.
Lemma rollup_table_rolled_ne table table' rows t :
  table ≠ table' → rollup_table (rolled table rows t) table' = rollup_table t table'.
Proof. intros ?. by rewrite /rollup_table /rolled /= lookup_insert_ne. Qed.

Section runs.
Context {o : Order}.

Lemma select_minutes_hosts from to t kc : wf t → kc ∈ select_minutes from to t → kc.1.1.1 ∈ host_ids t.
Proof.
  intros Ht. rewrite /select_minutes elem_of_ord list_elem_of_fmap. intros ([k g] & -> & Hg).
  apply elem_of_group_by in Hg as [(f & [_ Hf]%list_elem_of_filter & <-) _]. simpl.
  pose proof (wf_flows _ Ht) as Hw. rewrite Forall_forall in Hw. by apply Hw.
Qed.

Lemma select_finer_hosts src w from to t kc : wf t → kc ∈ select_finer src w from to t → kc.1.1.1 ∈ host_ids t.
Proof.
  intros Ht. rewrite /select_finer elem_of_ord list_elem_of_fmap. intros ([k g] & -> & Hg).
  apply elem_of_group_by in Hg as [([k' c] & [_ Hf]%list_elem_of_filter & <-) _]. simpl.
  apply elem_of_map_to_list in Hf. exact (wf_rollup_table t src Ht _ _ Hf).
Qed.

(** The minute a run at [now] covers, and what it reads. *)
Definition run_minute (now : Time) : Z := Unix now / 60 * 60 - 60.

Lemma rollup1m_window now :
  Unix (Add (Truncate now Minute) (- Minute)) = run_minute now ∧ Unix (Truncate now Minute) = run_minute now + 60.
Proof.
  assert (Unix (Truncate now Minute) = Unix now / 60 * 60) as E.
  { apply (Unix_Truncate now 60); [lia|]. by exists 1440. }
  split; [|rewrite E /run_minute; lia].
  change (- Minute) with ((-60) * Second). rewrite Unix_Add_seconds E /run_minute. lia.
Qed.

Lemma rollup1m_run now t :
  wf t →
  (rollup1m now (mkStore t [])).2 =
  mkStore (rolled "rollup_1m" (select_minutes (run_minute now) (run_minute now + 60) t) t) [].
Proof.
  intros Ht. rewrite /rollup1m /ignore /bind.
  destruct (rollup1m_window now) as [-> ->]. rewrite /RollupFromFlowsRecent upsert_rollup_run //.
  intros kc. by apply select_minutes_hosts.
Qed.

Lemma bucket_minutes from to t k :
  bucket (rollup_table (rolled "rollup_1m" (select_minutes from to t) t) "rollup_1m") k =
  add_counters (bucket (rollup_table t "rollup_1m") k)
    (sum_counters flow_counters
       (filter (λ f, minute_key f = k ∧ from ≤ f_LastSeen f < to) (flows_recent t).*2)).
Proof.
  rewrite rollup_table_rolled bucket_foldl. f_equal.
  erewrite sum_counters_perm; [|rewrite /select_minutes (ord_perm o); reflexivity].
  pose proof (sum_groups minute_key id flow_counters k
    (filter (λ f, from ≤ f_LastSeen f < to) (flows_recent t).*2)) as H.
  rewrite H list_filter_filter. done.
Qed.

Lemma bucket_finer src dst w from to t k :
  bucket (rollup_table (rolled dst (select_finer src w from to t) t) dst) k =
  add_counters (bucket (rollup_table t dst) k)
    (sum_counters snd (filter (λ kc : BucketKey * Counters, coarsen w kc.1 = k ∧ from ≤ kc.1.2 < to)
       (map_to_list (rollup_table t src)))).
Proof.
  rewrite rollup_table_rolled bucket_foldl. f_equal.
  erewrite sum_counters_perm; [|rewrite /select_finer (ord_perm o); reflexivity].
  rewrite (sum_groups fst (coarsen w) snd k) list_filter_filter. done.
Qed.
End runs.

(** With times after the epoch, truncating division is flooring. *)
Lemma minute_bucket_floor f : 0 ≤ f_LastSeen f → minute_bucket f = f_LastSeen f / 60 * 60.
Proof. intros H. rewrite /minute_bucket /sql_div Z.quot_div_nonneg //. Qed.

Lemma minute_window f m :
  0 ≤ f_LastSeen f → (60 | m) → m ≤ f_LastSeen f < m + 60 ↔ minute_bucket f = m.
Proof.
  intros H [q ->]. rewrite minute_bucket_floor //. split.
  - intros ?. f_equal. symmetry. apply (Z.div_unique _ _ _ (f_LastSeen f - q * 60)); lia.
  - intros E. pose proof (Z.div_mod (f_LastSeen f) 60). pose proof (Z.mod_pos_bound (f_LastSeen f) 60). lia.
Qed.

Lemma run_minute_multiple now : (60 | run_minute now).
Proof. exists (Unix now / 60 - 1). rewrite /run_minute. lia. Qed.

(** ** Flushes and runs interleaved *)
Inductive Event := Flush (rs : list FlowRecord) | MinuteRun (now : Time).

Definition do_event {o : Order} (e : Event) : M Store unit :=
  match e with
  | Flush rs => ignore (InsertFlows rs)
  | MinuteRun now => rollup1m now
  end.

Definition scale (n : Z) (c : Counters) : Counters :=
  mkCounters (n * c_sent c) (n * c_recv c) (n * c_psent c) (n * c_precv c).

(** How many of the runs cover the minute [m]. *)
Fixpoint runs (m : Z) (es : list Event) : Z :=
  match es with
  | [] => 0
  | Flush _ :: es' => runs m es'
  | MinuteRun now :: es' => (if run_minute now =? m then 1 else 0) + runs m es'
  end.

(** Each flow weighs as often as a run covers its minute after its flush. *)
Fixpoint counted (k : BucketKey) (es : list Event) : Counters :=
  match es with
  | [] => zero_counters
  | Flush rs :: es' =>
      add_counters (scale (runs k.2 es') (sum_counters flow_counters (filter (λ f, minute_key f = k) rs)))
        (counted k es')
  | MinuteRun _ :: es' => counted k es'
  end.

Definition valid_flow (t : Tables) (f : FlowRecord) : Prop := f_HostID f ∈ host_ids t ∧ 0 ≤ f_LastSeen f.
Definition valid_event (t : Tables) (e : Event) : Prop :=
  match e with Flush rs => Forall (valid_flow t) rs | MinuteRun _ => True end.

Lemma window_sum now k fs :
  Forall (λ f, 0 ≤ f_LastSeen f) fs →
  sum_counters flow_counters
    (filter (λ f, minute_key f = k ∧ run_minute now ≤ f_LastSeen f < run_minute now + 60) fs) =
  scale (if run_minute now =? k.2 then 1 else 0)
    (sum_counters flow_counters (filter (λ f, minute_key f = k) fs)).
Proof.
  intros Hfs. destruct (Z.eqb_spec (run_minute now) k.2) as [E|Hne].
  - transitivity (sum_counters flow_counters (filter (λ f, minute_key f = k) fs));
      [|apply counters_eq; simpl; lia].
    f_equal. apply filter_ext_Forall. eapply Forall_impl; [exact Hfs|]. intros f Hf. split; [by intros []|].
    intros Hk. split; [done|]. apply minute_window; [done|apply run_minute_multiple|]. by rewrite E -Hk.
  - transitivity zero_counters; [|apply counters_eq; simpl; lia].
    replace (filter _ fs) with (@nil FlowRecord); [done|]. symmetry. apply filter_none_Forall.
    eapply Forall_impl; [exact Hfs|]. intros f Hf [Hk Hw]. apply Hne.
    apply minute_window in Hw; [|done|apply run_minute_multiple]. by rewrite -Hw -Hk.
Qed.

Lemma scale_add n m c : scale (n + m) c = add_counters (scale n c) (scale m c).
Proof. apply counters_eq; simpl; lia. Qed.
Lemma scale_add_counters n x y : scale n (add_counters x y) = add_counters (scale n x) (scale n y).
Proof. apply counters_eq; simpl; lia. Qed.

Lemma events_bucket {o : Order} k es : ∀ t,
  wf t → Forall (λ f, 0 ≤ f_LastSeen f) (flows_recent t).*2 → Forall (valid_event t) es →
  bucket (rollup_table (tables (for_each do_event es (mkStore t [])).2) "rollup_1m") k =
  add_counters (bucket (rollup_table t "rollup_1m") k)
    (add_counters (scale (runs k.2 es)
                     (sum_counters flow_counters (filter (λ f, minute_key f = k) (flows_recent t).*2)))
       (counted k es)).
Proof.
  induction es as [|e es IH]; intros t Ht Hnn Hv; simpl.
  - apply counters_eq; simpl; lia.
  - apply Forall_cons_1 in Hv as [He Hv]. destruct e as [rs|now]; simpl.
    + simpl in He. rewrite /ignore /bind InsertFlows_run.
      { eapply Forall_impl; [exact He|]. by intros f [Hf _]. }
      simpl. rewrite IH //.
      * apply wf_append_flows; [|done]. eapply Forall_impl; [exact He|]. by intros f [].
      * simpl. rewrite fmap_app number_snd. apply Forall_app. split; [done|].
        eapply Forall_impl; [exact He|]. by intros f [].
      * simpl. rewrite fmap_app number_snd filter_app sum_counters_app scale_add_counters -add_counters_assoc //.
    + pose proof (rollup1m_run now t Ht) as Hrun. rewrite /bind.
      destruct (rollup1m now (mkStore t [])) as [[] s1]. simpl in Hrun. subst s1. simpl.
      assert (wf (rolled "rollup_1m" (select_minutes (run_minute now) (run_minute now + 60) t) t)) as Ht1.
      { apply wf_set_rollup; [|done]. apply (foldl_upsert_keys (λ k, k.1.1 ∈ host_ids t)); [|by apply wf_rollup_table].
        apply Forall_forall. intros kc. by apply select_minutes_hosts. }
      rewrite IH // bucket_minutes window_sum // /= scale_add. apply counters_eq; simpl; lia.
Qed.

(** ** Retention *)
Lemma rollup_table_prune table table' c t k :
  rollup_table (prune_rollup table c t) table' !! k =
  if decide (table = table' ∧ k.2 < c) then None else rollup_table t table' !! k.
Proof.
  rewrite /prune_rollup. destruct (decide (table = table')) as [<-|Hne].
  - rewrite {1}/rollup_table /= lookup_insert_eq /=. case_decide as Hk.
    + apply map_lookup_filter_None. right. intros x _. simpl. naive_solver.
    + destruct (rollup_table t table !! k) eqn:E.
      * apply map_lookup_filter_Some. simpl. split; [done|]. naive_solver.
      * apply map_lookup_filter_None. by left.
  - rewrite decide_False; [naive_solver|]. by rewrite /rollup_table /= lookup_insert_ne.
Qed.

Lemma flows_prune_rollup table c t : flows_recent (prune_rollup table c t) = flows_recent t.
Proof. done. Qed.

Definition day : Z := 86400.

(** The tables after a prune that no statement of fails. *)
Lemma prune_run s now t :
  (prune s now (mkStore t [])).2 =
  mkStore (prune_rollup "rollup_1d" (Unix (Add now (wrap_i64 (- retention s))))
           (prune_rollup "rollup_1h" (Unix now - 730 * day)
            (prune_rollup "rollup_5m" (Unix now - 60 * day)
             (prune_rollup "rollup_1m" (Unix now - 7 * day)
              (set_flows (filter (λ r, ¬ f_LastSeen r.2 < Unix now - day) (flows_recent t)) (flows_seq t) t))))) [].
Proof.
  assert (∀ d n, d = - n * Second → Unix (Add now d) = Unix now - n) as Hc.
  { intros d n ->. rewrite Unix_Add_seconds. lia. }
  rewrite /prune (Hc (- flowsRecentWindow) day) // (Hc (- rollup1mRetention) (7 * day)) //
    (Hc (- rollup5mRetention) (60 * day)) // (Hc (- rollup1hRetention) (730 * day)) //.
Qed.

Lemma retention_small s : 0 ≤ retentionDays s ≤ 106751 → retention s = retentionDays s * day * Second.
Proof.
  intros H. rewrite /retention /dmul /day /Hour /Minute /Second.
  rewrite (wrap_i64_small (retentionDays s)); [lia|]. rewrite (wrap_i64_small (retentionDays s * 24)); [lia|].
  rewrite wrap_i64_small; lia.
Qed.

Module RollupProperties.

Definition has_hosts : Tables := (upsert_host "192.168.1.5" 0 emptyTables).2.
Definition flow_at (ts sent : Z) : FlowRecord :=
  mkFlowRecord 1 0 6 "192.168.1.5" 40000 "8.8.8.8" 443 ts ts sent 0 1 0.

(** C18: from an empty set of flows and rollups, for any interleaving of
    flushes and 1-minute runs, the bucket of a minute holds every flow of that
    minute weighted by the number of runs, made after the flow was flushed,
    that fall in the minute after it.  One such run gives the exact total, a
    second one doubles it, and a flow flushed after it is never counted. *)
Theorem flow_rolled_up_per_run {o : Order} (t : Tables) (es : list Event) (k : BucketKey) :
  wf t → flows_recent t = [] → rollups t = ∅ → Forall (valid_event t) es →
  bucket (rollup_table (tables (for_each do_event es (mkStore t [])).2) "rollup_1m") k = counted k es.
Proof.
  intros Ht Hf Hr Hes. rewrite events_bucket //; rewrite Hf; [constructor|].
  rewrite /rollup_table Hr lookup_empty /bucket /= lookup_empty. apply counters_eq; rewrite /= !sumZ_nil; lia.
Qed.

(** A flow of 100 bytes at second 30: run once at second 70; run again at
    second 80; and a second flow of that minute flushed in between, which only
    the second run sees. *)
Lemma flow_rolled_up_per_run_witness :
  let run es := c_sent (bucket (rollup_table
       (tables (for_each (do_event (o := ord_id)) es (mkStore has_hosts [])).2) "rollup_1m") (1, 0, 0)) in
  run [Flush [flow_at 30 100]; MinuteRun (70 * Second)] = 100 ∧
  run [Flush [flow_at 30 100]; MinuteRun (70 * Second); MinuteRun (80 * Second)] = 200 ∧
  run [MinuteRun (70 * Second); Flush [flow_at 30 100]; MinuteRun (130 * Second)] = 0.
Proof.
  assert (wf has_hosts) as Hwf by apply wf_upsert_host, wf_empty.
  assert (valid_flow has_hosts (flow_at 30 100)) as Hv by (split; [left|discriminate]).
  split_and!; rewrite flow_rolled_up_per_run; try done; try reflexivity; repeat constructor; done.
Defined.

(** C13: rolling a finer table up into a coarser one adds to each coarse
    bucket exactly the sum of the fine rows of the window that fall in it,
    although the statement groups by the fine bucket and merges on conflict;
    no other bucket and no other table changes. *)
Theorem rollup_finer_merges {o : Order} (src dst srcT dstT : string) (w from to : Z) (t : Tables) :
  wf t → rollupTables !! src = Some srcT → rollupTables !! dst = Some dstT →
  let '(r, s') := RollupFromFiner src dst w from to (mkStore t []) in
  r = Ok tt ∧
  (∀ k, bucket (rollup_table (tables s') dstT) k =
        add_counters (bucket (rollup_table t dstT) k)
          (sum_counters snd (filter (λ kc : BucketKey * Counters, coarsen w kc.1 = k ∧ from ≤ kc.1.2 < to)
             (map_to_list (rollup_table t srcT))))) ∧
  (∀ T, T ≠ dstT → rollup_table (tables s') T = rollup_table t T) ∧
  flows_recent (tables s') = flows_recent t.
Proof.
  intros Ht Hs Hd. rewrite /RollupFromFiner Hs Hd upsert_rollup_run.
  { intros kc. by apply select_finer_hosts. }
  split_and!; [done| |intros T HT|done].
  - intros k. apply bucket_finer.
  - by apply rollup_table_rolled_ne, not_eq_sym.
Qed.

(** Two minutes of one 5-minute bucket merge into it. *)
Lemma rollup_finer_merges_witness :
  let t1 := rolled "rollup_1m" [((1, 0, 60), mkCounters 10 1 1 1); ((1, 0, 120), mkCounters 20 2 1 1)] has_hosts in
  let s' := (RollupFromFiner (o := ord_rev) "1m" "5m" 300 0 300 (mkStore t1 [])).2 in
  bucket (rollup_table (tables s') "rollup_5m") (1, 0, 0) = mkCounters 30 3 2 2.
Proof.
  intros t1. assert (wf t1) as Hwf.
  { apply wf_set_rollup; [|apply wf_upsert_host, wf_empty].
    apply (foldl_upsert_keys (λ k, k.1.1 ∈ host_ids has_hosts)); [|apply map_Forall_empty].
    repeat constructor. }
  pose proof (rollup_finer_merges (o := ord_rev) "1m" "5m" "rollup_1m" "rollup_5m" 300 0 300 t1 Hwf
                eq_refl eq_refl) as H.
  destruct (RollupFromFiner "1m" "5m" 300 0 300 (mkStore t1 [])) as [r s'].
  destruct H as (_ & H & _). simpl. rewrite H. vm_compute. reflexivity.
Defined.

(** C34: a prune that no statement of fails keeps exactly the flows of the
    last day and the 1-minute, 5-minute and 1-hour rows of the last 7, 60 and
    730 days, and exactly the daily rows of the last [retentionDays] days as
    long as that is at most 106751. *)
Theorem prune_keeps_retention (s : Scheduler) (now : Time) (t : Tables) :
  0 ≤ retentionDays s ≤ 106751 →
  let t' := tables (prune s now (mkStore t [])).2 in
  (∀ r, r ∈ flows_recent t' ↔ r ∈ flows_recent t ∧ Unix now - day ≤ f_LastSeen r.2) ∧
  (∀ T days, (T, days) ∈ [("rollup_1m", 7); ("rollup_5m", 60); ("rollup_1h", 730);
                          ("rollup_1d", retentionDays s)]%string →
     ∀ k, rollup_table t' T !! k =
          if decide (k.2 < Unix now - days * day) then None else rollup_table t T !! k).
Proof.
  intros Hr. simpl. rewrite prune_run. simpl.
  assert (Unix (Add now (wrap_i64 (- retention s))) = Unix now - retentionDays s * day) as ->.
  { rewrite retention_small // wrap_i64_small; [rewrite /day /Second; lia|].
    rewrite -Z.add_opp_r -(Unix_Add_seconds now (- (retentionDays s * day))). f_equal. f_equal. lia. }
  split.
  - intros r. rewrite list_elem_of_filter. split; intros [? ?]; split; done || lia.
  - intros T days HT k. rewrite !rollup_table_prune.
    assert (∀ A c t0, rollup_table (set_flows A c t0) T !! k = rollup_table t0 T !! k) as -> by done.
    repeat (apply elem_of_cons in HT as [[= -> ->]|HT]); [..|by apply elem_of_nil in HT];
      repeat case_decide; naive_solver.
Qed.

Lemma prune_keeps_retention_witness :
  let t := rolled "rollup_1d" [((1, 0, 0), mkCounters 1 1 1 1)] has_hosts in
  rollup_table (tables (prune (mkScheduler 30) (31 * day * Second) (mkStore t [])).2) "rollup_1d" !! (1, 0, 0) = None ∧
  rollup_table (tables (prune (mkScheduler 90) (31 * day * Second) (mkStore t [])).2) "rollup_1d" !! (1, 0, 0)
    = Some (mkCounters 1 1 1 1).
Proof.
  intros t. split.
  - destruct (prune_keeps_retention (mkScheduler 30) (31 * day * Second) t) as [_ H]; [simpl; lia|].
    rewrite (H "rollup_1d"%string 30); [do 3 right; left|]. vm_compute. reflexivity.
  - destruct (prune_keeps_retention (mkScheduler 90) (31 * day * Second) t) as [_ H]; [simpl; lia|].
    rewrite (H "rollup_1d"%string 90); [do 3 right; left|]. vm_compute. reflexivity.
Defined.

(** One day more and the 64-bit duration wraps to a negative one: the
    daily cutoff moves 292 years into the future and the prune deletes every
    daily row of today and of the past. *)
Theorem prune_retention_overflow (now : Time) (t : Tables) (k : BucketKey) :
  k.2 ≤ Unix now →
  rollup_table (tables (prune (mkScheduler 106752) now (mkStore t [])).2) "rollup_1d" !! k = None.
Proof.
  intros Hk. rewrite prune_run rollup_table_prune decide_True //. split; [done|].
  assert (wrap_i64 (- retention (mkScheduler 106752)) = 9223371273709551616) as -> by (vm_compute; reflexivity).
  pose proof (Unix_Add_seconds now 1) as E.
  assert (Unix (Add now (1 * Second)) ≤ Unix (Add now 9223371273709551616)); [|lia].
  apply Z.div_le_mono; [done|]. rewrite /Add /Second. lia.
Qed.

Lemma prune_retention_overflow_witness :
  let now := 20000 * day * Second in
  let t := rolled "rollup_1d" [((1, 0, 19999 * day), mkCounters 1 1 1 1)] has_hosts in
  is_Some (rollup_table t "rollup_1d" !! (1, 0, 19999 * day)) ∧
  rollup_table (tables (prune (mkScheduler 106752) now (mkStore t [])).2) "rollup_1d" !! (1, 0, 19999 * day) = None.
Proof.
  intros now t. split; [vm_compute; by eexists|]. apply prune_retention_overflow. vm_compute. discriminate.
Defined.

End RollupProperties.
