(* ===== verification/Pipeline.v ===== *)
(** * The capture pipeline ([internal/capture/pipeline.go])

    A decoding goroutine turns packets into flow, DNS and DHCP events and
    buffers them; the flushing goroutine drains the buffers into the database
    at every tick.  The operations of either are state passing functions over
    [Pipeline]; their interleaving is the relation [pstep], whose steps are the
    critical sections of the two goroutines.

    The theorems: a flush on a healthy database stores every drained flow once,
    under the host of its address, and every buffered DNS query; whatever the
    interleaving, each flow event of each received packet ends up in exactly
    one place (still to be added, in the aggregator, or in one drained table);
    and a host that cannot be created in a flush is given the id 0 on its
    second flow, which makes the whole batch fail. *)

From stdpp Require Import prelude strings gmap list relations.
From Stdlib Require Import ZArith Lia.
From Corelib Require Import ssreflect.
From S2P Require Import Prelude GoStrings GoNet GoTime Store StoreProofs Capture Aggregator Decode.

Open Scope general_if_scope.
Open Scope Z_scope.

Record Pipeline := mkPipeline {
  db : Store;
  agg : Aggregator;
  decoder : Decoder;
  hostCache : gmap string Z;
  bumpedThisFlush : gset string;
  macByIP : gmap string string;
  dnsBuf : list DNSQueryEvent;
  dhcpBuf : list DHCPHostnameEvent
}.

Definition with_db s p := mkPipeline s (agg p) (decoder p) (hostCache p) (bumpedThisFlush p) (macByIP p) (dnsBuf p) (dhcpBuf p).
Definition with_agg a p := mkPipeline (db p) a (decoder p) (hostCache p) (bumpedThisFlush p) (macByIP p) (dnsBuf p) (dhcpBuf p).
Definition with_decoder d p := mkPipeline (db p) (agg p) d (hostCache p) (bumpedThisFlush p) (macByIP p) (dnsBuf p) (dhcpBuf p).
Definition with_hostCache c p := mkPipeline (db p) (agg p) (decoder p) c (bumpedThisFlush p) (macByIP p) (dnsBuf p) (dhcpBuf p).
Definition with_bumped b p := mkPipeline (db p) (agg p) (decoder p) (hostCache p) b (macByIP p) (dnsBuf p) (dhcpBuf p).
Definition with_macByIP m p := mkPipeline (db p) (agg p) (decoder p) (hostCache p) (bumpedThisFlush p) m (dnsBuf p) (dhcpBuf p).
Definition with_dnsBuf b p := mkPipeline (db p) (agg p) (decoder p) (hostCache p) (bumpedThisFlush p) (macByIP p) b (dhcpBuf p).
Definition with_dhcpBuf b p := mkPipeline (db p) (agg p) (decoder p) (hostCache p) (bumpedThisFlush p) (macByIP p) (dnsBuf p) b.

(** A store operation on the pipeline's database. *)
Definition on_db {A} (m : M Store A) : M Pipeline A := λ p,
  let '(a, s') := m (db p) in (a, with_db s' p).

Definition NewPipeline (s : Store) (d : Decoder) : Pipeline :=
  mkPipeline s NewAggregator d ∅ ∅ ∅ [] [].

(** ** The decoding goroutine *)
Definition rememberMAC (flow : FlowEvent) : M Pipeline unit :=
  if bool_decide (LocalMAC flow = EmptyString) then ret tt
  else modify (λ p, with_macByIP (<[LocalIP (Key flow) := LocalMAC flow]> (macByIP p)) p).

Definition lookupMAC (ip : string) (p : Pipeline) : string := default EmptyString (macByIP p !! ip).

(** The critical sections one decoded packet goes through, in order. *)
Inductive Action :=
  | ActAdd (e : FlowEvent) | ActMAC (e : FlowEvent)
  | ActDNS (q : DNSQueryEvent) | ActDHCP (d : DHCPHostnameEvent).

Definition flow_actions (o : option FlowEvent) : list Action :=
  match o with Some e => [ActAdd e; ActMAC e] | None => [] end.

Definition actions (r : DecodeResult) : list Action :=
  flow_actions (Flow r) ++ flow_actions (Flow2 r) ++
  (match DNS r with Some q => [ActDNS q] | None => [] end) ++
  (match DHCP r with Some d => [ActDHCP d] | None => [] end).

Definition do_action (a : Action) : M Pipeline unit :=
  match a with
  | ActAdd e => modify (λ p, with_agg (Aggregator.Add e (agg p)) p)
  | ActMAC e => rememberMAC e
  | ActDNS q => modify (λ p, with_dnsBuf (dnsBuf p ++ [q]) p)
  | ActDHCP d => modify (λ p, with_dhcpBuf (dhcpBuf p ++ [d]) p)
  end.

(** The body of the loop over packets, uninterrupted. *)
Definition handle_packet `{Gopacket} (pkt : RawPacket) (now : Time) : M Pipeline unit :=
  let! p := get in
  let '(r, d') := Decode (decoder p) pkt now in
  put (with_decoder d' p) ;;!
  for_each do_action (actions r).

(** ** The flushing goroutine *)
Definition resolveHost (ip : string) (seenAt : Z) : M Pipeline (Result DBError Z) :=
  let! p := get in
  let cached := hostCache p !! ip in
  if bool_decide (ip ∈ bumpedThisFlush p) then ret (Ok (default 0 cached)) else
  put (with_bumped ({[ip]} ∪ bumpedThisFlush p) p) ;;!
  let? id :=
    match cached with
    | None =>
        let? newID := on_db (UpsertHost ip seenAt) in
        modify (λ p, with_hostCache (<[ip := newID]> (hostCache p)) p) ;;!
        ret (Ok newID)
    | Some id => on_db (UpsertHost ip seenAt) ;;! ret (Ok id)
    end in
  let! mac := gets (lookupMAC ip) in
  (if bool_decide (mac = EmptyString) then ret tt else on_db (ignore (SetHostMAC id mac))) ;;!
  ret (Ok id).

Definition flow_record (hostID : Z) (key : FlowKey) (acc : FlowAccum) : FlowRecord :=
  mkFlowRecord hostID (Direction key) (Proto key) (LocalIP key) (LocalPort key) (RemoteIP key)
    (RemotePort key) (FirstSeen acc) (LastSeen acc) (BytesSent acc) (BytesRecv acc)
    (PacketsSent acc) (PacketsRecv acc).

(** The body of the loop over the drained table. *)
Definition resolve_flow (now : Z) (kv : FlowKey * FlowAccum) : M Pipeline (option FlowRecord) :=
  let! r := resolveHost (LocalIP kv.1) now in
  ret (match r with Ok id => Some (flow_record id kv.1 kv.2) | Err _ => None end).

Definition dns_record (hostID : Z) (q : DNSQueryEvent) : DNSQueryRecord :=
  mkDNSQueryRecord hostID (DQName q) (DQType q) (Unix (DTimestamp q)).

Definition resolve_query (now : Z) (q : DNSQueryEvent) : M Pipeline (option DNSQueryRecord) :=
  let! r := resolveHost (DLocalIP q) now in
  ret (match r with Ok id => Some (dns_record id q) | Err _ => None end).

Definition flushDNS (now : Z) : M Pipeline unit :=
  let! drained := gets dnsBuf in
  modify (with_dnsBuf []) ;;!
  match drained with
  | [] => ret tt
  | _ =>
      let! records := collect (resolve_query now) drained in
      on_db (ignore (InsertDNSQueries records))
  end.

Definition flush_hostname (ev : DHCPHostnameEvent) : M Pipeline unit :=
  if bool_decide (HMAC ev = EmptyString) || bool_decide (HHostname ev = EmptyString) then ret tt
  else on_db (ignore (UpsertDHCPHostname (HMAC ev) (HHostname ev) (Unix (HTimestamp ev)))).

Definition flushDHCP : M Pipeline unit :=
  let! drained := gets dhcpBuf in
  modify (with_dhcpBuf []) ;;!
  for_each flush_hostname drained.

(** The drained flows, in the order the range over the map visits them. *)
Definition flush_flows {o : Order} (now : Z) (drained : Table) : M Pipeline unit :=
  if decide (drained = ∅) then ret tt else
  let! records := collect (resolve_flow now) (ord o (map_to_list drained)) in
  on_db (ignore (InsertFlows records)).

Definition drain_agg : M Pipeline Table := λ p,
  let '(t, a') := Drain (agg p) in (t, with_agg a' p).

Definition flush {o : Order} (now : Z) : M Pipeline unit :=
  modify (with_bumped ∅) ;;!
  let! drained := drain_agg in
  flush_flows now drained ;;!
  flushDNS now ;;!
  flushDHCP.

(** ** A flush on a healthy database *)

(** Some host has this address and this id. *)
Definition host_has (t : Tables) (ip : string) (id : Z) : Prop :=
  ∃ h, h ∈ hosts t ∧ h_IP h = ip ∧ h_ID h = id.

Lemma host_has_id t ip id : host_has t ip id → id ∈ host_ids t.
Proof. intros (h & Hh & _ & <-). by apply list_elem_of_fmap_2. Qed.

Lemma host_has_upsert ip seenAt t ip' id' :
  wf t → host_has t ip' id' → host_has (upsert_host ip seenAt t).2 ip' id'.
Proof.
  intros Ht (h & Hh & <- & <-). destruct (decide (h_IP h = ip)) as [<-|Hne].
  - pose proof (upsert_host_row (h_IP h) seenAt t Ht) as Hr.
    pose proof (upsert_host_found (h_IP h) seenAt t h Ht Hh eq_refl) as Hf.
    destruct (upsert_host (h_IP h) seenAt t) as [id t']. simpl in Hf. subst id.
    destruct Hr as (h' & ? & ? & ? & _). by exists h'.
  - exists h. split; [|done]. by apply upsert_host_others.
Qed.

Lemma host_has_new ip seenAt t : wf t → host_has (upsert_host ip seenAt t).2 ip (upsert_host ip seenAt t).1.
Proof.
  intros Ht. pose proof (upsert_host_row ip seenAt t Ht) as Hr.
  destruct (upsert_host ip seenAt t) as [id t']. destruct Hr as (h' & ? & ? & ? & _). by exists h'.
Qed.

Lemma host_has_map (f : Host → Host) n t ip id :
  (∀ h, h_ID (f h) = h_ID h ∧ h_IP (f h) = h_IP h) →
  host_has t ip id → host_has (set_hosts (f <$> hosts t) n t) ip id.
Proof.
  intros Hf (h & Hh & <- & <-). destruct (Hf h) as [H1 H2]. exists (f h). split_and!; try done.
  by apply list_elem_of_fmap_2.
Qed.

Lemma host_has_unique t ip id id' : wf t → host_has t ip id → host_has t ip id' → id = id'.
Proof.
  intros Ht (h & Hh & E & <-) (h' & Hh' & E' & <-).
  pose proof (head_filter_key h_IP _ h (wf_host_ips _ Ht) Hh) as K.
  pose proof (head_filter_key h_IP _ h' (wf_host_ips _ Ht) Hh') as K'.
  rewrite E in K. rewrite E' in K'. congruence.
Qed.

(** No statement is going to fail, cached ids are the hosts' ids, and the
    addresses handled in this flush are cached. *)
Record healthy (p : Pipeline) : Prop := mkHealthy {
  healthy_wf : wf (tables (db p));
  healthy_faults : faults (db p) = [];
  healthy_cache : map_Forall (host_has (tables (db p))) (hostCache p);
  healthy_bumped : ∀ ip, ip ∈ bumpedThisFlush p → is_Some (hostCache p !! ip)
}.

(** What resolving hosts leaves alone. *)
Definition untouched (p p' : Pipeline) : Prop :=
  (agg p', decoder p', macByIP p', dnsBuf p', dhcpBuf p') = (agg p, decoder p, macByIP p, dnsBuf p, dhcpBuf p) ∧
  (flows_recent (tables (db p')), dns_queries (tables (db p')), dhcp_hostnames (tables (db p'))) =
  (flows_recent (tables (db p)), dns_queries (tables (db p)), dhcp_hostnames (tables (db p))) ∧
  hostCache p ⊆ hostCache p'.

Lemma untouched_refl p : untouched p p.
Proof. done. Qed.
Lemma untouched_trans p1 p2 p3 : untouched p1 p2 → untouched p2 p3 → untouched p1 p3.
Proof.
  rewrite /untouched. intros (A1 & B1 & C1) (A2 & B2 & C2). rewrite A2 B2.
  split_and!; [done..|by transitivity (hostCache p2)].
Qed.

Lemma UpsertHost_run ip seenAt t :
  UpsertHost ip seenAt (mkStore t []) =
  (Ok (upsert_host ip seenAt t).1, mkStore (upsert_host ip seenAt t).2 []).
Proof. rewrite /UpsertHost /stmt /=. by destruct (upsert_host ip seenAt t). Qed.

Lemma upsert_host_frame ip seenAt t :
  let t' := (upsert_host ip seenAt t).2 in
  flows_recent t' = flows_recent t ∧ dns_queries t' = dns_queries t ∧ dhcp_hostnames t' = dhcp_hostnames t.
Proof. rewrite /upsert_host. by case_match. Qed.

(** The part of [resolveHost] after the id is known. *)
Lemma set_mac_run ip id p :
  healthy p → hostCache p !! ip = Some id →
  ∃ p', (let! mac := gets (lookupMAC ip) in
         (if bool_decide (mac = EmptyString) then ret tt else on_db (ignore (SetHostMAC id mac))) ;;!
         ret (Ok (E := DBError) id)) p = (Ok id, p') ∧
    healthy p' ∧ hostCache p' !! ip = Some id ∧ untouched p p'.
Proof.
  intros Hp Hc. rewrite /bind /gets /=. case_bool_decide; [by exists p|].
  destruct p as [[t fs] a d c b m dq dh]. destruct Hp as [Hwf Hf Hca Hb]. simpl in *. subst fs.
  eexists. split; [reflexivity|]. split_and!; [|done..].
  split; simpl; [by apply wf_map_hosts; [intros h; case_match|]|done| |done].
  eapply map_Forall_impl; [exact Hca|]. intros ip' id'. apply host_has_map. intros h. by case_match.
Qed.

(** Recording the address in the database and the cache. *)
Lemma upsert_cache_run ip seenAt p :
  healthy p → ip ∉ bumpedThisFlush p →
  let p1 := with_bumped ({[ip]} ∪ bumpedThisFlush p) p in
  ∃ id p', (match hostCache p !! ip with
            | None =>
                let? newID := on_db (UpsertHost ip seenAt) in
                modify (λ p, with_hostCache (<[ip := newID]> (hostCache p)) p) ;;!
                ret (Ok newID)
            | Some id => on_db (UpsertHost ip seenAt) ;;! ret (Ok id)
            end) p1 = (Ok id, p') ∧
    healthy p' ∧ hostCache p' !! ip = Some id ∧ untouched p p'.
Proof.
  intros [Hwf Hf Hca Hb] Hnb. destruct p as [[t fs] a d c b m dq dh]. simpl in *. subst fs.
  destruct (upsert_host_frame ip seenAt t) as (F1 & F2 & F3).
  destruct (c !! ip) as [id|] eqn:Ec; rewrite /bind /on_db /= UpsertHost_run;
    eexists _, _; (split; [reflexivity|]); split_and!; simpl.
  - split; simpl; [by apply wf_upsert_host|done| |].
    + eapply map_Forall_impl; [exact Hca|]. intros ip' id'. by apply host_has_upsert.
    + intros ip' [->%elem_of_singleton|?]%elem_of_union; [by rewrite Ec|by apply Hb].
  - done.
  - rewrite /untouched /= F1 F2 F3. done.
  - split; simpl; [by apply wf_upsert_host|done| |].
    + apply map_Forall_insert_2; [by apply host_has_new|].
      eapply map_Forall_impl; [exact Hca|]. intros ip' id'. by apply host_has_upsert.
    + intros ip' [->%elem_of_singleton|Hi]%elem_of_union; [by rewrite lookup_insert_eq|].
      rewrite lookup_insert_ne; [by intros <-|]. by apply Hb.
  - by rewrite lookup_insert_eq.
  - rewrite /untouched /= F1 F2 F3. split_and!; [done..|]. by apply insert_subseteq.
Qed.

Lemma resolveHost_run ip seenAt p :
  healthy p →
  ∃ id p', resolveHost ip seenAt p = (Ok id, p') ∧
    healthy p' ∧ hostCache p' !! ip = Some id ∧ untouched p p'.
Proof.
  intros Hp. rewrite /resolveHost {1}/bind /get. cbv beta iota zeta. case_bool_decide as Hb.
  - destruct (healthy_bumped _ Hp ip Hb) as [id Hid]. exists id, p. by rewrite Hid.
  - destruct (upsert_cache_run ip seenAt p Hp Hb) as (id & p2 & E & H2 & C2 & U2).
    destruct (set_mac_run ip id p2 H2 C2) as (p3 & E3 & H3 & C3 & U3).
    exists id, p3. split_and!; try done; [|exact (untouched_trans _ _ _ U2 U3)].
    rewrite {1}/bind /put. cbv beta iota zeta. rewrite {1}/bind E. exact E3.
Qed.

(** Resolving a whole slice. *)
Lemma collect_resolve_run {X R} (ip : X → string) (rec : Z → X → R) (f : X → M Pipeline (option R)) seenAt :
  (∀ x, f x = let! r := resolveHost (ip x) seenAt in
              ret (match r with Ok id => Some (rec id x) | Err _ => None end)) →
  ∀ l p, healthy p →
  ∃ p', collect f l p = ((λ x, rec (default 0 (hostCache p' !! ip x)) x) <$> l, p') ∧
    healthy p' ∧ untouched p p' ∧ Forall (λ x, is_Some (hostCache p' !! ip x)) l.
Proof.
  intros Hf. induction l as [|x l IH]; intros p Hp.
  - by exists p.
  - destruct (resolveHost_run (ip x) seenAt p Hp) as (id & p1 & E1 & H1 & C1 & U1).
    destruct (IH p1 H1) as (p2 & E2 & H2 & U2 & F2).
    assert (hostCache p2 !! ip x = Some id) as C2.
    { destruct U2 as (_ & _ & U2). exact (lookup_weaken _ _ _ _ C1 U2). }
    exists p2. split_and!; [|done|exact (untouched_trans _ _ _ U1 U2)|constructor; [by rewrite C2|done]].
    simpl. rewrite {1}/bind Hf {1}/bind E1 /ret. rewrite {1}/bind E2 /=. by rewrite C2.
Qed.

(** The rows a flush makes of a drained table and of the buffered queries,
    given the host ids in the cache. *)
Definition flow_rows (cache : gmap string Z) (kvs : list (FlowKey * FlowAccum)) : list FlowRecord :=
  (λ kv, flow_record (default 0 (cache !! LocalIP kv.1)) kv.1 kv.2) <$> kvs.
Definition dns_rows (cache : gmap string Z) (qs : list DNSQueryEvent) : list DNSQueryRecord :=
  (λ q, dns_record (default 0 (cache !! DLocalIP q)) q) <$> qs.

Lemma cached_host_known p ip :
  healthy p → is_Some (hostCache p !! ip) → default 0 (hostCache p !! ip) ∈ host_ids (tables (db p)).
Proof. intros Hp [id Hid]. rewrite Hid. exact (host_has_id _ _ _ (healthy_cache _ Hp ip id Hid)). Qed.

(** A change of the tables that keeps the hosts keeps the pipeline healthy. *)
Lemma healthy_with_tables p t' :
  healthy p → hosts t' = hosts (tables (db p)) → wf t' → healthy (with_db (mkStore t' []) p).
Proof.
  intros [Hwf Hf Hc Hb] Hh Ht'. split; try done; simpl.
  eapply map_Forall_impl; [exact Hc|]. intros ip id (h & ? & ?). exists h. by rewrite Hh.
Qed.

Lemma flush_flows_run {o : Order} now drained p :
  healthy p →
  ∃ p' s', flush_flows now drained p = (tt, with_db s' p') ∧ healthy (with_db s' p') ∧ untouched p p' ∧
    s' = mkStore (appended_flows (flow_rows (hostCache p') (ord o (map_to_list drained))) (tables (db p'))) [] ∧
    Forall (λ kv, is_Some (hostCache p' !! LocalIP kv.1)) (ord o (map_to_list drained)).
Proof.
  intros Hp. rewrite /flush_flows. destruct (decide (drained = ∅)) as [->|Hne].
  - assert (ord o (map_to_list (∅ : Table)) = []) as E.
    { apply length_zero_iff_nil. by rewrite length_ord map_to_list_empty. }
    exists p, (db p). rewrite E /= appended_flows_nil.
    assert (db p = mkStore (tables (db p)) []) as <-.
    { destruct (db p) as [t fs] eqn:Ed. f_equal. pose proof (healthy_faults _ Hp) as H. by rewrite Ed in H. }
    by destruct p.
  - destruct (collect_resolve_run (λ kv : FlowKey * FlowAccum, LocalIP kv.1)
      (λ id kv, flow_record id kv.1 kv.2) (resolve_flow now) now (λ _, eq_refl)
      (ord o (map_to_list drained)) p Hp) as (p1 & E1 & H1 & U1 & F1).
    assert (Forall (λ r, f_HostID r ∈ host_ids (tables (db p1)))
      (flow_rows (hostCache p1) (ord o (map_to_list drained)))) as Hrows.
    { apply Forall_fmap. eapply Forall_impl; [exact F1|]. intros kv Hkv. by apply cached_host_known. }
    eexists p1, _. split_and!; [| |done|reflexivity|done].
    + rewrite /bind E1 /on_db /ignore /bind.
      destruct (db p1) as [t1 fs1] eqn:Ed. pose proof (healthy_faults _ H1) as Hf. rewrite Ed /= in Hf. subst fs1.
      by rewrite (InsertFlows_run _ t1 Hrows).
    + apply healthy_with_tables; [done|done|]. apply wf_append_flows; [done|apply H1].
Qed.

Lemma flushDNS_run now p :
  healthy p →
  ∃ p' s', flushDNS now p = (tt, with_db s' p') ∧ healthy (with_db s' p') ∧
    untouched (with_dnsBuf [] p) p' ∧
    s' = mkStore (appended_dns (dns_rows (hostCache p') (dnsBuf p)) (tables (db p'))) [] ∧
    Forall (λ q, is_Some (hostCache p' !! DLocalIP q)) (dnsBuf p).
Proof.
  intros Hp. assert (healthy (with_dnsBuf [] p)) as Hp0 by (by destruct Hp).
  rewrite /flushDNS {1}/bind /gets. cbv beta iota. rewrite {1}/bind /modify. cbv beta iota.
  destruct (dnsBuf p) as [|q qs].
  - exists (with_dnsBuf [] p), (db p). rewrite /= appended_dns_nil.
    assert (db p = mkStore (tables (db p)) []) as <-.
    { destruct (db p) as [t fs] eqn:Ed. f_equal. pose proof (healthy_faults _ Hp) as H. by rewrite Ed in H. }
    split_and!; [by destruct p|by destruct p|done|done|constructor].
  - destruct (collect_resolve_run DLocalIP dns_record (resolve_query now) now (λ _, eq_refl)
      (q :: qs) (with_dnsBuf [] p) Hp0) as (p1 & E1 & H1 & U1 & F1).
    assert (Forall (λ r, q_HostID r ∈ host_ids (tables (db p1))) (dns_rows (hostCache p1) (q :: qs))) as Hrows.
    { apply Forall_fmap. eapply Forall_impl; [exact F1|]. intros x Hx. by apply cached_host_known. }
    eexists p1, _. split_and!; [| |done|reflexivity|done].
    + rewrite /bind E1 /on_db /ignore /bind.
      destruct (db p1) as [t1 fs1] eqn:Ed. pose proof (healthy_faults _ H1) as Hf. rewrite Ed /= in Hf. subst fs1.
      by rewrite (InsertDNSQueries_run _ t1 Hrows).
    + apply healthy_with_tables; [done|done|]. apply wf_append_dns; [done|apply H1].
Qed.

Lemma flow_rows_mono c1 c2 kvs :
  c1 ⊆ c2 → Forall (λ kv, is_Some (c1 !! LocalIP kv.1)) kvs → flow_rows c2 kvs = flow_rows c1 kvs.
Proof.
  intros Hc Hk. apply list_fmap_ext. intros i kv Hi. rewrite Forall_forall in Hk.
  destruct (Hk kv) as [id Hid]; [exact (list_elem_of_lookup_2 _ _ _ Hi)|].
  by rewrite Hid (lookup_weaken _ _ _ _ Hid Hc).
Qed.

Lemma UpsertDHCPHostname_run mac name ts t :
  UpsertDHCPHostname mac name ts (mkStore t []) =
  (Ok tt, mkStore (set_display_name mac name (set_dhcp (<[mac := (name, ts)]> (dhcp_hostnames t)) t)) []).
Proof. done. Qed.

Lemma healthy_db p : healthy p → db p = mkStore (tables (db p)) [].
Proof. intros Hp. pose proof (healthy_faults _ Hp) as H. destruct (db p). simpl in *. by rewrite H. Qed.

Lemma flush_hostname_run ev p :
  healthy p →
  ∃ p', flush_hostname ev p = (tt, p') ∧ healthy p' ∧ hostCache p' = hostCache p ∧
    (agg p', decoder p', dnsBuf p', dhcpBuf p', flows_recent (tables (db p')), dns_queries (tables (db p'))) =
    (agg p, decoder p, dnsBuf p, dhcpBuf p, flows_recent (tables (db p)), dns_queries (tables (db p))).
Proof.
  intros Hp. rewrite /flush_hostname. case_match; [by exists p|].
  rewrite /on_db /ignore /bind (healthy_db p Hp) UpsertDHCPHostname_run.
  eexists. split; [reflexivity|]. split_and!; [|done..].
  destruct Hp as [Hwf Hf Hc Hb]. split; simpl; [|done| |done].
  - apply wf_set_display_name. by apply wf_set_dhcp.
  - eapply map_Forall_impl; [exact Hc|]. intros ip id Hh.
    apply (host_has_map _ _ (set_dhcp _ (tables (db p)))); [intros h; by case_match|done].
Qed.

Lemma flushDHCP_run p :
  healthy p →
  ∃ p', flushDHCP p = (tt, p') ∧ healthy p' ∧ hostCache p' = hostCache p ∧ dhcpBuf p' = [] ∧
    (agg p', decoder p', dnsBuf p', flows_recent (tables (db p')), dns_queries (tables (db p'))) =
    (agg p, decoder p, dnsBuf p, flows_recent (tables (db p)), dns_queries (tables (db p))).
Proof.
  intros Hp. assert (healthy (with_dhcpBuf [] p)) as Hp0 by (by destruct Hp).
  assert (∀ l p0, healthy p0 → ∃ p', for_each flush_hostname l p0 = (tt, p') ∧ healthy p' ∧
    hostCache p' = hostCache p0 ∧
    (agg p', decoder p', dnsBuf p', dhcpBuf p', flows_recent (tables (db p')), dns_queries (tables (db p'))) =
    (agg p0, decoder p0, dnsBuf p0, dhcpBuf p0, flows_recent (tables (db p0)), dns_queries (tables (db p0)))) as H.
  { induction l as [|ev l IH]; intros p0 H0; [by exists p0|].
    destruct (flush_hostname_run ev p0 H0) as (p1 & E1 & H1 & C1 & S1).
    destruct (IH p1 H1) as (p2 & E2 & H2 & C2 & S2). exists p2.
    split_and!; [|done|by rewrite C2|by rewrite S2]. by rewrite /= /bind E1. }
  destruct (H (dhcpBuf p) _ Hp0) as (p' & E & H' & C & S). exists p'.
  split_and!; [by rewrite /flushDHCP /bind /= E|done|done|simpl in S; congruence|simpl in S; congruence].
Qed.

(** The effect of one flush. *)
Lemma flush_run {o : Order} now p :
  healthy p →
  ∃ p', flush now p = (tt, p') ∧ healthy p' ∧
    table (agg p') = ∅ ∧ dnsBuf p' = [] ∧ dhcpBuf p' = [] ∧
    (flows_recent (tables (db p'))).*2 =
      (flows_recent (tables (db p))).*2 ++ flow_rows (hostCache p') (ord o (map_to_list (table (agg p)))) ∧
    (dns_queries (tables (db p'))).*2 =
      (dns_queries (tables (db p))).*2 ++ dns_rows (hostCache p') (dnsBuf p) ∧
    Forall (λ kv, is_Some (hostCache p' !! LocalIP kv.1)) (map_to_list (table (agg p))) ∧
    hostCache p ⊆ hostCache p' ∧ decoder p' = decoder p.
Proof.
  intros Hp. set p0 := with_agg (mkAggregator ∅) (with_bumped ∅ p).
  assert (healthy p0) as H0 by (destruct Hp; by split).
  destruct (flush_flows_run now (table (agg p)) p0 H0) as (p1 & s1 & E1 & H1 & U1 & S1 & F1).
  destruct (flushDNS_run now _ H1) as (p2 & s2 & E2 & H2 & U2 & S2 & F2).
  destruct (flushDHCP_run _ H2) as (p3 & E3 & H3 & C3 & D3 & X3).
  destruct U1 as (A1 & B1 & M1), U2 as (A2 & B2 & M2).
  simpl in *. simplify_eq. exists p3. split_and!; try done.
  - rewrite /flush {1}/bind /modify. cbv beta iota. rewrite {1}/bind /drain_agg /Drain. cbv beta iota.
    rewrite {1}/bind. change (with_agg {| table := ∅ |} (with_bumped ∅ p)) with p0.
    change (agg (with_bumped ∅ p)) with (agg p). rewrite E1. by rewrite /bind E2 E3.
  - by assert (agg p3 = mkAggregator ∅) as -> by congruence.
  - congruence.
  - assert (flows_recent (tables (db p3)) = flows_recent (tables (db p2))) as -> by assumption.
    assert (flows_recent (tables (db p2)) = flows_recent
      (appended_flows (flow_rows (hostCache p1) (ord o (map_to_list (table (agg p))))) (tables (db p1)))) as -> by assumption.
    rewrite /appended_flows /= fmap_app number_snd C3. f_equal; [by f_equal; congruence|].
    symmetry. by apply flow_rows_mono.
  - assert (dns_queries (tables (db p3)) =
      dns_queries (appended_dns (dns_rows (hostCache p2) (dnsBuf p1)) (tables (db p2)))) as -> by assumption.
    assert (dns_queries (tables (db p2)) = dns_queries (tables (db p1))) as Ed by assumption.
    rewrite /appended_dns /= fmap_app number_snd C3. f_equal; f_equal; congruence.
  - rewrite C3. rewrite (ord_perm o) in F1. eapply Forall_impl; [exact F1|]. intros kv [id Hid].
    exists id. exact (lookup_weaken _ _ _ _ Hid M2).
  - rewrite C3. by transitivity (hostCache p1).
  - congruence.
Qed.

(** ** The two goroutines interleaved *)

(** Where the flushing goroutine is inside [flush]. *)
Inductive Phase :=
  | Idle
  | FlowsTodo (now : Z) (todo : list (FlowKey * FlowAccum)) (records : list FlowRecord)
  | DNSNext (now : Z)
  | DNSTodo (now : Z) (todo : list DNSQueryEvent) (records : list DNSQueryRecord)
  | DHCPNext
  | DHCPTodo (todo : list DHCPHostnameEvent).

(** The pipeline, what the decoding goroutine still has to do for its packet,
    where the flush is, and two histories: the flow events of the packets
    received and the tables drained so far. *)
Record PState := mkPState {
  pl : Pipeline; pending : list Action; phase : Phase;
  received : list FlowEvent; drainedTables : list Table
}.

Definition pinit (p : Pipeline) : PState := mkPState p [] Idle [] [].

Section steps.
Context `{Gopacket} {o : Order}.

Inductive pstep : PState → PState → Prop :=
  | st_receive p ph rcv drs pkt now :
      pstep (mkPState p [] ph rcv drs)
        (mkPState (with_decoder (Decode (decoder p) pkt now).2 p) (actions (Decode (decoder p) pkt now).1) ph
           (rcv ++ flows (Decode (decoder p) pkt now).1) drs)
  | st_action p a acts ph rcv drs :
      pstep (mkPState p (a :: acts) ph rcv drs) (mkPState (do_action a p).2 acts ph rcv drs)
  | st_tick p acts rcv drs now :
      pstep (mkPState p acts Idle rcv drs)
        (mkPState (drain_agg (with_bumped ∅ p)).2 acts
           (if decide (table (agg p) = ∅) then DNSNext now
            else FlowsTodo now (ord o (map_to_list (table (agg p)))) []) rcv (drs ++ [table (agg p)]))
  | st_resolve p acts now kv todo recs rcv drs :
      pstep (mkPState p acts (FlowsTodo now (kv :: todo) recs) rcv drs)
        (mkPState (resolve_flow now kv p).2 acts
           (FlowsTodo now todo (recs ++ option_list (resolve_flow now kv p).1)) rcv drs)
  | st_insert p acts now recs rcv drs :
      pstep (mkPState p acts (FlowsTodo now [] recs) rcv drs)
        (mkPState (on_db (ignore (InsertFlows recs)) p).2 acts (DNSNext now) rcv drs)
  | st_dns_drain p acts now rcv drs :
      pstep (mkPState p acts (DNSNext now) rcv drs)
        (mkPState (with_dnsBuf [] p) acts
           (match dnsBuf p with [] => DHCPNext | qs => DNSTodo now qs [] end) rcv drs)
  | st_dns_resolve p acts now q todo recs rcv drs :
      pstep (mkPState p acts (DNSTodo now (q :: todo) recs) rcv drs)
        (mkPState (resolve_query now q p).2 acts
           (DNSTodo now todo (recs ++ option_list (resolve_query now q p).1)) rcv drs)
  | st_dns_insert p acts now recs rcv drs :
      pstep (mkPState p acts (DNSTodo now [] recs) rcv drs)
        (mkPState (on_db (ignore (InsertDNSQueries recs)) p).2 acts DHCPNext rcv drs)
  | st_dhcp_drain p acts rcv drs :
      pstep (mkPState p acts DHCPNext rcv drs)
        (mkPState (with_dhcpBuf [] p) acts (DHCPTodo (dhcpBuf p)) rcv drs)
  | st_dhcp_one p acts ev todo rcv drs :
      pstep (mkPState p acts (DHCPTodo (ev :: todo)) rcv drs)
        (mkPState (flush_hostname ev p).2 acts (DHCPTodo todo) rcv drs)
  | st_dhcp_done p acts rcv drs :
      pstep (mkPState p acts (DHCPTodo []) rcv drs) (mkPState p acts Idle rcv drs).

(** Running the steps of one goroutine without interruption is running its
    function. *)
Lemma actions_steps acts : ∀ p acts' ph rcv drs,
  rtc pstep (mkPState p (acts ++ acts') ph rcv drs) (mkPState (for_each do_action acts p).2 acts' ph rcv drs).
Proof.
  induction acts as [|a acts IH]; intros p acts' ph rcv drs; [apply rtc_refl|].
  eapply rtc_l; [apply st_action|]. simpl. rewrite /bind. destruct (do_action a p) as [[] p1]. apply IH.
Qed.

Lemma collect_snoc_steps {X R} (f : X → M Pipeline (option R)) (ph : list X → list R → Phase) acts rcv drs :
  (∀ p x xs rs, pstep (mkPState p acts (ph (x :: xs) rs) rcv drs)
                  (mkPState (f x p).2 acts (ph xs (rs ++ option_list (f x p).1)) rcv drs)) →
  ∀ xs p rs, rtc pstep (mkPState p acts (ph xs rs) rcv drs)
     (mkPState (collect f xs p).2 acts (ph [] (rs ++ (collect f xs p).1)) rcv drs).
Proof.
  intros Hf. induction xs as [|x xs IH]; intros p rs; simpl.
  - rewrite app_nil_r. apply rtc_refl.
  - eapply rtc_l; [apply Hf|]. rewrite /bind. destruct (f x p) as [y p1]. simpl.
    specialize (IH p1 (rs ++ option_list y)). destruct (collect f xs p1) as [ys p2]. simpl in *.
    rewrite -app_assoc in IH. by destruct y.
Qed.

Lemma dhcp_steps acts rcv drs evs : ∀ p,
  rtc pstep (mkPState p acts (DHCPTodo evs) rcv drs)
    (mkPState (for_each flush_hostname evs p).2 acts Idle rcv drs).
Proof.
  induction evs as [|ev evs IH]; intros p.
  - apply rtc_once, st_dhcp_done.
  - eapply rtc_l; [apply st_dhcp_one|]. simpl. rewrite /bind. destruct (flush_hostname ev p) as [[] p1]. apply IH.
Qed.

Lemma flushDHCP_steps acts rcv drs p :
  rtc pstep (mkPState p acts DHCPNext rcv drs) (mkPState (flushDHCP p).2 acts Idle rcv drs).
Proof. eapply rtc_l; [apply st_dhcp_drain|]. apply dhcp_steps. Qed.

Lemma flushDNS_steps now acts rcv drs p :
  rtc pstep (mkPState p acts (DNSNext now) rcv drs) (mkPState (flushDNS now p).2 acts DHCPNext rcv drs).
Proof.
  eapply rtc_l; [apply st_dns_drain|]. rewrite /flushDNS {1}/bind /gets. cbv beta iota.
  rewrite {1}/bind /modify. cbv beta iota. destruct (dnsBuf p) as [|q qs]; [apply rtc_refl|].
  etrans; [apply (collect_snoc_steps (resolve_query now) (DNSTodo now)); intros; apply st_dns_resolve|].
  rewrite /bind. destruct (collect (resolve_query now) (q :: qs) (with_dnsBuf [] p)) as [rs p1].
  apply rtc_once, st_dns_insert.
Qed.

Lemma flush_flows_steps now acts rcv drs tbl p :
  rtc pstep (mkPState p acts (if decide (tbl = ∅) then DNSNext now
                              else FlowsTodo now (ord o (map_to_list tbl)) []) rcv drs)
    (mkPState (flush_flows now tbl p).2 acts (DNSNext now) rcv drs).
Proof.
  rewrite /flush_flows. destruct (decide (tbl = ∅)); [apply rtc_refl|].
  etrans; [apply (collect_snoc_steps (resolve_flow now) (FlowsTodo now)); intros; apply st_resolve|].
  rewrite /bind. destruct (collect (resolve_flow now) (ord o (map_to_list tbl)) p) as [rs p1].
  apply rtc_once, st_insert.
Qed.
End steps.

(** The flushing goroutine touches the aggregator only to drain it. *)
Section agg_unchanged.
Context (a : Aggregator).
Abbreviation same := (λ p : Pipeline, agg p = a).

#[export] Instance same_on_db {A} (m : M Store A) : Preserves same (on_db m).
Proof. intros p Hp. rewrite /on_db. by destruct (m (db p)). Qed.
#[export] Instance same_put_bumped (f : Pipeline → gset string) (k : Pipeline → M Pipeline (Result DBError Z)) :
  (∀ p, Preserves same (k p)) → Preserves same (let! p := get in put (with_bumped (f p) p) ;;! k p).
Proof. intros Hk p Hp. apply Hk. exact Hp. Qed.
#[export] Instance same_resolveHost ip seenAt : Preserves same (resolveHost ip seenAt).
Proof.
  intros p Hp. rewrite /resolveHost /bind /get /=. case_bool_decide; [done|]. simpl.
  match goal with |- agg (let '(a0, s') := ?m in _).2 = _ =>
    assert (agg m.2 = a) as Hm; [|destruct m as [[id|e] p1]; [|done]] end.
  - destruct (hostCache p !! ip); rewrite /on_db /=; by destruct (UpsertHost ip seenAt (db p)) as [[] ?].
  - simpl in *. rewrite /gets. case_bool_decide; [done|]. rewrite /on_db. by destruct (ignore _ (db p1)).
Qed.
#[export] Instance same_resolve_flow now kv : Preserves same (resolve_flow now kv).
Proof. apply _. Qed.
#[export] Instance same_resolve_query now q : Preserves same (resolve_query now q).
Proof. apply _. Qed.
#[export] Instance same_flush_hostname ev : Preserves same (flush_hostname ev).
Proof. rewrite /flush_hostname. case_match; apply _. Qed.
End agg_unchanged.

Definition pending_flows (acts : list Action) : list FlowEvent :=
  omap (λ a, match a with ActAdd e => Some e | _ => None end) acts.

Lemma pending_flows_actions r : pending_flows (actions r) = flows r.
Proof. by destruct r as [[] [] [] []]. Qed.

(** Each flow event received is in exactly one drained table, in the
    aggregator, or still to be added. *)
Definition partitioned (st : PState) : Prop :=
  ∃ segs cur, received st = mjoin segs ++ cur ++ pending_flows (pending st) ∧
    drainedTables st = table_of <$> segs ∧ agg (pl st) = add_all cur NewAggregator.

Lemma partitioned_same st st' :
  partitioned st → received st' = received st → pending st' = pending st →
  drainedTables st' = drainedTables st → agg (pl st') = agg (pl st) → partitioned st'.
Proof. intros (segs & cur & ? & ? & ?) E1 E2 E3 E4. exists segs, cur. by rewrite E1 E2 E3 E4. Qed.

Lemma partitioned_step `{Gopacket} {o : Order} st st' : partitioned st → pstep st st' → partitioned st'.
Proof.
  intros Hp Hs. destruct Hs; try (eapply partitioned_same; [exact Hp|done..|simpl; try done]).
  - destruct Hp as (segs & cur & E1 & E2 & E3). exists segs, cur. simpl in *.
    rewrite pending_flows_actions E1 !app_nil_r -app_assoc. done.
  - destruct Hp as (segs & cur & E1 & E2 & E3). simpl in *. destruct a as [e|e|q|d]; simpl in *.
    + exists segs, (cur ++ [e]). simpl. rewrite E1 add_all_snoc E3 -app_assoc. done.
    + exists segs, cur. simpl. split_and!; try done. rewrite /rememberMAC. by case_match.
    + by exists segs, cur.
    + by exists segs, cur.
  - destruct Hp as (segs & cur & E1 & E2 & E3). simpl in *. exists (segs ++ [cur]), []. simpl.
    split_and!; [|by rewrite E2 E3 fmap_app|done].
    rewrite E1 join_app /=. by rewrite app_nil_r -app_assoc.
  - exact (same_resolve_flow (agg p) now kv p eq_refl).
  - exact (same_on_db (agg p) _ p eq_refl).
  - exact (same_resolve_query (agg p) now q p eq_refl).
  - exact (same_on_db (agg p) _ p eq_refl).
  - exact (same_flush_hostname (agg p) ev p eq_refl).
Qed.

Lemma partitioned_reachable `{Gopacket} {o : Order} s d st :
  rtc pstep (pinit (NewPipeline s d)) st → partitioned st.
Proof.
  intros H1. remember (pinit (NewPipeline s d)) as st0 eqn:E. 
  assert (partitioned st0) as H0 by (subst; by exists [], []).
  clear E. induction H1 as [|st1 st2 st3 Hs _ IH]; [done|]. apply IH. exact (partitioned_step _ _ H0 Hs).
Qed.

(** ** A host that cannot be created *)

(** The first attempt to create [ip] failed in this flush. *)
Definition poisoned (ip : string) (F : list (Z * FlowRecord)) (p : Pipeline) : Prop :=
  wf (tables (db p)) ∧ ip ∈ bumpedThisFlush p ∧ hostCache p !! ip = None ∧ flows_recent (tables (db p)) = F.

(** The second attempt reports success, with the id 0. *)
Lemma poisoned_resolve ip F seenAt p : poisoned ip F p → resolveHost ip seenAt p = (Ok 0, p).
Proof.
  intros (_ & Hb & Hc & _). rewrite /resolveHost /bind /get /=. by rewrite bool_decide_eq_true_2 // Hc.
Qed.

Lemma failed_resolve ip seenAt p fs :
  wf (tables (db p)) → ip ∉ bumpedThisFlush p → hostCache p !! ip = None → faults (db p) = true :: fs →
  ∃ p', resolveHost ip seenAt p = (Err ErrIO, p') ∧ poisoned ip (flows_recent (tables (db p))) p'.
Proof.
  intros Hwf Hb Hc Hf. rewrite /resolveHost /bind /get /=. rewrite bool_decide_eq_false_2 // Hc /=.
  rewrite /on_db /UpsertHost /stmt /= Hf /=. eexists. split; [reflexivity|]. split_and!; simpl; try done.
  set_solver.
Qed.

Lemma UpsertHost_flows ip seenAt s :
  flows_recent (tables (UpsertHost ip seenAt s).2) = flows_recent (tables s).
Proof.
  rewrite /UpsertHost /stmt. case_match; [done|]. destruct (upsert_host ip seenAt (tables s)) as [id t'] eqn:E.
  simpl. destruct (upsert_host_frame ip seenAt (tables s)) as [F _]. by rewrite E in F.
Qed.

Lemma poisoned_db ip F p s' :
  poisoned ip F p → wf (tables s') → flows_recent (tables s') = flows_recent (tables (db p)) →
  poisoned ip F (with_db s' p).
Proof. intros (? & ? & ? & <-) ? ?. by split_and!. Qed.

(** Whatever other hosts are resolved in between, and whatever fails. *)
Lemma poisoned_resolve_other ip F ip' seenAt :
  Preserves (poisoned ip F) (resolveHost ip' seenAt).
Proof.
  intros p Hp. destruct (decide (ip' = ip)) as [->|Hne]; [by rewrite (poisoned_resolve _ F)|].
  rewrite /resolveHost /bind /get /=. case_bool_decide; [done|]. simpl.
  match goal with |- poisoned _ _ (let '(a0, s') := ?m in _).2 =>
    assert (poisoned ip F m.2) as Hm; [|destruct m as [[id|e] p1]; [|done]] end.
  - pose proof (UpsertHost_flows ip' seenAt (db p)) as Hfl.
    pose proof (wf_UpsertHost ip' seenAt (db p) (proj1 Hp)) as Hwf. rewrite /on_db /=.
    assert (poisoned ip F (with_bumped ({[ip']} ∪ bumpedThisFlush p) p)) as Hp'.
    { destruct Hp as (? & ? & ? & ?). split_and!; simpl; try done. set_solver. }
    destruct (hostCache p !! ip') as [id|]; simpl; destruct (UpsertHost ip' seenAt (db p)) as [[id'|e] s1]; simpl in *;
      try (by apply poisoned_db).
    destruct (poisoned_db ip F _ s1 Hp' Hwf Hfl) as (? & ? & ? & ?).
    split_and!; [done|done|simpl; by rewrite lookup_insert_ne|done].
  - simpl in *. rewrite /gets. case_bool_decide; [done|].
    pose proof (wf_SetHostMAC id (lookupMAC ip' p1) (db p1) (proj1 Hm)) as Hwf.
    rewrite /on_db /ignore /bind. destruct (SetHostMAC id (lookupMAC ip' p1) (db p1)) as [r s1] eqn:E. simpl.
    apply poisoned_db; [done|done|]. apply exec_cases in E as [[_ E]|[_ E]]; by rewrite E.
Qed.

Lemma collect_poisoned ip F seenAt l : ∀ p,
  poisoned ip F p → (∃ kv, kv ∈ l ∧ LocalIP kv.1 = ip) →
  poisoned ip F (collect (resolve_flow seenAt) l p).2 ∧
  ∃ r, r ∈ (collect (resolve_flow seenAt) l p).1 ∧ f_HostID r = 0.
Proof.
  assert (∀ kv, Preserves (poisoned ip F) (resolve_flow seenAt kv)) as Hres.
  { intros kv. apply preserves_bind; [apply poisoned_resolve_other|]. intros r. apply _. }
  assert (∀ l, Preserves (poisoned ip F) (collect (resolve_flow seenAt) l)) as Hcol by apply _.
  induction l as [|kv l IH]; intros p Hp (kv1 & Hin & Hip); [by apply elem_of_nil in Hin|].
  split; [by apply Hcol|]. simpl. rewrite /bind. destruct (resolve_flow seenAt kv p) as [y p1] eqn:E1.
  destruct (collect (resolve_flow seenAt) l p1) as [ys p2] eqn:E2. simpl.
  apply elem_of_cons in Hin as [->|Hin].
  - rewrite /resolve_flow /bind Hip (poisoned_resolve _ F) // in E1. injection E1 as <- <-.
    eexists. split; [by left|done].
  - assert (poisoned ip F p1) as Hp1 by (pose proof (Hres kv p Hp) as H; by rewrite E1 in H).
    destruct (IH p1 Hp1) as [_ (r & Hr & H0)]; [by exists kv1|]. rewrite E2 in Hr. exists r.
    split; [|done]. destruct y; [by right|done].
Qed.

(** No flow of the flush is stored, of any host. *)
Lemma flush_flows_poisoned {o : Order} now drained p fs kv0 kvs :
  wf (tables (db p)) → bumpedThisFlush p = ∅ → faults (db p) = true :: fs →
  ord o (map_to_list drained) = kv0 :: kvs → hostCache p !! LocalIP kv0.1 = None →
  (∃ kv, kv ∈ kvs ∧ LocalIP kv.1 = LocalIP kv0.1) →
  flows_recent (tables (db (flush_flows now drained p).2)) = flows_recent (tables (db p)).
Proof.
  intros Hwf Hb Hf Ho Hc Hex. rewrite /flush_flows. destruct (decide (drained = ∅)) as [->|_].
  { assert (length (ord o (map_to_list (∅ : Table))) = 0%nat) as H0 by (by rewrite length_ord map_to_list_empty).
    by rewrite Ho in H0. }
  rewrite Ho. destruct (failed_resolve (LocalIP kv0.1) now p fs) as (p1 & E1 & H1); [done|set_solver|done..|].
  destruct (collect_poisoned _ _ now kvs p1 H1 Hex) as [H2 (r & Hr & H0)].
  rewrite /bind /=. rewrite {1}/bind {1}/resolve_flow {1}/bind E1 /ret {1}/bind.
  destruct (collect (resolve_flow now) kvs p1) as [rs p2]. simpl in *.
  rewrite /on_db /ignore /bind. destruct (InsertFlows rs (db p2)) as [res s3] eqn:E3. simpl.
  destruct H2 as (Hwf2 & _ & _ & HF).
  pose proof (InsertFlows_missing rs (db p2) r Hr) as Hm. rewrite E3 /= in Hm.
  apply InsertFlows_cases in E3. rewrite Hm in E3; [|by rewrite E3 HF].
  rewrite H0. intros Hin. destruct (wf_host_ids _ Hwf2) as [[_ Hids] _]. rewrite Forall_forall in Hids.
  apply Hids in Hin. lia.
Qed.

Module PipelineProperties.
Import MiniParser.

(** C2: on a database that fails no statement, a flush empties the buffers and
    stores one row for each drained flow and each buffered DNS query, with
    the counters accumulated and under the id of the host that has the local
    address; the pipeline is healthy again afterwards, so this holds for every
    later flush too. *)
Theorem flush_stores_everything {o : Order} (now : Z) (p : Pipeline) :
  healthy p →
  let p' := (flush now p).2 in
  healthy p' ∧ table (agg p') = ∅ ∧ dnsBuf p' = [] ∧ dhcpBuf p' = [] ∧
  (flows_recent (tables (db p'))).*2 =
    (flows_recent (tables (db p))).*2 ++ flow_rows (hostCache p') (ord o (map_to_list (table (agg p)))) ∧
  (dns_queries (tables (db p'))).*2 =
    (dns_queries (tables (db p))).*2 ++ dns_rows (hostCache p') (dnsBuf p) ∧
  (∀ k acc, table (agg p) !! k = Some acc →
     ∃ id, hostCache p' !! LocalIP k = Some id ∧ host_has (tables (db p')) (LocalIP k) id).
Proof.
  intros Hp. destruct (flush_run now p Hp) as (p' & E & Hp' & H1 & H2 & H3 & H4 & H5 & H6 & _). rewrite E.
  split_and!; try done. intros k acc Hk. rewrite Forall_forall in H6.
  destruct (H6 (k, acc)) as [id Hid]; [by apply elem_of_map_to_list|]. exists id.
  split; [done|]. by apply (healthy_cache _ Hp').
Qed.

Definition store0 (fs : list bool) : Store := mkStore emptyTables fs.
Definition p0 (fs : list bool) : Pipeline := NewPipeline (store0 fs) decoder0.

(** Two flows of one host and one of another, added to a fresh pipeline. *)
Definition ev (ip : string) (port n : Z) : FlowEvent :=
  mkFlowEvent (mkFlowKey DirLANToWAN 6 ip port "8.8.8.8" 443) (100 * Second) n true "02:00:00:00:00:01".
Definition busy (fs : list bool) : Pipeline :=
  with_agg (add_all [ev "192.168.1.5" 4000 10; ev "192.168.1.5" 4001 20; ev "192.168.1.6" 4000 30]
              NewAggregator) (p0 fs).

Lemma flush_stores_everything_witness :
  sumZ f_BytesSent (flows_recent (tables (db (flush (o := ord_id) 200 (busy [])).2))).*2 = 60.
Proof.
  assert (healthy (busy [])) as Hb.
  { split; [apply wf_empty|reflexivity|apply map_Forall_empty|]. intros ip Hip. by apply elem_of_empty in Hip. }
  destruct (flush_stores_everything (o := ord_id) 200 (busy []) Hb) as (_ & _ & _ & _ & E & _).
  rewrite E. vm_compute. reflexivity.
Defined.

(** C14: in any interleaving of the decoding and the flushing goroutine, with
    any failures of the database, each flow event of each received packet is
    in exactly one drained table, or in the aggregator, or still to be added,
    in the order received; the drained tables are the aggregates of their
    events. *)
Theorem interleaving_partitions_flows `{Gopacket} {o : Order} (s : Store) (d : Decoder) (st : PState) :
  rtc pstep (pinit (NewPipeline s d)) st →
  ∃ segs cur, received st = mjoin segs ++ cur ++ pending_flows (pending st) ∧
    drainedTables st = table_of <$> segs ∧ table (agg (pl st)) = table_of cur.
Proof.
  intros Hst. destruct (partitioned_reachable s d st Hst) as (segs & cur & ? & ? & E).
  exists segs, cur. by rewrite E.
Qed.

(** The steps of the interleaved system, run without interruption, are the
    functions of the code: handling a packet and a whole flush. *)
Theorem steps_refine_functions `{Gopacket} {o : Order} (p : Pipeline) (rcv : list FlowEvent) (drs : list Table) :
  (∀ pkt t ph, rtc pstep (mkPState p [] ph rcv drs)
     (mkPState (handle_packet pkt t p).2 [] ph (rcv ++ flows (Decode (decoder p) pkt t).1) drs)) ∧
  (∀ now acts, rtc pstep (mkPState p acts Idle rcv drs)
     (mkPState (flush now p).2 acts Idle rcv (drs ++ [table (agg p)]))).
Proof.
  split.
  - intros pkt t ph. eapply rtc_l; [apply (st_receive p ph rcv drs pkt t)|].
    rewrite /handle_packet /bind /get. cbv beta iota. destruct (Decode (decoder p) pkt t) as [r d']. simpl.
    rewrite -{1}(app_nil_r (actions r)). apply actions_steps.
  - intros now acts. eapply rtc_l; [apply (st_tick p acts rcv drs now)|].
    etrans; [apply flush_flows_steps|]. etrans; [apply flushDNS_steps|].
    rewrite /flush /bind /modify /drain_agg /Drain /=.
    destruct (flush_flows now (table (agg p)) _) as [[] p1]. simpl.
    pose proof (flushDHCP_steps acts rcv (drs ++ [table (agg p)]) (flushDNS now p1).2) as H2.
    destruct (flushDNS now p1) as [[] p2]. exact H2.
Qed.

(** A packet decoded, and a flush that starts while its second flow is still
    to be added. *)
Lemma interleaving_partitions_flows_witness :
  let pkt := mkRawPacket (udp_frame [192; 168; 1; 5] [192; 168; 1; 9] 4000 5000 []) Second in
  ∃ st segs cur, rtc (pstep (H := mini) (o := ord_id)) (pinit (p0 [])) st ∧ length (received st) = 2%nat ∧
    length (drainedTables st) = 1%nat ∧
    received st = mjoin segs ++ cur ++ pending_flows (pending st) ∧ drainedTables st = table_of <$> segs.
Proof.
  intros pkt.
  assert (∃ st, rtc (pstep (H := mini) (o := ord_id)) (pinit (p0 [])) st ∧
    length (received st) = 2%nat ∧ length (drainedTables st) = 1%nat) as (st & Hst & L1 & L2).
  { eexists. split.
    - eapply rtc_l; [apply (st_receive _ _ _ _ pkt 0)|]. eapply rtc_l; [apply st_action|].
      eapply rtc_l; [apply (st_tick _ _ _ _ 5)|]. apply rtc_refl.
    - split; reflexivity. }
  destruct (interleaving_partitions_flows (H := mini) (o := ord_id) (store0 []) decoder0 st Hst)
    as (segs & cur & E1 & E2 & _).
  exists st, segs, cur. split_and!; assumption.
Defined.

(** When the database fails to create a new host, the next flow of that
    host in the same flush is given the host id 0, and the foreign key then
    rejects the whole batch: no flow of the flush is stored, not even those of
    other hosts. *)
Theorem failed_host_loses_batch {o : Order} (now : Z) (drained : Table) (p : Pipeline) (fs : list bool)
    (kv0 : FlowKey * FlowAccum) (kvs : list (FlowKey * FlowAccum)) :
  wf (tables (db p)) → bumpedThisFlush p = ∅ → faults (db p) = true :: fs →
  ord o (map_to_list drained) = kv0 :: kvs → hostCache p !! LocalIP kv0.1 = None →
  (∃ kv, kv ∈ kvs ∧ LocalIP kv.1 = LocalIP kv0.1) →
  flows_recent (tables (db (flush_flows now drained p).2)) = flows_recent (tables (db p)).
Proof. apply flush_flows_poisoned. Qed.

(** One transient failure, three flows of two hosts lost. *)
Lemma failed_host_loses_batch_witness :
  let drained := table (agg (busy [])) in
  ∃ o : Order, flows_recent (tables (db (flush_flows (o := o) 200 drained (busy [true])).2)) = [].
Proof.
  intros drained. exists ord_id.
  pose proof (failed_host_loses_batch (o := ord_id) 200 drained (busy [true]) []) as H.
  destruct (ord ord_id (map_to_list drained)) as [|kv0 kvs] eqn:E; [vm_compute in E; discriminate|].
  specialize (H kv0 kvs). vm_compute in E. injection E as <- <-.
  apply H; [apply wf_empty|reflexivity|reflexivity|vm_compute; reflexivity|reflexivity|].
  exists (mkFlowKey DirLANToWAN 6 "192.168.1.5" 4000 "8.8.8.8" 443, mkFlowAccum 100 100 10 0 1 0).
  split; [left|reflexivity].
Defined.

End PipelineProperties.
