(* ===== verification/EndToEnd.v ===== *)
(** * From packets to stored rows

    The decoder, the aggregator, the flush and the database together: a run of
    the pipeline is a sequence of packets and ticks, and the theorem is that
    on a healthy database the rows stored are an exact account of the flow
    events and DNS queries decoded, however the ticks fall. *)

From stdpp Require Import prelude strings gmap list.
From Stdlib Require Import ZArith Lia.
From Corelib Require Import ssreflect.
From S2P Require Import Prelude GoStrings GoNet GoTime Store StoreProofs Capture Aggregator Decode Pipeline.

Open Scope general_if_scope.
Open Scope Z_scope.

Section trace.
Context `{Gopacket} {o : Order}.

(** What [Pipeline.Run] reacts to. *)
Inductive Input := InPacket (pkt : RawPacket) (now : Time) | InTick (now : Z).

Definition feed (i : Input) : M Pipeline unit :=
  match i with InPacket pkt now => handle_packet pkt now | InTick now => flush now end.

(** The events decoded in order, as the decoder's state evolves. *)
Fixpoint decoded {E} (ev : DecodeResult → list E) (d : Decoder) (ins : list Input) : list E :=
  match ins with
  | [] => []
  | InTick _ :: ins' => decoded ev d ins'
  | InPacket pkt now :: ins' => let '(r, d') := Decode d pkt now in ev r ++ decoded ev d' ins'
  end.
Definition queries (r : DecodeResult) : list DNSQueryEvent := option_list (DNS r).
End trace.

(** ** One packet *)
Definition pending_queries (acts : list Action) : list DNSQueryEvent :=
  omap (λ a, match a with ActDNS q => Some q | _ => None end) acts.
Lemma pending_queries_actions r : pending_queries (actions r) = queries r.
Proof. by destruct r as [[] [] [] []]. Qed.

Lemma actions_run acts : ∀ p, ∃ m h,
  for_each do_action acts p =
  (tt, mkPipeline (db p) (add_all (pending_flows acts) (agg p)) (decoder p) (hostCache p) (bumpedThisFlush p) m
         (dnsBuf p ++ pending_queries acts) h).
Proof.
  induction acts as [|a acts IH]; intros p.
  { exists (macByIP p), (dhcpBuf p). rewrite app_nil_r. by destruct p. }
  cbn [for_each]. destruct a as [e|e|q|d]; rewrite /bind; cbn [do_action].
  - destruct (IH (with_agg (Aggregator.Add e (agg p)) p)) as (m & h & E). exists m, h. exact E.
  - rewrite /rememberMAC. case_bool_decide; [by apply IH|].
    destruct (IH (with_macByIP (<[LocalIP (Key e) := LocalMAC e]> (macByIP p)) p)) as (m & h & E). exists m, h. exact E.
  - destruct (IH (with_dnsBuf (dnsBuf p ++ [q]) p)) as (m & h & E). exists m, h. rewrite /modify E /= -app_assoc. done.
  - destruct (IH (with_dhcpBuf (dhcpBuf p ++ [d]) p)) as (m & h & E). exists m, h. exact E.
Qed.

Lemma packet_run `{Gopacket} pkt now p : healthy p →
  let '(r, d') := Decode (decoder p) pkt now in
  ∃ p', handle_packet pkt now p = (tt, p') ∧ healthy p' ∧ db p' = db p ∧ hostCache p' = hostCache p ∧ decoder p' = d' ∧
    agg p' = add_all (flows r) (agg p) ∧ dnsBuf p' = dnsBuf p ++ queries r.
Proof.
  intros Hp. rewrite /handle_packet /bind /get. destruct (Decode (decoder p) pkt now) as [r d']. rewrite /put.
  destruct (actions_run (actions r) (with_decoder d' p)) as (m & h & E). eexists. split; [exact E|].
  rewrite pending_flows_actions pending_queries_actions. split; [by destruct Hp|done].
Qed.

(** ** What rows say about events *)
Definition row_key (r : FlowRecord) : FlowKey :=
  mkFlowKey (f_Direction r) (f_Proto r) (f_LocalIP r) (f_LocalPort r) (f_RemoteIP r) (f_RemotePort r).

(** The four counters: of a row, of an accumulator and of an event. *)
Definition counters : list ((FlowRecord → Z) * (FlowAccum → Z) * (FlowEvent → Z)) :=
  [(f_BytesSent, BytesSent, sent_of); (f_BytesRecv, BytesRecv, recv_of);
   (f_PacketsSent, PacketsSent, psent_of); (f_PacketsRecv, PacketsRecv, precv_of)].

(** For every selection of flows, the rows' counters are the events' sums. *)
Definition account (es : list FlowEvent) (rows : list FlowRecord) : Prop :=
  ∀ (P : FlowKey → bool) f a g, (f, a, g) ∈ counters →
    sumZ f (filter (λ r, P (row_key r)) rows) = sumZ g (filter (λ e, P (Key e)) es).

Lemma account_app es es' rows rows' : account es rows → account es' rows' → account (es ++ es') (rows ++ rows').
Proof. intros H1 H2 P f a g Hc. rewrite !filter_app !sumZ_app. by rewrite (H1 P f a g Hc) (H2 P f a g Hc). Qed.

(** Events small enough that no counter wraps. *)
Record bounded (es : list FlowEvent) : Prop := mkBounded {
  b_bytes e : e ∈ es → 0 ≤ Bytes e;
  b_sum : sumZ Bytes es ≤ max_i64;
  b_count : Z.of_nat (length es) ≤ max_i64
}.

Lemma bounded_perm_sub es es' rest : es ≡ₚ es' ++ rest → bounded es → bounded es'.
Proof.
  intros Hp [H1 H2 H3]. assert (∀ e, e ∈ es' ++ rest → 0 ≤ Bytes e) as Hb by (intros e He; apply H1; by rewrite Hp).
  split.
  - intros e He. apply Hb, elem_of_app. by left.
  - rewrite Hp sumZ_app in H2. assert (0 ≤ sumZ Bytes rest); [|lia]. apply sumZ_nonneg. intros e He. apply Hb, elem_of_app. by right.
  - rewrite Hp length_app in H3. lia.
Qed.

Lemma counter_bounds es f a g : bounded es → (f, a, g) ∈ counters → (∀ e, e ∈ es → 0 ≤ g e) ∧ sumZ g es ≤ max_i64.
Proof.
  intros [Hb Hs Hn] Hc.
  assert (∀ h : FlowEvent → Z, (∀ e, e ∈ es → h e ≤ Bytes e) → sumZ h es ≤ sumZ Bytes es) as Hle.
  { clear. intros h. induction es as [|e es IH]; intros Hle; [done|]. rewrite !sumZ_cons.
    specialize (IH (λ x Hx, Hle x (list_elem_of_further _ _ _ Hx))). specialize (Hle e (list_elem_of_here _ _)). lia. }
  assert (∀ h : FlowEvent → Z, (∀ e, h e ≤ 1) → sumZ h es ≤ Z.of_nat (length es)) as Hone.
  { clear. intros h Hh. induction es as [|e es IH]; [done|]. rewrite sumZ_cons /=. specialize (Hh e). lia. }
  rewrite /counters !elem_of_cons elem_of_nil in Hc.
  destruct Hc as [[= -> -> ->]|[[= -> -> ->]|[[= -> -> ->]|[[= -> -> ->]|[]]]]];
    rewrite /sent_of /recv_of /psent_of /precv_of; (split; [intros e He; specialize (Hb e He); case_match; lia|]).
  - etransitivity; [apply Hle|done]. intros e He. specialize (Hb e He). case_match; lia.
  - etransitivity; [apply Hle|done]. intros e He. specialize (Hb e He). case_match; lia.
  - etransitivity; [apply Hone|done]. intros e. case_match; lia.
  - etransitivity; [apply Hone|done]. intros e. case_match; lia.
Qed.

(** Selecting flows before or after aggregating. *)
Lemma table_of_filter (P : FlowKey → bool) es :
  map_to_list (table_of (filter (λ e, P (Key e)) es)) ≡ₚ filter (λ kv, P kv.1) (map_to_list (table_of es)).
Proof.
  apply NoDup_Permutation; [apply NoDup_map_to_list|apply NoDup_filter, NoDup_map_to_list|].
  intros [k a]. rewrite list_elem_of_filter !elem_of_map_to_list /table_of !add_all_lookup /spec_lookup /flow_events /=.
  rewrite list_filter_filter. destruct (P k) eqn:EP.
  - rewrite (list_filter_iff (λ e, Key e = k ∧ P (Key e)) (λ e, Key e = k)); [|naive_solver].
    intros e. split; [by intros [? _]|]. intros <-. by rewrite EP.
  - rewrite (filter_none_Forall (λ e, Key e = k ∧ P (Key e))); [|naive_solver].
    apply Forall_true. intros e [<- He]. by rewrite EP in He.
Qed.

Lemma flush_account {o : Order} cache es :
  bounded es → account es (flow_rows cache (ord o (map_to_list (table_of es)))).
Proof.
  intros Hb P f a g Hc. rewrite sumZ_filter /flow_rows sumZ_fmap (ord_perm o).
  assert (bounded (filter (λ e, P (Key e)) es)) as Hb'.
  { apply (bounded_perm_sub es _ (filter (λ e, ¬ P (Key e)) es)); [|done]. symmetry. apply filter_app_complement. }
  destruct (counter_bounds _ f a g Hb' Hc) as [Hpos Hmax].
  rewrite -(table_sum a g (filter (λ e, P (Key e)) es)); [|done|done|].
  - intros e l. rewrite /counters !elem_of_cons elem_of_nil in Hc.
    by destruct Hc as [[= -> -> ->]|[[= -> -> ->]|[[= -> -> ->]|[[= -> -> ->]|[]]]]].
  - rewrite -/(table_of _) table_of_filter sumZ_filter. apply sumZ_ext. intros [k acc] _. simpl.
    rewrite /counters !elem_of_cons elem_of_nil in Hc.
    destruct k. by destruct Hc as [[= -> -> ->]|[[= -> -> ->]|[[= -> -> ->]|[[= -> -> ->]|[]]]]].
Qed.

(** ** A run *)
Abbreviation query_view := (λ q : DNSQueryEvent, (DQName q, DQType q, Unix (DTimestamp q))).
Abbreviation row_view := (λ q : DNSQueryRecord, (q_QName q, q_QType q, q_TS q)).
Lemma dns_rows_view cache qs : row_view <$> dns_rows cache qs = query_view <$> qs.
Proof. rewrite /dns_rows -list_fmap_compose. by apply list_fmap_ext. Qed.

(** The rows' host ids are those of their addresses. *)
Definition attributed (cache : gmap string Z) (rows : list FlowRecord) : Prop :=
  Forall (λ r, cache !! f_LocalIP r = Some (f_HostID r)) rows.
Lemma attributed_mono c c' rows : c ⊆ c' → attributed c rows → attributed c' rows.
Proof. intros Hc Ha. eapply Forall_impl; [exact Ha|]. intros r Hr. exact (lookup_weaken _ _ _ _ Hr Hc). Qed.

Section run.
Context `{Gopacket} {o : Order}.

Abbreviation flow_table p := ((flows_recent (tables (db p))).*2).
Abbreviation dns_table p := ((dns_queries (tables (db p))).*2).

Lemma tick_run now p cur : healthy p → agg p = add_all cur NewAggregator → bounded cur →
  ∃ p' rows, flush now p = (tt, p') ∧ healthy p' ∧ hostCache p ⊆ hostCache p' ∧ decoder p' = decoder p ∧
    agg p' = NewAggregator ∧ dnsBuf p' = [] ∧
    flow_table p' = flow_table p ++ rows ∧ account cur rows ∧ attributed (hostCache p') rows ∧
    row_view <$> dns_table p' = (row_view <$> dns_table p) ++ (query_view <$> dnsBuf p).
Proof.
  intros Hp Ha Hb. destruct (flush_run now p Hp) as (p' & E & Hp' & H1 & H2 & _ & H4 & H5 & H6 & H7 & H8).
  exists p', (flow_rows (hostCache p') (ord o (map_to_list (table_of cur)))). rewrite Ha in H4, H6.
  split_and!; [done..| |done|done|by apply flush_account| |by rewrite H5 fmap_app dns_rows_view].
  - destruct (agg p'). simpl in H1. by subst.
  - apply Forall_fmap. rewrite (ord_perm o). eapply Forall_impl; [exact H6|]. intros kv [id Hid]. by rewrite /= Hid.
Qed.

Lemma feed_run ins : ∀ p cur,
  healthy p → agg p = add_all cur NewAggregator → bounded (cur ++ decoded flows (decoder p) ins) →
  ∃ p' rows stored cur', for_each feed ins p = (tt, p') ∧ healthy p' ∧ hostCache p ⊆ hostCache p' ∧
    agg p' = add_all cur' NewAggregator ∧ cur ++ decoded flows (decoder p) ins = stored ++ cur' ∧
    flow_table p' = flow_table p ++ rows ∧ account stored rows ∧ attributed (hostCache p') rows ∧
    (row_view <$> dns_table p') ++ (query_view <$> dnsBuf p') =
    (row_view <$> dns_table p) ++ (query_view <$> dnsBuf p) ++ (query_view <$> decoded queries (decoder p) ins).
Proof.
  induction ins as [|i ins IH]; intros p cur Hp Ha Hb.
  { exists p, [], [], cur. rewrite !app_nil_r. split_and!; done. }
  destruct i as [pkt now|now]; simpl in Hb |- *.
  - pose proof (packet_run pkt now p Hp) as Hpk. destruct (Decode (decoder p) pkt now) as [r d'] eqn:Ed.
    destruct Hpk as (p1 & E1 & Hp1 & D1 & C1 & Dec1 & A1 & Q1). rewrite app_assoc in Hb.
    destruct (IH p1 (cur ++ flows r)) as (p' & rows & stored & cur' & E & Hh & Hc & Hag & Hs & Hf & Hacc & Hat & Hq).
    { done. } { by rewrite A1 Ha /add_all foldl_app. } { by rewrite Dec1. }
    exists p', rows, stored, cur'. rewrite (bind_run _ _ _ _ _ E1). rewrite Dec1 in Hs, Hq. rewrite D1 in Hf, Hq. rewrite C1 in Hc.
    split_and!; [done..|by rewrite app_assoc|done|done|done|]. rewrite Hq Q1 !fmap_app. by rewrite -!app_assoc.
  - assert (bounded cur) as Hbc by (by apply (bounded_perm_sub _ _ _ (reflexivity _) Hb)).
    destruct (tick_run now p cur Hp Ha Hbc) as (p1 & rows1 & E1 & Hp1 & C1 & Dec1 & A1 & Q1 & F1 & Acc1 & At1 & R1).
    destruct (IH p1 []) as (p' & rows & stored & cur' & E & Hh & Hc & Hag & Hs & Hf & Hacc & Hat & Hq); [done|by rewrite A1| |].
    { rewrite Dec1. apply (bounded_perm_sub (cur ++ decoded flows (decoder p) ins) _ cur); [|done]. apply Permutation_app_comm. }
    rewrite Dec1 in Hs, Hq. exists p', (rows1 ++ rows), (cur ++ stored), cur'. rewrite (bind_run _ _ _ _ _ E1).
    split_and!; [done|done|by transitivity (hostCache p1)|done| | | | |].
    + simpl in Hs. by rewrite Hs app_assoc.
    + by rewrite Hf F1 app_assoc.
    + by apply account_app.
    + apply Forall_app. split; [by apply (attributed_mono (hostCache p1))|done].
    + by rewrite Hq R1 Q1 -!app_assoc.
Qed.

Lemma for_each_app {A} (f : A → M Pipeline unit) l l' p : for_each f (l ++ l') p = for_each f l' (for_each f l p).2.
Proof. revert p. induction l as [|x l IH]; intros p; [done|]. simpl. rewrite /bind. destruct (f x p) as [[] p1]. apply IH. Qed.

(** Frames have a length, so events are never negative. *)
Lemma decoded_nonneg ins : ∀ d e, e ∈ decoded flows d ins → 0 ≤ Bytes e.
Proof.
  induction ins as [|[pkt now|now] ins IH]; intros d e; simpl; [by intros ?%elem_of_nil| |apply IH].
  destruct (Decode d pkt now) as [r d'] eqn:Ed. intros [He|He]%elem_of_app; [|by apply (IH d')].
  destruct (flows_Decode_local d pkt now e) as (-> & _); [by rewrite Ed|lia].
Qed.
End run.

Module EndToEndProperties.
Import MiniParser.

(** C1: From packets to the database: starting with any well-formed database
    and ending with a flush, with ticks anywhere in between, the rows added
    account exactly for the events decoded: for every selection of flows (one
    flow, one host, all of them) the bytes and packets sent and received in
    the rows are the sums over the events, each row is under the id of the
    host with its address, and the DNS rows are the decoded queries, in order. *)
Theorem packets_to_rows `{Gopacket} {o : Order} (s : Store) (d : Decoder) (ins : list Input) (now : Z) :
  wf (tables s) → Store.faults s = [] →
  let es := decoded flows d ins in
  sumZ Bytes es ≤ max_i64 → Z.of_nat (length es) ≤ max_i64 →
  let t := tables (db (for_each feed (ins ++ [InTick now]) (NewPipeline s d)).2) in
  (∃ rows, (flows_recent t).*2 = (flows_recent (tables s)).*2 ++ rows ∧
     (∀ (P : FlowKey → bool) f a g, (f, a, g) ∈ counters →
        sumZ f (filter (λ r, P (row_key r)) rows) = sumZ g (filter (λ e, P (Key e)) es)) ∧
     Forall (λ r, host_has t (f_LocalIP r) (f_HostID r)) rows) ∧
  (λ q, (q_QName q, q_QType q, q_TS q)) <$> (dns_queries t).*2 =
    ((λ q, (q_QName q, q_QType q, q_TS q)) <$> (dns_queries (tables s)).*2) ++
    ((λ q, (DQName q, DQType q, Unix (DTimestamp q))) <$> decoded queries d ins).
Proof.
  intros Hwf Hf es Hsum Hlen t.
  assert (healthy (NewPipeline s d)) as H0.
  { split; [done|done|apply map_Forall_empty|]. intros ip Hip. by apply elem_of_empty in Hip. }
  assert (bounded es) as Hb by (split; [apply decoded_nonneg|done|done]).
  destruct (feed_run ins (NewPipeline s d) [] H0 eq_refl Hb)
    as (p1 & rows1 & stored & cur & E1 & H1 & _ & A1 & S1 & F1 & Acc1 & At1 & Q1).
  simpl in S1, F1, Q1. fold es in S1.
  assert (bounded cur) as Hbc by (apply (bounded_perm_sub es _ stored); [rewrite S1; apply Permutation_app_comm|done]).
  destruct (tick_run now p1 cur H1 A1 Hbc) as (p2 & rows2 & E2 & H2 & C2 & _ & _ & _ & F2 & Acc2 & At2 & Q2).
  assert (t = tables (db p2)) as ->.
  { rewrite /t for_each_app E1. cbn [for_each feed snd]. by rewrite (bind_run _ _ _ _ _ E2). }
  split; [|by rewrite Q2 Q1].
  exists (rows1 ++ rows2). split; [by rewrite F2 F1 app_assoc|]. split; [rewrite S1; by apply account_app|].
  assert (attributed (hostCache p2) (rows1 ++ rows2)) as Hat.
  { apply Forall_app. split; [by apply (attributed_mono (hostCache p1))|done]. }
  eapply Forall_impl; [exact Hat|]. intros r Hr. exact (healthy_cache _ H2 _ _ Hr).
Qed.

(** Two packets of one flow with a flush in between, seen from the host. *)
Definition trace : list Input :=
  let pkt t := mkRawPacket (udp_frame [192; 168; 1; 5] [8; 8; 8; 8] 4000 443 []) (t * Second) in
  [InPacket (pkt 10) 0; InTick 11; InPacket (pkt 12) 0].

Definition of_host5 (k : FlowKey) : bool := bool_decide (LocalIP k = "192.168.1.5"%string).

Lemma packets_to_rows_witness :
  let t := tables (db (for_each (feed (H := mini) (o := ord_id)) (trace ++ [InTick 20]) (NewPipeline (mkStore emptyTables []) decoder0)).2) in
  ∃ rows, (flows_recent t).*2 = rows ∧ length rows = 2%nat ∧
    sumZ f_BytesSent (filter (λ r, of_host5 (row_key r)) rows) = 84.
Proof.
  intros t.
  destruct (packets_to_rows (H := mini) (o := ord_id) (mkStore emptyTables []) decoder0 trace 20)
    as [(rows & Hr & Hacc & _) _]; [apply wf_empty|reflexivity|vm_compute; discriminate|vm_compute; discriminate|].
  fold t in Hr. exists rows. simpl in Hr. split; [exact Hr|]. split; [rewrite -Hr; vm_compute; reflexivity|].
  rewrite (Hacc of_host5 f_BytesSent BytesSent sent_of); [left|].
  vm_compute. reflexivity.
Defined.
End EndToEndProperties.
