(* ===== verification/Encoding.v ===== *)
(** * Base64 and [fmt.Sscanf]

    What the authentication code uses of Go's [encoding/base64] (the raw,
    unpadded standard and URL alphabets) and of the scanning half of [fmt]
    (literals and [%d] into a sized integer), with the round trip of base64. *)

From stdpp Require Import prelude strings list.
From Stdlib Require Import ZArith Lia Ascii.
From Corelib Require Import ssreflect.
From S2P Require Import Prelude GoStrings GoNet.

Open Scope general_if_scope.
Open Scope Z_scope.

(** ** Base64 *)

(** The two alphabets differ in the last two characters. *)
Inductive Alphabet := StdAlphabet | URLAlphabet.

Definition enc6 (al : Alphabet) (d : Z) : ascii :=
  if d <? 26 then Z_ascii (65 + d)
  else if d <? 52 then Z_ascii (97 + (d - 26))
  else if d <? 62 then Z_ascii (48 + (d - 52))
  else match al with
       | StdAlphabet => if d =? 62 then "+"%char else "/"%char
       | URLAlphabet => if d =? 62 then "-"%char else "_"%char
       end.

Definition dec6 (al : Alphabet) (c : ascii) : option Z :=
  let z := ascii_Z c in
  if (65 <=? z) && (z <=? 90) then Some (z - 65)
  else if (97 <=? z) && (z <=? 122) then Some (z - 97 + 26)
  else if (48 <=? z) && (z <=? 57) then Some (z - 48 + 52)
  else match al with
       | StdAlphabet => if z =? 43 then Some 62 else if z =? 47 then Some 63 else None
       | URLAlphabet => if z =? 45 then Some 62 else if z =? 95 then Some 63 else None
       end.

(** [EncodeToString], unpadded. *)
Fixpoint b64_encode (al : Alphabet) (l : bytes) : string :=
  match l with
  | a :: b :: c :: l' =>
      let v := a * 65536 + b * 256 + c in
      String (enc6 al (v / 262144)) (String (enc6 al (v / 4096 mod 64))
        (String (enc6 al (v / 64 mod 64)) (String (enc6 al (v mod 64)) (b64_encode al l'))))
  | [a; b] =>
      let v := a * 256 + b in
      String (enc6 al (v / 1024)) (String (enc6 al (v / 16 mod 64))
        (String (enc6 al (v mod 16 * 4)) EmptyString))
  | [a] => String (enc6 al (a / 4)) (String (enc6 al (a mod 4 * 16)) EmptyString)
  | [] => EmptyString
  end.

(** Line breaks are skipped wherever they are. *)
Fixpoint strip_newlines (s : string) : string :=
  match s with
  | EmptyString => EmptyString
  | String c s' =>
      if (ascii_Z c =? 10) || (ascii_Z c =? 13) then strip_newlines s' else String c (strip_newlines s')
  end.

Fixpoint b64_groups (al : Alphabet) (s : string) : option bytes :=
  match s with
  | EmptyString => Some []
  | String c1 (String c2 rest) =>
      match dec6 al c1, dec6 al c2 with
      | Some d1, Some d2 =>
          match rest with
          | EmptyString => Some [d1 * 4 + d2 / 16]
          | String c3 EmptyString =>
              match dec6 al c3 with
              | Some d3 => Some [d1 * 4 + d2 / 16; d2 mod 16 * 16 + d3 / 4]
              | None => None
              end
          | String c3 (String c4 rest') =>
              match dec6 al c3, dec6 al c4, b64_groups al rest' with
              | Some d3, Some d4, Some l =>
                  Some (d1 * 4 + d2 / 16 :: d2 mod 16 * 16 + d3 / 4 :: d3 mod 4 * 64 + d4 :: l)
              | _, _, _ => None
              end
          end
      | _, _ => None
      end
  | String _ EmptyString => None
  end.

(** [DecodeString], unpadded; spare bits of the last character are ignored. *)
Definition b64_decode (al : Alphabet) (s : string) : option bytes := b64_groups al (strip_newlines s).

Lemma digit_cases (P : Z → bool) : forallb P (seqZ 0 64) = true → ∀ d, 0 ≤ d < 64 → P d = true.
Proof.
  intros H d Hd. rewrite forallb_forall in H. apply H. apply list_elem_of_In, elem_of_seqZ. lia.
Qed.

Lemma dec6_enc6 al d : 0 ≤ d < 64 → dec6 al (enc6 al d) = Some d.
Proof.
  intros Hd. apply (bool_decide_eq_true (dec6 al (enc6 al d) = Some d)).
  revert d Hd. apply (digit_cases (λ d, bool_decide (dec6 al (enc6 al d) = Some d))). by destruct al.
Qed.

Lemma enc6_plain al d : 0 ≤ d < 64 →
  (ascii_Z (enc6 al d) =? 10) || (ascii_Z (enc6 al d) =? 13) = false ∧ enc6 al d ≠ "$"%char.
Proof.
  intros Hd.
  assert (negb ((ascii_Z (enc6 al d) =? 10) || (ascii_Z (enc6 al d) =? 13)) && bool_decide (enc6 al d ≠ "$"%char) = true)
    as [H1%negb_true_iff H2%bool_decide_eq_true]%andb_true_iff; [|done].
  revert d Hd. apply (digit_cases (λ d, negb ((ascii_Z (enc6 al d) =? 10) || (ascii_Z (enc6 al d) =? 13)) &&
    bool_decide (enc6 al d ≠ "$"%char))). by destruct al.
Qed.

(** Induction over a byte string three bytes at a time. *)
Lemma bytes_ind3 (P : bytes → Prop) :
  P [] → (∀ a, P [a]) → (∀ a b, P [a; b]) → (∀ a b c l, P l → P (a :: b :: c :: l)) → ∀ l, P l.
Proof.
  intros H0 H1 H2 H3. fix IH 1. intros [|a [|b [|c l]]]; [exact H0|apply H1|apply H2|]. apply H3, IH.
Qed.

(** Every character of an encoding is a digit of the alphabet. *)
Lemma b64_encode_forall al (P : ascii → bool) l :
  (∀ d, 0 ≤ d < 64 → P (enc6 al d) = true) → Forall is_byte l → string_forallb P (b64_encode al l) = true.
Proof.
  intros HP. induction l as [|a|a b|a b c l IH] using bytes_ind3; intros Hl;
    repeat (apply Forall_cons_1 in Hl as [[??] Hl]); simpl; rewrite ?HP //;
    try (Z.to_euclidean_division_equations; lia). by apply IH.
Qed.

Lemma strip_newlines_id s :
  string_forallb (λ c, negb ((ascii_Z c =? 10) || (ascii_Z c =? 13))) s = true → strip_newlines s = s.
Proof.
  induction s as [|c s IH]; [done|]. simpl. intros [Hc Hs]%andb_true_iff.
  apply negb_true_iff in Hc. by rewrite Hc IH.
Qed.

(** Decoding an encoding gives back the bytes. *)
Lemma b64_roundtrip al l : Forall is_byte l → b64_decode al (b64_encode al l) = Some l.
Proof.
  intros Hl. rewrite /b64_decode strip_newlines_id.
  { apply b64_encode_forall; [|done]. intros d Hd. by destruct (enc6_plain al d Hd) as [-> _]. }
  induction l as [|a|a b|a b c l IH] using bytes_ind3; [done|..];
    repeat (apply Forall_cons_1 in Hl as [[??] Hl]); cbn [b64_encode b64_groups];
    rewrite !dec6_enc6; try (Z.to_euclidean_division_equations; lia).
  - do 2 f_equal. Z.to_euclidean_division_equations; lia.
  - do 2 f_equal; [|f_equal]; Z.to_euclidean_division_equations; lia.
  - rewrite IH //. f_equal. f_equal; [|f_equal; [|f_equal]]; Z.to_euclidean_division_equations; lia.
Qed.

Lemma b64_encode_no_dollar al l : Forall is_byte l → no_char "$" (b64_encode al l).
Proof.
  intros Hl. apply b64_encode_forall; [|done]. intros d Hd. apply bool_decide_eq_true.
  by destruct (enc6_plain al d Hd).
Qed.

(** ** [fmt.Sscanf] *)

(** A literal of the format must be next in the input. *)
Fixpoint scan_lit (lit s : string) : option string :=
  match lit, s with
  | EmptyString, _ => Some s
  | String c lit', String c' s' => if decide (c = c') then scan_lit lit' s' else None
  | String _ _, EmptyString => None
  end.

(** A verb skips blanks first; a line break is an error. *)
Fixpoint scan_space (s : string) : option string :=
  match s with
  | String c s' => if ascii_Z c =? 10 then None else if is_space c then scan_space s' else Some s
  | EmptyString => Some s
  end.

Fixpoint scan_digits (s : string) : string * string :=
  match s with
  | String c s' => if is_digit c then let '(d, r) := scan_digits s' in (String c d, r) else (EmptyString, s)
  | EmptyString => (EmptyString, EmptyString)
  end.

(** [%d] into an unsigned integer of [w] bits. *)
Definition scan_uint (w : Z) (s : string) : option (Z * string) :=
  match scan_space s with
  | None => None
  | Some s1 =>
      let '(ds, rest) := scan_digits s1 in
      match parse_uint w ds with Some v => Some (v, rest) | None => None end
  end.

(** [%d] into an [int]: an optional sign, then digits. *)
Definition scan_int (s : string) : option (Z * string) :=
  match scan_space s with
  | None => None
  | Some s1 =>
      let '(neg, s2) := match s1 with
                        | String c s' => if ascii_Z c =? 45 then (true, s')
                                         else if ascii_Z c =? 43 then (false, s') else (false, s1)
                        | EmptyString => (false, s1)
                        end in
      let '(ds, rest) := scan_digits s2 in
      match ds with
      | EmptyString => None
      | _ => match parse_int 64 (if neg : bool then String "-" ds else ds) with
             | Some v => Some (v, rest) | None => None end
      end
  end.
