(* ===== verification/Auth.v ===== *)
(** * Passwords and sessions ([internal/auth])

    Password hashes in the [$argon2id$...] format, with the key derivation of
    [golang.org/x/crypto/argon2] as a parameter, and the session manager over
    the store.  Random bytes and the results of [time.Now()] are arguments.

    The theorems: verifying against a hash the program made accepts exactly
    the passwords that derive the same key; a login is valid until a fixed
    time after it, used or not; a session is elevated only by the password of
    its user and for the elevation time; and a change of role or the deletion
    of the user takes effect at the next validation. *)

From stdpp Require Import prelude strings gmap list.
From Stdlib Require Import ZArith Lia Ascii.
From Corelib Require Import ssreflect.
From S2P Require Import Prelude GoStrings GoNet GoTime Encoding Store StoreProofs.

Open Scope general_if_scope.
Open Scope Z_scope.

(** ** Passwords *)

(** [argon2.IDKey(password, salt, time, memory, threads, keyLen)]: a key of
    the length asked for; [None] when it panics, which it does not for at
    least one round and one thread. *)
Class Argon2 := {
  IDKey : bytes → bytes → Z → Z → Z → Z → option bytes;
  IDKey_some : ∀ pw salt t m p n, 1 ≤ t → 1 ≤ p → 0 ≤ n →
    ∃ k, IDKey pw salt t m p n = Some k ∧ Z.of_nat (length k) = n ∧ Forall is_byte k
}.

Inductive AuthError :=
  | FromDB (e : DBError)
  | ErrInvalidCredentials
  | ErrHashFormat
  | ErrRandom
  | ErrPanic.

#[export] Instance AuthError_eq_dec : EqDecision AuthError.
Proof. solve_decision. Defined.

Definition argonTime : Z := 1.
Definition argonMemory : Z := 64 * 1024.
Definition argonThreads : Z := 4.
Definition argonKeyLen : Z := 32.
Definition saltLen : nat := 16.
Definition argon2_Version : Z := 19.

Section password.
Context `{Argon2}.

(** [fmt.Sprintf("$argon2id$v=%d$m=%d,t=%d,p=%d$%s$%s", ...)]. *)
Definition format_hash (b64Salt b64Hash : string) : string :=
  "$argon2id$v=" +:+ itoa argon2_Version +:+ "$m=" +:+ itoa argonMemory +:+ ",t=" +:+ itoa argonTime
    +:+ ",p=" +:+ itoa argonThreads +:+ "$" +:+ b64Salt +:+ "$" +:+ b64Hash.

(** [salt] is what the random source returned, if it did. *)
Definition HashPassword (password : string) (salt : option bytes) : Result AuthError string :=
  match salt with
  | None => Err ErrRandom
  | Some salt =>
      match IDKey (string_bytes password) salt argonTime argonMemory argonThreads argonKeyLen with
      | None => Err ErrPanic
      | Some hash => Ok (format_hash (b64_encode StdAlphabet salt) (b64_encode StdAlphabet hash))
      end
  end.

(** [fmt.Sscanf(s, "m=%d,t=%d,p=%d", &memory, &t, &threads)] into two [uint32]
    and a [uint8]. *)
Definition scan_params (s : string) : option (Z * Z * Z) :=
  match scan_lit "m=" s with
  | None => None
  | Some s =>
      match scan_uint 32 s with
      | None => None
      | Some (memory, s) =>
          match scan_lit ",t=" s with
          | None => None
          | Some s =>
              match scan_uint 32 s with
              | None => None
              | Some (t, s) =>
                  match scan_lit ",p=" s with
                  | None => None
                  | Some s =>
                      match scan_uint 8 s with
                      | None => None
                      | Some (threads, _) => Some (memory, t, threads)
                      end
                  end
              end
          end
      end
  end.

Definition scan_version (s : string) : option Z :=
  match scan_lit "v=" s with
  | None => None
  | Some s => match scan_int s with Some (v, _) => Some v | None => None end
  end.

(** [subtle.ConstantTimeCompare(x, y) == 1]. *)
Definition ConstantTimeCompare (x y : bytes) : bool := bool_decide (x = y).

Definition VerifyPassword (password encoded : string) : Result AuthError bool :=
  match split "$"%char encoded with
  | [_; kind; version; params; salt64; hash64] =>
      if negb (bool_decide (kind = "argon2id"%string)) then Err ErrHashFormat else
      match scan_version version with
      | None => Err ErrHashFormat
      | Some _ =>
          match scan_params params with
          | None => Err ErrHashFormat
          | Some (memory, t, threads) =>
              match b64_decode StdAlphabet salt64 with
              | None => Err ErrHashFormat
              | Some salt =>
                  match b64_decode StdAlphabet hash64 with
                  | None => Err ErrHashFormat
                  | Some wantHash =>
                      match IDKey (string_bytes password) salt t memory threads
                              (wrap_u32 (Z.of_nat (length wantHash))) with
                      | None => Err ErrPanic
                      | Some gotHash => Ok (ConstantTimeCompare gotHash wantHash)
                      end
                  end
              end
          end
      end
  | _ => Err ErrHashFormat
  end.

Lemma split_format_hash salt64 hash64 :
  no_char "$" salt64 → no_char "$" hash64 →
  split "$"%char (format_hash salt64 hash64) =
  ["";"argon2id"; "v=19"; "m=65536,t=1,p=4"; salt64; hash64]%string.
Proof.
  intros Hs Hh. rewrite -(split_join "$"%char ["";"argon2id"; "v=19"; "m=65536,t=1,p=4"; salt64; hash64]%string) //.
  repeat (constructor; [done|]). by repeat constructor.
Qed.

Lemma VerifyPassword_format pw salt hash :
  Forall is_byte salt → Forall is_byte hash → Z.of_nat (length hash) = argonKeyLen →
  VerifyPassword pw (format_hash (b64_encode StdAlphabet salt) (b64_encode StdAlphabet hash)) =
  match IDKey (string_bytes pw) salt argonTime argonMemory argonThreads argonKeyLen with
  | None => Err ErrPanic
  | Some key => Ok (ConstantTimeCompare key hash)
  end.
Proof.
  intros Hs Hh Hl. rewrite /VerifyPassword split_format_hash; [by apply b64_encode_no_dollar..|].
  rewrite !b64_roundtrip // Hl. done.
Qed.
End password.

(** ** Sessions *)
Definition SessionIdleTimeout : Duration := 24 * Hour.
Definition ElevationDuration : Duration := 15 * Minute.

Definition NewToken (rnd : option bytes) : Result AuthError string :=
  match rnd with
  | None => Err ErrRandom
  | Some b => Ok (b64_encode URLAlphabet b)
  end.

(** Errors of the store pass through. *)
Definition lift {A} (m : DB A) : M Store (Result AuthError A) :=
  let! r := m in ret (match r with Ok a => Ok a | Err e => Err (FromDB e) end).

Section sessions.
Context `{Argon2}.

(** [now] and [now'] are what the two calls of [time.Now()] return. *)
Definition Login (username password : string) (rnd : option bytes) (now now' : Time) :
    M Store (Result AuthError string) :=
  let? u := lift (UserByUsername username) in
  match VerifyPassword password (u_PasswordHash u) with
  | Err e => ret (Err e)
  | Ok false => ret (Err ErrInvalidCredentials)
  | Ok true =>
      match NewToken rnd with
      | Err e => ret (Err e)
      | Ok token =>
          let expires := Unix (Add now' SessionIdleTimeout) in
          let? _ := lift (CreateSession token (u_ID u) (Unix now) expires) in
          ret (Ok token)
      end
  end.

Definition Validate (token : string) (now : Time) : M Store (Result AuthError Session) :=
  let? s := lift (SessionByToken token) in
  ret (if s_ExpiresAt s <? Unix now then Err (FromDB ErrNotFound) else Ok s).

Definition verifyPasswordForUser (userID : Z) (password : string) : M Store (Result AuthError bool) :=
  let? hash := lift (PasswordHashByUserID userID) in
  ret (VerifyPassword password hash).

Definition Elevate (token password : string) (now now' : Time) : M Store (Result AuthError unit) :=
  let? s := Validate token now in
  let? ok := verifyPasswordForUser (s_UserID s) password in
  if negb ok then ret (Err ErrInvalidCredentials)
  else lift (ElevateSession (s_Token s) (Unix (Add now' ElevationDuration))).

Definition Logout (token : string) : M Store (Result AuthError unit) := lift (DeleteSession token).
End sessions.

Definition IsElevated (s : Session) (now : Time) : bool :=
  match s_ElevatedUntil s with
  | Some u => Unix now <? u
  | None => false
  end.

#[export] Instance wf_lift {A} (m : DB A) : Preserves store_wf m → Preserves store_wf (lift m).
Proof. intros Hm. apply _. Qed.
#[export] Instance wf_Login `{Argon2} u pw r n n' : Preserves store_wf (Login u pw r n n').
Proof. rewrite /Login. preserves_tac. Qed.
#[export] Instance wf_Validate tok n : Preserves store_wf (Validate tok n).
Proof. rewrite /Validate. preserves_tac. Qed.
#[export] Instance wf_Elevate `{Argon2} tok pw n n' : Preserves store_wf (Elevate tok pw n n').
Proof. rewrite /Elevate /verifyPasswordForUser. preserves_tac. Qed.

(** ** What a token is worth *)

(** The session the tables hold for a token, as [SessionByToken] joins it. *)
Definition session_of (t : Tables) (token : string) : option Session :=
  match sessions t !! token with
  | None => None
  | Some r =>
      match find_user t (sr_UserID r) with
      | None => None
      | Some u => Some (mkSession token (sr_UserID r) (u_Role u) (sr_CreatedAt r) (sr_ExpiresAt r) (sr_ElevatedUntil r))
      end
  end.

(** The session a request with this token acts under at a time. *)
Definition valid_session (t : Tables) (token : string) (now : Time) : option Session :=
  match session_of t token with
  | Some s => if s_ExpiresAt s <? Unix now then None else Some s
  | None => None
  end.

Lemma SessionByToken_run token s :
  SessionByToken token s =
  (if default false (head (faults s)) then Err ErrIO
   else match session_of (tables s) token with Some x => Ok x | None => Err ErrNotFound end,
   mkStore (tables s) (tail (faults s))).
Proof.
  rewrite /SessionByToken /stmt /session_of. destruct (default false (head (faults s))); [done|].
  destruct (sessions (tables s) !! token) as [r|]; [|done]. by destruct (find_user (tables s) (sr_UserID r)).
Qed.

(** [Validate] only reads, and answers with the valid session unless the
    statement fails. *)
Lemma Validate_run token now s :
  Validate token now s =
  (if default false (head (faults s)) then Err (FromDB ErrIO)
   else match valid_session (tables s) token now with Some x => Ok x | None => Err (FromDB ErrNotFound) end,
   mkStore (tables s) (tail (faults s))).
Proof.
  rewrite /Validate /lift /bind SessionByToken_run /valid_session.
  destruct (default false (head (faults s))); [done|].
  destruct (session_of (tables s) token) as [x|]; [|done]. simpl. by destruct (s_ExpiresAt x <? Unix now).
Qed.

Lemma lift_cases {A} (m : DB A) s r s' :
  lift m s = (r, s') →
  match r with Ok a => m s = (Ok a, s') | Err e => ∃ e', e = FromDB e' ∧ m s = (Err e', s') end.
Proof.
  rewrite /lift /bind. destruct (m s) as [[a|e] s1]; intros [= <- <-]; [done|by exists e].
Qed.

(** A login that succeeds had the right password and made a session of the
    user that expires a day later. *)
Lemma Login_ok `{Argon2} username pw rnd now now' s token s' :
  wf (tables s) →
  Login username pw rnd now now' s = (Ok token, s') →
  ∃ u, u ∈ users (tables s) ∧ u_Username u = username ∧ VerifyPassword pw (u_PasswordHash u) = Ok true ∧
    session_of (tables s') token =
      Some (mkSession token (u_ID u) (u_Role u) (Unix now) (Unix now' + 86400) None).
Proof.
  intros Hwf. rewrite /Login {1}/bind. destruct (lift (UserByUsername username) s) as [[u|e] s1] eqn:E1; [|done].
  apply lift_cases in E1. apply stmt_cases in E1 as [E1 _].
  destruct (head (filter _ _)) as [u'|] eqn:Eu; [|done]. injection E1 as -> Et.
  apply head_filter_some in Eu as [Hn Hu].
  destruct (VerifyPassword pw (u_PasswordHash u)) as [[]|] eqn:Ev; [|done..].
  destruct (NewToken rnd) as [tok|]; [|done]. rewrite /bind.
  destruct (lift _ s1) as [[[]|] s2] eqn:E2; [|done]. intros [= <- <-].
  apply lift_cases in E2. apply stmt_cases in E2 as [E2 _].
  destruct (sessions (tables s1) !! tok) eqn:Es; [done|].
  destruct (find_user (tables s1) (u_ID u)) as [u2|] eqn:Ef; [|done]. injection E2 as E2.
  exists u. split_and!; try done. rewrite /session_of -E2 /= lookup_insert_eq /=.
  rewrite -Et in Ef |- *. rewrite find_user_wf // in Ef. injection Ef as <-.
  rewrite /find_user /=. rewrite -/(find_user (tables s) (u_ID u)) find_user_wf //.
  do 2 f_equal. apply (Unix_Add_seconds now' 86400).
Qed.

(** Validating any number of times leaves the tables alone. *)
Lemma validate_many token uses s :
  tables (for_each (λ n, Validate token n ;;! ret tt) uses s).2 = tables s.
Proof.
  revert s. induction uses as [|n uses IH]; intros s; [done|]. simpl.
  rewrite /bind Validate_run. rewrite IH. done.
Qed.

(** What a successful or failed elevation does to the sessions. *)
Lemma Elevate_cases `{Argon2} token pw now now' s r s' :
  Elevate token pw now now' s = (r, s') →
  match r with
  | Ok _ => ∃ x u, valid_session (tables s) token now = Some x ∧ find_user (tables s) (s_UserID x) = Some u ∧
      VerifyPassword pw (u_PasswordHash u) = Ok true ∧
      tables s' = set_sessions (alter (λ r, mkSessionRow (sr_UserID r) (sr_CreatedAt r) (sr_ExpiresAt r)
                    (Some (Unix now' + 900))) token (sessions (tables s))) (tables s)
  | Err _ => tables s' = tables s
  end.
Proof.
  rewrite /Elevate {1}/bind Validate_run. destruct (default false (head (faults s))); [by intros [= <- <-]|].
  destruct (valid_session (tables s) token now) as [x|] eqn:Ex; [|by intros [= <- <-]].
  assert (s_Token x = token) as Htok.
  { rewrite /valid_session /session_of in Ex. repeat case_match; by simplify_eq/=. }
  rewrite {1}/bind /verifyPasswordForUser {1}/bind.
  destruct (lift (PasswordHashByUserID _) _) as [[hash|e] s1] eqn:E1; apply lift_cases in E1.
  2:{ destruct E1 as (e' & -> & E1). apply stmt_cases in E1 as [[E1 _] _]. by intros [= <- <-]. }
  apply stmt_cases in E1 as [E1 _]. simpl in E1.
  destruct (find_user (tables s) (s_UserID x)) as [u|] eqn:Eu; [|done]. injection E1 as <- E1. simpl.
  destruct (VerifyPassword pw (u_PasswordHash u)) as [[]|] eqn:Ev; simpl; [|by intros [= <- <-]..].
  intros E2. apply lift_cases in E2. rewrite Htok in E2. destruct r as [[]|].
  - apply exec_cases in E2 as [[_ E2]|[? _]]; [|done]. exists x, u. split_and!; try done.
    rewrite E2 -E1. do 2 f_equal. rewrite (Unix_Add_seconds now' 900). done.
  - destruct E2 as (e' & -> & E2). apply exec_cases in E2 as [[? _]|[_ E2]]; [done|]. by rewrite E2.
Qed.

(** What changes of the accounts do to the sessions. *)
Definition with_role (role : string) (x : Session) : Session :=
  mkSession (s_Token x) (s_UserID x) role (s_CreatedAt x) (s_ExpiresAt x) (s_ElevatedUntil x).

Lemma session_of_role id role t token : wf t →
  session_of (tables (UpdateUserRole id role (mkStore t [])).2) token =
  (λ x, if s_UserID x =? id then with_role role x else x) <$> session_of t token.
Proof.
  intros Hwf. rewrite /session_of /=. destruct (sessions t !! token) as [r|]; [|done].
  set g := λ u, if u_ID u =? id then _ else u.
  assert (find_user (set_users (g <$> users t) (users_seq t) t) (sr_UserID r) = g <$> find_user t (sr_UserID r)) as ->.
  { rewrite /find_user /=. induction (users t) as [|u l IH]; [done|]. rewrite fmap_cons !filter_cons.
    assert (u_ID (g u) = u_ID u) as -> by (rewrite /g; by case_match). by case_decide. }
  destruct (find_user t (sr_UserID r)) as [u|] eqn:Eu; [|done]. apply find_user_some in Eu as [Hid _].
  simpl. rewrite /g -Hid. by destruct (u_ID u =? id).
Qed.

Lemma session_of_deleted id t token :
  session_of (tables (DeleteUser id (mkStore t [])).2) token =
  match session_of t token with Some x => if s_UserID x =? id then None else Some x | None => None end.
Proof.
  rewrite /session_of /= map_lookup_filter. destruct (sessions t !! token) as [r|]; [|done]. simpl.
  assert (sr_UserID r ≠ id → find_user (set_sessions (filter (λ kr : string * SessionRow, sr_UserID kr.2 ≠ id) (sessions t))
     (set_users (filter (λ u, u_ID u ≠ id) (users t)) (users_seq t) t)) (sr_UserID r) = find_user t (sr_UserID r)) as E.
  { intros Hne. rewrite /find_user /=. f_equal. rewrite list_filter_filter.
    apply list_filter_iff. naive_solver. }
  destruct (Z.eqb_spec (sr_UserID r) id) as [Heq|Hne].
  - rewrite option_guard_False; [by intros ?|]. by destruct (find_user t (sr_UserID r)); simpl; [rewrite Heq Z.eqb_refl|].
  - rewrite option_guard_True //= E //. destruct (find_user t (sr_UserID r)); simpl; [|done].
    by destruct (Z.eqb_spec (sr_UserID r) id).
Qed.

(** [Validate] on a healthy database. *)
Lemma Validate_healthy token now t :
  (Validate token now (mkStore t [])).1 =
  match valid_session t token now with Some x => Ok x | None => Err (FromDB ErrNotFound) end.
Proof. by rewrite Validate_run. Qed.

Module AuthProperties.

(** C21: a password hash made by [HashPassword] verifies exactly the passwords
    that derive the stored key with the stored salt and parameters; in
    particular the password it was made of. *)
Theorem verify_hash_roundtrip `{Argon2} (pw pw' : string) (salt : bytes) :
  length salt = saltLen → Forall is_byte salt →
  ∃ enc key key', HashPassword pw (Some salt) = Ok enc ∧
    IDKey (string_bytes pw) salt argonTime argonMemory argonThreads argonKeyLen = Some key ∧
    IDKey (string_bytes pw') salt argonTime argonMemory argonThreads argonKeyLen = Some key' ∧
    VerifyPassword pw' enc = Ok (bool_decide (key' = key)) ∧ VerifyPassword pw enc = Ok true.
Proof.
  intros Hl Hs.
  assert (1 ≤ argonTime ∧ 1 ≤ argonThreads ∧ 0 ≤ argonKeyLen) as (H1 & H2 & H3) by done.
  destruct (IDKey_some (string_bytes pw) salt argonTime argonMemory argonThreads argonKeyLen) as (k & E & Hk & Hb); [done..|].
  destruct (IDKey_some (string_bytes pw') salt argonTime argonMemory argonThreads argonKeyLen) as (k' & E' & _ & _); [done..|].
  exists (format_hash (b64_encode StdAlphabet salt) (b64_encode StdAlphabet k)), k, k'.
  rewrite /HashPassword E. split_and!; try done.
  - by rewrite VerifyPassword_format // E'.
  - rewrite VerifyPassword_format // E /ConstantTimeCompare. by rewrite bool_decide_eq_true_2.
Qed.

(** A toy key derivation: it repeats the last byte of the password. *)
Definition toy_key (pw salt : bytes) (t m p n : Z) : option bytes :=
  if (1 <=? t) && (1 <=? p) then Some (replicate (Z.to_nat n) (default 0 (last pw) mod 256)) else None.

Lemma toy_key_some pw salt t m p n : 1 ≤ t → 1 ≤ p → 0 ≤ n →
  ∃ k, toy_key pw salt t m p n = Some k ∧ Z.of_nat (length k) = n ∧ Forall is_byte k.
Proof.
  intros Ht Hp Hn. exists (replicate (Z.to_nat n) (default 0 (last pw) mod 256)). rewrite /toy_key.
  destruct (Z.leb_spec 1 t); [|lia]. destruct (Z.leb_spec 1 p); [|lia].
  split_and!; [done|rewrite length_replicate; lia|]. apply Forall_replicate, Z.mod_pos_bound. lia.
Qed.

Definition toy_argon2 : Argon2 := {| IDKey := toy_key; IDKey_some := toy_key_some |}.

Definition salt0 : bytes := seqZ 0 16.

Lemma verify_hash_roundtrip_witness :
  ∃ enc, HashPassword (H := toy_argon2) "secret" (Some salt0) = Ok enc ∧
    VerifyPassword (H := toy_argon2) "secret" enc = Ok true ∧
    VerifyPassword (H := toy_argon2) "secreT" enc = Ok false.
Proof.
  destruct (@verify_hash_roundtrip toy_argon2 "secret" "secreT" salt0)
    as (enc & key & key' & E & K & K' & V & V0); [reflexivity|apply Forall_forall|].
  { intros b Hb%elem_of_seqZ. split; simpl; lia. }
  exists enc. split; [exact E|]. split; [exact V0|]. rewrite V.
  vm_compute in K. vm_compute in K'. injection K as <-. injection K' as <-. reflexivity.
Defined.

(** C36: a session is valid from its login until 24 hours after it and not a
    second longer, however often it is used in between; so the time out is
    not one of idleness. *)
Theorem session_lifetime_is_absolute `{Argon2} (username pw token : string) (rnd : option bytes)
    (now now' n : Time) (uses : list Time) (s s' : Store) :
  wf (tables s) → Login username pw rnd now now' s = (Ok token, s') →
  let s'' := (for_each (λ m, Validate token m ;;! ret tt) uses s').2 in
  is_ok (Validate token n (mkStore (tables s'') [])).1 = (Unix n <=? Unix now' + 86400).
Proof.
  intros Hwf HL. simpl. rewrite Validate_run /= validate_many /valid_session.
  destruct (Login_ok username pw rnd now now' s token s' Hwf HL) as (u & _ & _ & _ & E). rewrite E. simpl.
  destruct (Z.ltb_spec (Unix now' + 86400) (Unix n)), (Z.leb_spec (Unix n) (Unix now' + 86400)); (done || lia).
Qed.

Definition admin0 (hash : string) : Tables := set_users [mkUser 1 "root" hash RoleAdmin 0] 1 emptyTables.

Lemma wf_admin0 hash : wf (admin0 hash).
Proof. exact (wf_CreateUser "root" hash RoleAdmin 0 (mkStore emptyTables []) wf_empty). Qed.

(** Used an hour before it expires, a session still ends a day after the login. *)
Lemma session_lifetime_is_absolute_witness :
  ∃ hash token s', Login (H := toy_argon2) "root" "secret" (Some salt0) 0 0 (mkStore (admin0 hash) []) = (Ok token, s') ∧
    let s'' := (for_each (λ m, Validate token m ;;! ret tt) [23 * Hour] s').2 in
    is_ok (Validate token (23 * Hour) (mkStore (tables s'') [])).1 = true ∧
    is_ok (Validate token (25 * Hour) (mkStore (tables s'') [])).1 = false.
Proof.
  destruct (HashPassword (H := toy_argon2) "secret" (Some salt0)) as [hash|] eqn:E; [|vm_compute in E; discriminate].
  exists hash. destruct (Login (H := toy_argon2) "root" "secret" (Some salt0) 0 0 (mkStore (admin0 hash) [])) as [r s'] eqn:EL.
  destruct r as [token|]; [|exfalso; vm_compute in E; injection E as <-; vm_compute in EL; discriminate].
  exists token, s'. split; [reflexivity|]. simpl. split.
  - pose proof (@session_lifetime_is_absolute toy_argon2 "root" "secret" token (Some salt0) 0 0 (23 * Hour)
      [23 * Hour] (mkStore (admin0 hash) []) s' (wf_admin0 hash) EL) as H. simpl in H. rewrite H. reflexivity.
  - pose proof (@session_lifetime_is_absolute toy_argon2 "root" "secret" token (Some salt0) 0 0 (25 * Hour)
      [23 * Hour] (mkStore (admin0 hash) []) s' (wf_admin0 hash) EL) as H. simpl in H. rewrite H. reflexivity.
Defined.

(** C20: elevating succeeds only for a valid session and the password of its
    user, elevates that session alone for exactly 15 minutes, and changes
    nothing when it fails. *)
Theorem elevate_requires_password `{Argon2} (token pw : string) (now now' : Time) (s : Store) :
  let '(r, s') := Elevate token pw now now' s in
  match r with
  | Err _ => tables s' = tables s
  | Ok _ =>
      ∃ x u, valid_session (tables s) token now = Some x ∧ find_user (tables s) (s_UserID x) = Some u ∧
        VerifyPassword pw (u_PasswordHash u) = Ok true ∧
        (∃ x', session_of (tables s') token = Some x' ∧ s_ElevatedUntil x' = Some (Unix now' + 900) ∧
           ∀ n, IsElevated x' n = (Unix n <? Unix now' + 900)) ∧
        (∀ other, other ≠ token → session_of (tables s') other = session_of (tables s) other)
  end.
Proof.
  destruct (Elevate token pw now now' s) as [r s'] eqn:E. apply Elevate_cases in E. destruct r as [[]|]; [|done].
  destruct E as (x & u & Ex & Eu & Ev & Et). exists x, u. split_and!; try done.
  - rewrite /valid_session /session_of in Ex. destruct (sessions (tables s) !! token) as [row|] eqn:Er; [|done].
    destruct (find_user (tables s) (sr_UserID row)) as [u'|] eqn:Eu'; [|done].
    eexists. split; [rewrite /session_of Et /= lookup_alter_eq Er /= /find_user /= -/(find_user (tables s) _) Eu'; reflexivity|].
    by split.
  - intros other Hne. rewrite /session_of Et /= lookup_alter_ne //. by apply not_eq_sym.
Qed.

(** C35: a session carries no authority of its own.  A user who logged in acts
    under the role the account has; from the moment a role change succeeds,
    [Validate] answers for every token of that user with the new role and
    otherwise as before, and from the moment the user is deleted it rejects
    each of them, while the tokens of other users are answered as before. *)
Theorem role_changes_are_immediate `{Argon2} (username pw token role : string) (id : Z) (rnd : option bytes)
    (now now' : Time) (s0 s : Store) :
  wf (tables s0) → Login username pw rnd now now' s0 = (Ok token, s) →
  let answer tok n s := (Validate tok n (mkStore (tables s) [])).1 in
  (∃ u, u ∈ users (tables s0) ∧ u_Username u = username ∧
     ∀ n, Unix n ≤ Unix now' + 86400 →
       ∃ x, answer token n s = Ok x ∧ s_UserID x = u_ID u ∧ s_Role x = u_Role u) ∧
  (∀ s', UpdateUserRole id role s = (Ok tt, s') → ∀ tok n,
     answer tok n s' =
     match answer tok n s with
     | Ok x => Ok (if s_UserID x =? id
                   then mkSession (s_Token x) id role (s_CreatedAt x) (s_ExpiresAt x) (s_ElevatedUntil x) else x)
     | Err e => Err e
     end) ∧
  (∀ s', DeleteUser id s = (Ok tt, s') → ∀ tok n,
     answer tok n s' =
     match answer tok n s with
     | Ok x => if s_UserID x =? id then Err (FromDB ErrNotFound) else Ok x
     | Err e => Err e
     end).
Proof.
  intros Hwf HL answer.
  assert (wf (tables s)) as Hwf'.
  { pose proof (wf_Login username pw rnd now now' s0 Hwf) as Hp. by rewrite HL in Hp. }
  split_and!.
  - destruct (Login_ok username pw rnd now now' s0 token s Hwf HL) as (u & Hu & Hn & _ & E).
    exists u. split_and!; [done..|]. intros n Hle. rewrite /answer Validate_healthy /valid_session E /=.
    destruct (Z.ltb_spec (Unix now' + 86400) (Unix n)); [lia|]. by eexists.
  - intros s' [[_ E]|[? _]]%exec_cases tok n; [|done]. rewrite /answer !Validate_healthy /valid_session E.
    rewrite (session_of_role id role (tables s) tok Hwf'). destruct (session_of (tables s) tok) as [x|]; [|done]. simpl.
    destruct (s_UserID x =? id) eqn:Ei; simpl; destruct (s_ExpiresAt x <? Unix n); rewrite ?Ei //.
    by apply Z.eqb_eq in Ei as <-.
  - intros s' [[_ E]|[? _]]%exec_cases tok n; [|done]. rewrite /answer !Validate_healthy /valid_session E.
    rewrite (session_of_deleted id (tables s) tok). destruct (session_of (tables s) tok) as [x|]; [|done]. simpl.
    destruct (s_UserID x =? id) eqn:Ei; by destruct (_ <? _); rewrite ?Ei.
Qed.

Definition with_session (t : Tables) : Tables :=
  set_sessions {["tok"%string := mkSessionRow 1 0 86400 None]} t.

(** An administrator logs in, is demoted, and then deleted. *)
Lemma role_changes_are_immediate_witness :
  ∃ hash token s, Login (H := toy_argon2) "root" "secret" (Some salt0) 0 0 (mkStore (admin0 hash) []) = (Ok token, s) ∧
    let answer s := (Validate token 0 (mkStore (tables s) [])).1 in
    (∃ x, answer s = Ok x ∧ s_Role x = RoleAdmin) ∧
    (∃ x, answer (UpdateUserRole 1 RoleStandard s).2 = Ok x ∧ s_Role x = RoleStandard) ∧
    answer (DeleteUser 1 s).2 = Err (FromDB ErrNotFound).
Proof.
  destruct (HashPassword (H := toy_argon2) "secret" (Some salt0)) as [hash|] eqn:E; [|vm_compute in E; discriminate].
  exists hash. destruct (Login (H := toy_argon2) "root" "secret" (Some salt0) 0 0 (mkStore (admin0 hash) [])) as [r s] eqn:EL.
  vm_compute in E; injection E as <-. destruct r as [token|]; [|exfalso; vm_compute in EL; discriminate].
  exists token, s. split; [reflexivity|]. intros answer.
  set s0 := mkStore (admin0 _) [] in EL.
  destruct (@role_changes_are_immediate toy_argon2 "root" "secret" token RoleStandard 1 (Some salt0) 0 0 s0 s (wf_admin0 _) EL)
    as ((u & _ & _ & Hu) & HR & HD).
  vm_compute in EL. injection EL as <- <-. destruct (Hu 0 ltac:(done)) as (x & Ex & _).
  assert (s_Role x = RoleAdmin ∧ s_UserID x = 1) as [Hr Hi] by (vm_compute in Ex; injection Ex as <-; split; reflexivity).
  split; [exists x; split; [exact Ex|exact Hr]|]. unfold answer. split.
  - rewrite (HR _ eq_refl). rewrite Ex Hi. simpl. eexists. split; [reflexivity|reflexivity].
  - rewrite (HD _ eq_refl). rewrite Ex Hi. reflexivity.
Defined.

Lemma elevate_requires_password_witness :
  ∃ hash, let s := mkStore (with_session (admin0 hash)) [] in
    is_ok (Elevate (H := toy_argon2) "tok" "secret" 0 0 s).1 = true ∧
    tables (Elevate (H := toy_argon2) "tok" "wrong" 0 0 s).2 = tables s.
Proof.
  destruct (HashPassword (H := toy_argon2) "secret" (Some salt0)) as [hash|] eqn:E; [|vm_compute in E; discriminate].
  exists hash. vm_compute in E. injection E as <-. split; [reflexivity|].
  set s := mkStore _ _. pose proof (@elevate_requires_password toy_argon2 "tok" "wrong" 0 0 s) as H.
  destruct (Elevate (H := toy_argon2) "tok" "wrong" 0 0 s) as [r s'] eqn:EE.
  destruct r; [vm_compute in EE; discriminate|exact H].
Defined.

End AuthProperties.
