(* ===== verification/Web.v ===== *)
(** * The web interface ([internal/web])

    Every handler of the API and of the pages, behind the middleware the
    router puts in front of it.  A request carries the session cookie, the
    path parameter, the query string and its decoded JSON body ([None] when
    [encoding/json] rejects it); pattern matching of URLs is the HTTP
    library's, so a request names its route.  [now k] is what the [k]-th call
    of [time.Now()] during the request returns.

    The theorems: a request changes the database only as an admin (recently
    re-authenticated for settings and users), or to manage its own session;
    requests served one at a time never remove the last admin, while two
    concurrent ones can; a failed login does not say whether the user exists;
    and some ranges are served from a table whose rows are already pruned. *)

From stdpp Require Import prelude strings gmap list.
From Stdlib Require Import ZArith Lia.
From Corelib Require Import ssreflect.
From S2P Require Import Prelude GoStrings GoNet GoTime Encoding Store StoreProofs Rollup Auth.

Open Scope general_if_scope.
Open Scope Z_scope.

(** ** Requests and responses *)
Record loginRequest := mkLoginRequest { lr_Username : string; lr_Password : string }.
Record createUserRequest := mkCreateUserRequest { cu_Username : string; cu_Password : string; cu_Role : string }.

Record Request := mkRequest {
  Cookie : option string;              (* the session cookie *)
  PathID : string;                     (* the path value "id" *)
  Query : string → string              (* the query parameters, "" if absent *)
}.

Record userJSON := mkUserJSON { uj_ID : Z; uj_Username : string; uj_Role : string; uj_CreatedAt : Z }.
Definition toUserJSON (u : User) : userJSON := mkUserJSON (u_ID u) (u_Username u) (u_Role u) (u_CreatedAt u).

Record hostSummary := mkHostSummary {
  hs_ID : Z; hs_IP : string; hs_DisplayName : string; hs_LastSeen : Z; hs_Sparkline : list (Z * Z * Z)
}.

Record pageVars := mkPageVars {
  Breadcrumb : string; HostID : Z; HostIP : string; HostDisplayName : string; HostMAC : string;
  UnackedAlerts : Z; OnAlertsPage : bool; OnSettingsPage : bool; IsAdmin : bool
}.

Inductive Payload :=
  | PError (code : string)
  | PStatusOK
  | PCreated (id : Z)
  | PAcknowledged (n : Z)
  | PSaved (restartRequired : bool)
  | PUsers (us : list userJSON)
  | PAlerts (l : list Alert)
  | PHosts (hs : list hostSummary)
  | PSeries (granularity : string) (columns : list Z * list Z * list Z)
  | PFlows (fs : list FlowDetail)
  | PSettings (kv : gmap string string)
  | PInterfaces (names : list string).

Inductive CookieChange := SetCookie (token : string) (expires : Time) | ClearCookie.

Inductive Response :=
  | JSON (status : Z) (p : Payload) (c : option CookieChange)
  | Redirect (path : string)
  | Page (name : string) (v : option pageVars)
  | PlainError (status : Z).

Definition writeJSON (status : Z) (p : Payload) : M Store Response := ret (JSON status p None).
Definition writeJSONError (status : Z) (code : string) : M Store Response := ret (JSON status (PError code) None).

Definition StatusOK : Z := 200.
Definition StatusBadRequest : Z := 400.
Definition StatusUnauthorized : Z := 401.
Definition StatusForbidden : Z := 403.
Definition StatusNotFound : Z := 404.
Definition StatusConflict : Z := 409.
Definition StatusInternalServerError : Z := 500.

Definition internal_error : M Store Response := writeJSONError StatusInternalServerError "internal_error".

(** [if err != nil { internal error; return }]. *)
Definition or_500 {A E} (m : M Store (Result E A)) (k : A → M Store Response) : M Store Response :=
  let! r := m in
  match r with Ok a => k a | Err _ => internal_error end.

Abbreviation Clock := (nat → Time).

(** ** Parameters *)
Definition parseIDParam (r : Request) : option Z :=
  match parse_int 64 (PathID r) with
  | Some id => if id <=? 0 then None else Some id
  | None => None
  end.

Definition parseRange (r : Request) : option (Z * Z) :=
  let fromStr := Query r "from" in
  let toStr := Query r "to" in
  if bool_decide (fromStr = EmptyString) || bool_decide (toStr = EmptyString) then None else
  match parse_int 64 fromStr, parse_int 64 toStr with
  | Some f, Some t => if t <=? f then None else Some (f, t)
  | _, _ => None
  end.

(** A limit given in the query, if it is a number in range. *)
Definition query_limit (r : Request) (dflt max : Z) : Z :=
  match atoi (Query r "limit") with
  | Some l => if (0 <? l) && (l <=? max) then l else dflt
  | None => dflt
  end.

(** ** Middleware *)
Definition denyUnauthenticated (isAPI : bool) : M Store Response :=
  if isAPI then writeJSONError StatusUnauthorized "unauthenticated" else ret (Redirect "/login").
Definition denyForbidden (isAPI : bool) : M Store Response :=
  if isAPI then writeJSONError StatusForbidden "admin_required" else ret (Redirect "/").

Section web.
Context `{Argon2} {o : Order}.

Definition requireSession (isAPI : bool) (next : Session → M Store Response) (r : Request) (now : Clock) :
    M Store Response :=
  match Cookie r with
  | None => denyUnauthenticated isAPI
  | Some c =>
      let! v := Validate c (now 0%nat) in
      match v with
      | Err _ => denyUnauthenticated isAPI
      | Ok sess => next sess
      end
  end.

Definition requireElevated (next : Session → M Store Response) (r : Request) (now : Clock) : M Store Response :=
  requireSession true (λ sess,
    if negb (IsElevated sess (now 1%nat)) then writeJSONError StatusForbidden "reauth_required" else next sess) r now.

Definition requireAdmin (isAPI : bool) (next : Session → M Store Response) (r : Request) (now : Clock) :
    M Store Response :=
  requireSession isAPI (λ sess,
    if negb (Session_IsAdmin sess) then denyForbidden isAPI else next sess) r now.

Definition requireAdminElevated (next : Session → M Store Response) (r : Request) (now : Clock) : M Store Response :=
  requireAdmin true (λ sess,
    if negb (IsElevated sess (now 1%nat)) then writeJSONError StatusForbidden "reauth_required" else next sess) r now.

(** ** Authentication *)
Definition login (body : option loginRequest) (rnd : option bytes) (now : Clock) : M Store Response :=
  match body with
  | None => writeJSONError StatusBadRequest "invalid_request"
  | Some req =>
      let! r := Login (lr_Username req) (lr_Password req) rnd (now 0%nat) (now 1%nat) in
      match r with
      | Err ErrInvalidCredentials | Err (FromDB ErrNotFound) =>
          writeJSONError StatusUnauthorized "invalid_credentials"
      | Err _ => internal_error
      | Ok token => ret (JSON StatusOK PStatusOK (Some (SetCookie token (Add (now 2%nat) SessionIdleTimeout))))
      end
  end.

Definition logout (r : Request) : M Store Response :=
  (match Cookie r with
   | Some c => Logout c ;;! ret tt
   | None => ret tt
   end) ;;!
  ret (JSON StatusOK PStatusOK (Some ClearCookie)).

Definition reauth (sess : Session) (body : option string) (now : Clock) : M Store Response :=
  match body with
  | None => writeJSONError StatusBadRequest "invalid_request"
  | Some password =>
      let! r := Elevate (s_Token sess) password (now 1%nat) (now 2%nat) in
      match r with
      | Err ErrInvalidCredentials => writeJSONError StatusUnauthorized "invalid_credentials"
      | Err _ => internal_error
      | Ok _ => writeJSON StatusOK PStatusOK
      end
  end.

(** ** Hosts and series *)
Definition sparklineWindow : Duration := 60 * Minute.

Definition toSeriesJSON (points : list SeriesPoint) : list (Z * Z * Z) :=
  (λ p, (p_BucketTS p, p_BytesSent p, p_BytesRecv p)) <$> points.

Definition toColumnarSeries (points : list SeriesPoint) : list Z * list Z * list Z :=
  (p_BucketTS <$> points, p_BytesSent <$> points, p_BytesRecv <$> points).

(** The loop over hosts, which gives up at the first error. *)
Fixpoint summaries (from to : Z) (hs : list Host) : M Store (Result DBError (list hostSummary)) :=
  match hs with
  | [] => ret (Ok [])
  | h :: hs' =>
      let? points := SparklineSeries (h_ID h) from to in
      let? rest := summaries from to hs' in
      ret (Ok (mkHostSummary (h_ID h) (h_IP h) (default EmptyString (h_DisplayName h)) (h_LastSeen h)
                 (toSeriesJSON points) :: rest))
  end.

Definition listHosts (now : Clock) : M Store Response :=
  or_500 ListHosts (λ hs,
    let n := Unix (now 1%nat) in
    or_500 (summaries (n - seconds sparklineWindow) n hs) (λ out, writeJSON StatusOK (PHosts out))).

Definition rangeFlowsRecentMax : Z := 24 * 3600.
Definition range1mMax : Z := 10 * 24 * 3600.
Definition range5mMax : Z := 90 * 24 * 3600.
Definition range1hMax : Z := 2 * 365 * 24 * 3600.

(** The table a range is served from: the flows themselves, or a rollup.
    The span is a 64-bit difference. *)
Definition granularity (from to now : Z) : string :=
  let span := wrap_i64 (to - from) in
  if (span <=? rangeFlowsRecentMax) && (now - rangeFlowsRecentMax <=? to) then "raw"
  else if span <=? range1mMax then "1m"
  else if span <=? range5mMax then "5m"
  else if span <=? range1hMax then "1h"
  else "1d".

Definition series_of (g : string) (hostID from to direction : Z) : DB (list SeriesPoint) :=
  if bool_decide (g = "raw"%string) then HostSeriesFromFlowsRecent hostID from to direction
  else HostSeriesFromRollup g hostID from to direction.

(** [-1] when the query does not name a direction, [None] when it names one
    out of range. *)
Definition query_direction (r : Request) : option Z :=
  if bool_decide (Query r "direction" = EmptyString) then Some (-1) else
  match atoi (Query r "direction") with
  | Some d => if (d <? 0) || (3 <? d) then None else Some d
  | None => None
  end.

Definition hostSeries (r : Request) (now : Clock) : M Store Response :=
  match parseIDParam r with
  | None => writeJSONError StatusBadRequest "invalid_host_id"
  | Some hostID =>
      match parseRange r with
      | None => writeJSONError StatusBadRequest "invalid_range"
      | Some (from, to) =>
          match query_direction r with
          | None => writeJSONError StatusBadRequest "invalid_direction"
          | Some direction =>
              let g := granularity from to (Unix (now 1%nat)) in
              or_500 (series_of g hostID from to direction) (λ points,
                writeJSON StatusOK (PSeries g (toColumnarSeries points)))
          end
      end
  end.

Definition hostFlows (r : Request) (now : Clock) : M Store Response :=
  match parseIDParam r with
  | None => writeJSONError StatusBadRequest "invalid_host_id"
  | Some hostID =>
      match parseRange r with
      | None => writeJSONError StatusBadRequest "invalid_range"
      | Some (from, to) =>
          if rangeFlowsRecentMax <? wrap_i64 (Unix (now 1%nat) - to)
          then writeJSONError StatusBadRequest "range_too_old_for_flow_detail"
          else or_500 (HostFlows hostID from to (query_limit r 500 5000)) (λ fs,
                 writeJSON StatusOK (PFlows fs))
      end
  end.

(** ** Settings *)
Definition getSettings : M Store Response :=
  or_500 AllSettings (λ kv, writeJSON StatusOK (PSettings (delete KeySetupComplete kv))).

Definition putSettings (body : option (gmap string string)) : M Store Response :=
  match body with
  | None => writeJSONError StatusBadRequest "invalid_request"
  | Some req =>
      let restartRequired :=
        bool_decide (is_Some (req !! KeyCaptureInterface)) || bool_decide (is_Some (req !! KeyLANSubnetCIDR)) in
      or_500 (SetSettings req) (λ _, writeJSON StatusOK (PSaved restartRequired))
  end.

(** ** Alerts *)
Definition defaultAlertLimit : Z := 200.

Definition listAlerts (r : Request) : M Store Response :=
  let unackedOnly := bool_decide (Query r "unacked_only" = "1"%string) in
  or_500 (ListAlerts (query_limit r defaultAlertLimit 2000) unackedOnly (Query r "kind")) (λ l,
    writeJSON StatusOK (PAlerts l)).

Definition hostAlerts (r : Request) : M Store Response :=
  match parseIDParam r with
  | None => writeJSONError StatusBadRequest "invalid_host_id"
  | Some hostID => or_500 (ListAlertsForHost hostID defaultAlertLimit) (λ l, writeJSON StatusOK (PAlerts l))
  end.

Definition ackAlert (r : Request) : M Store Response :=
  match parseIDParam r with
  | None => writeJSONError StatusBadRequest "invalid_alert_id"
  | Some id => or_500 (AcknowledgeAlert id) (λ _, writeJSON StatusOK PStatusOK)
  end.

Definition ackAllAlerts (r : Request) : M Store Response :=
  or_500 (AcknowledgeAllAlerts (Query r "kind")) (λ n, writeJSON StatusOK (PAcknowledged n)).

(** ** Users *)
Definition minPasswordLen : nat := 12.

Definition known_role (role : string) : bool :=
  bool_decide (role = RoleAdmin) || bool_decide (role = RoleStandard).

Definition listUsers : M Store Response :=
  or_500 ListUsers (λ us, writeJSON StatusOK (PUsers (toUserJSON <$> us))).

Definition createUser (body : option createUserRequest) (rnd : option bytes) (now : Clock) : M Store Response :=
  match body with
  | None => writeJSONError StatusBadRequest "invalid_request"
  | Some req =>
      if bool_decide (cu_Username req = EmptyString) then writeJSONError StatusBadRequest "username_required" else
      if (String.length (cu_Password req) <? minPasswordLen)%nat
      then writeJSONError StatusBadRequest "password_too_short" else
      if negb (known_role (cu_Role req)) then writeJSONError StatusBadRequest "invalid_role" else
      match HashPassword (cu_Password req) rnd with
      | Err _ => internal_error
      | Ok hash =>
          let! r := CreateUser (cu_Username req) hash (cu_Role req) (Unix (now 2%nat)) in
          match r with
          | Err _ => writeJSONError StatusConflict "username_taken"
          | Ok id => writeJSON StatusOK (PCreated id)
          end
      end
  end.

(** [None]: there is another admin; [Some]: the response that was written. *)
Definition guardLastAdmin : M Store (option Response) :=
  let! r := CountAdmins in
  match r with
  | Err _ => ret (Some (JSON StatusInternalServerError (PError "internal_error") None))
  | Ok count =>
      ret (if count <=? 1 then Some (JSON StatusBadRequest (PError "cannot_remove_last_admin") None) else None)
  end.

(** What [updateUserRole] checks before it writes: the user and the role to
    set, or the response. *)
Definition check_role_change (sess : Session) (r : Request) (body : option string) :
    M Store (Response + Z * string) :=
  match parseIDParam r with
  | None => ret (inl (JSON StatusBadRequest (PError "invalid_user_id") None))
  | Some id =>
      match body with
      | None => ret (inl (JSON StatusBadRequest (PError "invalid_request") None))
      | Some role =>
          if negb (known_role role) then ret (inl (JSON StatusBadRequest (PError "invalid_role") None)) else
          if s_UserID sess =? id then ret (inl (JSON StatusBadRequest (PError "cannot_change_own_role") None)) else
          let! t := UserByID id in
          match t with
          | Err _ => ret (inl (JSON StatusNotFound (PError "not_found") None))
          | Ok target =>
              if bool_decide (u_Role target = RoleAdmin) && negb (bool_decide (role = RoleAdmin)) then
                let! g := guardLastAdmin in
                ret (match g with Some resp => inl resp | None => inr (id, role) end)
              else ret (inr (id, role))
          end
      end
  end.

Definition commit_role_change (idrole : Z * string) : M Store Response :=
  or_500 (UpdateUserRole idrole.1 idrole.2) (λ _, writeJSON StatusOK PStatusOK).

Definition updateUserRole (sess : Session) (r : Request) (body : option string) : M Store Response :=
  let! c := check_role_change sess r body in
  match c with inl resp => ret resp | inr x => commit_role_change x end.

(** What [deleteUser] checks before it writes. *)
Definition check_delete (sess : Session) (r : Request) : M Store (Response + Z) :=
  match parseIDParam r with
  | None => ret (inl (JSON StatusBadRequest (PError "invalid_user_id") None))
  | Some id =>
      if s_UserID sess =? id then ret (inl (JSON StatusBadRequest (PError "cannot_delete_own_account") None)) else
      let! t := UserByID id in
      match t with
      | Err _ => ret (inl (JSON StatusNotFound (PError "not_found") None))
      | Ok target =>
          if bool_decide (u_Role target = RoleAdmin) then
            let! g := guardLastAdmin in
            ret (match g with Some resp => inl resp | None => inr id end)
          else ret (inr id)
      end
  end.

Definition commit_delete (id : Z) : M Store Response :=
  or_500 (DeleteUser id) (λ _, writeJSON StatusOK PStatusOK).

Definition deleteUser (sess : Session) (r : Request) : M Store Response :=
  let! c := check_delete sess r in
  match c with inl resp => ret resp | inr id => commit_delete id end.

(** [ifaces] is what the operating system lists, if it does. *)
Definition listInterfaces (ifaces : option (list string)) : M Store Response :=
  match ifaces with
  | None => internal_error
  | Some names => writeJSON StatusOK (PInterfaces names)
  end.

(** ** Pages *)
Definition navVars (sess : Session) : M Store pageVars :=
  let! c := CountUnacknowledgedAlerts in
  ret (mkPageVars EmptyString 0 EmptyString EmptyString EmptyString
         (match c with Ok n => n | Err _ => 0 end) false false (Session_IsAdmin sess)).

Definition page_login : M Store Response := ret (Page "login.html" None).

Definition dashboard (sess : Session) : M Store Response :=
  let! v := navVars sess in ret (Page "dashboard.html" (Some v)).

Definition hostDetail (sess : Session) (r : Request) : M Store Response :=
  match parseIDParam r with
  | None => ret (PlainError StatusNotFound)
  | Some hostID =>
      let! h := HostByID hostID in
      match h with
      | Err e => ret (PlainError (if bool_decide (e = ErrNotFound) then StatusNotFound else StatusInternalServerError))
      | Ok host =>
          let! v := navVars sess in
          let name := default EmptyString (h_DisplayName host) in
          ret (Page "host_detail.html" (Some (mkPageVars
                 (if bool_decide (name = EmptyString) then h_IP host else name) (h_ID host) (h_IP host) name
                 (default EmptyString (h_MACAddress host)) (UnackedAlerts v) false false (IsAdmin v))))
      end
  end.

Definition page_alerts (sess : Session) : M Store Response :=
  let! v := navVars sess in
  ret (Page "alerts.html" (Some (mkPageVars "Alerts" 0 EmptyString EmptyString EmptyString
         (UnackedAlerts v) true false (IsAdmin v)))).

Definition page_settings (sess : Session) : M Store Response :=
  let! v := navVars sess in
  ret (Page "settings.html" (Some (mkPageVars "Settings" 0 EmptyString EmptyString EmptyString
         (UnackedAlerts v) false true (IsAdmin v)))).

(** ** The router *)
Inductive Route :=
  | GetLogin | GetDashboard | GetHost | GetAlertsPage | GetSettingsPage
  | PostLogin (body : option loginRequest) | PostLogout | PostReauth (body : option string)
  | ApiHosts | ApiSeries | ApiFlows | ApiHostAlerts | ApiAlerts
  | PostAck | PostAckAll | ApiGetSettings | ApiPutSettings (body : option (gmap string string))
  | ApiInterfaces (ifaces : option (list string))
  | ApiUsers | PostUser (body : option createUserRequest) | PutRole (body : option string) | DeleteUserRoute.

(** The handler of each route with its middleware; [rnd] is the random source. *)
Definition serve (rt : Route) (r : Request) (rnd : option bytes) (now : Clock) : M Store Response :=
  match rt with
  | GetLogin => page_login
  | GetDashboard => requireSession false dashboard r now
  | GetHost => requireSession false (λ s, hostDetail s r) r now
  | GetAlertsPage => requireSession false page_alerts r now
  | GetSettingsPage => requireAdmin false page_settings r now
  | PostLogin body => login body rnd now
  | PostLogout => logout r
  | PostReauth body => requireSession true (λ s, reauth s body now) r now
  | ApiHosts => requireSession true (λ _, listHosts now) r now
  | ApiSeries => requireSession true (λ _, hostSeries r now) r now
  | ApiFlows => requireSession true (λ _, hostFlows r now) r now
  | ApiHostAlerts => requireSession true (λ _, hostAlerts r) r now
  | ApiAlerts => requireSession true (λ _, listAlerts r) r now
  | PostAck => requireAdmin true (λ _, ackAlert r) r now
  | PostAckAll => requireAdmin true (λ _, ackAllAlerts r) r now
  | ApiGetSettings => requireAdmin true (λ _, getSettings) r now
  | ApiPutSettings body => requireAdminElevated (λ _, putSettings body) r now
  | ApiInterfaces ifaces => requireAdmin true (λ _, listInterfaces ifaces) r now
  | ApiUsers => requireAdmin true (λ _, listUsers) r now
  | PostUser body => requireAdminElevated (λ _, createUser body rnd now) r now
  | PutRole body => requireAdminElevated (λ s, updateUserRole s r body) r now
  | DeleteUserRoute => requireAdminElevated (λ s, deleteUser s r) r now
  end.
End web.

(** ** Reading handlers *)
Section table_invariants.
Context `{Argon2} {o : Order} (P : Tables → Prop).
Abbreviation onP := (λ s : Store, P (tables s)).

#[export] Instance keep_find {A B} (f : Tables → option A) (g : A → B) :
  Preserves onP (stmt (λ t, match f t with Some x => Ok (g x, t) | None => Err ErrNotFound end)).
Proof. apply preserves_stmt. intros t a t' Ht. case_match; [|done]. by intros [= <- <-]. Qed.
#[export] Instance keep_HostByID id : Preserves onP (HostByID id).
Proof. exact (keep_find (λ t, find_host t id) (λ x, x)). Qed.
#[export] Instance keep_UserByID id : Preserves onP (UserByID id).
Proof. exact (keep_find (λ t, find_user t id) (λ x, x)). Qed.
#[export] Instance keep_UserByUsername name : Preserves onP (UserByUsername name).
Proof. exact (keep_find (λ t, head (filter (λ u, u_Username u = name) (users t))) (λ x, x)). Qed.
#[export] Instance keep_PasswordHashByUserID id : Preserves onP (PasswordHashByUserID id).
Proof. exact (keep_find (λ t, find_user t id) u_PasswordHash). Qed.
#[export] Instance keep_HostSeriesFromRollup g h f t d : Preserves onP (HostSeriesFromRollup g h f t d).
Proof. rewrite /HostSeriesFromRollup. case_match; apply _. Qed.
#[export] Instance keep_lift {A} (m : DB A) : Preserves onP m → Preserves onP (lift m).
Proof. intros Hm. apply _. Qed.
#[export] Instance keep_or_500 {A E} (m : M Store (Result E A)) k :
  Preserves onP m → (∀ a, Preserves onP (k a)) → Preserves onP (or_500 m k).
Proof. intros Hm Hk. rewrite /or_500. preserves_tac. Qed.
#[export] Instance keep_summaries f t hs : Preserves onP (summaries f t hs).
Proof. induction hs; simpl; preserves_tac. Qed.
#[export] Instance keep_Validate tok n : Preserves onP (Validate tok n).
Proof. intros s Hs. by rewrite Validate_run. Qed.

#[export] Instance keep_requireSession isAPI next r now :
  (∀ sess, Preserves onP (next sess)) → Preserves onP (requireSession isAPI next r now).
Proof. intros Hn. rewrite /requireSession /denyUnauthenticated. preserves_tac. Qed.
#[export] Instance keep_requireAdmin isAPI next r now :
  (∀ sess, Preserves onP (next sess)) → Preserves onP (requireAdmin isAPI next r now).
Proof. intros Hn. apply keep_requireSession. intros sess. rewrite /denyForbidden. preserves_tac. Qed.
#[export] Instance keep_requireAdminElevated next r now :
  (∀ sess, Preserves onP (next sess)) → Preserves onP (requireAdminElevated next r now).
Proof. intros Hn. apply keep_requireAdmin. intros sess. preserves_tac. Qed.

(** The routes that only read. *)
Definition reading (rt : Route) : bool :=
  match rt with
  | PostLogin _ | PostLogout | PostReauth _ | PostAck | PostAckAll | ApiPutSettings _
  | PostUser _ | PutRole _ | DeleteUserRoute => false
  | _ => true
  end.

#[export] Instance keep_navVars sess : Preserves onP (navVars sess).
Proof. apply _. Qed.

Lemma keep_reading rt r rnd now : reading rt = true → Preserves onP (serve rt r rnd now).
Proof.
  intros Hr. destruct rt; try done; simpl; try (apply _).
  - apply keep_requireSession. intros s. rewrite /hostDetail. preserves_tac.
  - apply keep_requireSession. intros s. rewrite /hostSeries /series_of. preserves_tac.
  - apply keep_requireSession. intros s. rewrite /hostFlows. preserves_tac.
  - apply keep_requireSession. intros s. rewrite /hostAlerts. preserves_tac.
  - apply keep_requireAdmin. intros s. rewrite /listInterfaces /internal_error. preserves_tac.
Qed.
End table_invariants.

(** ** Who may change what *)
Section authority.
Context `{Argon2} {o : Order}.

(** The session a request acts under. *)
Definition acting (r : Request) (t : Tables) (now : Clock) : option Session :=
  match Cookie r with
  | Some c => valid_session t c (now 0%nat)
  | None => None
  end.

(** A request that changes the tables got through the middleware. *)
Lemma requireSession_effect isAPI next r now s :
  tables (requireSession isAPI next r now s).2 ≠ tables s →
  ∃ sess, acting r (tables s) now = Some sess ∧
    (requireSession isAPI next r now s) = next sess (mkStore (tables s) (tail (faults s))).
Proof.
  rewrite /requireSession /acting /denyUnauthenticated. destruct (Cookie r) as [c|]; [|by destruct isAPI].
  rewrite /bind Validate_run. destruct (default false (head (faults s))); [by destruct isAPI|].
  destruct (valid_session (tables s) c (now 0%nat)) as [sess|]; [|by destruct isAPI]. intros _. by exists sess.
Qed.

Lemma requireAdmin_effect isAPI next r now s :
  tables (requireAdmin isAPI next r now s).2 ≠ tables s →
  ∃ sess, acting r (tables s) now = Some sess ∧ Session_IsAdmin sess = true ∧
    requireAdmin isAPI next r now s = next sess (mkStore (tables s) (tail (faults s))).
Proof.
  rewrite /requireAdmin. intros Hne. destruct (requireSession_effect isAPI _ r now s Hne) as (sess & Ha & E).
  rewrite E in Hne |- *. exists sess. rewrite /denyForbidden in Hne |- *.
  destruct (Session_IsAdmin sess); [done|]. by destruct isAPI.
Qed.

Lemma requireAdminElevated_effect next r now s :
  tables (requireAdminElevated next r now s).2 ≠ tables s →
  ∃ sess, acting r (tables s) now = Some sess ∧ Session_IsAdmin sess = true ∧ IsElevated sess (now 1%nat) = true ∧
    requireAdminElevated next r now s = next sess (mkStore (tables s) (tail (faults s))).
Proof.
  rewrite /requireAdminElevated. intros Hne. destruct (requireAdmin_effect true _ r now s Hne) as (sess & Ha & Hadm & E).
  rewrite E in Hne |- *. exists sess. by destruct (IsElevated sess (now 1%nat)).
Qed.

(** Only the sessions differ. *)
Definition only_sessions (t t' : Tables) : Prop := t' = set_sessions (sessions t') t.

Lemma only_sessions_refl t : only_sessions t t.
Proof. by destruct t. Qed.
Lemma only_sessions_set t t' x : only_sessions t t' → only_sessions t (set_sessions x t').
Proof. rewrite /only_sessions. by intros ->. Qed.

#[export] Instance only_sessions_Login t u pw rnd n n' :
  Preserves (λ s, only_sessions t (tables s)) (Login u pw rnd n n').
Proof.
  assert (∀ tok i c e, Preserves (λ s, only_sessions t (tables s)) (CreateSession tok i c e)).
  { intros tok i c e. apply preserves_stmt. intros t1 a t2 Ht. repeat case_match; try done. intros [= <- <-].
    by apply only_sessions_set. }
  rewrite /Login. preserves_tac.
Qed.
#[export] Instance only_sessions_Logout t tok : Preserves (λ s, only_sessions t (tables s)) (Logout tok).
Proof. apply keep_lift, preserves_exec. intros t1 Ht. by apply only_sessions_set. Qed.
#[export] Instance only_sessions_Elevate t tok pw n n' :
  Preserves (λ s, only_sessions t (tables s)) (Elevate tok pw n n').
Proof.
  assert (∀ tok u, Preserves (λ s, only_sessions t (tables s)) (ElevateSession tok u)).
  { intros tok' u. apply preserves_exec. intros t1 Ht. by apply only_sessions_set. }
  rewrite /Elevate /verifyPasswordForUser. preserves_tac.
Qed.

Lemma only_sessions_auth t rt r rnd now :
  match rt with PostLogin _ | PostLogout | PostReauth _ => True | _ => False end →
  Preserves (λ s, only_sessions t (tables s)) (serve rt r rnd now).
Proof.
  destruct rt; try done; intros _; simpl.
  - rewrite /login /internal_error. preserves_tac.
  - rewrite /logout. preserves_tac.
  - apply (keep_requireSession (only_sessions t)). intros s. rewrite /reauth /internal_error. preserves_tac.
Qed.
End authority.

(** ** The last admin *)
Section admins.
Context `{Argon2} {o : Order}.

(** The database is well formed and somebody is an admin. *)
Definition has_admin (t : Tables) : Prop := wf t ∧ admins t ≠ [].

Lemma admins_elem t u : u ∈ admins t ↔ u ∈ users t ∧ u_Role u = RoleAdmin.
Proof. rewrite /admins list_elem_of_filter. naive_solver. Qed.

(** Among two admins one is not the given user. *)
Lemma other_admin t id : wf t → 1 < Z.of_nat (length (admins t)) → ∃ u, u ∈ admins t ∧ u_ID u ≠ id.
Proof.
  intros Ht Hl. assert (NoDup (u_ID <$> admins t)) as Hnd.
  { eapply sublist_NoDup; [|apply sublist_fmap_filter]. apply (wf_user_ids _ Ht). }
  destruct (admins t) as [|u1 [|u2 us]]; simpl in Hl; [lia|lia|].
  destruct (decide (u_ID u1 = id)) as [E|]; [|exists u1; split; [left|done]].
  exists u2. split; [right; left|]. rewrite !fmap_cons in Hnd. apply NoDup_cons in Hnd as [Hnd _].
  intros E'. apply Hnd. rewrite E -E'. left.
Qed.

Lemma has_admin_elem t u : u ∈ admins t → admins t ≠ [].
Proof. intros Hu E. rewrite E in Hu. by apply elem_of_nil in Hu. Qed.

(** Changing a role keeps an admin when another user is one. *)
Lemma has_admin_set_role t id role u :
  wf t → u ∈ admins t → u_ID u ≠ id ∨ role = RoleAdmin →
  has_admin (tables (UpdateUserRole id role (mkStore t [])).2).
Proof.
  intros Hwf [Hu Hr]%admins_elem Hor. split; [exact (wf_UpdateUserRole id role (mkStore t []) Hwf)|].
  apply (has_admin_elem _ (if u_ID u =? id then mkUser (u_ID u) (u_Username u) (u_PasswordHash u) role (u_CreatedAt u) else u)).
  apply admins_elem. split.
  - apply list_elem_of_fmap. by exists u.
  - destruct (Z.eqb_spec (u_ID u) id); [|done]. by destruct Hor.
Qed.

Lemma has_admin_delete t id u :
  wf t → u ∈ admins t → u_ID u ≠ id → has_admin (tables (DeleteUser id (mkStore t [])).2).
Proof.
  intros Hwf [Hu Hr]%admins_elem Hne. split; [exact (wf_DeleteUser id (mkStore t []) Hwf)|].
  apply (has_admin_elem _ u), admins_elem. split; [|done]. by apply list_elem_of_filter.
Qed.

(** What the checks guarantee of the tables they leave behind. *)
Lemma guardLastAdmin_none s s' :
  guardLastAdmin s = (None, s') → tables s' = tables s ∧ 1 < Z.of_nat (length (admins (tables s))).
Proof.
  rewrite /guardLastAdmin /bind. destruct (CountAdmins s) as [r s1] eqn:E. apply query_cases in E as [Et [->| ->]]; [|done].
  rewrite /ret. destruct (Z.leb_spec (Z.of_nat (length (admins (tables s)))) 1); intros [= <-]. done.
Qed.

Lemma UserByID_ok id s u s' :
  UserByID id s = (Ok u, s') → tables s' = tables s ∧ u_ID u = id ∧ u ∈ users (tables s).
Proof.
  intros [E _]%stmt_cases. destruct (find_user (tables s) id) eqn:F; simplify_eq. by apply find_user_some in F as [? ?].
Qed.

(** Whoever the target of an accepted deletion is, an admin remains. *)
Lemma check_delete_ok sess r s id s' :
  has_admin (tables s) → check_delete sess r s = (inr id, s') →
  tables s' = tables s ∧ ∃ u, u ∈ admins (tables s) ∧ u_ID u ≠ id.
Proof.
  intros [Hwf Hadm]. rewrite /check_delete. destruct (parseIDParam r) as [i|]; [|done].
  destruct (s_UserID sess =? i); [done|]. rewrite {1}/bind. destruct (UserByID i s) as [[u|] s1] eqn:E1; [|done].
  apply UserByID_ok in E1 as (E1 & <- & Hu). case_bool_decide as Hr.
  - rewrite /bind. destruct (guardLastAdmin s1) as [[|] s2] eqn:E2; [done|]. intros [= <- <-].
    apply guardLastAdmin_none in E2 as [E2 Hl]. rewrite E1 in E2, Hl. split; [done|]. by apply other_admin.
  - intros [= <- <-]. split; [done|]. destruct (admins (tables s)) as [|u' us] eqn:Ea; [done|].
    exists u'. split; [left|]. intros Eid.
    assert (u' ∈ admins (tables s)) as [Hu' Hr']%admins_elem by (rewrite Ea; left).
    pose proof (find_user_wf _ _ Hwf Hu) as F. pose proof (find_user_wf _ _ Hwf Hu') as F'. congruence.
Qed.

Lemma check_role_ok sess r body s id role s' :
  has_admin (tables s) → check_role_change sess r body s = (inr (id, role), s') →
  tables s' = tables s ∧ ∃ u, u ∈ admins (tables s) ∧ (u_ID u ≠ id ∨ role = RoleAdmin).
Proof.
  intros [Hwf Hadm]. rewrite /check_role_change. destruct (parseIDParam r) as [i|]; [|done].
  destruct body as [ro|]; [|done]. destruct (negb (known_role ro)); [done|]. destruct (s_UserID sess =? i); [done|].
  rewrite {1}/bind. destruct (UserByID i s) as [[u|] s1] eqn:E1; [|done].
  apply UserByID_ok in E1 as (E1 & <- & Hu). destruct (bool_decide (u_Role u = RoleAdmin) && _) eqn:Eb.
  - rewrite /bind. destruct (guardLastAdmin s1) as [[|] s2] eqn:E2; [done|]. intros [= <- <- <-].
    apply guardLastAdmin_none in E2 as [E2 Hl]. rewrite E1 in E2, Hl. split; [done|].
    destruct (other_admin (tables s) (u_ID u) Hwf Hl) as (u' & ? & ?). exists u'. auto.
  - intros [= <- <- <-]. split; [done|]. destruct (admins (tables s)) as [|u' us] eqn:Ea; [done|].
    exists u'. split; [left|]. apply andb_false_iff in Eb as [Eb%bool_decide_eq_false|Eb]; [left|right].
    + intros Eid. assert (u' ∈ admins (tables s)) as [Hu' Hr']%admins_elem by (rewrite Ea; left).
      pose proof (find_user_wf _ _ Hwf Hu) as F. pose proof (find_user_wf _ _ Hwf Hu') as F'. congruence.
    + by apply negb_false_iff, bool_decide_eq_true in Eb.
Qed.
End admins.

Section last_admin.
Context `{Argon2} {o : Order}.

#[export] Instance wf_serve rt r rnd now : Preserves store_wf (serve rt r rnd now).
Proof.
  destruct (reading rt) eqn:Er; [by apply (keep_reading wf)|].
  destruct rt; try done; simpl;
    try (apply (keep_requireSession wf); intros sess);
    try (apply (keep_requireAdmin wf); intros sess);
    try (apply (keep_requireAdminElevated wf); intros sess);
    rewrite /login /logout /Logout /reauth /ackAlert /ackAllAlerts /putSettings /createUser /updateUserRole
      /check_role_change /commit_role_change /deleteUser /check_delete /commit_delete /guardLastAdmin
      /internal_error /or_500; preserves_tac.
Qed.

(** Operations that do not touch the users keep an admin. *)
Definition any_admin (t : Tables) : Prop := admins t ≠ [].
Abbreviation some_admin := (λ s : Store, any_admin (tables s)).

Lemma some_admin_reading rt r rnd now : reading rt = true → Preserves some_admin (serve rt r rnd now).
Proof. apply (keep_reading any_admin). Qed.

Lemma some_admin_auth rt r rnd now :
  match rt with PostLogin _ | PostLogout | PostReauth _ => True | _ => False end →
  Preserves some_admin (serve rt r rnd now).
Proof.
  intros Hrt s Hs. pose proof (only_sessions_auth (tables s) rt r rnd now Hrt s (only_sessions_refl _)) as E.
  rewrite /only_sessions in E. by rewrite /any_admin E.
Qed.

Lemma some_admin_settings body : Preserves some_admin (putSettings body).
Proof.
  rewrite /putSettings. case_match; [|apply _]. apply (keep_or_500 any_admin); [|apply _].
  apply (preserves_transaction any_admin). apply preserves_bind; [apply _|].
  intros [[]|]; [|apply _]. apply (preserves_try_each any_admin). intros [k v].
  by apply (preserves_exec any_admin).
Qed.

Lemma some_admin_create body rnd now : Preserves some_admin (createUser body rnd now).
Proof.
  assert (∀ n h ro ts, Preserves some_admin (CreateUser n h ro ts)) as Hc.
  { intros n h ro ts. apply (preserves_stmt any_admin). intros t a t' Ht. case_match; [done|].
    intros [= <- <-]. rewrite /any_admin /admins /= filter_app. rewrite /any_admin /admins in Ht. by destruct (filter _ (users t)). }
  rewrite /createUser /internal_error. preserves_tac.
Qed.

Lemma some_admin_acks r : Preserves some_admin (ackAlert r) ∧ Preserves some_admin (ackAllAlerts r).
Proof.
  split.
  - rewrite /ackAlert. case_match; [|apply _]. apply (keep_or_500 any_admin); [|apply _].
    by apply (preserves_exec any_admin).
  - apply (keep_or_500 any_admin); [|apply _].
    apply (preserves_stmt any_admin). by intros t a t' Ht [= <- <-].
Qed.

(** The two requests that take admins away check first. *)
Lemma has_admin_deleteUser sess r s : has_admin (tables s) → has_admin (tables (deleteUser sess r s).2).
Proof.
  intros Hs. rewrite /deleteUser /bind. destruct (check_delete sess r s) as [[resp|id] s1] eqn:E.
  - simpl. assert (Preserves (λ s, has_admin (tables s)) (check_delete sess r)) as Hp.
    { rewrite /check_delete /guardLastAdmin. preserves_tac. }
    specialize (Hp s Hs). by rewrite E in Hp.
  - apply check_delete_ok in E as (Et & u & Hu & Hne); [|done].
    rewrite /commit_delete /or_500 /bind. destruct (DeleteUser id s1) as [rr s2] eqn:E2.
    pose proof (exec_cases _ _ _ _ E2) as [[-> E3]|[-> E3]]; simpl; rewrite E3 Et; [|done].
    by apply (has_admin_delete _ id u); [apply Hs|..].
Qed.

Lemma has_admin_updateUserRole sess r body s :
  has_admin (tables s) → has_admin (tables (updateUserRole sess r body s).2).
Proof.
  intros Hs. rewrite /updateUserRole /bind. destruct (check_role_change sess r body s) as [[resp|[id role]] s1] eqn:E.
  - simpl. assert (Preserves (λ s, has_admin (tables s)) (check_role_change sess r body)) as Hp.
    { rewrite /check_role_change /guardLastAdmin. preserves_tac. }
    specialize (Hp s Hs). by rewrite E in Hp.
  - apply check_role_ok in E as (Et & u & Hu & Hne); [|done].
    rewrite /commit_role_change /or_500 /bind /=. destruct (UpdateUserRole id role s1) as [rr s2] eqn:E2.
    pose proof (exec_cases _ _ _ _ E2) as [[-> E3]|[-> E3]]; simpl; rewrite E3 Et; [|done].
    by apply (has_admin_set_role _ id role u); [apply Hs|..].
Qed.

#[export] Instance has_admin_serve rt r rnd now : Preserves (λ s, has_admin (tables s)) (serve rt r rnd now).
Proof.
  destruct rt as [| | | | |body| |body| | | | | | | | |body|ifaces| |body|body|] eqn:Ert;
    try (intros s [Hwf Ha]; split; [exact (wf_serve _ r rnd now s Hwf)|];
         (first [by apply (some_admin_reading _ r rnd now) | by apply (some_admin_auth _ r rnd now)])); simpl.
  - intros s [Hwf Ha]. split; [exact (wf_serve PostAck r rnd now s Hwf)|].
    by apply (keep_requireAdmin any_admin); [intros _; apply some_admin_acks|].
  - intros s [Hwf Ha]. split; [exact (wf_serve PostAckAll r rnd now s Hwf)|].
    by apply (keep_requireAdmin any_admin); [intros _; apply some_admin_acks|].
  - intros s [Hwf Ha]. split; [exact (wf_serve (ApiPutSettings body) r rnd now s Hwf)|].
    by apply (keep_requireAdminElevated any_admin); [intros _; apply some_admin_settings|].
  - intros s [Hwf Ha]. split; [exact (wf_serve (PostUser body) r rnd now s Hwf)|].
    by apply (keep_requireAdminElevated any_admin); [intros _; apply some_admin_create|].
  - apply (keep_requireAdminElevated has_admin). intros sess s. apply has_admin_updateUserRole.
  - apply (keep_requireAdminElevated has_admin). intros sess s. apply has_admin_deleteUser.
Qed.
End last_admin.

(** ** Pruned ranges *)
Lemma rollup_series_pruned s now t g table days hostID from to direction :
  (g, table, days) ∈ [("1m", "rollup_1m", 7); ("5m", "rollup_5m", 60)]%string →
  to < Unix now - days * day →
  HostSeriesFromRollup g hostID from to direction (prune s now (mkStore t [])).2 =
  (Ok [], (prune s now (mkStore t [])).2).
Proof.
  intros Hg Hto. rewrite prune_run. set t' := prune_rollup _ _ _.
  assert (∀ k, k.2 ≤ to → rollup_table t' table !! k = None) as Hnone.
  { intros k Hk. rewrite /t' !rollup_table_prune.
    repeat (apply elem_of_cons in Hg as [[= -> -> ->]|Hg]); [..|by apply elem_of_nil in Hg];
      repeat case_decide; try done; naive_solver lia. }
  assert (rollup_series table hostID from to direction t' = []) as E.
  { rewrite /rollup_series filter_none_Forall; [|done]. apply Forall_forall. intros [k c] Hkc%elem_of_map_to_list [_ [Hk _]].
    rewrite Hnone in Hkc; [simpl in *; lia|done]. }
  assert (rollupTables !! g = Some table) as Ht.
  { repeat (apply elem_of_cons in Hg as [[= -> -> ->]|Hg]); [reflexivity..|by apply elem_of_nil in Hg]. }
  rewrite /HostSeriesFromRollup Ht /query /stmt /= E //.
Qed.

Lemma granularity_short from to now :
  from < to → to < now - rangeFlowsRecentMax → to - from ≤ range1mMax → granularity from to now = "1m"%string.
Proof.
  intros H1 H2 H3. rewrite /granularity wrap_i64_small; [unfold range1mMax in *; lia|].
  destruct (Z.leb_spec (now - rangeFlowsRecentMax) to); [lia|]. rewrite andb_false_r.
  by destruct (Z.leb_spec (to - from) range1mMax); [|lia].
Qed.

Lemma granularity_medium from to now :
  range1mMax < to - from ≤ range5mMax → granularity from to now = "5m"%string.
Proof.
  intros H. rewrite /granularity wrap_i64_small; [unfold range1mMax, range5mMax in *; lia|].
  destruct (Z.leb_spec (to - from) rangeFlowsRecentMax); [unfold range1mMax, rangeFlowsRecentMax in *; lia|]. simpl.
  destruct (Z.leb_spec (to - from) range1mMax); [lia|]. by destruct (Z.leb_spec (to - from) range5mMax); [|lia].
Qed.

Module WebProperties.

(** C4: a request changes the database only with authority, whatever the
    database fails: reading routes never do; logging in, logging out and
    re-authenticating touch sessions only; acknowledging alerts needs a valid
    session of an admin; changing settings and creating, changing or deleting
    users needs one that is also elevated. *)
Theorem mutation_requires_authority `{Argon2} {o : Order} (rt : Route) (r : Request) (rnd : option bytes)
    (now : Clock) (s : Store) :
  let s' := (serve rt r rnd now s).2 in
  tables s' ≠ tables s →
  match rt with
  | PostLogin _ | PostLogout => tables s' = set_sessions (sessions (tables s')) (tables s)
  | PostReauth _ =>
      is_Some (acting r (tables s) now) ∧ tables s' = set_sessions (sessions (tables s')) (tables s)
  | PostAck | PostAckAll => ∃ sess, acting r (tables s) now = Some sess ∧ Session_IsAdmin sess = true
  | ApiPutSettings _ | PostUser _ | PutRole _ | DeleteUserRoute =>
      ∃ sess, acting r (tables s) now = Some sess ∧ Session_IsAdmin sess = true ∧ IsElevated sess (now 1%nat) = true
  | _ => False
  end.
Proof.
  simpl. intros Hne. destruct (reading rt) eqn:Er.
  - exfalso. apply Hne. exact (keep_reading (λ t, t = tables s) rt r rnd now Er s eq_refl).
  - destruct rt; try done.
    + exact (only_sessions_auth (tables s) (PostLogin body) r rnd now I s (only_sessions_refl _)).
    + exact (only_sessions_auth (tables s) PostLogout r rnd now I s (only_sessions_refl _)).
    + split; [|exact (only_sessions_auth (tables s) (PostReauth body) r rnd now I s (only_sessions_refl _))].
      destruct (requireSession_effect true _ r now s Hne) as (sess & E & _). by rewrite E.
    + destruct (requireAdmin_effect true _ r now s Hne) as (sess & E & Ha & _). by exists sess.
    + destruct (requireAdmin_effect true _ r now s Hne) as (sess & E & Ha & _). by exists sess.
    + destruct (requireAdminElevated_effect _ r now s Hne) as (sess & E & Ha & He & _). by exists sess.
    + destruct (requireAdminElevated_effect _ r now s Hne) as (sess & E & Ha & He & _). by exists sess.
    + destruct (requireAdminElevated_effect _ r now s Hne) as (sess & E & Ha & He & _). by exists sess.
    + destruct (requireAdminElevated_effect _ r now s Hne) as (sess & E & Ha & He & _). by exists sess.
Qed.

(** Two admins; the first one's session is elevated until 900. *)
Definition two_admins : Tables :=
  set_sessions {["ta"%string := mkSessionRow 1 0 86400 (Some 900); "tb"%string := mkSessionRow 2 0 86400 (Some 900)]}
    (set_users [mkUser 1 "alice" "h" RoleAdmin 0; mkUser 2 "bob" "h" RoleAdmin 0] 2 emptyTables).

Lemma wf_two_admins : wf two_admins.
Proof.
  assert (wf (set_users [mkUser 1 "alice" "h" RoleAdmin 0; mkUser 2 "bob" "h" RoleAdmin 0] 2 emptyTables)) as H.
  { exact (wf_CreateUser "bob" "h" RoleAdmin 0 _ (wf_CreateUser "alice" "h" RoleAdmin 0 (mkStore emptyTables []) wf_empty)). }
  apply wf_set_sessions; [|exact H].
  apply map_Forall_insert_2; [left|]. apply map_Forall_singleton. right. left.
Qed.

Definition req (cookie : option string) (id : string) : Request := mkRequest cookie id (λ _, EmptyString).

(** Deleting bob needs alice's elevated session. *)
Lemma mutation_requires_authority_witness :
  let s := mkStore two_admins [] in
  tables (serve (H := AuthProperties.toy_argon2) (o := ord_id) DeleteUserRoute (req (Some "ta"%string) "2") None (λ _, 0) s).2
    ≠ tables s ∧
  ∃ sess, acting (req (Some "ta"%string) "2") (tables s) (λ _, 0) = Some sess ∧ Session_IsAdmin sess = true ∧
    IsElevated sess 0 = true.
Proof.
  intros s.
  assert (tables (serve (H := AuthProperties.toy_argon2) (o := ord_id) DeleteUserRoute
            (req (Some "ta"%string) "2") None (λ _, 0) s).2 ≠ tables s) as Hne.
  { intros E. apply (f_equal (λ t, length (users t))) in E. vm_compute in E. discriminate. }
  split; [exact Hne|].
  exact (@mutation_requires_authority AuthProperties.toy_argon2 ord_id DeleteUserRoute
           (req (Some "ta"%string) "2") None (λ _, 0) s Hne).
Defined.

(** C19: as long as requests are served one at a time, whatever they are and
    whatever the database fails, a database with an admin keeps one. *)
Theorem last_admin_sequential `{Argon2} {o : Order}
    (reqs : list (Route * Request * option bytes * Clock)) (s : Store) :
  wf (tables s) → admins (tables s) ≠ [] →
  admins (tables (for_each (λ '(rt, r, rnd, now), serve rt r rnd now ;;! ret tt) reqs s).2) ≠ [].
Proof.
  intros Hwf Ha.
  assert (Preserves (λ s, has_admin (tables s))
    (for_each (λ '(rt, r, rnd, now), serve rt r rnd now ;;! ret tt) reqs)) as Hp.
  { apply preserves_for_each. intros [[[rt r] rnd] now]. apply _. }
  by apply (Hp s).
Qed.

(** Alice and bob try to delete each other, one after the other. *)
Lemma last_admin_sequential_witness :
  admins (tables (for_each (λ '(rt, r, rnd, now),
      serve (H := AuthProperties.toy_argon2) (o := ord_id) rt r rnd now ;;! ret tt)
    [(DeleteUserRoute, req (Some "ta"%string) "2", None, λ _, 0);
     (DeleteUserRoute, req (Some "tb"%string) "1", None, λ _, 0)] (mkStore two_admins [])).2) ≠ [].
Proof.
  apply (@last_admin_sequential AuthProperties.toy_argon2 ord_id); [apply wf_two_admins|discriminate].
Defined.

(** C39: The check and the write of a request are separate statements, so two
    concurrent requests in which the only two admins delete each other both
    pass the check before either writes, and no admin is left. *)
Theorem last_admin_race (t : Tables) (a b : User) (sa sb : Session) (ra rb : Request) :
  wf t → admins t = [a; b] → s_UserID sa = u_ID a → s_UserID sb = u_ID b →
  parseIDParam ra = Some (u_ID b) → parseIDParam rb = Some (u_ID a) →
  ∃ t', (let! ca := check_delete sa ra in
         let! cb := check_delete sb rb in
         match ca, cb with
         | inr ia, inr ib => commit_delete ia ;;! commit_delete ib ;;! ret true
         | _, _ => ret false
         end) (mkStore t []) = (true, mkStore t' []) ∧ admins t' = [].
Proof.
  intros Hwf Hadm Hsa Hsb Hra Hrb.
  assert (a ∈ admins t ∧ b ∈ admins t) as [[Ha Hra']%admins_elem [Hb Hrb']%admins_elem]
    by (rewrite Hadm; split; [left|right; left]).
  assert (u_ID a ≠ u_ID b) as Hne.
  { assert (NoDup (u_ID <$> admins t)) as Hnd.
    { eapply sublist_NoDup; [|apply sublist_fmap_filter]. apply (wf_user_ids _ Hwf). }
    rewrite Hadm !fmap_cons in Hnd. apply NoDup_cons in Hnd as [Hnd _]. intros E. apply Hnd. rewrite E. left. }
  assert (∀ sess r u, parseIDParam r = Some (u_ID u) → s_UserID sess ≠ u_ID u → u ∈ users t → u_Role u = RoleAdmin →
    check_delete sess r (mkStore t []) = (inr (u_ID u), mkStore t [])) as Hcheck.
  { intros sess r u Hr Hs Hu Hro. rewrite /check_delete Hr. destruct (Z.eqb_spec (s_UserID sess) (u_ID u)); [done|].
    rewrite /bind /UserByID /stmt /= find_user_wf // bool_decide_eq_true_2 //.
    rewrite /guardLastAdmin /bind /CountAdmins /query /stmt /= Hadm. done. }
  rewrite /bind (Hcheck sa ra b) //; [congruence|]. rewrite (Hcheck sb rb a) //; [congruence|].
  eexists. split; [reflexivity|]. rewrite /admins /=. apply filter_none_Forall. apply Forall_forall.
  intros u [Hu1 [Hu2 Hu3]%list_elem_of_filter]%list_elem_of_filter Hr.
  assert (u ∈ admins t) as Hu by (by apply admins_elem). rewrite Hadm in Hu.
  apply elem_of_cons in Hu as [->|Hu]; [done|]. apply list_elem_of_singleton in Hu as ->. done.
Qed.

Lemma last_admin_race_witness :
  ∃ t', (let! ca := check_delete (mkSession "ta" 1 RoleAdmin 0 86400 (Some 900)) (req (Some "ta"%string) "2") in
         let! cb := check_delete (mkSession "tb" 2 RoleAdmin 0 86400 (Some 900)) (req (Some "tb"%string) "1") in
         match ca, cb with
         | inr ia, inr ib => commit_delete ia ;;! commit_delete ib ;;! ret true
         | _, _ => ret false
         end) (mkStore two_admins []) = (true, mkStore t' []) ∧ admins t' = [].
Proof.
  apply (last_admin_race two_admins (mkUser 1 "alice" "h" RoleAdmin 0) (mkUser 2 "bob" "h" RoleAdmin 0));
    [apply wf_two_admins|reflexivity..].
Defined.

(** A login with a name that does not exist and one with a wrong password
    get the same answer, and neither changes the database. *)
Theorem login_hides_users `{Argon2} (body : loginRequest) (rnd : option bytes) (now : Clock) (t : Tables) :
  (∀ u, u ∈ users t → u_Username u = lr_Username body → VerifyPassword (lr_Password body) (u_PasswordHash u) = Ok false) →
  login (Some body) rnd now (mkStore t []) =
  (JSON StatusUnauthorized (PError "invalid_credentials") None, mkStore t []).
Proof.
  intros Hu. rewrite /login /Login /lift /bind /UserByUsername /stmt /=.
  destruct (head (filter _ (users t))) as [u|] eqn:E; simpl; [|done].
  apply head_filter_some in E as [Hn Hin]. by rewrite (Hu u Hin Hn).
Qed.

Lemma login_hides_users_witness :
  ∃ hash, let t := AuthProperties.admin0 hash in
    login (H := AuthProperties.toy_argon2) (Some (mkLoginRequest "root" "wrong")) None (λ _, 0) (mkStore t []) =
    login (H := AuthProperties.toy_argon2) (Some (mkLoginRequest "nobody" "wrong")) None (λ _, 0) (mkStore t []).
Proof.
  destruct (HashPassword (H := AuthProperties.toy_argon2) "secret" (Some AuthProperties.salt0)) as [hash|] eqn:E;
    [|vm_compute in E; discriminate].
  exists hash. vm_compute in E. injection E as <-. cbv zeta.
  rewrite (@login_hides_users AuthProperties.toy_argon2 (mkLoginRequest "root" "wrong")).
  - intros u Hu _. apply list_elem_of_singleton in Hu as ->. vm_compute. reflexivity.
  - rewrite (@login_hides_users AuthProperties.toy_argon2 (mkLoginRequest "nobody" "wrong")); [|reflexivity].
    intros u Hu Hn. apply list_elem_of_singleton in Hu as ->. discriminate Hn.
Defined.

(** Right after a prune, a range of up to 10 days that ended more than 7
    days ago is answered from the 1-minute table with nothing, and one of 10 to
    90 days that ended more than 60 days ago from the 5-minute table with
    nothing, whatever the coarser tables still hold. *)
Theorem pruned_range_is_empty (sch : Scheduler) (pruned : Time) (t : Tables) (r : Request) (now : Clock)
    (hostID from to direction : Z) :
  parseIDParam r = Some hostID → parseRange r = Some (from, to) → query_direction r = Some direction →
  Unix pruned ≤ Unix (now 1%nat) → from < to →
  let s := (prune sch pruned (mkStore t [])).2 in
  (to - from ≤ range1mMax → to < Unix pruned - 7 * day →
     (hostSeries r now s).1 = JSON StatusOK (PSeries "1m" ([], [], [])) None) ∧
  (range1mMax < to - from ≤ range5mMax → to < Unix pruned - 60 * day →
     (hostSeries r now s).1 = JSON StatusOK (PSeries "5m" ([], [], [])) None).
Proof.
  intros Hid Hr Hd Hn Hft. simpl. rewrite /hostSeries Hid Hr Hd. split; intros Hs Hto.
  - rewrite granularity_short //; [unfold rangeFlowsRecentMax, day in *; lia|].
    rewrite /or_500 /bind /series_of bool_decide_eq_false_2 //.
    by rewrite (rollup_series_pruned _ _ _ "1m" "rollup_1m" 7); [left| |].
  - rewrite granularity_medium // /or_500 /bind /series_of bool_decide_eq_false_2 //.
    by rewrite (rollup_series_pruned _ _ _ "5m" "rollup_5m" 60); [right; left| |].
Qed.

(** Days 1 and 2, asked for on day 11. *)
Lemma pruned_range_is_empty_witness :
  let r := mkRequest None "1" (λ q, if bool_decide (q = "from"%string) then "86400"%string
                                    else if bool_decide (q = "to"%string) then "172800"%string else EmptyString) in
  (hostSeries r (λ _, 11 * day * Second) (prune (mkScheduler 365) (11 * day * Second) (mkStore emptyTables [])).2).1 =
  JSON StatusOK (PSeries "1m" ([], [], [])) None.
Proof.
  intros r. refine (proj1 (pruned_range_is_empty (mkScheduler 365) (11 * day * Second) emptyTables r
    (λ _, 11 * day * Second) 1 86400 172800 (-1) _ _ _ _ _) _ _);
    try reflexivity; vm_compute; done.
Defined.

End WebProperties.
