(* ===== verification/GoFloat.v ===== *)
(** * Go's [float64]

    IEEE 754 double precision arithmetic, round to nearest even, on the
    specification floats of the core library ([SFadd] and friends with 53 bits
    of precision).  Products and sums are rounded separately, as on amd64. *)

From stdpp Require Import prelude.
From Stdlib Require Import ZArith Lia.
From Corelib Require Import SpecFloat.
From S2P Require Import Prelude.

Open Scope Z_scope.

Definition float64 := spec_float.
Definition prec64 : Z := 53.
Definition emax64 : Z := 1024.

(** [float64(n)]. *)
Definition of_int (n : Z) : float64 := binary_normalize prec64 emax64 n 0 false.
Definition fadd : float64 → float64 → float64 := SFadd prec64 emax64.
Definition fsub : float64 → float64 → float64 := SFsub prec64 emax64.
Definition fmul : float64 → float64 → float64 := SFmul prec64 emax64.
Definition fdiv : float64 → float64 → float64 := SFdiv prec64 emax64.
Definition fsqrt : float64 → float64 := SFsqrt prec64 emax64.

(** [x < y], [x <= y]; false on NaN. *)
Definition flt : float64 → float64 → bool := SFltb.
Definition fle : float64 → float64 → bool := SFleb.

(** The doubles nearest to 0.2 and 3.6. *)
Definition f0_2 : float64 := S754_finite false 7205759403792794 (-55).
Definition f3_6 : float64 := S754_finite false 8106479329266893 (-51).

Example one_fifth : fdiv (of_int 1) (of_int 5) = f0_2.
Proof. reflexivity. Qed.
Example three_point_six : fdiv (of_int 18) (of_int 5) = f3_6.
Proof. reflexivity. Qed.
