(* ===== verification/Detect.v ===== *)
(** * The detectors ([internal/detect])

    Each detector reads the flows or DNS queries of its window, decides what
    is suspicious and raises alerts through [raiseAlert], which skips a
    condition already alerted within the cooldown.  A run keeps a cache of the
    hosts it loaded, so its state is the store with that cache.

    How a float or a duration is printed, how a detail is rendered as JSON and
    [math.Log2] are the class [Formats]: no theorem assumes anything of them.

    The theorems: every alert is backed by rows in the tables at the time of
    the tick; alerts for one condition are more than its cooldown apart, for
    any ticks and failures; when a destination counts as new; the ports of a
    scan are recovered exactly from their text column. *)

From stdpp Require Import prelude strings gmap list sorting.
From Stdlib Require Import ZArith Lia Ascii.
From Corelib Require Import ssreflect.
From S2P Require Import Prelude GoStrings GoNet GoSort GoTime GoFloat Geo Store StoreProofs.

Open Scope general_if_scope.
Open Scope Z_scope.

(** ** Details and text *)
Inductive JValue :=
  | JStr (s : string) | JInt (z : Z) | JBool (b : bool) | JFloat (f : float64) | JInts (l : list Z).
Abbreviation Detail := (list (string * JValue)).

Class Formats := {
  Marshal : Detail → option string;        (* json.Marshal *)
  fmt_1f : float64 → string;               (* %.1f *)
  fmt_mean : float64 → string;             (* time.Duration(mean*1e9).Round(time.Second) *)
  Log2 : float64 → float64                 (* math.Log2 *)
}.

Definition hostLabel (h : Host) : string :=
  match h_DisplayName h with
  | Some n => if bool_decide (n = EmptyString) then h_IP h else n
  | None => h_IP h
  end.

Definition classifyPeerDirection (hadOutbound hadInbound : bool) : string * string :=
  if hadOutbound && hadInbound then ("bidirectional", "exchanged traffic with a")%string
  else if hadOutbound then ("outbound", "contacted a")%string
  else if hadInbound then ("inbound", "was contacted by a")%string
  else ("unknown", "was linked to a")%string.

Definition raiseAlert `{Formats} (hostID : Z) (kind severity summary : string) (detail : Detail)
    (dedupeKey : string) (now cooldownSince : Z) : M Store unit :=
  let! exists_ := RecentAlertExists hostID kind dedupeKey cooldownSince in
  match exists_ with
  | Err _ | Ok true => ret tt
  | Ok false =>
      ignore (InsertAlert (mkAlertRecord hostID kind severity summary
                (default EmptyString (Marshal detail)) dedupeKey now))
  end.

(** ** The state of one run *)
Record Run := mkRun { r_db : Store; r_hosts : gmap Z Host; r_seen : gset string }.

Definition on_store {A} (m : M Store A) : M Run A := λ r,
  let '(a, s') := m (r_db r) in (a, mkRun s' (r_hosts r) (r_seen r)).

(** Run the body of a detector with an empty cache. *)
Definition with_cache (body : M Run unit) : M Store unit := λ s,
  (tt, r_db (body (mkRun s ∅ ∅)).2).

(** [host, ok := hosts[id]; if !ok { load it, or continue }]. *)
Definition load_host (id : Z) : M Run (option Host) :=
  let! r := get in
  match r_hosts r !! id with
  | Some h => ret (Some h)
  | None =>
      let! q := on_store (HostByID id) in
      match q with
      | Err _ => ret None
      | Ok h => modify (λ r, mkRun (r_db r) (<[id := h]> (r_hosts r)) (r_seen r)) ;;! ret (Some h)
      end
  end.

Section detectors.
Context `{Formats} {o : Order}.

(** ** New destinations *)
Definition NewDestinationScanWindow : Duration := 2 * Minute.
Definition NewDestinationNoveltyWindow : Duration := 30 * 24 * Hour.
Definition NewDestinationLearningPeriod : Duration := 3 * 24 * Hour.
Definition newDestinationCooldown : Duration := 6 * Hour.

Definition peer_text (ip : string) (port : Z) : string := ip +:+ ":" +:+ itoa port.

(** The body of the loop over peers. *)
Definition check_destination (nowUnix : Z) (p : DistinctRecentPeer) : M Run unit :=
  let! h := load_host (dp_HostID p) in
  match h with
  | None => ret tt
  | Some host =>
      let! k := on_store (KnownPeerLastSeen (dp_HostID p) (dp_RemoteIP p) (dp_RemotePort p)) in
      match k with
      | Err _ => ret tt
      | Ok known =>
          let isNew := match known with
                       | None => true
                       | Some lastSeen => lastSeen <? nowUnix - seconds NewDestinationNoveltyWindow
                       end in
          on_store (ignore (UpsertKnownPeer (dp_HostID p) (dp_RemoteIP p) (dp_RemotePort p) nowUnix)) ;;!
          if negb isNew then ret tt else
          if nowUnix - h_FirstSeen host <? seconds NewDestinationLearningPeriod then ret tt else
          let '(direction, phrase) := classifyPeerDirection (dp_HadOutbound p) (dp_HadInbound p) in
          let peer := peer_text (dp_RemoteIP p) (dp_RemotePort p) in
          on_store (raiseAlert (dp_HostID p) AlertKindNewDestination
            (if bool_decide (direction = "inbound"%string) then SeverityWarning else SeverityInfo)
            (hostLabel host +:+ " " +:+ phrase +:+ " new destination " +:+ peer)
            [("direction", JStr direction); ("remote_ip", JStr (dp_RemoteIP p));
             ("remote_port", JInt (dp_RemotePort p))]%string
            peer nowUnix (nowUnix - seconds newDestinationCooldown))
      end
  end.

Definition NewDestinations (now : Time) : M Store unit :=
  let nowUnix := Unix now in
  let! peers := RecentFlowPeers (nowUnix - seconds NewDestinationScanWindow) nowUnix in
  match peers with
  | Err _ => ret tt
  | Ok peers => with_cache (for_each (check_destination nowUnix) peers)
  end.

(** ** Upload/download ratio *)
Definition ExfilWindow : Duration := 1 * Hour.
Definition exfilMinBytesSent : Z := 20 * 1024 * 1024.
Definition exfilRatioThreshold : float64 := of_int 5.
Definition exfilCooldown : Duration := 6 * Hour.

(** The loop of [fmtBytesShort]: [v] is halved by the unit until it is below
    it; 63 bits take at most five rounds. *)
Fixpoint unit_loop (fuel : nat) (v div exp : Z) : Z * Z :=
  match fuel with
  | O => (div, exp)
  | S f => if 1024 <=? v then unit_loop f (Z.quot v 1024) (wrap_i64 (div * 1024)) (exp + 1) else (div, exp)
  end.

Definition byte_units : string := "KMGTPE".

Definition fmtBytesShort (n : Z) : string :=
  if n <? 1024 then itoa n +:+ "B" else
  let '(div, exp) := unit_loop 64 (Z.quot n 1024) 1024 0 in
  match String.get (Z.to_nat exp) byte_units with
  | Some c => fmt_1f (fdiv (of_int n) (of_int div)) +:+ String c "iB"
  | None => EmptyString     (* index out of range: does not happen *)
  end.

Definition check_totals (nowUnix : Z) (t : HostByteTotals) : M Store unit :=
  if hb_BytesSent t <? exfilMinBytesSent then ret tt else
  let ratio := if 0 <? hb_BytesRecv t then fdiv (of_int (hb_BytesSent t)) (of_int (hb_BytesRecv t))
               else fadd exfilRatioThreshold (of_int 1) in
  if flt ratio exfilRatioThreshold then ret tt else
  let! h := HostByID (hb_HostID t) in
  match h with
  | Err _ => ret tt
  | Ok host =>
      raiseAlert (hb_HostID t) AlertKindExfilRatio SeverityWarning
        (hostLabel host +:+ " sent " +:+ fmtBytesShort (hb_BytesSent t) +:+ " but only received " +:+
           fmtBytesShort (hb_BytesRecv t) +:+ " over the last hour (ratio " +:+ fmt_1f ratio +:+ "x)")
        [("bytes_recv", JInt (hb_BytesRecv t)); ("bytes_sent", JInt (hb_BytesSent t)); ("ratio", JFloat ratio)]%string
        "outbound_ratio" nowUnix (nowUnix - seconds exfilCooldown)
  end.

Definition ExfilRatio (now : Time) : M Store unit :=
  let nowUnix := Unix now in
  let! totals := HostOutboundTotals (nowUnix - seconds ExfilWindow) nowUnix in
  match totals with
  | Err _ => ret tt
  | Ok ts => for_each (check_totals nowUnix) ts
  end.
End detectors.

(** ** Port scans *)
Definition PortScanWindow : Duration := 2 * Minute.
Definition portScanPortsPerTargetThreshold : Z := 15.
Definition portScanDetailPortCap : nat := 50.
Definition portScanCooldown : Duration := 15 * Minute.

Record portScanCheck := mkPortScanCheck {
  ps_direction : Z; ps_countLocalPort : bool; ps_dedupePrefix : string; ps_detailDir : string;
  ps_buildSummary : string → string → Z → string
}.

Definition portScanChecks : list portScanCheck :=
  [mkPortScanCheck DirLANToWAN false "wan_out:" "outbound"
     (λ h ip n, h +:+ " (this device) probed " +:+ itoa n +:+ " distinct ports on " +:+ ip +:+
                " — outbound scan initiated by this host");
   mkPortScanCheck DirLANOut false "lan_out:" "outbound"
     (λ h ip n, h +:+ " (this device) probed " +:+ itoa n +:+ " distinct ports on LAN peer " +:+ ip +:+
                " — outbound scan initiated by this host");
   mkPortScanCheck DirLANIn true "lan_in:" "inbound"
     (λ h ip n, h +:+ " was probed on " +:+ itoa n +:+ " distinct ports by " +:+ ip +:+
                " — another device on the LAN scanned this host (not the other way around)")].

(** [sort.Ints] has one result. *)
Definition sort_ints (l : list Z) : list Z := stable_sort Z.ltb l.

Definition parsePortsCSV (csv : string) : list Z :=
  if bool_decide (csv = EmptyString) then [] else
  sort_ints (omap (λ p, atoi (trim_space p)) (split ","%char csv)).

Section port_scan.
Context `{Formats} {o : Order}.

Definition check_target (nowUnix : Z) (check : portScanCheck) (t : TargetPortScan) : M Run unit :=
  let! h := load_host (ts_HostID t) in
  match h with
  | None => ret tt
  | Some host =>
      let ports := parsePortsCSV (ts_PortsCSV t) in
      let truncated := (portScanDetailPortCap <? length ports)%nat in
      let shown := if truncated then take portScanDetailPortCap ports else ports in
      on_store (raiseAlert (ts_HostID t) AlertKindPortScan SeverityCritical
        (ps_buildSummary check (hostLabel host) (ts_RemoteIP t) (ts_PortCount t))
        [("direction", JStr (ps_detailDir check)); ("port_count", JInt (ts_PortCount t)); ("ports", JInts shown);
         ("ports_truncated", JBool truncated); ("remote_ip", JStr (ts_RemoteIP t));
         ("window_seconds", JInt (seconds PortScanWindow))]%string
        (ps_dedupePrefix check +:+ ts_RemoteIP t) nowUnix (nowUnix - seconds portScanCooldown))
  end.

Definition run_check (nowUnix : Z) (check : portScanCheck) : M Run unit :=
  let! ts := on_store (HostTargetPortScans (nowUnix - seconds PortScanWindow) nowUnix (ps_direction check)
                         (ps_countLocalPort check) portScanPortsPerTargetThreshold) in
  match ts with
  | Err _ => ret tt
  | Ok ts => for_each (check_target nowUnix check) ts
  end.

Definition PortScan (now : Time) : M Store unit :=
  with_cache (for_each (run_check (Unix now)) portScanChecks).
End port_scan.

(** ** Watched countries *)
Definition GeoWatchlistScanWindow : Duration := 2 * Minute.
Definition geoWatchlistCooldown : Duration := 24 * Hour.

Definition geo_separator (c : ascii) : bool :=
  let z := ascii_Z c in (z =? 44) || (z =? 32) || (z =? 9) || (z =? 10) || (z =? 13).

Definition ParseGeoWatchlist (raw : string) : gset string :=
  list_to_set (filter (λ cc, String.length cc = 2%nat)
    ((λ part, to_upper (trim_space part)) <$> fields_func geo_separator raw)).

Section geo_watchlist.
Context `{Formats} {o : Order} (geo : list GeoIP.record).

Definition check_country (nowUnix : Z) (watch : gset string) (p : DistinctRecentPeer) : M Run unit :=
  let key := itoa (dp_HostID p) +:+ ":" +:+ dp_RemoteIP p in
  let! r := get in
  if bool_decide (key ∈ r_seen r) then ret tt else
  put (mkRun (r_db r) (r_hosts r) ({[key]} ∪ r_seen r)) ;;!
  match ParseIP (dp_RemoteIP p) ≫= GeoIP.CountryForIP geo with
  | None => ret tt
  | Some cc =>
      if negb (bool_decide (cc ∈ watch)) then ret tt else
      let! h := load_host (dp_HostID p) in
      match h with
      | None => ret tt
      | Some host =>
          let '(direction, phrase) := classifyPeerDirection (dp_HadOutbound p) (dp_HadInbound p) in
          on_store (raiseAlert (dp_HostID p) AlertKindGeoWatchlist SeverityWarning
            (hostLabel host +:+ " " +:+ phrase +:+ " watchlisted-country (" +:+ cc +:+ ") address " +:+ dp_RemoteIP p)
            [("country", JStr cc); ("direction", JStr direction); ("remote_ip", JStr (dp_RemoteIP p))]%string
            (dp_RemoteIP p) nowUnix (nowUnix - seconds geoWatchlistCooldown))
      end
  end.

Definition GeoWatchlist (now : Time) : M Store unit :=
  let! s := GetSetting KeyGeoWatchlistCountries in
  match s with
  | Err _ | Ok None => ret tt
  | Ok (Some raw) =>
      let watch := ParseGeoWatchlist raw in
      if bool_decide (watch = ∅) then ret tt else
      let nowUnix := Unix now in
      let! peers := RecentFlowPeers (nowUnix - seconds GeoWatchlistScanWindow) nowUnix in
      match peers with
      | Err _ => ret tt
      | Ok peers => with_cache (for_each (check_country nowUnix watch) peers)
      end
  end.
End geo_watchlist.

(** ** Beaconing *)
Definition BeaconingWindow : Duration := 24 * Hour.
Definition beaconingMinObservations : nat := 5.
Definition beaconingMinInterval : Duration := 10 * Second.
Definition beaconingMaxInterval : Duration := 6 * Hour.
Definition beaconingMaxCoeffVariation : float64 := f0_2.
Definition beaconingCooldown : Duration := 6 * Hour.

(** The gaps between consecutive timestamps, as floats of 64-bit differences. *)
Fixpoint deltas (ts : list Z) : list float64 :=
  match ts with
  | a :: ((b :: _) as l) => of_int (wrap_i64 (b - a)) :: deltas l
  | _ => []
  end.

(** Sums are accumulated in order, rounding at each step. *)
Definition intervalStats (ts : list Z) : float64 * float64 :=
  if (length ts <? 2)%nat then (of_int 0, of_int 0) else
  let ds := deltas ts in
  let n := of_int (Z.of_nat (length ds)) in
  let mean := fdiv (foldl fadd (of_int 0) ds) n in
  let variance := fdiv (foldl (λ v d, fadd v (fmul (fsub d mean) (fsub d mean))) (of_int 0) ds) n in
  (mean, fsqrt variance).

(** Whether the contacts look like a beacon. *)
Definition beacon_like (ts : list Z) : bool :=
  if (length ts <? beaconingMinObservations)%nat then false else
  let '(mean, stddev) := intervalStats ts in
  if fle mean (of_int 0) then false else
  if flt mean (of_int (seconds beaconingMinInterval)) || flt (of_int (seconds beaconingMaxInterval)) mean then false else
  negb (flt beaconingMaxCoeffVariation (fdiv stddev mean)).

Definition pf_key (r : PeerFlowTimestamp) : PeerKey := (pf_HostID r, pf_RemoteIP r, pf_RemotePort r).

Section beaconing.
Context `{Formats} {o : Order}.

Definition check_beacon (nowUnix : Z) (g : PeerKey * list PeerFlowTimestamp) : M Run unit :=
  let '(hostID, remoteIP, remotePort, rows) := g in
  let timestamps := pf_FirstSeen <$> rows in
  if negb (beacon_like timestamps) then ret tt else
  let mean := (intervalStats timestamps).1 in
  let! h := load_host hostID in
  match h with
  | None => ret tt
  | Some host =>
      let peer := peer_text remoteIP remotePort in
      on_store (raiseAlert hostID AlertKindBeaconing SeverityWarning
        (hostLabel host +:+ " is contacting " +:+ peer +:+ " at suspiciously regular ~" +:+ fmt_mean mean +:+ " intervals")
        [("mean_interval_s", JFloat mean); ("observations", JInt (Z.of_nat (length timestamps)));
         ("remote_ip", JStr remoteIP); ("remote_port", JInt remotePort)]%string
        peer nowUnix (nowUnix - seconds beaconingCooldown))
  end.

Definition Beaconing (now : Time) : M Store unit :=
  let nowUnix := Unix now in
  let! rows := PeerFlowTimestamps (nowUnix - seconds BeaconingWindow) nowUnix in
  match rows with
  | Err _ => ret tt
  | Ok rows => with_cache (for_each (check_beacon nowUnix) (ord o (group_by pf_key rows)))
  end.
End beaconing.

(** ** DNS volume and entropy *)
Definition DNSWindow : Duration := 10 * Minute.
Definition dnsVolumeThreshold : Z := 300.
Definition dnsEntropyMinLabelLen : nat := 12.
Definition dnsEntropyThreshold : float64 := f3_6.
Definition dnsVolumeCooldown : Duration := 1 * Hour.
Definition dnsEntropyCooldown : Duration := 6 * Hour.

Definition leftmostLabel (qname : string) : string := before_byte "."%char (trim_suffix1 "."%char qname).

(** The runes a [range] over a string visits: UTF-8 sequences, and U+FFFD for
    each byte that is not part of one. *)
Definition cont (lo hi b : Z) : bool := (lo <=? b) && (b <=? hi).
Definition RuneError : Z := 65533.

Definition decode_rune (l : bytes) : Z * nat :=
  match l with
  | [] => (RuneError, 0%nat)
  | b0 :: l1 =>
      if b0 <? 128 then (b0, 1%nat)
      else match l1 with
      | b1 :: l2 =>
          if cont 194 223 b0 && cont 128 191 b1 then ((b0 - 192) * 64 + (b1 - 128), 2%nat)
          else match l2 with
          | b2 :: l3 =>
              if cont 224 239 b0 && cont (if b0 =? 224 then 160 else 128) (if b0 =? 237 then 159 else 191) b1 &&
                 cont 128 191 b2
              then ((b0 - 224) * 4096 + (b1 - 128) * 64 + (b2 - 128), 3%nat)
              else match l3 with
              | b3 :: _ =>
                  if cont 240 244 b0 && cont (if b0 =? 240 then 144 else 128) (if b0 =? 244 then 143 else 191) b1 &&
                     cont 128 191 b2 && cont 128 191 b3
                  then ((b0 - 240) * 262144 + (b1 - 128) * 4096 + (b2 - 128) * 64 + (b3 - 128), 4%nat)
                  else (RuneError, 1%nat)
              | [] => (RuneError, 1%nat)
              end
          | [] => (RuneError, 1%nat)
          end
      | [] => (RuneError, 1%nat)
      end
  end.

Fixpoint runes (fuel : nat) (l : bytes) : list Z :=
  match fuel, l with
  | S f, _ :: _ => let '(r, n) := decode_rune l in r :: runes f (drop n l)
  | _, _ => []
  end.

Section dns.
Context `{Formats} {o : Order}.

(** The contributions are summed in the iteration order of the map of counts. *)
Definition shannonEntropy (s : string) : float64 :=
  if bool_decide (s = EmptyString) then of_int 0 else
  let n := of_int (Z.of_nat (String.length s)) in
  let rs := runes (String.length s) (string_bytes s) in
  foldl (λ entropy (g : Z * list Z),
           let p := fdiv (of_int (Z.of_nat (length g.2))) n in
           fsub entropy (fmul p (Log2 p)))
    (of_int 0) (ord o (group_by (λ r, r) rs)).

Definition check_volume (nowUnix : Z) (c : Z * Z) : M Store unit :=
  let '(hostID, count) := c in
  if count <? dnsVolumeThreshold then ret tt else
  let! h := HostByID hostID in
  match h with
  | Err _ => ret tt
  | Ok host =>
      raiseAlert hostID AlertKindDNSAnomaly SeverityWarning
        (hostLabel host +:+ " made " +:+ itoa count +:+ " DNS queries in the last 10m0s")
        [("query_count", JInt count); ("window_seconds", JInt (seconds DNSWindow))]%string
        "volume" nowUnix (nowUnix - seconds dnsVolumeCooldown)
  end.

Definition dnsVolume (since nowUnix : Z) : M Store unit :=
  let! counts := DNSQueryCounts since nowUnix in
  match counts with
  | Err _ => ret tt
  | Ok cs => for_each (check_volume nowUnix) cs
  end.

Definition check_entropy (nowUnix : Z) (r : Z * string * Z) : M Run unit :=
  let '(hostID, qname, _) := r in
  let label := leftmostLabel qname in
  if (String.length label <? dnsEntropyMinLabelLen)%nat then ret tt else
  if flt (shannonEntropy label) dnsEntropyThreshold then ret tt else
  let! h := load_host hostID in
  match h with
  | None => ret tt
  | Some host =>
      on_store (raiseAlert hostID AlertKindDNSAnomaly SeverityInfo
        (hostLabel host +:+ " queried a high-entropy domain name: " +:+ qname)
        [("qname", JStr qname)]%string
        ("entropy:" +:+ qname) nowUnix (nowUnix - seconds dnsEntropyCooldown))
  end.

Definition dnsEntropy (since nowUnix : Z) : M Store unit :=
  let! rows := DNSQueriesInRange since nowUnix in
  match rows with
  | Err _ => ret tt
  | Ok rows => with_cache (for_each (check_entropy nowUnix) rows)
  end.

Definition DNSAnomaly (now : Time) : M Store unit :=
  let nowUnix := Unix now in
  let since := nowUnix - seconds DNSWindow in
  dnsVolume since nowUnix ;;! dnsEntropy since nowUnix.
End dns.

(** ** The scheduler *)
Definition dnsQueriesRetention : Duration := 48 * Hour.

Inductive DetectTick := TickNewDest | TickPortScan | TickDNS | TickExfil | TickBeacon | TickGeo | TickPruneDNS.
#[export] Instance DetectTick_eq_dec : EqDecision DetectTick.
Proof. solve_decision. Defined.

Section scheduler.
Context `{Formats} {o : Order} (geo : list GeoIP.record).

(** [if s.db.DetectorEnabled(key) { detector(s.db, time.Now()) }]. *)
Definition if_enabled (key : string) (detector : M Store unit) : M Store unit :=
  let! on := DetectorEnabled key in
  if on : bool then detector else ret tt.

Definition on_detect_tick (tk : DetectTick) (now : Time) : M Store unit :=
  match tk with
  | TickNewDest => if_enabled KeyDetectorNewDestination (NewDestinations now)
  | TickPortScan => if_enabled KeyDetectorPortScan (PortScan now)
  | TickDNS => if_enabled KeyDetectorDNSAnomaly (DNSAnomaly now)
  | TickExfil => if_enabled KeyDetectorExfilRatio (ExfilRatio now)
  | TickBeacon => if_enabled KeyDetectorBeaconing (Beaconing now)
  | TickGeo => if_enabled KeyDetectorGeoWatchlist (GeoWatchlist geo now)
  | TickPruneDNS => ignore (PruneDNSQueries (Unix (Add now (- dnsQueriesRetention))))
  end.

Definition run_detectors (ticks : list (DetectTick * Time)) : M Store unit :=
  for_each (λ '(tk, now), on_detect_tick tk now) ticks.
End scheduler.

(** ** Invariants of the detectors *)

(** The cooldown, in seconds, each alert is raised with. *)
Definition cooldown (kind key : string) : Z :=
  if bool_decide (kind = AlertKindPortScan) then seconds portScanCooldown
  else if bool_decide (kind = AlertKindGeoWatchlist) then seconds geoWatchlistCooldown
  else if bool_decide (kind = AlertKindDNSAnomaly) then
    if bool_decide (key = "volume"%string) then seconds dnsVolumeCooldown else seconds dnsEntropyCooldown
  else seconds newDestinationCooldown.

(** A property of the tables that raising alerts with these cooldowns,
    recording peers and pruning queries keep is kept by every tick. *)
Section detector_invariants.
Context `{Formats} {o : Order} (P : Tables → Prop).
Abbreviation onP := (λ s : Store, P (tables s)).
Abbreviation runP := (λ r : Run, P (tables (r_db r))).

Context (Hraise : ∀ h k sev sum d key now,
           Preserves onP (raiseAlert h k sev sum d key now (now - cooldown k key))).
Context (Hpeer : ∀ h ip port ts, Preserves onP (UpsertKnownPeer h ip port ts)).
Context (Hprune : ∀ c, Preserves onP (PruneDNSQueries c)).

Lemma keep_HostByID' id : Preserves onP (HostByID id).
Proof. apply preserves_stmt. intros t a t' Ht. case_match; [|done]. by intros [= <- <-]. Qed.

Lemma keep_on_store {A} (m : M Store A) : Preserves onP m → Preserves runP (on_store m).
Proof. intros Hm r Hr. rewrite /on_store. specialize (Hm (r_db r) Hr). by destruct (m (r_db r)). Qed.

Lemma keep_with_cache body : Preserves runP body → Preserves onP (with_cache body).
Proof. intros Hb s Hs. apply (Hb (mkRun s ∅ ∅) Hs). Qed.

Lemma keep_load_host id : Preserves runP (load_host id).
Proof.
  rewrite /load_host. apply preserves_bind; [apply _|]. intros r. case_match; [apply _|].
  apply preserves_bind; [apply keep_on_store, keep_HostByID'|]. intros [h|]; [|apply _].
  apply preserves_bind; [by apply preserves_modify|apply _].
Qed.

(** Raising with the cooldown written out. *)
Lemma keep_raise h k sev sum d key now since :
  since = now - cooldown k key → Preserves onP (raiseAlert h k sev sum d key now since).
Proof. intros ->. apply Hraise. Qed.

Lemma keep_check_destination now p : Preserves runP (check_destination now p).
Proof.
  rewrite /check_destination. apply preserves_bind; [apply keep_load_host|]. intros [host|]; [|apply _].
  apply preserves_bind; [apply keep_on_store, _|]. intros [known|]; [|apply _].
  apply preserves_bind; [apply keep_on_store; rewrite /ignore; apply _|]. intros _.
  destruct (negb _); [apply _|]. destruct (_ <? _); [apply _|]. destruct (classifyPeerDirection _ _) as [d ph].
  apply keep_on_store. by apply keep_raise.
Qed.

Lemma keep_NewDestinations now : Preserves onP (NewDestinations now).
Proof.
  rewrite /NewDestinations. apply preserves_bind; [apply _|]. intros [ps|]; [|apply _].
  apply keep_with_cache, preserves_for_each. intros p. apply keep_check_destination.
Qed.

Lemma keep_ExfilRatio now : Preserves onP (ExfilRatio now).
Proof.
  rewrite /ExfilRatio. apply preserves_bind; [apply _|]. intros [ts|]; [|apply _].
  apply preserves_for_each. intros t. rewrite /check_totals. destruct (_ <? _); [apply _|].
  destruct (flt _ _); [apply _|]. apply preserves_bind; [apply keep_HostByID'|]. intros [h|]; [|apply _].
  by apply keep_raise.
Qed.

Lemma keep_PortScan now : Preserves onP (PortScan now).
Proof.
  apply keep_with_cache, preserves_for_each. intros check. rewrite /run_check.
  apply preserves_bind; [apply keep_on_store; rewrite /HostTargetPortScans; apply _|]. intros [ts|]; [|apply _].
  apply preserves_for_each. intros t. rewrite /check_target.
  apply preserves_bind; [apply keep_load_host|]. intros [host|]; [|apply _]. apply keep_on_store. by apply keep_raise.
Qed.

Lemma keep_GeoWatchlist geo now : Preserves onP (GeoWatchlist geo now).
Proof.
  rewrite /GeoWatchlist. apply preserves_bind; [apply _|]. intros [[raw|]|]; [|apply _..].
  destruct (bool_decide _); [apply _|]. apply preserves_bind; [apply _|]. intros [ps|]; [|apply _].
  apply keep_with_cache, preserves_for_each. intros p r Hr. rewrite /check_country {1}/bind /get.
  cbv beta iota zeta. destruct (bool_decide _); [done|]. rewrite {1}/bind /put. cbv beta iota zeta.
  destruct (_ ≫= _) as [cc|]; [|done]. destruct (negb _); [done|].
  match goal with |- P (tables (r_db (?m ?x).2)) => assert (Preserves runP m) as Hm; [|by apply Hm] end.
  apply preserves_bind; [apply keep_load_host|]. intros [host|]; [|apply _].
  destruct (classifyPeerDirection _ _) as [d ph]. apply keep_on_store. by apply keep_raise.
Qed.

Lemma keep_Beaconing now : Preserves onP (Beaconing now).
Proof.
  rewrite /Beaconing. apply preserves_bind; [apply _|]. intros [rows|]; [|apply _].
  apply keep_with_cache, preserves_for_each. intros [[[h ip] port] g]. rewrite /check_beacon.
  destruct (negb _); [apply _|]. apply preserves_bind; [apply keep_load_host|]. intros [host|]; [|apply _].
  apply keep_on_store. by apply keep_raise.
Qed.

Lemma keep_DNSAnomaly now : Preserves onP (DNSAnomaly now).
Proof.
  rewrite /DNSAnomaly. apply preserves_bind; [|intros _].
  - rewrite /dnsVolume. apply preserves_bind; [apply _|]. intros [cs|]; [|apply _].
    apply preserves_for_each. intros [h c]. rewrite /check_volume. destruct (_ <? _); [apply _|].
    apply preserves_bind; [apply keep_HostByID'|]. intros [host|]; [|apply _]. by apply keep_raise.
  - rewrite /dnsEntropy. apply preserves_bind; [apply _|]. intros [rows|]; [|apply _].
    apply keep_with_cache, preserves_for_each. intros [[h q] ts]. rewrite /check_entropy.
    destruct (_ <? _)%nat; [apply _|]. destruct (flt _ _); [apply _|].
    apply preserves_bind; [apply keep_load_host|]. intros [host|]; [|apply _].
    apply keep_on_store. apply keep_raise. rewrite /cooldown. by rewrite (bool_decide_eq_false_2 (_ = "volume"%string)).
Qed.

Lemma keep_if_enabled key m : Preserves onP m → Preserves onP (if_enabled key m).
Proof.
  intros Hm. rewrite /if_enabled. apply preserves_bind; [rewrite /DetectorEnabled; apply _|]. intros []; apply _.
Qed.

Lemma keep_tick geo tk now : Preserves onP (on_detect_tick geo tk now).
Proof.
  destruct tk; simpl; try apply keep_if_enabled.
  - apply keep_NewDestinations.
  - apply keep_PortScan.
  - apply keep_DNSAnomaly.
  - apply keep_ExfilRatio.
  - apply keep_Beaconing.
  - apply keep_GeoWatchlist.
  - rewrite /ignore. apply _.
Qed.

Lemma keep_detectors geo ticks : Preserves onP (run_detectors geo ticks).
Proof. apply preserves_for_each. intros [tk now]. apply keep_tick. Qed.
End detector_invariants.

(** ** Cooldowns *)
Definition same_condition (x y : AlertRecord) : Prop :=
  a_HostID x = a_HostID y ∧ a_Kind x = a_Kind y ∧ a_DedupeKey x = a_DedupeKey y.

(** Of two alerts for the same condition, the later row is more than the
    cooldown after the earlier one. *)
Definition spaced (t : Tables) : Prop :=
  ∀ (i j : nat) x y, (i < j)%nat → (ar_rec <$> alerts t) !! i = Some x → (ar_rec <$> alerts t) !! j = Some y →
    same_condition x y → a_DetectedAt x + cooldown (a_Kind y) (a_DedupeKey y) < a_DetectedAt y.

Lemma spaced_same t t' : alerts t' = alerts t → spaced t → spaced t'.
Proof. rewrite /spaced. by intros ->. Qed.

Lemma raise_spaced `{Formats} h k sev sum d key now :
  Preserves (λ s, spaced (tables s)) (raiseAlert h k sev sum d key now (now - cooldown k key)).
Proof.
  intros s Hs. rewrite /raiseAlert /bind. destruct (RecentAlertExists _ _ _ _ s) as [q s1] eqn:E1.
  apply query_cases in E1 as [Et [->| ->]]; [|by rewrite /= Et].
  destruct (existsb _ _) eqn:Ex; [by rewrite /= Et|].
  rewrite /ignore /bind. destruct (InsertAlert _ s1) as [rr s2] eqn:E2. simpl. apply stmt_cases in E2 as [E2 _].
  destruct rr as [[]|]; [|destruct E2 as [-> _]; by rewrite Et].
  destruct (host_exists _ _); [|done]. injection E2 as <-. simpl. rewrite Et.
  intros i j x y Hij. simpl. rewrite fmap_app !lookup_app /=.
  destruct ((ar_rec <$> alerts (tables s)) !! j) as [y'|] eqn:Ej.
  - pose proof (lookup_lt_Some _ _ _ Ej). assert (∃ x', (ar_rec <$> alerts (tables s)) !! i = Some x') as [x' Ei].
    { apply lookup_lt_is_Some. lia. }
    rewrite Ei. intros [= <-] [= <-]. by apply (Hs i j).
  - destruct (j - length (ar_rec <$> alerts (tables s)))%nat as [|n] eqn:El; [|done]. simpl.
    apply lookup_ge_None in Ej. assert (∃ x', (ar_rec <$> alerts (tables s)) !! i = Some x') as [x' Ei].
    { apply lookup_lt_is_Some. lia. }
    rewrite Ei. intros [= <-] [= <-] (H1 & H2 & H3). simpl in *. apply Z.lt_add_lt_sub_r.
    apply Z.nle_gt. intros Hle. apply not_true_iff_false in Ex. apply Ex, existsb_exists. exists x'.
    split; [apply list_elem_of_In; exact (list_elem_of_lookup_2 _ _ _ Ei)|].
    rewrite /alert_matches H1 H2 H3 Z.eqb_refl !bool_decide_eq_true_2 //=. by apply Z.leb_le.
Qed.

Lemma detectors_spaced `{Formats} {o : Order} geo ticks :
  Preserves (λ s, spaced (tables s)) (run_detectors geo ticks).
Proof.
  apply keep_detectors.
  - intros. apply raise_spaced.
  - intros. apply preserves_stmt. intros t a t' Ht. repeat (case_match; simplify_eq/=); intros; simplify_eq;
      by apply (spaced_same t).
  - intros c. apply preserves_exec. intros t. by apply spaced_same.
Qed.

(** ** Port lists *)
Lemma trim_left_id p s : string_forallb (λ c, negb (p c)) s = true → trim_left p s = s.
Proof. destruct s as [|c s]; [done|]. simpl. intros [Hc _]%andb_true_iff. apply negb_true_iff in Hc. by rewrite Hc. Qed.
Lemma trim_right_id p s : string_forallb (λ c, negb (p c)) s = true → trim_right p s = s.
Proof.
  induction s as [|c s IH]; [done|]. simpl. intros [Hc Hs]%andb_true_iff. apply negb_true_iff in Hc.
  rewrite (IH Hs). destruct s; by rewrite ?Hc.
Qed.

Lemma itoa_digits n : 0 ≤ n → string_forallb is_digit (itoa n) = true.
Proof. intros Hn. rewrite /itoa. destruct n; [done| |lia]. apply dec_N_digits. Qed.

Lemma trim_space_itoa n : 0 ≤ n → trim_space (itoa n) = itoa n.
Proof.
  intros Hn. assert (string_forallb (λ c, negb (is_space c)) (itoa n) = true) as Hs.
  { eapply string_forallb_impl; [|by apply itoa_digits]. intros c [H1 H2]%andb_true_iff. rewrite /is_space.
    apply Z.leb_le in H1, H2. destruct (Z.eqb_spec (ascii_Z c) 32); [lia|].
    destruct (Z.leb_spec 9 (ascii_Z c)), (Z.leb_spec (ascii_Z c) 13); (done || lia). }
  rewrite /trim_space trim_left_id // trim_right_id //.
Qed.

Lemma parsePortsCSV_join ports :
  Forall (λ p, 0 ≤ p < 65536) ports →
  parsePortsCSV (join ","%char (itoa <$> ports)) ≡ₚ ports ∧
  StronglySorted Z.le (parsePortsCSV (join ","%char (itoa <$> ports))).
Proof.
  intros Hp. rewrite /parsePortsCSV. case_bool_decide as He.
  - assert (ports = []) as ->; [|split; [done|constructor]]. destruct ports as [|p [|q ports]]; [done| |].
    + simpl in He. exfalso. apply Forall_cons_1 in Hp as [Hp _].
      assert (atoi (itoa p) = Some p) as Ha by (apply atoi_itoa; split; simpl; lia). by rewrite He in Ha.
    + simpl in He. exfalso. by destruct (itoa p).
  - destruct (decide (ports = [])) as [->|Hne]; [done|].
    rewrite split_join; [by destruct ports| |].
    + apply Forall_fmap. eapply Forall_impl; [exact Hp|]. intros p Hq. simpl in Hq. apply no_char_digits; [done|]. apply itoa_digits. lia.
    + assert (omap (λ p, atoi (trim_space p)) (itoa <$> ports) = ports) as ->.
      { clear He Hne. induction Hp as [|p ports Hp _ IH]; [done|]. rewrite fmap_cons /= trim_space_itoa; [lia|].
        rewrite atoi_itoa; [split; simpl; lia|]. f_equal. exact IH. }
      split; [apply stable_sort_perm|]. by apply (stable_sort_sorted Z.ltb (λ x, x)).
Qed.

(** ** Byte counts

    The loop of [fmtBytesShort] ends with the power of 1024 that brackets the
    count, without overflowing, and with an index inside the unit letters. *)
Lemma unit_loop_spec n : n < 2 ^ 63 → ∀ fuel v div exp,
  0 ≤ exp → div = 1024 ^ (exp + 1) → div ≤ n → v = n / div → (6 - exp ≤ Z.of_nat fuel) →
  let '(div', exp') := unit_loop fuel v div exp in
  0 ≤ exp' ≤ 5 ∧ div' = 1024 ^ (exp' + 1) ∧ div' ≤ n < div' * 1024.
Proof.
  intros Hn. change (2 ^ 63) with 9223372036854775808 in Hn.
  assert (∀ e, 0 ≤ e → 1024 ^ (e + 1) ≤ n → e ≤ 5) as Hexp.
  { intros e He Hle. apply Z.nlt_ge. intros H5.
    assert (1024 ^ 7 ≤ 1024 ^ (e + 1)) by (apply Z.pow_le_mono_r; lia). lia. }
  induction fuel as [|f IH]; intros v div exp He Hd Hle Hv Hf.
  { pose proof (Hexp exp He). subst div. specialize (H Hle). lia. }
  simpl. assert (0 < div) as Hpos by (subst div; apply Z.pow_pos_nonneg; lia).
  destruct (Z.leb_spec 1024 v) as [Hge|Hlt].
  - assert (div * 1024 ≤ n) as Hle'.
    { pose proof (Z.mul_div_le n div Hpos). subst v. nia. }
    assert (div * 1024 = 1024 ^ (exp + 1 + 1)) as Hd'.
    { rewrite (Z.pow_add_r 1024 (exp + 1) 1); [lia|lia|]. rewrite -Hd. lia. }
    rewrite wrap_i64_small; [lia|]. apply IH; [lia|done|done| |lia].
    rewrite Z.quot_div_nonneg; [lia|lia|]. rewrite Hv Z.div_div; lia.
  - split_and!; [done|apply Hexp; [done|by subst div]|done|done|].
    pose proof (Z.mul_succ_div_gt n div Hpos). subst v. nia.
Qed.

Lemma fmtBytesShort_unit n : 1024 ≤ n < 2 ^ 63 →
  let '(div, exp) := unit_loop 64 (Z.quot n 1024) 1024 0 in
  0 ≤ exp ≤ 5 ∧ div = 1024 ^ (exp + 1) ∧ div ≤ n < div * 1024.
Proof.
  intros [H1 H2]. apply (unit_loop_spec n H2 64 _ 1024 0); [lia|done|done| |lia]. rewrite Z.quot_div_nonneg; lia.
Qed.

(** ** What is new *)
Definition is_new (t : Tables) (k : PeerKey) (now : Z) : bool :=
  match known_peers t !! k with
  | None => true
  | Some (_, lastSeen) => lastSeen <? now - 2592000
  end.

(** An alert for the peer was raised in the last six hours. *)
Definition recently_alerted (t : Tables) (h : Z) (key : string) (now : Z) : bool :=
  existsb (alert_matches h AlertKindNewDestination key (now - 21600)) (ar_rec <$> alerts t).

Lemma raiseAlert_run `{Formats} h k sev sum d key now since t :
  h ∈ host_ids t →
  raiseAlert h k sev sum d key now since (mkStore t []) =
  (tt, mkStore (if existsb (alert_matches h k key since) (ar_rec <$> alerts t) then t
                else set_alerts (alerts t ++ [mkAlertRow (alerts_seq t + 1)
                       (mkAlertRecord h k sev sum (default EmptyString (Marshal d)) key now) false]) (alerts_seq t + 1) t) []).
Proof.
  intros Hh. rewrite /raiseAlert /bind /RecentAlertExists /query /stmt /=.
  destruct (existsb _ _); [done|]. rewrite /ignore /bind /InsertAlert /stmt /=.
  by apply host_exists_spec in Hh as ->.
Qed.

Lemma UpsertKnownPeer_run h ip port ts t :
  h ∈ host_ids t →
  ∃ v, UpsertKnownPeer h ip port ts (mkStore t []) =
    (Ok tt, mkStore (set_peers (<[(h, ip, port) := (v, ts)]> (known_peers t)) t) []).
Proof.
  intros Hh. apply host_exists_spec in Hh. rewrite /UpsertKnownPeer /stmt /=.
  destruct (known_peers t !! (h, ip, port)) as [[f l]|]; [by exists f|]. rewrite Hh. by exists ts.
Qed.

Lemma on_store_run {A} (m : M Store A) s a s' hs seen :
  m s = (a, s') → on_store m (mkRun s hs seen) = (a, mkRun s' hs seen).
Proof. rewrite /on_store /=. by intros ->. Qed.

Lemma load_host_run t id host seen :
  find_host t id = Some host →
  load_host id (mkRun (mkStore t []) ∅ seen) = (Some host, mkRun (mkStore t []) {[id := host]} seen).
Proof. intros Hh. rewrite /load_host /bind /= lookup_empty /on_store /HostByID /stmt /= Hh //. Qed.

Lemma check_destination_run `{Formats} now p host t :
  find_host t (dp_HostID p) = Some host →
  let k := (dp_HostID p, dp_RemoteIP p, dp_RemotePort p) in
  let key := peer_text (dp_RemoteIP p) (dp_RemotePort p) in
  let t' := tables (r_db (check_destination now p (mkRun (mkStore t []) ∅ ∅)).2) in
  snd <$> known_peers t' !! k = Some now ∧
  if is_new t k now && (259200 <=? now - h_FirstSeen host) && negb (recently_alerted t (dp_HostID p) key now)
  then ∃ row, alerts t' = alerts t ++ [row] ∧ a_HostID (ar_rec row) = dp_HostID p ∧
         a_Kind (ar_rec row) = AlertKindNewDestination ∧ a_DedupeKey (ar_rec row) = key ∧ a_DetectedAt (ar_rec row) = now
  else alerts t' = alerts t.
Proof.
  intros Hh. pose proof (find_host_some _ _ _ Hh) as [Hid Hin].
  assert (dp_HostID p ∈ host_ids t) as Hk by (rewrite -Hid; by apply list_elem_of_fmap_2).
  destruct (UpsertKnownPeer_run (dp_HostID p) (dp_RemoteIP p) (dp_RemotePort p) now t Hk) as [v Eup].
  intros k key t'. rewrite /t' /check_destination. clear t'.
  rewrite (bind_run _ _ _ _ _ (load_host_run _ _ _ _ Hh)).
  rewrite (bind_run _ _ _ (Ok (snd <$> known_peers t !! k)) (mkRun (mkStore t []) {[dp_HostID p := host]} ∅)); [done|].
  assert (match snd <$> known_peers t !! k with
          | Some lastSeen => lastSeen <? now - seconds NewDestinationNoveltyWindow
          | None => true end = is_new t k now) as ->.
  { rewrite /is_new. by destruct (known_peers t !! _) as [[]|]. }
  set t1 := set_peers (<[k := (v, now)]> (known_peers t)) t.
  rewrite (bind_run _ _ _ tt (mkRun (mkStore t1 []) {[dp_HostID p := host]} ∅)).
  { apply on_store_run. rewrite /ignore /bind Eup //. }
  assert (snd <$> known_peers t1 !! k = Some now) as Hkp by (by rewrite /= lookup_insert_eq).
  destruct (is_new t k now); simpl; [|done].
  change (seconds NewDestinationLearningPeriod) with 259200.
  destruct (Z.ltb_spec (now - h_FirstSeen host) 259200), (Z.leb_spec 259200 (now - h_FirstSeen host)); try lia; simpl; [done|].
  destruct (classifyPeerDirection _ _) as [d ph]. rewrite /on_store. cbn [r_db r_hosts r_seen]. rewrite (raiseAlert_run _ _ _ _ _ _ _ _ t1) //=.
  change (seconds newDestinationCooldown) with 21600.
  rewrite /recently_alerted. destruct (existsb _ _); simpl; [done|]. split; [done|]. by eexists.
Qed.

(** ** The order of [PeerFlowTimestamps] *)
Definition pf_before (x y : PeerFlowTimestamp) : Prop :=
  pf_HostID x < pf_HostID y ∨ pf_HostID x = pf_HostID y ∧
   (String.le (pf_RemoteIP x) (pf_RemoteIP y) ∧ pf_RemoteIP x ≠ pf_RemoteIP y ∨ pf_RemoteIP x = pf_RemoteIP y ∧
     (pf_RemotePort x < pf_RemotePort y ∨ pf_RemotePort x = pf_RemotePort y ∧ pf_FirstSeen x < pf_FirstSeen y)).

Lemma pf_less_spec x y : pf_less x y = true ↔ pf_before x y.
Proof.
  rewrite /pf_less /pf_before. destruct (Z.compare_spec (pf_HostID x) (pf_HostID y)) as [->| |]; [|split; (done || by left)|split; (done || lia)].
  rewrite /String.le /String.leb. destruct (String.compare _ _) eqn:E.
  - apply String.compare_eq_iff in E as ->.
    destruct (Z.compare_spec (pf_RemotePort x) (pf_RemotePort y)) as [->| |]; [|naive_solver lia..].
    rewrite Z.ltb_lt. naive_solver lia.
  - split; [|done]. intros _. right. split; [done|]. left. split; [done|]. intros Heq. rewrite Heq in E.
    pose proof (String.compare_antisym (pf_RemoteIP y) (pf_RemoteIP y)) as Ha. by rewrite E in Ha.
  - split; [done|]. intros [?|[_ [[[] _]|[Heq _]]]]; [lia|]. rewrite Heq in E.
    pose proof (String.compare_antisym (pf_RemoteIP y) (pf_RemoteIP y)) as Ha. by rewrite E in Ha.
Qed.

Lemma pf_less_asym x y : pf_less x y = true → pf_less y x = false.
Proof.
  rewrite -not_true_iff_false !pf_less_spec /pf_before. intros H1 H2.
  destruct H1 as [?|[E [[L N]|[E2 ?]]]]; [lia| |].
  - destruct H2 as [?|[_ [[L2 _]|[E2 _]]]]; [lia| |by rewrite E2 in N]. apply N. by apply (anti_symm String.le).
  - rewrite E2 in H2. naive_solver lia.
Qed.

Lemma pf_less_total x y : pf_less x y = false → x = y ∨ pf_before y x.
Proof.
  rewrite -not_true_iff_false pf_less_spec /pf_before. intros H.
  destruct (Ztrichotomy_inf (pf_HostID x) (pf_HostID y)) as [[?|E1]|?]; [naive_solver| |naive_solver lia].
  destruct (decide (pf_RemoteIP x = pf_RemoteIP y)) as [E2|N].
  - destruct (Ztrichotomy_inf (pf_RemotePort x) (pf_RemotePort y)) as [[?|E3]|?]; [naive_solver| |naive_solver lia].
    destruct (Ztrichotomy_inf (pf_FirstSeen x) (pf_FirstSeen y)) as [[?|E4]|?]; [naive_solver| |naive_solver lia].
    left. destruct x, y. simpl in *. by subst.
  - destruct (total String.le (pf_RemoteIP x) (pf_RemoteIP y)); [naive_solver|].
    right. right. split; [done|]. left. naive_solver.
Qed.

Lemma pf_before_trans x y z : pf_before x y → pf_before y z → pf_before x z.
Proof.
  rewrite /pf_before. intros [?|[-> [[L N]|[-> H]]]] [?|[E2 [[L2 N2]|[E2' H2]]]]; try (left; lia); right; (split; [lia|]).
  - left. split; [exact (transitivity L L2)|]. intros E. rewrite E in L. apply N2. by apply (anti_symm String.le).
  - left. rewrite -E2'. by split.
  - by left.
  - right. split; [done|]. lia.
Qed.

Lemma pf_less_trans x y z : pf_less y x = false → pf_less z y = false → pf_less z x = false.
Proof.
  intros H1 H2. destruct (pf_less_total _ _ H1) as [->|B1]; [done|]. destruct (pf_less_total _ _ H2) as [->|B2]; [done|].
  apply pf_less_asym, pf_less_spec. by apply (pf_before_trans x y z).
Qed.

(** Within one peer the rows come in the order of their first packets. *)
Lemma pf_sorted_group k l :
  StronglySorted Z.le (pf_FirstSeen <$> filter (λ r, pf_key r = k) (stable_sort pf_less l)).
Proof.
  pose proof (stable_sort_ordered pf_less pf_less_asym pf_less_trans l) as Hs.
  induction Hs as [|x s Hs IH Hx]; [constructor|]. rewrite filter_cons. case_decide as Hk; [|exact IH].
  rewrite fmap_cons. constructor; [exact IH|]. apply Forall_fmap, Forall_forall. intros y [Hy Hin]%list_elem_of_filter.
  rewrite Forall_forall in Hx. specialize (Hx y Hin). simpl. apply Z.nlt_ge. intros Hlt.
  apply not_true_iff_false in Hx. apply Hx, pf_less_spec. rewrite /pf_before.
  rewrite -Hk in Hy. injection Hy as -> -> ->. right. split; [done|]. right. split; [done|]. by right.
Qed.

(** ** The evidence behind an alert *)
Section evidence.
Context `{Formats} {o : Order} (geo : list GeoIP.record).

Definition recent_flows (t : Tables) (since now : Z) : list FlowRecord :=
  filter (λ f, since ≤ f_LastSeen f ≤ now) (flows_recent t).*2.
Definition recent_queries (t : Tables) (since now : Z) : list DNSQueryRecord :=
  filter (λ q, since ≤ q_TS q ≤ now) (dns_queries t).*2.

Definition scan_port (check : portScanCheck) (f : FlowRecord) : Z :=
  if ps_countLocalPort check then f_LocalPort f else f_RemotePort f.

(** What the tables must show for the alert [a] raised by a tick at [now]. *)
Definition evidence (t : Tables) (tk : DetectTick) (now : Z) (a : AlertRecord) : Prop :=
  a_DetectedAt a = now ∧
  match tk with
  | TickNewDest =>
      a_Kind a = AlertKindNewDestination ∧ ∃ f host,
        f ∈ recent_flows t (now - 120) now ∧ f_HostID f = a_HostID a ∧
        a_DedupeKey a = peer_text (f_RemoteIP f) (f_RemotePort f) ∧
        find_host t (a_HostID a) = Some host ∧ 259200 ≤ now - h_FirstSeen host
  | TickPortScan =>
      a_Kind a = AlertKindPortScan ∧ ∃ check ip, check ∈ portScanChecks ∧
        a_DedupeKey a = ps_dedupePrefix check +:+ ip ∧
        15 ≤ Z.of_nat (length (distinct_keys (scan_port check)
               (filter (λ f, f_HostID f = a_HostID a ∧ f_RemoteIP f = ip ∧ f_Direction f = ps_direction check)
                  (recent_flows t (now - 120) now))))
  | TickDNS =>
      a_Kind a = AlertKindDNSAnomaly ∧
      (a_DedupeKey a = "volume"%string ∧
       300 ≤ Z.of_nat (length (filter (λ q, q_HostID q = a_HostID a) (recent_queries t (now - 600) now))) ∨
       ∃ q, q ∈ recent_queries t (now - 600) now ∧ q_HostID q = a_HostID a ∧
         a_DedupeKey a = ("entropy:" +:+ q_QName q)%string ∧
         (12 ≤ String.length (leftmostLabel (q_QName q)))%nat ∧
         flt (shannonEntropy (leftmostLabel (q_QName q))) f3_6 = false)
  | TickExfil =>
      a_Kind a = AlertKindExfilRatio ∧
      let fs := filter (λ f, f_HostID f = a_HostID a ∧ f_Direction f = DirLANToWAN) (recent_flows t (now - 3600) now) in
      20971520 ≤ sumZ f_BytesSent fs ∧
      (0 < sumZ f_BytesRecv fs → flt (fdiv (of_int (sumZ f_BytesSent fs)) (of_int (sumZ f_BytesRecv fs))) (of_int 5) = false)
  | TickBeacon =>
      a_Kind a = AlertKindBeaconing ∧ ∃ ip port ts,
        a_DedupeKey a = peer_text ip port ∧
        ts ≡ₚ f_FirstSeen <$> filter (λ f, peer_key f = (a_HostID a, ip, port)) (recent_flows t (now - 86400) now) ∧
        StronglySorted Z.le ts ∧ beacon_like ts = true
  | TickGeo =>
      a_Kind a = AlertKindGeoWatchlist ∧ ∃ raw cc f,
        settings t !! KeyGeoWatchlistCountries = Some raw ∧ cc ∈ ParseGeoWatchlist raw ∧
        f ∈ recent_flows t (now - 120) now ∧ f_HostID f = a_HostID a ∧ f_RemoteIP f = a_DedupeKey a ∧
        ParseIP (f_RemoteIP f) ≫= GeoIP.CountryForIP geo = Some cc
  | TickPruneDNS => False
  end.
End evidence.

(** The tables after part of a run: what detectors read is unchanged, and the
    new alerts satisfy [E]. *)
Definition grown (E : AlertRecord → Prop) (t0 t : Tables) : Prop :=
  settings t = settings t0 ∧ hosts t = hosts t0 ∧ flows_recent t = flows_recent t0 ∧ dns_queries t = dns_queries t0 ∧
  ∃ new, alerts t = alerts t0 ++ new ∧ Forall (λ r, E (ar_rec r)) new.

Section justified.
Context `{Formats} {o : Order} (E : AlertRecord → Prop) (t0 : Tables).
Abbreviation grownS := (λ s : Store, grown E t0 (tables s)).

Definition grownR (r : Run) : Prop :=
  grown E t0 (tables (r_db r)) ∧ ∀ id h, r_hosts r !! id = Some h → find_host t0 id = Some h.

Lemma grown_refl : grown E t0 t0.
Proof. rewrite /grown. split_and!; try done. exists []. by rewrite app_nil_r. Qed.

Lemma grown_raise h k sev sum d key now since :
  (∀ sev sum d, E (mkAlertRecord h k sev sum d key now)) →
  Preserves grownS (raiseAlert h k sev sum d key now since).
Proof.
  intros HE s Hs. rewrite /raiseAlert /bind. destruct (RecentAlertExists _ _ _ _ s) as [q s1] eqn:E1.
  apply query_cases in E1 as [Et [->| ->]]; [|by rewrite /= Et].
  destruct (existsb _ _); [by rewrite /= Et|].
  rewrite /ignore /bind. destruct (InsertAlert _ s1) as [rr s2] eqn:E2. simpl. apply stmt_cases in E2 as [E2 _].
  destruct rr as [[]|]; [|destruct E2 as [-> _]; by rewrite Et].
  destruct (host_exists _ _); [|done]. injection E2 as <-. rewrite Et.
  destruct Hs as (H1 & H2 & H3 & H4 & new & H5 & H6). rewrite /grown. split_and!; try done.
  eexists (new ++ [_]). cbn [alerts set_alerts]. rewrite app_assoc -H5. split; [reflexivity|].
  apply Forall_app. split; [done|]. apply Forall_singleton, HE.
Qed.

Lemma grown_query {A B} (f : Tables → A) (k : Result DBError A → M Store B) :
  (∀ t, grown E t0 t → Preserves grownS (k (Ok (f t)))) → Preserves grownS (k (Err ErrIO)) →
  Preserves grownS (bind (query f) k).
Proof.
  intros Hok Herr s Hs. rewrite /bind. destruct (query f s) as [r s'] eqn:E1.
  apply query_cases in E1 as [Et [->| ->]]; [apply (Hok _ Hs)|apply Herr]; by rewrite /= Et.
Qed.

Lemma grown_host {B} id (k : Result DBError Host → M Store B) :
  (∀ h, find_host t0 id = Some h → Preserves grownS (k (Ok h))) → (∀ e, Preserves grownS (k (Err e))) →
  Preserves grownS (bind (HostByID id) k).
Proof.
  intros Hok Herr s Hs. rewrite /bind. destruct (HostByID id s) as [r s'] eqn:E1.
  apply stmt_cases in E1 as [E1 _]. destruct r as [h|e]; [|destruct E1 as [E1 _]; apply Herr; by rewrite /= E1].
  destruct (find_host (tables s) id) as [h'|] eqn:Eh; [|done]. injection E1 as -> E1.
  apply Hok; [|by rewrite /= -E1]. destruct Hs as (_ & Hh & _). rewrite /find_host -Hh. exact Eh.
Qed.

Lemma grown_with_cache body : Preserves grownR body → Preserves grownS (with_cache body).
Proof. intros Hb s Hs. apply (Hb (mkRun s ∅ ∅)). split; [done|]. intros id h. by rewrite /= lookup_empty. Qed.

Lemma grown_on_store {A} (m : M Store A) : Preserves grownS m → Preserves grownR (on_store m).
Proof. intros Hm r [Hr Hc]. rewrite /on_store. specialize (Hm (r_db r) Hr). by destruct (m (r_db r)). Qed.

Lemma grown_load_host {B} id (k : option Host → M Run B) :
  (∀ h, find_host t0 id = Some h → Preserves grownR (k (Some h))) → Preserves grownR (k None) →
  Preserves grownR (bind (load_host id) k).
Proof.
  intros Hok Hnone r [Hr Hc]. rewrite /bind /load_host /bind /=.
  destruct (r_hosts r !! id) as [h|] eqn:Eh; [apply Hok; [by apply Hc|done]|].
  rewrite /on_store. destruct (HostByID id (r_db r)) as [q s'] eqn:E1. apply stmt_cases in E1 as [E1 _].
  destruct q as [h|e]; [|destruct E1 as [E1 _]; apply Hnone; split; [by rewrite /= E1|done]].
  destruct (find_host (tables (r_db r)) id) as [h'|] eqn:Ef; [|done]. injection E1 as -> E1.
  assert (find_host t0 id = Some h) as H0. { destruct Hr as (_ & Hh & _). rewrite /find_host -Hh. exact Ef. }
  simpl. apply Hok; [done|]. split; [by rewrite /= -E1|]. simpl. intros id' h'.
  destruct (decide (id' = id)) as [->|Hne]; [rewrite lookup_insert_eq; by intros [= <-]|].
  rewrite lookup_insert_ne; [by intros ->|]. apply Hc.
Qed.

Lemma grown_peer h ip port ts : Preserves grownS (UpsertKnownPeer h ip port ts).
Proof.
  apply preserves_stmt. intros t a t' Ht. repeat (case_match; simplify_eq/=); intros; simplify_eq; exact Ht.
Qed.
End justified.

Section ticks.
Context `{Formats} {o : Order} (geo : list GeoIP.record) (t0 : Tables) (now : Time).
Abbreviation justified tk := (evidence geo t0 tk (Unix now)).

Lemma just_NewDestinations : Preserves (λ s, grown (justified TickNewDest) t0 (tables s)) (NewDestinations now).
Proof.
  rewrite /NewDestinations. apply grown_query; [|apply _]. intros t Ht.
  apply grown_with_cache, preserves_for_each_in. intros p Hp. rewrite /check_destination.
  apply grown_load_host; [|apply _]. intros host Hh.
  apply preserves_bind; [apply grown_on_store, _|]. intros [known|]; [|apply _].
  apply preserves_bind; [apply grown_on_store; rewrite /ignore; apply preserves_bind; [apply grown_peer|apply _]|]. intros _.
  destruct (negb _); [apply _|]. destruct (Z.ltb_spec (Unix now - h_FirstSeen host) (seconds NewDestinationLearningPeriod)); [apply _|].
  destruct (classifyPeerDirection _ _). apply grown_on_store, grown_raise. intros. split; [done|]. split; [done|].
  rewrite elem_of_ord list_elem_of_fmap in Hp. destruct Hp as ([[[h ip] port] g] & -> & [(f & Hf & Hk) _]%elem_of_group_by).
  injection Hk as <- <- <-. exists f, host. destruct Ht as (_ & _ & Hfl & _). rewrite Hfl in Hf. done.
Qed.

Lemma outbound_group (h : Z) (fs : list FlowRecord) :
  filter (λ f, f_HostID f = h)
    (filter (λ f, f_Direction f = DirLANToWAN ∧ Unix now - seconds ExfilWindow ≤ f_LastSeen f ≤ Unix now) fs) =
  filter (λ f, f_HostID f = h ∧ f_Direction f = DirLANToWAN)
    (filter (λ f, Unix now - 3600 ≤ f_LastSeen f ≤ Unix now) fs).
Proof. rewrite !list_filter_filter. apply list_filter_iff. intros f. change (seconds ExfilWindow) with 3600. tauto. Qed.

Lemma just_ExfilRatio : Preserves (λ s, grown (justified TickExfil) t0 (tables s)) (ExfilRatio now).
Proof.
  rewrite /ExfilRatio. apply grown_query; [|apply _]. intros t Ht.
  apply preserves_for_each_in. intros b Hb. rewrite /check_totals.
  destruct (Z.ltb_spec (hb_BytesSent b) exfilMinBytesSent) as [|Hsent]; [apply _|].
  set ratio := (if _ <? _ then _ else _). destruct (flt ratio exfilRatioThreshold) eqn:Er; [apply _|].
  apply grown_host; [|apply _]. intros host Hh. apply grown_raise. intros. split; [done|]. split; [done|].
  rewrite elem_of_ord list_elem_of_fmap in Hb. destruct Hb as ([h g] & -> & [_ ->]%elem_of_group_by).
  destruct Ht as (_ & _ & Hfl & _). rewrite Hfl in Hsent, ratio, Er. simpl in *.
  rewrite outbound_group in Hsent. rewrite /ratio outbound_group in Er. split; [exact Hsent|]. intros Hr.
  apply Z.ltb_lt in Hr. by rewrite Hr in Er.
Qed.
Lemma scan_group (h : Z) (ip : string) (d : Z) (fs : list FlowRecord) :
  filter (λ f, (f_HostID f, f_RemoteIP f) = (h, ip))
    (filter (λ f, f_Direction f = d ∧ Unix now - seconds PortScanWindow ≤ f_LastSeen f ≤ Unix now) fs) =
  filter (λ f, f_HostID f = h ∧ f_RemoteIP f = ip ∧ f_Direction f = d)
    (filter (λ f, Unix now - 120 ≤ f_LastSeen f ≤ Unix now) fs).
Proof.
  rewrite !list_filter_filter. apply list_filter_iff. intros f. change (seconds PortScanWindow) with 120.
  split; [|naive_solver]. by intros [[= -> ->] [-> ?]].
Qed.

Lemma just_PortScan : Preserves (λ s, grown (justified TickPortScan) t0 (tables s)) (PortScan now).
Proof.
  rewrite /PortScan. apply grown_with_cache, preserves_for_each_in. intros check Hcheck. rewrite /run_check.
  intros r Hr. rewrite /bind /on_store. destruct (HostTargetPortScans _ _ _ _ _ _) as [q s1] eqn:E1.
  assert (grownR (justified TickPortScan) t0 (mkRun s1 (r_hosts r) (r_seen r))) as Hr1.
  { destruct Hr as [Hr Hc]. split; [|done]. simpl. apply query_cases in E1 as [-> _]. exact Hr. }
  apply query_cases in E1 as [Et [->| ->]]; [|done]. revert Hr1. generalize (mkRun s1 (r_hosts r) (r_seen r)).
  apply preserves_for_each_in. intros x Hx. rewrite /check_target.
  apply grown_load_host; [|apply _]. intros host Hh. apply grown_on_store, grown_raise. intros.
  split; [done|]. split; [done|]. exists check, (ts_RemoteIP x).
  rewrite elem_of_ord list_elem_of_filter list_elem_of_fmap in Hx.
  destruct Hx as [Hc ([[h ip] g] & -> & [_ ->]%elem_of_group_by)].
  destruct Hr as [(_ & _ & Hfl & _) _]. rewrite Hfl in Hc. cbn [ts_PortCount ts_RemoteIP ts_HostID] in *. rewrite scan_group in Hc. done.
Qed.

Lemma just_GeoWatchlist : Preserves (λ s, grown (justified TickGeo) t0 (tables s)) (GeoWatchlist geo now).
Proof.
  rewrite /GeoWatchlist. apply grown_query; [|apply _]. intros t1 (Hset & _).
  destruct (settings t1 !! KeyGeoWatchlistCountries) as [raw|] eqn:Eraw; [|apply _]. rewrite Hset in Eraw.
  case_bool_decide; [apply _|]. apply grown_query; [|apply _]. intros t Ht.
  apply grown_with_cache, preserves_for_each_in. intros p Hp r Hr. rewrite /check_country {1}/bind /get.
  cbv beta iota zeta. destruct (bool_decide _); [done|]. rewrite {1}/bind /put. cbv beta iota zeta.
  destruct (_ ≫= _) as [cc|] eqn:Ecc; [|done]. case_bool_decide as Hcc; [|done]. simpl negb. cbv iota.
  match goal with |- grownR _ _ (?m ?x).2 => assert (Preserves (grownR (justified TickGeo) t0) m) as Hm; [|by apply Hm] end.
  apply grown_load_host; [|apply _]. intros host Hh. destruct (classifyPeerDirection _ _).
  apply grown_on_store, grown_raise. intros. split; [done|]. split; [done|].
  rewrite elem_of_ord list_elem_of_fmap in Hp. destruct Hp as ([[[h ip] port] g] & -> & [(f & Hf & Hk) _]%elem_of_group_by).
  injection Hk as <- <- <-. exists raw, cc, f. destruct Ht as (_ & _ & Hfl & _). rewrite Hfl in Hf. done.
Qed.

Lemma beacon_group k (fs : list FlowRecord) :
  pf_FirstSeen <$> filter (λ r, pf_key r = k)
    ((λ f, mkPeerFlowTimestamp (f_HostID f) (f_RemoteIP f) (f_RemotePort f) (f_FirstSeen f)) <$> fs) =
  f_FirstSeen <$> filter (λ f, peer_key f = k) fs.
Proof.
  induction fs as [|f fs IH]; [done|]. rewrite fmap_cons !filter_cons. rewrite /pf_key /peer_key /= in IH |- *.
  case_decide; [|exact IH]. rewrite !fmap_cons. f_equal. exact IH.
Qed.

Lemma just_Beaconing : Preserves (λ s, grown (justified TickBeacon) t0 (tables s)) (Beaconing now).
Proof.
  rewrite /Beaconing. apply grown_query; [|apply _]. intros t Ht.
  apply grown_with_cache, preserves_for_each_in. intros [[[h ip] port] g] Hg. rewrite /check_beacon.
  destruct (beacon_like _) eqn:Eb; [|apply _]. simpl negb. cbv iota.
  apply grown_load_host; [|apply _]. intros host Hh.
  apply grown_on_store, grown_raise. intros. split; [done|]. split; [done|].
  rewrite elem_of_ord in Hg. apply elem_of_group_by in Hg as [_ ->]. eexists ip, port, _. split; [done|].
  split; [|split; [apply pf_sorted_group|exact Eb]].
  rewrite stable_sort_perm (ord_perm o) beacon_group. destruct Ht as (_ & _ & -> & _). done.
Qed.

Lemma just_DNSAnomaly : Preserves (λ s, grown (justified TickDNS) t0 (tables s)) (DNSAnomaly now).
Proof.
  rewrite /DNSAnomaly. apply preserves_bind; [|intros _].
  - rewrite /dnsVolume. apply grown_query; [|apply _]. intros t Ht.
    apply preserves_for_each_in. intros [h c] Hc. rewrite /check_volume.
    destruct (Z.ltb_spec c dnsVolumeThreshold) as [|Hn]; [apply _|].
    apply grown_host; [|apply _]. intros host Hh. apply grown_raise. intros. split; [done|]. split; [done|]. left. split; [done|].
    rewrite elem_of_ord list_elem_of_fmap in Hc. destruct Hc as ([h' g] & [= -> ->] & [_ ->]%elem_of_group_by).
    destruct Ht as (_ & _ & _ & Hq & _). rewrite Hq in Hn. exact Hn.
  - rewrite /dnsEntropy. apply grown_query; [|apply _]. intros t Ht.
    apply grown_with_cache, preserves_for_each_in. intros [[h q] ts] Hq. rewrite /check_entropy.
    destruct (Nat.ltb_spec (String.length (leftmostLabel q)) dnsEntropyMinLabelLen) as [|Hl]; [apply _|].
    destruct (flt _ _) eqn:Ef; [apply _|].
    apply grown_load_host; [|apply _]. intros host Hh.
    apply grown_on_store, grown_raise. intros. split; [done|]. split; [done|]. right.
    rewrite elem_of_ord list_elem_of_fmap in Hq. destruct Hq as (dq & [= -> -> ->] & Hd).
    destruct Ht as (_ & _ & _ & Hdq & _). rewrite Hdq in Hd. by exists dq.
Qed.

Lemma just_tick tk :
  tk ≠ TickPruneDNS → Preserves (λ s, grown (justified tk) t0 (tables s)) (on_detect_tick geo tk now).
Proof.
  assert (∀ E key m, Preserves (λ s, grown E t0 (tables s)) m → Preserves (λ s, grown E t0 (tables s)) (if_enabled key m)) as Hif.
  { intros E key m Hm. apply preserves_bind; [rewrite /DetectorEnabled; apply _|]. intros []; apply _. }
  destruct tk; intros Hne; simpl; try done; apply Hif.
  - apply just_NewDestinations.
  - apply just_PortScan.
  - apply just_DNSAnomaly.
  - apply just_ExfilRatio.
  - apply just_Beaconing.
  - apply just_GeoWatchlist.
Qed.
End ticks.

Lemma prune_dns_alerts `{Formats} {o : Order} geo now s :
  alerts (tables (on_detect_tick geo TickPruneDNS now s).2) = alerts (tables s).
Proof.
  simpl. rewrite /ignore /bind. destruct (PruneDNSQueries _ s) as [r s'] eqn:E1.
  apply exec_cases in E1 as [[-> E1]|[-> E1]]; by rewrite /= E1.
Qed.

(** ** Rows of a port scan *)
Lemma scan_row_ports {o : Order} since now d countLocal minPorts t rows s' r :
  Forall (λ f, 0 ≤ f_LocalPort f < 65536 ∧ 0 ≤ f_RemotePort f < 65536) (flows_recent t).*2 →
  HostTargetPortScans since now d countLocal minPorts (mkStore t []) = (Ok rows, s') → r ∈ rows →
  let ports := parsePortsCSV (ts_PortsCSV r) in
  minPorts ≤ ts_PortCount r ∧ Z.of_nat (length ports) = ts_PortCount r ∧ NoDup ports ∧ StronglySorted Z.le ports ∧
  ∀ p, p ∈ ports ↔ ∃ f, f ∈ recent_flows t since now ∧ f_HostID f = ts_HostID r ∧ f_RemoteIP f = ts_RemoteIP r ∧
                     f_Direction f = d ∧ (if countLocal then f_LocalPort f else f_RemotePort f) = p.
Proof.
  intros Hp Hq. rewrite /HostTargetPortScans /query /stmt /= in Hq. injection Hq as <- _.
  rewrite elem_of_ord list_elem_of_filter list_elem_of_fmap. intros [Hmin ([[h ip] g] & -> & [_ ->]%elem_of_group_by)].
  cbn [ts_PortCount ts_PortsCSV ts_HostID ts_RemoteIP] in Hmin |- *.
  set port := (λ f : FlowRecord, if countLocal then f_LocalPort f else f_RemotePort f) in Hmin |- *.
  set fs := filter (λ f, f_Direction f = d ∧ since ≤ f_LastSeen f ≤ now) (flows_recent t).*2 in Hmin |- *.
  set g := filter (λ x : FlowRecord, (f_HostID x, f_RemoteIP x) = (h, ip)) fs in Hmin |- *.
  destruct (parsePortsCSV_join (ord o (distinct_keys port g))) as [Hperm Hsorted].
  { apply Forall_forall. intros p Hin. rewrite elem_of_ord elem_of_distinct_keys in Hin.
    destruct Hin as (f & [_ [_ Hf]%list_elem_of_filter]%list_elem_of_filter & <-). rewrite Forall_forall in Hp.
    specialize (Hp f Hf). rewrite /port. destruct countLocal; naive_solver. }
  split_and!; [exact Hmin| | |exact Hsorted|].
  - by rewrite Hperm length_ord.
  - rewrite Hperm (ord_perm o). apply NoDup_distinct_keys.
  - intros p. rewrite Hperm (ord_perm o) elem_of_distinct_keys. rewrite /recent_flows. split.
    + intros (f & [[= <- <-] [[<- Hw] Hf]%list_elem_of_filter]%list_elem_of_filter & <-).
      exists f. split; [|done]. by apply list_elem_of_filter.
    + intros (f & [Hw Hf]%list_elem_of_filter & <- & <- & <- & <-). exists f. split; [|done].
      apply list_elem_of_filter. split; [done|]. by apply list_elem_of_filter.
Qed.

Module DetectProperties.

(** A renderer for the examples. *)
Definition plain : Formats := Build_Formats (λ _, Some EmptyString) (λ _, EmptyString) (λ _, EmptyString) (λ x, x).

(** A host that probed twenty ports of one address at time 1000. *)
Definition scanner : Host := mkHost 1 "10.0.0.5" None None 0 1000.
Definition probe (p : nat) : Z * FlowRecord :=
  (Z.of_nat p, mkFlowRecord 1 DirLANToWAN 6 "10.0.0.5" 40000 "203.0.113.9" (Z.of_nat p) 1000 1000 1 1 1 1).
Definition probed : Tables := set_flows (probe <$> seq 1 20) 20 (set_hosts [scanner] 1 emptyTables).

(** C12: However the detectors' ticks follow each other, whatever the order of
    map iterations and query results and whichever statements fail, of two
    alerts for the same host, kind and key the later one was detected more
    than the kind's cooldown after the earlier one. *)
Theorem alerts_respect_cooldown `{Formats} {o : Order} geo ticks s :
  spaced (tables s) → spaced (tables (run_detectors geo ticks s).2).
Proof. apply detectors_spaced. Qed.

Lemma alerts_respect_cooldown_witness :
  let s := mkStore probed [] in
  let s' := (run_detectors (H := plain) (o := ord_rev) [] [(TickPortScan, 1000 * Second); (TickPortScan, 1010 * Second)] s).2 in
  spaced (tables s) ∧ length (alerts (tables s')) = 1%nat ∧ spaced (tables s').
Proof.
  assert (spaced probed) as Hs by (intros i j x y _ Hx; by destruct i).
  intros s s'. split; [exact Hs|]. split; [vm_compute; reflexivity|]. apply alerts_respect_cooldown. exact Hs.
Defined.

(** C5: Every alert a tick adds is stamped with the tick's time and backed by
    the tables: a flow to the peer in the last two minutes from a host known
    for three days (new destination); fifteen distinct ports with one address
    (port scan); three hundred queries in ten minutes, or a query whose first
    label is long and of high entropy (DNS); twenty MiB sent to the WAN in an
    hour at five times what was received (exfiltration); contact times that
    pass the regularity test in ascending order (beaconing); a flow with an
    address of a country on the configured list (watchlist).  Earlier alerts
    stay, and the pruning tick adds none. *)
Theorem alerts_are_justified `{Formats} {o : Order} geo tk now s :
  ∃ new, alerts (tables (on_detect_tick geo tk now s).2) = alerts (tables s) ++ new ∧
    Forall (λ r, evidence geo (tables s) tk (Unix now) (ar_rec r)) new.
Proof.
  destruct (decide (tk = TickPruneDNS)) as [->|Hne].
  - exists []. rewrite prune_dns_alerts app_nil_r. done.
  - apply (just_tick geo (tables s) now tk Hne s). apply grown_refl.
Qed.

(** For a peer seen in the scan window, when no statement fails, the peer's
    last-seen time becomes the current time, and an alert is raised exactly
    when the peer was unknown or unseen for thirty days, the host has been
    known for three days, and no alert for the peer was raised in the last
    six hours. *)
Theorem new_destination_decision `{Formats} now p host t :
  find_host t (dp_HostID p) = Some host →
  let k := (dp_HostID p, dp_RemoteIP p, dp_RemotePort p) in
  let key := peer_text (dp_RemoteIP p) (dp_RemotePort p) in
  let t' := tables (r_db (check_destination now p (mkRun (mkStore t []) ∅ ∅)).2) in
  snd <$> known_peers t' !! k = Some now ∧
  if is_new t k now && (259200 <=? now - h_FirstSeen host) && negb (recently_alerted t (dp_HostID p) key now)
  then ∃ row, alerts t' = alerts t ++ [row] ∧ a_HostID (ar_rec row) = dp_HostID p ∧
         a_Kind (ar_rec row) = AlertKindNewDestination ∧ a_DedupeKey (ar_rec row) = key ∧ a_DetectedAt (ar_rec row) = now
  else alerts t' = alerts t.
Proof. apply check_destination_run. Qed.

Lemma new_destination_decision_witness :
  find_host probed 1 = Some scanner ∧
  let p := mkDistinctRecentPeer 1 "203.0.113.9" 443 1000 true false in
  is_new probed (1, "203.0.113.9"%string, 443) 1000000 = true ∧
  ∃ row, alerts (tables (r_db (check_destination (H := plain) 1000000 p (mkRun (mkStore probed []) ∅ ∅)).2)) = [row].
Proof.
  split; [reflexivity|]. intros p. split; [vm_compute; reflexivity|].
  destruct (new_destination_decision (H := plain) 1000000 p scanner probed eq_refl) as [_ Ha].
  change (is_new _ _ _ && _ && _) with true in Ha. destruct Ha as (row & Ha & _). exists row. exact Ha.
Defined.

(** The ports of a port-scan row are recovered exactly: parsing the
    column gives, in ascending order and once each, the ports of the flows of
    that host and address in the window and direction, as many as the row's
    count, which reaches the threshold. *)
Theorem port_list_roundtrip {o : Order} since now d countLocal minPorts t rows s' r :
  Forall (λ f, 0 ≤ f_LocalPort f < 65536 ∧ 0 ≤ f_RemotePort f < 65536) (flows_recent t).*2 →
  HostTargetPortScans since now d countLocal minPorts (mkStore t []) = (Ok rows, s') → r ∈ rows →
  let ports := parsePortsCSV (ts_PortsCSV r) in
  minPorts ≤ ts_PortCount r ∧ Z.of_nat (length ports) = ts_PortCount r ∧ NoDup ports ∧ StronglySorted Z.le ports ∧
  ∀ p, p ∈ ports ↔ ∃ f, f ∈ recent_flows t since now ∧ f_HostID f = ts_HostID r ∧ f_RemoteIP f = ts_RemoteIP r ∧
                     f_Direction f = d ∧ (if countLocal then f_LocalPort f else f_RemotePort f) = p.
Proof. apply scan_row_ports. Qed.

Lemma port_list_roundtrip_witness :
  let rows := match (HostTargetPortScans (o := ord_rev) 900 1100 DirLANToWAN false 15 (mkStore probed [])).1 with
              | Ok rows => rows | Err _ => [] end in
  ∃ r, rows = [r] ∧ ts_PortCount r = 20 ∧ StronglySorted Z.le (parsePortsCSV (ts_PortsCSV r)).
Proof.
  eexists. split; [vm_compute; reflexivity|]. split; [reflexivity|].
  refine (proj1 (proj2 (proj2 (proj2 (port_list_roundtrip (o := ord_rev) 900 1100 DirLANToWAN false 15 probed [_] (mkStore probed []) _ _ _ _))))).
  - apply Forall_fmap, Forall_fmap, Forall_forall. intros n Hn%elem_of_seq. simpl. lia.
  - vm_compute. reflexivity.
  - left.
Defined.
End DetectProperties.
