(* ===== verification/Config.v ===== *)
(** * Settings, first-run setup and startup ([internal/config], [cmd/run.go])

    [Load] turns the settings table into a [Settings] record.  The first-run
    wizard asks for its answers on a terminal, which is a list of lines and a
    list of password entries (an entry is [None] when reading it fails; the end
    of the lines is the end of the input), creates the admin and writes the
    settings.  [startup] is [runCmd] up to the point where the goroutines run. *)

From stdpp Require Import prelude strings gmap list.
From Stdlib Require Import ZArith Lia Ascii.
From Corelib Require Import ssreflect.
From S2P Require Import Prelude GoStrings GoNet GoTime Store StoreProofs Rollup Auth Web.

Open Scope general_if_scope.
Open Scope Z_scope.

(** ** [config.go] *)
Record Settings := mkSettings {
  CaptureInterface : string; LANSubnetCIDR : string; RetentionDays : Z;
  TLSCertPath : string; TLSKeyPath : string; HTTPListenAddr : string; FlushInterval : Z
}.

Definition DefaultHTTPListenAddr : string := ":8443".
Definition DefaultFlushInterval : Z := 10.

Definition valueOr (v def : string) : string := if bool_decide (v = EmptyString) then def else v.

Inductive ConfigError := LoadError (e : DBError) | RetentionError | FlushError.

(** [kv[key]]: the empty string when the key is absent. *)
Definition value (kv : gmap string string) (key : string) : string := default EmptyString (kv !! key).

(** What [Load] does with the map it read. *)
Definition parse_settings (kv : gmap string string) : Result ConfigError Settings :=
  match atoi (valueOr (value kv KeyRetentionDays) "30") with
  | None => Err RetentionError
  | Some days =>
      match atoi (valueOr (value kv KeyFlushIntervalSecs) (itoa DefaultFlushInterval)) with
      | None => Err FlushError
      | Some secs =>
          Ok (mkSettings (value kv KeyCaptureInterface) (value kv KeyLANSubnetCIDR) days
                (value kv KeyTLSCertPath) (value kv KeyTLSKeyPath)
                (valueOr (value kv KeyHTTPListenAddr) DefaultHTTPListenAddr) secs)
      end
  end.

Definition Load : M Store (Result ConfigError Settings) :=
  let! r := AllSettings in
  ret (match r with Err e => Err (LoadError e) | Ok kv => parse_settings kv end).

Definition setup_complete (t : Tables) : bool :=
  bool_decide (settings t !! KeySetupComplete = Some "1"%string).

Definition IsSetupComplete : DB bool :=
  let? v := GetSetting KeySetupComplete in
  ret (Ok (bool_decide (v = Some "1"%string))).

(** ** [interfaces.go] *)
Record Interface := mkInterface { if_Name : string; if_Flags : Z }.
Definition FlagLoopback : Z := 4.

(** [ifaces]: what the system lists, if it does; [stat name]: whether
    [/sys/class/net/name] exists. *)
Definition ListCaptureInterfaces (ifaces : option (list Interface)) (stat : string → bool) : option (list Interface) :=
  filter (λ i, Z.land (if_Flags i) FlagLoopback = 0 ∧ stat (if_Name i) = true) <$> ifaces.

(** ** [firstrun.go] *)
Inductive WizardError :=
  | ErrNotInteractive | ErrListInterfaces | ErrNoInterfaces | ErrEOF | ErrReadPassword
  | ErrHashPassword (e : AuthError) | ErrCreateUser (e : DBError) | ErrSaveSettings (e : DBError)
  | ErrFinalize (e : DBError).

Definition wizardMinPasswordLen : nat := 12.

Definition retentionChoices : list (string * Z) :=
  [("1 week", 7); ("1 month", 30); ("90 days", 90); ("1 year", 365)]%string.

(** The loop every prompt shares: read a line, trim it, and ask again until
    the line is accepted. *)
Fixpoint prompt {A} (accept : string → option A) (lines : list string) : Result WizardError A * list string :=
  match lines with
  | [] => (Err ErrEOF, [])
  | line :: rest =>
      match accept (trim_space line) with
      | Some a => (Ok a, rest)
      | None => prompt accept rest
      end
  end.

(** Choose from a menu by number; an empty line chooses entry [def]. *)
Definition menu {A} (entries : list A) (def : nat) (line : string) : option A :=
  if bool_decide (line = EmptyString) then entries !! def else
  match atoi line with
  | None => None
  | Some idx => if (idx <? 1) || (Z.of_nat (length entries) <? idx) then None else entries !! Z.to_nat (idx - 1)
  end.

Definition promptInterface (ifaces : option (list Interface)) (lines : list string) : Result WizardError string * list string :=
  match ifaces with
  | None => (Err ErrListInterfaces, lines)
  | Some [] => (Err ErrNoInterfaces, lines)
  | Some l => prompt (menu (if_Name <$> l) 0) lines
  end.

Definition promptSubnet : list string → Result WizardError string * list string :=
  prompt (λ line, if ParseCIDR line is Some _ then Some line else None).

Definition promptRetention : list string → Result WizardError Z * list string :=
  prompt (menu (retentionChoices.*2) 1).

Definition promptUsername : list string → Result WizardError string * list string :=
  prompt (λ line, if bool_decide (line = EmptyString) then None else Some line).

Fixpoint promptPassword (entries : list (option string)) : Result WizardError string * list (option string) :=
  match entries with
  | [] => (Err ErrReadPassword, [])
  | None :: rest => (Err ErrReadPassword, rest)
  | Some pw1 :: rest =>
      if (String.length pw1 <? wizardMinPasswordLen)%nat then promptPassword rest else
      match rest with
      | [] => (Err ErrReadPassword, [])
      | None :: rest' => (Err ErrReadPassword, rest')
      | Some pw2 :: rest' => if bool_decide (pw1 = pw2) then (Ok pw1, rest') else promptPassword rest'
      end
  end.

(** The terminal and the database. *)
Record Wizard := mkWizard { w_lines : list string; w_passwords : list (option string); w_db : Store }.

Definition ask {A} (f : list string → Result WizardError A * list string) : M Wizard (Result WizardError A) := λ w,
  let '(r, ls) := f (w_lines w) in (r, mkWizard ls (w_passwords w) (w_db w)).
Definition ask_password : M Wizard (Result WizardError string) := λ w,
  let '(r, ps) := promptPassword (w_passwords w) in (r, mkWizard (w_lines w) ps (w_db w)).
Definition with_db {A} (m : M Store A) : M Wizard A := λ w,
  let '(r, s) := m (w_db w) in (r, mkWizard (w_lines w) (w_passwords w) s).
Definition on_db {A} (wrap : DBError → WizardError) (m : DB A) : M Wizard (Result WizardError A) :=
  let! r := with_db m in
  ret (match r with Ok a => Ok a | Err e => Err (wrap e) end).

(** What the process finds around it. *)
Record Env := mkEnv {
  e_interactive : bool;                          (* stdin is a terminal *)
  e_interfaces : option (list Interface);        (* net.Interfaces *)
  e_stat : string → bool;                        (* the interface has a device node *)
  e_salt : option bytes;                         (* crypto/rand *)
  e_now : Time
}.

Section wizard.
Context `{Argon2} {o : Order}.

(** The settings the wizard saves. *)
Definition answers (iface subnet : string) (retentionDays : Z) : gmap string string :=
  <[KeyCaptureInterface := iface]> (<[KeyLANSubnetCIDR := subnet]> (<[KeyRetentionDays := itoa retentionDays]>
  (<[KeyHTTPListenAddr := DefaultHTTPListenAddr]> {[KeyFlushIntervalSecs := itoa DefaultFlushInterval]}))).

Definition RunFirstRunWizard (env : Env) : M Wizard (Result WizardError unit) :=
  if negb (e_interactive env) then ret (Err ErrNotInteractive) else
  let? iface := ask (promptInterface (ListCaptureInterfaces (e_interfaces env) (e_stat env))) in
  let? subnet := ask promptSubnet in
  let? retentionDays := ask promptRetention in
  let? username := ask promptUsername in
  let? password := ask_password in
  match HashPassword password (e_salt env) with
  | Err e => ret (Err (ErrHashPassword e))
  | Ok hash =>
      let? _ := on_db ErrCreateUser (CreateUser username hash RoleAdmin (Unix (e_now env))) in
      let? _ := on_db ErrSaveSettings (SetSettings (answers iface subnet retentionDays)) in
      on_db ErrFinalize (SetSetting KeySetupComplete "1")
  end.

(** ** [runCmd] *)

(** What runs once startup succeeded. *)
Record Instance_ := mkInstance {
  i_lan : IPNet; i_flushEvery : Duration; i_scheduler : Scheduler; i_addr : string; i_interface : string
}.

Inductive Exit := ExitCode (code : Z) | Running (i : Instance_) | TickerPanic.

Definition exitNoInteractiveSetup : Z := 10.

(** From the opened database on.  [newFile]: the database file did not exist;
    [source_ok], [server_ok]: the capture interface and the web server (its
    certificate included) could be set up.  [Pipeline.Run] creates its ticker
    with [time.NewTicker], which panics unless the interval is positive. *)
Definition startup (env : Env) (newFile source_ok server_ok : bool) : M Wizard Exit :=
  let! done := with_db IsSetupComplete in
  match done with
  | Err _ => ret (ExitCode 1)
  | Ok setupDone =>
      let! w :=
        (if newFile || negb setupDone then
           if negb (e_interactive env) then ret (Some exitNoInteractiveSetup)
           else let! r := RunFirstRunWizard env in
                ret (match r with Ok _ => None | Err _ => Some 1 end)
         else ret None) in
      match w with
      | Some code => ret (ExitCode code)
      | None =>
          let! l := with_db Load in
          match l with
          | Err _ => ret (ExitCode 1)
          | Ok st =>
              match ParseCIDR (LANSubnetCIDR st) with
              | None => ret (ExitCode 1)
              | Some lan =>
                  if negb source_ok then ret (ExitCode 1) else
                  if negb server_ok then ret (ExitCode 1) else
                  let flushEvery := dmul (FlushInterval st) Second in
                  ret (if 0 <? flushEvery
                       then Running (mkInstance lan flushEvery (mkScheduler (RetentionDays st))
                                       (HTTPListenAddr st) (CaptureInterface st))
                       else TickerPanic)
              end
          end
      end
  end.
End wizard.

(** ** What the operator types

    A reading of the terminal's input that does not mention the prompts' code:
    which lines are answers to which question. *)

(** The first line that answers the question, all before it do not, and what
    follows is left for the next question. *)
Definition first_answer {A} (answers_with : string → A → Prop) (lines : list string) (a : A) (rest : list string) : Prop :=
  ∃ junk line, lines = junk ++ line :: rest ∧ answers_with (trim_space line) a ∧
    ∀ l b, l ∈ junk → ¬ answers_with (trim_space l) b.

(** An entry of a numbered menu: by its number from 1 on, or the default by an
    empty line. *)
Definition chooses {A} (entries : list A) (def : nat) (line : string) (a : A) : Prop :=
  (line = EmptyString ∧ entries !! def = Some a) ∨
  (line ≠ EmptyString ∧ ∃ i : nat, atoi line = Some (Z.of_nat i + 1) ∧ entries !! i = Some a).

Definition is_subnet (line subnet : string) : Prop := subnet = line ∧ is_Some (ParseCIDR line).
Definition is_name (line name : string) : Prop := name = line ∧ line ≠ EmptyString.

(** Attempts at a password that were refused: too short, or not repeated. *)
Inductive refused : list (option string) → Prop :=
  | refused_nil : refused []
  | refused_short pw l : (String.length pw < 12)%nat → refused l → refused (Some pw :: l)
  | refused_mismatch pw1 pw2 l : (12 ≤ String.length pw1)%nat → pw1 ≠ pw2 → refused l →
      refused (Some pw1 :: Some pw2 :: l).

(** The interfaces offered: those with a device node, loopback excepted. *)
Definition candidates (env : Env) : list string :=
  match e_interfaces env with
  | None => []
  | Some l => if_Name <$> filter (λ i, Z.testbit (if_Flags i) 2 = false ∧ e_stat env (if_Name i) = true) l
  end.

(** The input of [w], up to that of [w'], gives these answers. *)
Definition Typed (env : Env) (w : Wizard) (iface subnet : string) (days : Z) (username password : string) (w' : Wizard) : Prop :=
  (∃ l1 l2 l3,
    first_answer (chooses (candidates env) 0) (w_lines w) iface l1 ∧
    first_answer is_subnet l1 subnet l2 ∧
    first_answer (chooses [7; 30; 90; 365] 1) l2 days l3 ∧
    first_answer is_name l3 username (w_lines w')) ∧
  (∃ attempts, w_passwords w = attempts ++ Some password :: Some password :: w_passwords w' ∧
    refused attempts ∧ (12 ≤ String.length password)%nat).

(** The prompts find those answers, and only those. *)
Lemma prompt_iff {A} (accept : string → option A) (R : string → A → Prop) lines a rest :
  (∀ line b, accept line = Some b ↔ R line b) →
  prompt accept lines = (Ok a, rest) ↔ first_answer R lines a rest.
Proof.
  intros HR. rewrite /first_answer. split.
  - induction lines as [|l lines IH]; simpl; [done|]. destruct (accept (trim_space l)) as [b|] eqn:E.
    + intros [= -> ->]. exists [], l. split_and!; [done|by apply HR|]. intros ? ? ?%elem_of_nil. done.
    + intros (junk & line & -> & Hr & Hj)%IH. exists (l :: junk), line. split_and!; [done..|].
      intros l' b [->|Hl']%elem_of_cons; [|by apply Hj]. intros Hb%HR. congruence.
  - intros (junk & line & -> & Hr & Hj). induction junk as [|l junk IH]; simpl.
    + apply HR in Hr. by rewrite Hr.
    + destruct (accept (trim_space l)) as [b|] eqn:E; [|apply IH; intros; apply Hj; by right].
      apply HR in E. destruct (Hj l b); [by left|done].
Qed.

Lemma menu_iff {A} (entries : list A) def line a : menu entries def line = Some a ↔ chooses entries def line a.
Proof.
  rewrite /menu /chooses. destruct (bool_decide_reflect (line = EmptyString)) as [->|Hne].
  - split; [by left|intros [[_ ?]|[? _]]; done].
  - split.
    + destruct (atoi line) as [idx|] eqn:Ei; [|done].
      destruct (Z.ltb_spec idx 1); [done|]. destruct (Z.ltb_spec (Z.of_nat (length entries)) idx); [done|]. simpl.
      intros Ha. right. split; [done|]. exists (Z.to_nat (idx - 1)). split; [f_equal; lia|done].
    + intros [[? _]|(_ & i & -> & Hi)]; [done|]. pose proof (lookup_lt_Some _ _ _ Hi) as Hlt.
      destruct (Z.ltb_spec (Z.of_nat i + 1) 1); [lia|].
      destruct (Z.ltb_spec (Z.of_nat (length entries)) (Z.of_nat i + 1)); [lia|]. simpl.
      rewrite (_ : Z.to_nat (Z.of_nat i + 1 - 1) = i); [lia|done].
Qed.

Lemma candidates_listed env :
  default [] (ListCaptureInterfaces (e_interfaces env) (e_stat env)) = [] ∧ candidates env = [] ∨
  ∃ l, ListCaptureInterfaces (e_interfaces env) (e_stat env) = Some l ∧ l ≠ [] ∧ candidates env = if_Name <$> l.
Proof.
  rewrite /ListCaptureInterfaces /candidates. destruct (e_interfaces env) as [l|]; [|by left]. simpl.
  rewrite (list_filter_iff (λ i, Z.testbit (if_Flags i) 2 = false ∧ e_stat env (if_Name i) = true)
             (λ i, Z.land (if_Flags i) FlagLoopback = 0 ∧ e_stat env (if_Name i) = true)).
  - intros i. apply and_iff_compat_r. rewrite /FlagLoopback. split.
    + intros Hb. apply Z.bits_inj. intros n. rewrite Z.land_spec Z.bits_0 (Z.pow2_bits_eqb 2) //.
      destruct (Z.eqb_spec 2 n) as [<-|]; [by rewrite Hb|apply andb_false_r].
    + intros Hl. apply (f_equal (λ z, Z.testbit z 2)) in Hl. by rewrite Z.land_spec andb_true_r in Hl.
  - destruct (filter _ l) as [|i l'] eqn:E; [left|right]; rewrite ?E //. by exists (i :: l').
Qed.

Lemma promptInterface_iff env lines a rest :
  promptInterface (ListCaptureInterfaces (e_interfaces env) (e_stat env)) lines = (Ok a, rest) ↔
  first_answer (chooses (candidates env) 0) lines a rest.
Proof.
  rewrite /promptInterface. destruct (candidates_listed env) as [[E ->]|(l & -> & Hl & ->)].
  - destruct (ListCaptureInterfaces _ _) as [[|i l]|]; [|done|].
    all: split; [done|]; intros (junk & line & _ & [[_ ?]|(_ & i & _ & ?)] & _); done.
  - destruct l as [|i l]; [done|]. apply prompt_iff. intros. apply menu_iff.
Qed.

Lemma promptSubnet_iff lines a rest : promptSubnet lines = (Ok a, rest) ↔ first_answer is_subnet lines a rest.
Proof.
  apply prompt_iff. intros line b. rewrite /is_subnet. destruct (ParseCIDR line).
  - split; [intros [= <-]; eauto|by intros [-> _]].
  - split; [done|]. by intros [_ [? ?]].
Qed.

Lemma promptRetention_iff lines a rest :
  promptRetention lines = (Ok a, rest) ↔ first_answer (chooses [7; 30; 90; 365] 1) lines a rest.
Proof. apply prompt_iff. intros. apply menu_iff. Qed.

Lemma promptUsername_iff lines a rest : promptUsername lines = (Ok a, rest) ↔ first_answer is_name lines a rest.
Proof.
  apply prompt_iff. intros line b. rewrite /is_name. case_bool_decide.
  - split; [done|]. by intros [_ ?].
  - split; [by intros [= <-]|by intros [-> _]].
Qed.

Lemma promptPassword_iff entries pw rest :
  promptPassword entries = (Ok pw, rest) ↔
  ∃ attempts, entries = attempts ++ Some pw :: Some pw :: rest ∧ refused attempts ∧ (12 ≤ String.length pw)%nat.
Proof.
  split.
  - remember (length entries) as n eqn:Hn. assert (length entries ≤ n)%nat as Hle by lia. clear Hn.
    revert entries Hle. induction n as [|n IH]; intros [|[pw1|] es] Hle; simpl in *; try done; [lia|].
    destruct (Nat.ltb_spec (String.length pw1) wizardMinPasswordLen) as [|Hlen].
    { intros (att & -> & Hr & Hl)%IH; [|lia]. exists (Some pw1 :: att). split_and!; [done|by constructor|done]. }
    destruct es as [|[pw2|] es']; [done| |done]. case_bool_decide as Heq.
    + intros [= <- <-]. subst pw2. exists []. split_and!; [done|constructor|done].
    + intros (att & -> & Hr & Hl)%IH; [|simpl in Hle; lia].
      exists (Some pw1 :: Some pw2 :: att). split_and!; [done|by constructor|done].
  - intros (att & -> & Hr & Hl). induction Hr as [|pw1 l Hs _ IH|pw1 pw2 l Hs Hne _ IH]; simpl.
    + destruct (Nat.ltb_spec (String.length pw) wizardMinPasswordLen) as [Hlt|]; [rewrite /wizardMinPasswordLen in Hlt; lia|].
      by rewrite bool_decide_eq_true_2.
    + destruct (Nat.ltb_spec (String.length pw1) wizardMinPasswordLen) as [|Hge]; [done|]. rewrite /wizardMinPasswordLen in Hge. lia.
    + destruct (Nat.ltb_spec (String.length pw1) wizardMinPasswordLen) as [Hlt|]; [rewrite /wizardMinPasswordLen in Hlt; lia|].
      by rewrite bool_decide_eq_false_2.
Qed.

(** ** Saving settings *)
Lemma SetSettings_ok {o : Order} kv s s' :
  SetSettings kv s = (Ok tt, s') → tables s' = set_settings (kv ∪ settings (tables s)) (tables s).
Proof.
  rewrite /SetSettings. intros (s1 & s2 & E1 & Hb & ->)%transaction_cases. rewrite -E1. clear E1 s s'.
  rewrite /bind in Hb. destruct (exec id s1) as [r s3] eqn:E3. apply exec_cases in E3 as [[-> E3]|[-> _]]; [|done].
  rewrite /id in E3. rewrite -E3. clear E3 s1. revert Hb.
  assert (∀ l, NoDup l.*1 → try_each (λ '(k, v), exec (set_setting k v)) l s3 = (Ok tt, s2) →
     tables s2 = set_settings (list_to_map l ∪ settings (tables s3)) (tables s3)) as Hl.
  { intros l Hnd Ht. revert Hnd. revert l s3 s2 Ht.
    apply (try_each_ok _ (λ l s s', NoDup l.*1 → tables s' = set_settings (list_to_map l ∪ settings (tables s)) (tables s))).
    - intros s _. rewrite /= map_empty_union. by destruct (tables s).
    - intros [k v] l s s1 s2 E IH [Hk Hnd]%NoDup_cons. apply exec_cases in E as [[_ E]|[? _]]; [|done].
      rewrite (IH Hnd) E. transitivity (set_settings (list_to_map l ∪ <[k:=v]> (settings (tables s))) (tables s)); [done|].
      f_equal. rewrite /= -insert_union_l -insert_union_r; [by apply not_elem_of_list_to_map_1|done]. }
  intros Hb. rewrite (Hl _ _ Hb).
  - rewrite (ord_perm o). apply NoDup_fst_map_to_list.
  - do 2 f_equal. rewrite -{2}(list_to_map_to_list kv). apply list_to_map_proper; [|apply ord_perm].
    rewrite (ord_perm o). apply NoDup_fst_map_to_list.
Qed.

Lemma SetSettings_err {o : Order} kv s e s' : SetSettings kv s = (Err e, s') → tables s' = tables s.
Proof. rewrite /SetSettings. by intros ?%transaction_cases. Qed.

(** On a database that answers. *)
Lemma SetSettings_healthy {o : Order} kv s : faults s = [] → ∃ s', SetSettings kv s = (Ok tt, s') ∧ faults s' = [].
Proof.
  intros Hf. destruct s as [t f]. simpl in Hf. subst f. rewrite /SetSettings /transaction /exec /stmt /bind /=.
  assert (∀ l t, ∃ t', try_each (λ '(k, v) s, stmt (λ t, Ok (tt, set_setting k v t)) s) l (mkStore t []) = (Ok tt, mkStore t' []))
    as Hl.
  { induction l as [|[k v] l IH]; intros t1; [by exists t1|]. apply IH. }
  destruct (Hl (ord o (map_to_list kv)) t) as [t' E]. rewrite /exec /stmt in E. rewrite E. by eexists.
Qed.

(** ** What a run of the wizard did *)
Lemma ask_db {A} (f : list string → Result WizardError A * list string) w r w' :
  ask f w = (r, w') → w_db w' = w_db w ∧ f (w_lines w) = (r, w_lines w') ∧ w_passwords w' = w_passwords w.
Proof. rewrite /ask. destruct (f (w_lines w)) as [r0 ls] eqn:E. by intros [= <- <-]. Qed.

Lemma ask_password_db w r w' :
  ask_password w = (r, w') →
  w_db w' = w_db w ∧ promptPassword (w_passwords w) = (r, w_passwords w') ∧ w_lines w' = w_lines w.
Proof. rewrite /ask_password. destruct (promptPassword (w_passwords w)) as [r0 ls] eqn:E. by intros [= <- <-]. Qed.

Lemma ask_run {A} (f : list string → Result WizardError A * list string) ls ps db a rest :
  f ls = (Ok a, rest) → ask f (mkWizard ls ps db) = (Ok a, mkWizard rest ps db).
Proof. rewrite /ask /=. by intros ->. Qed.

Lemma on_db_keeps {A} wrap (m : DB A) w r w' :
  on_db wrap m w = (r, w') → w_lines w' = w_lines w ∧ w_passwords w' = w_passwords w.
Proof. rewrite /on_db /bind /with_db. destruct (m (w_db w)) as [q s]. by intros [= <- <-]. Qed.

Lemma on_db_run {A} wrap (m : DB A) ls ps s a s' :
  m s = (Ok a, s') → on_db wrap m (mkWizard ls ps s) = (Ok a, mkWizard ls ps s').
Proof. rewrite /on_db /bind /with_db /=. by intros ->. Qed.

Lemma on_db_cases {A} wrap (m : DB A) w r w' :
  on_db wrap m w = (r, w') → ∃ q, m (w_db w) = (q, w_db w') ∧ r = match q with Ok a => Ok a | Err e => Err (wrap e) end.
Proof. rewrite /on_db /bind /with_db. destruct (m (w_db w)) as [q s]. intros [= <- <-]. by exists q. Qed.

Lemma CreateUser_ok username hash role at_ s id s' :
  CreateUser username hash role at_ s = (Ok id, s') →
  (username ∉ u_Username <$> users (tables s)) ∧
  tables s' = set_users (users (tables s) ++ [mkUser (users_seq (tables s) + 1) username hash role at_])
                (users_seq (tables s) + 1) (tables s).
Proof.
  intros [E _]%stmt_cases. destruct (existsb _ _) eqn:Ex; [done|]. injection E as _ <-. split; [|done].
  intros (u & -> & Hu)%list_elem_of_fmap. apply not_true_iff_false in Ex. apply Ex, existsb_exists. exists u.
  split; [by apply list_elem_of_In|]. by apply bool_decide_eq_true_2.
Qed.

Section wizard_runs.
Context `{Argon2} {o : Order} (env : Env).

(** The tables after the account was created, and after the settings were. *)
Definition with_admin (username hash : string) (t : Tables) : Tables :=
  set_users (users t ++ [mkUser (users_seq t + 1) username hash RoleAdmin (Unix (e_now env))]) (users_seq t + 1) t.
Definition with_answers (iface subnet : string) (days : Z) (t : Tables) : Tables :=
  set_settings (answers iface subnet days ∪ settings t) t.

Lemma wizard_ok w w' :
  RunFirstRunWizard env w = (Ok tt, w') →
  let t := tables (w_db w) in
  ∃ iface subnet days username password hash,
    Typed env w iface subnet days username password w' ∧ HashPassword password (e_salt env) = Ok hash ∧
    (username ∉ u_Username <$> users t) ∧
    tables (w_db w') = set_setting KeySetupComplete "1" (with_answers iface subnet days (with_admin username hash t)).
Proof.
  rewrite /RunFirstRunWizard. destruct (e_interactive env); [|done]. simpl negb. cbv iota.
  intros (iface & w1 & (D1 & E1 & P1)%ask_db & H1)%try_ok. apply try_ok in H1 as (subnet & w2 & (D2 & E2 & P2)%ask_db & H2).
  apply try_ok in H2 as (days & w3 & (D3 & E3 & P3)%ask_db & H3). apply try_ok in H3 as (username & w4 & (D4 & E4 & P4)%ask_db & H4).
  apply try_ok in H4 as (password & w5 & (D5 & E5 & L5)%ask_password_db & H5).
  destruct (HashPassword password (e_salt env)) as [hash|] eqn:Eh; [|done].
  apply try_ok in H5 as (id & w6 & O6 & H6). pose proof (on_db_keeps _ _ _ _ _ O6) as [L6 P6].
  apply on_db_cases in O6 as (q6 & E6 & R6). destruct q6 as [id'|]; [|done].
  apply try_ok in H6 as ([] & w7 & O7 & H7). pose proof (on_db_keeps _ _ _ _ _ O7) as [L7 P7].
  apply on_db_cases in O7 as (q7 & E7 & R7). destruct q7 as [[]|]; [|done].
  pose proof (on_db_keeps _ _ _ _ _ H7) as [L8 P8].
  apply on_db_cases in H7 as (q8 & E8 & R8). destruct q8 as [[]|]; [|done].
  apply CreateUser_ok in E6 as [Hnew E6]. apply SetSettings_ok in E7. apply exec_cases in E8 as [[_ E8]|[? _]]; [|done].
  rewrite D5 D4 D3 D2 D1 in Hnew, E6. exists iface, subnet, days, username, password, hash. split_and!; [|done..|].
  - split.
    + exists (w_lines w1), (w_lines w2), (w_lines w3). rewrite L8 L7 L6 L5.
      by rewrite -promptInterface_iff -promptSubnet_iff -promptRetention_iff -promptUsername_iff.
    + rewrite P8 P7 P6 -P1 -P2 -P3 -P4. by apply promptPassword_iff.
  - by rewrite E8 E7 E6.
Qed.

(** The answers are enough when the database answers. *)
Lemma wizard_completes w w' iface subnet days username password hash :
  e_interactive env = true → Typed env w iface subnet days username password w' →
  HashPassword password (e_salt env) = Ok hash → faults (w_db w) = [] →
  (username ∉ u_Username <$> users (tables (w_db w))) →
  ∃ w'', RunFirstRunWizard env w = (Ok tt, w'').
Proof.
  intros Hi [(l1 & l2 & l3 & T1 & T2 & T3 & T4) TP] Hh Hf Hnew. destruct w as [ls ps [t fl]]. simpl in *. subst fl.
  apply promptInterface_iff in T1. apply promptSubnet_iff in T2. apply promptRetention_iff in T3.
  apply promptUsername_iff in T4. apply promptPassword_iff in TP.
  rewrite /RunFirstRunWizard Hi. cbn [negb].
  rewrite (bind_run _ _ _ _ _ (ask_run _ _ _ _ _ _ T1)) (bind_run _ _ _ _ _ (ask_run _ _ _ _ _ _ T2)).
  rewrite (bind_run _ _ _ _ _ (ask_run _ _ _ _ _ _ T3)) (bind_run _ _ _ _ _ (ask_run _ _ _ _ _ _ T4)).
  rewrite {1}/bind /ask_password /= TP Hh.
  erewrite bind_run; [|apply on_db_run; rewrite /CreateUser /stmt /=].
  2: { destruct (existsb _ _) eqn:Ex; [|reflexivity]. exfalso. apply existsb_exists in Ex as (u & Hu & Heq%bool_decide_eq_true).
       apply Hnew. rewrite -Heq. apply list_elem_of_fmap_2. by apply list_elem_of_In. }
  cbv beta iota.
  match goal with |- context [bind (on_db _ (SetSettings ?kv)) _ (mkWizard _ _ ?s)] =>
    destruct (SetSettings_healthy kv s eq_refl) as ([t' fl] & E & Hfl) end.
  simpl in Hfl. subst fl. rewrite (bind_run _ _ _ _ _ (on_db_run _ _ _ _ _ _ _ E)). by eexists.
Qed.

Lemma wizard_err w e w' :
  RunFirstRunWizard env w = (Err e, w') →
  let t := tables (w_db w) in
  tables (w_db w') = t ∨
  (∃ username hash d, e = ErrSaveSettings d ∧ tables (w_db w') = with_admin username hash t) ∨
  (∃ iface subnet days username hash d, e = ErrFinalize d ∧
     tables (w_db w') = with_answers iface subnet days (with_admin username hash t)).
Proof.
  rewrite /RunFirstRunWizard. destruct (e_interactive env); [|intros [= <- <-]; by left]. simpl negb. cbv iota.
  intros [(D1 & _ & _)%ask_db|(iface & w1 & (D1 & _ & _)%ask_db & H1)]%try_err; [left; by rewrite D1|].
  apply try_err in H1 as [(D2 & _ & _)%ask_db|(subnet & w2 & (D2 & _ & _)%ask_db & H2)]; [left; by rewrite D2 D1|].
  apply try_err in H2 as [(D3 & _ & _)%ask_db|(days & w3 & (D3 & _ & _)%ask_db & H3)]; [left; by rewrite D3 D2 D1|].
  apply try_err in H3 as [(D4 & _ & _)%ask_db|(username & w4 & (D4 & _ & _)%ask_db & H4)]; [left; by rewrite D4 D3 D2 D1|].
  apply try_err in H4 as [(D5 & _ & _)%ask_password_db|(password & w5 & (D5 & _ & _)%ask_password_db & H5)]; [left; by rewrite D5 D4 D3 D2 D1|].
  assert (w_db w5 = w_db w) as D by (by rewrite D5 D4 D3 D2 D1). clear D1 D2 D3 D4 D5.
  destruct (HashPassword password (e_salt env)) as [hash|]; [|injection H5 as _ <-; left; by rewrite D].
  apply try_err in H5 as [(q & E6 & R6)%on_db_cases|(id & w6 & (q & E6 & R6)%on_db_cases & H6)].
  { destruct q; [done|]. apply stmt_cases in E6 as [[E6 _] _]. left. by rewrite E6 D. }
  destruct q as [id'|]; [|done]. apply CreateUser_ok in E6 as [_ E6]. rewrite D in E6. right.
  apply try_err in H6 as [(q & E7 & R7)%on_db_cases|([] & w7 & (q & E7 & R7)%on_db_cases & H7)].
  { destruct q as [|d]; [done|]. injection R7 as ->. left. exists username, hash, d. split; [done|].
    by rewrite (SetSettings_err _ _ _ _ E7) E6. }
  destruct q as [[]|]; [|done]. apply SetSettings_ok in E7. apply on_db_cases in H7 as (q & E8 & R8).
  destruct q as [|d]; [done|]. injection R8 as ->. apply exec_cases in E8 as [[? _]|[_ E8]]; [done|].
  right. exists iface, subnet, days, username, hash, d. split; [done|]. by rewrite E8 E7 E6.
Qed.
End wizard_runs.

(** ** Reading back what was saved *)
Lemma value_answers iface subnet days m :
  value (answers iface subnet days ∪ m) KeyCaptureInterface = iface ∧
  value (answers iface subnet days ∪ m) KeyLANSubnetCIDR = subnet ∧
  value (answers iface subnet days ∪ m) KeyRetentionDays = itoa days ∧
  value (answers iface subnet days ∪ m) KeyHTTPListenAddr = DefaultHTTPListenAddr ∧
  value (answers iface subnet days ∪ m) KeyFlushIntervalSecs = itoa DefaultFlushInterval ∧
  value (answers iface subnet days ∪ m) KeyTLSCertPath = value m KeyTLSCertPath ∧
  value (answers iface subnet days ∪ m) KeyTLSKeyPath = value m KeyTLSKeyPath ∧
  (answers iface subnet days ∪ m) !! KeySetupComplete = m !! KeySetupComplete.
Proof.
  rewrite /value !lookup_union /answers. split_and!; rewrite ?lookup_insert_eq; try (by destruct (m !! _)).
  all: do 5 (rewrite ?lookup_insert_eq ?lookup_insert_ne ?lookup_singleton_eq ?lookup_singleton_ne //; try (by destruct (m !! _))).
Qed.

Lemma value_insert_ne m k k' v : k' ≠ k → value (<[k' := v]> m) k = value m k.
Proof. intros Hne. by rewrite /value lookup_insert_ne. Qed.

Lemma itoa_nonempty n : in_i 64 n → itoa n ≠ EmptyString.
Proof. intros Hn E. apply atoi_itoa in Hn. by rewrite E in Hn. Qed.

Lemma parse_answers iface subnet days m :
  days ∈ [7; 30; 90; 365] →
  parse_settings (<[KeySetupComplete := "1"%string]> (answers iface subnet days ∪ m)) =
  Ok (mkSettings iface subnet days (value m KeyTLSCertPath) (value m KeyTLSKeyPath) DefaultHTTPListenAddr DefaultFlushInterval).
Proof.
  intros Hd. destruct (value_answers iface subnet days m) as (H1 & H2 & H3 & H4 & H5 & H6 & H7 & _).
  assert (in_i 64 days) as Hi by (rewrite /in_i; set_unfold; lia).
  rewrite /parse_settings !value_insert_ne // H1 H2 H3 H4 H5 H6 H7 {1}/valueOr.
  rewrite bool_decide_eq_false_2; [by apply itoa_nonempty|]. by rewrite atoi_itoa.
Qed.

(** Starting with setup complete, on a database that answers. *)
Lemma startup_run `{Argon2} {o : Order} env ls ps t st lan :
  setup_complete t = true → parse_settings (settings t) = Ok st → ParseCIDR (LANSubnetCIDR st) = Some lan →
  (startup env false true true (mkWizard ls ps (mkStore t []))).1 =
  let flushEvery := dmul (FlushInterval st) Second in
  if 0 <? flushEvery
  then Running (mkInstance lan flushEvery (mkScheduler (RetentionDays st)) (HTTPListenAddr st) (CaptureInterface st))
  else TickerPanic.
Proof.
  intros Hs Hp Hl. rewrite /startup /bind /with_db /IsSetupComplete /bind /GetSetting /query /stmt /=.
  rewrite /setup_complete in Hs. rewrite Hs /= Hp Hl //.
Qed.

Lemma put_one_setting {o : Order} k v t :
  putSettings (Some {[k := v]}) (mkStore t []) =
  (JSON StatusOK (PSaved (bool_decide (is_Some (({[k := v]} : gmap string string) !! KeyCaptureInterface)) ||
                          bool_decide (is_Some (({[k := v]} : gmap string string) !! KeyLANSubnetCIDR)))) None,
   mkStore (set_setting k v t) []).
Proof.
  rewrite /putSettings /or_500 /bind /SetSettings.
  assert (ord o (map_to_list ({[k := v]} : gmap string string)) = [(k, v)]) as ->.
  { apply Permutation_singleton_r. rewrite -(map_to_list_singleton k v). apply ord_perm. }
  done.
Qed.

Module ConfigProperties.

(** A machine with one interface besides loopback. *)
Definition env0 : Env :=
  mkEnv true (Some [mkInterface "lo" 69; mkInterface "eth0" 4163]) (λ _, true) (Some (replicate 16 7)) (1000 * Second).
Definition answered (fs : list bool) : Wizard :=
  mkWizard ["5"; ""; "lan"; "192.168.1.0/24"; "4"; ""; "root"]%string
    [Some "short"; Some "correct horse"; Some "wrong"; Some "correct horse"; Some "correct horse"]%string
    (mkStore emptyTables fs).

(** C24: The wizard reports success exactly when the operator's input holds the
    answers, and then the program started on that database runs with them: each
    of the interface, the subnet, the retention period and the user name is
    given by the first line that answers its question, in that order; the
    password is the first of at least twelve bytes that was repeated, after
    refused attempts only; one admin with that name and the hash of that password
    is added, its name being new; and startup, with no terminal, runs on the
    interface and subnet typed, keeping data for the days chosen.  On a database
    that answers, input with all the answers makes it succeed. *)
Theorem wizard_startup_roundtrip `{Argon2} {o : Order} (env env' : Env) (w : Wizard) :
  let t := tables (w_db w) in
  (∀ w', RunFirstRunWizard env w = (Ok tt, w') →
     let t' := tables (w_db w') in
     ∃ iface subnet days username password hash lan,
       Typed env w iface subnet days username password w' ∧
       HashPassword password (e_salt env) = Ok hash ∧ ParseCIDR subnet = Some lan ∧
       (username ∉ u_Username <$> users t) ∧
       users t' = users t ++ [mkUser (users_seq t + 1) username hash RoleAdmin (Unix (e_now env))] ∧
       (startup env' false true true (mkWizard [] [] (mkStore t' []))).1 =
         Running (mkInstance lan (10 * Second) (mkScheduler days) ":8443" iface)) ∧
  (∀ w' iface subnet days username password hash,
     e_interactive env = true → Typed env w iface subnet days username password w' →
     HashPassword password (e_salt env) = Ok hash → faults (w_db w) = [] →
     (username ∉ u_Username <$> users t) →
     ∃ w'', RunFirstRunWizard env w = (Ok tt, w'')).
Proof.
  intros t. split; [|intros w' iface subnet days username password hash; apply wizard_completes].
  intros w' (iface & subnet & days & username & password & hash & HT & Hh & Hnew & Et)%wizard_ok t'.
  pose proof HT as [(l1 & l2 & l3 & _ & (? & ? & _ & [Hs [lan Hlan]] & _) & (? & ? & _ & Hd & _) & _) _].
  rewrite -Hs in Hlan. exists iface, subnet, days, username, password, hash, lan. split_and!; try done.
  - by rewrite /t' Et.
  - rewrite /t' Et. erewrite startup_run; [|by rewrite /setup_complete lookup_insert_eq| |].
    2: { apply parse_answers. destruct Hd as [[_ Hd]|(_ & i & _ & Hd)]; by apply list_elem_of_lookup_2 in Hd. }
    2: exact Hlan.
    done.
Qed.

(** The interface, the subnet and the password need more than one try. *)
Lemma wizard_startup_roundtrip_witness :
  let run := RunFirstRunWizard (H := Auth.AuthProperties.toy_argon2) (o := ord_rev) env0 (answered []) in
  run.1 = Ok tt ∧
  ∃ hash lan, HashPassword (H := Auth.AuthProperties.toy_argon2) "correct horse" (e_salt env0) = Ok hash ∧
    users (tables (w_db run.2)) = [mkUser 1 "root" hash RoleAdmin 1000] ∧
    ParseCIDR "192.168.1.0/24" = Some lan ∧
    (startup (H := Auth.AuthProperties.toy_argon2) (o := ord_rev) env0 false true true
           (mkWizard [] [] (mkStore (tables (w_db run.2)) []))).1 =
         Running (mkInstance lan (10 * Second) (mkScheduler 365) ":8443" "eth0").
Proof.
  intros run. assert (run.1 = Ok tt) as H1 by (vm_compute; reflexivity). split; [exact H1|].
  assert (run = (Ok tt, run.2)) as H2 by (rewrite -H1; by destruct run).
  destruct (wizard_startup_roundtrip (H := Auth.AuthProperties.toy_argon2) (o := ord_rev) env0 env0 (answered [])) as [W _].
  destruct (W run.2 H2) as (iface & subnet & days & username & password & hash & lan & _ & _ & _ & _ & _ & Hrun).
  eexists _, lan. split; [vm_compute; reflexivity|]. split; [vm_compute; reflexivity|].
  rewrite Hrun. vm_compute in Hrun. injection Hrun as <- <- <-. split; reflexivity.
Defined.

(** C37: A wizard run that fails, at any statement, leaves setup incomplete, so
    the next start asks again.  It may leave the admin account behind, though,
    and then no later run can succeed with that user name. *)
Theorem interrupted_setup `{Argon2} {o : Order} env w e w' :
  RunFirstRunWizard env w = (Err e, w') → setup_complete (tables (w_db w)) = false →
  let t := tables (w_db w) in
  let t' := tables (w_db w') in
  setup_complete t' = false ∧
  (users t' = users t ∨
   ∃ u, users t' = users t ++ [u] ∧ u_Role u = RoleAdmin ∧
     ∀ env2 w2 w3, tables (w_db w2) = t' → RunFirstRunWizard env2 w2 = (Ok tt, w3) →
       ∃ u2, users (tables (w_db w3)) = users t' ++ [u2] ∧ u_Username u2 ≠ u_Username u).
Proof.
  intros He Hs t t'.
  assert (∀ u, users t' = users t ++ [u] → ∀ env2 w2 w3, tables (w_db w2) = t' →
     RunFirstRunWizard env2 w2 = (Ok tt, w3) → ∃ u2, users (tables (w_db w3)) = users t' ++ [u2] ∧ u_Username u2 ≠ u_Username u) as Hagain.
  { intros u Hu env2 w2 w3 Et (? & ? & ? & username & ? & ? & _ & _ & Hnew & E3)%wizard_ok. rewrite Et in Hnew, E3.
    eexists. split; [by rewrite E3|]. simpl. intros ->. apply Hnew. rewrite Hu fmap_app. set_solver. }
  destruct (wizard_err env w e w' He) as [E|[(username & hash & d & -> & E)|(iface & subnet & days & username & hash & d & -> & E)]].
  - rewrite /t' E. auto.
  - split; [by rewrite /t' E|]. right. eexists. split_and!; [by rewrite /t' E|done|apply Hagain; by rewrite /t' E].
  - split.
    + rewrite /t' E /setup_complete /=. rewrite /setup_complete in Hs.
      destruct (value_answers iface subnet days (settings (tables (w_db w)))) as (_ & _ & _ & _ & _ & _ & _ & ->). exact Hs.
    + right. eexists. split_and!; [by rewrite /t' E|done|apply Hagain; by rewrite /t' E].
Qed.

Lemma interrupted_setup_witness :
  let run := RunFirstRunWizard (H := Auth.AuthProperties.toy_argon2) (o := ord_id) env0 (answered [false; true]) in
  run.1 = Err (ErrSaveSettings ErrIO) ∧ setup_complete (tables (w_db run.2)) = false ∧
  length (users (tables (w_db run.2))) = 1%nat ∧
  (RunFirstRunWizard (H := Auth.AuthProperties.toy_argon2) (o := ord_id) env0
     (mkWizard (w_lines (answered [])) (w_passwords (answered [])) (mkStore (tables (w_db run.2)) []))).1 =
  Err (ErrCreateUser ErrUnique).
Proof.
  intros run. assert (run.1 = Err (ErrSaveSettings ErrIO)) as H1 by (vm_compute; reflexivity). split; [exact H1|].
  assert (run = (Err (ErrSaveSettings ErrIO), run.2)) as H2 by (rewrite -H1; by destruct run).
  split; [exact (proj1 (interrupted_setup (H := Auth.AuthProperties.toy_argon2) (o := ord_id) env0 (answered [false; true]) _ run.2 H2 eq_refl))|].
  split; vm_compute; reflexivity.
Defined.

(** C38: The settings handler accepts any flush interval.  The next start runs
    with it when the interval in nanoseconds is positive at 64 bits, and
    panics otherwise: with zero, with a negative number and with one that
    wraps around. *)
Theorem flush_setting_can_stop_startup `{Argon2} {o : Order} env n t days lan :
  in_i 64 n → setup_complete t = true →
  ParseCIDR (value (settings t) KeyLANSubnetCIDR) = Some lan →
  atoi (valueOr (value (settings t) KeyRetentionDays) "30") = Some days →
  let '(resp, s) := putSettings (Some {[KeyFlushIntervalSecs := itoa n]}) (mkStore t []) in
  resp = JSON StatusOK (PSaved false) None ∧
  (startup env false true true (mkWizard [] [] s)).1 =
    let d := wrap_i64 (n * 1000000000) in
    if 0 <? d
    then Running (mkInstance lan d (mkScheduler days)
           (valueOr (value (settings t) KeyHTTPListenAddr) ":8443") (value (settings t) KeyCaptureInterface))
    else TickerPanic.
Proof.
  intros Hn Hs Hlan Hdays. rewrite put_one_setting. split.
  - rewrite !lookup_singleton_ne // !bool_decide_eq_false_2 //; by intros [? ?].
  - rewrite (startup_run env [] [] _ (mkSettings (value (settings t) KeyCaptureInterface) (value (settings t) KeyLANSubnetCIDR) days
               (value (settings t) KeyTLSCertPath) (value (settings t) KeyTLSKeyPath)
               (valueOr (value (settings t) KeyHTTPListenAddr) ":8443") n) lan); [| |exact Hlan|done].
    + rewrite /setup_complete /= lookup_insert_ne //.
    + rewrite /set_setting. cbn [settings set_settings]. rewrite /parse_settings.
      rewrite (value_insert_ne _ KeyRetentionDays) // Hdays (value_insert_ne _ KeyCaptureInterface) //.
      rewrite (value_insert_ne _ KeyLANSubnetCIDR) // (value_insert_ne _ KeyTLSCertPath) // (value_insert_ne _ KeyTLSKeyPath) //.
      rewrite (value_insert_ne _ KeyHTTPListenAddr) //. rewrite {1}/value lookup_insert_eq {1}/valueOr.
      rewrite bool_decide_eq_false_2; [by apply itoa_nonempty|]. by rewrite atoi_itoa.
Qed.

Definition configured : Tables :=
  set_settings (<[KeySetupComplete := "1"%string]> (<[KeyLANSubnetCIDR := "10.0.0.0/8"%string]> ∅)) emptyTables.

Lemma flush_setting_can_stop_startup_witness :
  let start n := (startup (H := Auth.AuthProperties.toy_argon2) (o := ord_id) env0 false true true
      (mkWizard [] [] (putSettings (o := ord_id) (Some {[KeyFlushIntervalSecs := itoa n]}) (mkStore configured [])).2)).1 in
  start 0 = TickerPanic ∧ start 9223372037 = TickerPanic ∧ start 5 ≠ TickerPanic.
Proof.
  assert (∃ lan, ParseCIDR (value (settings configured) KeyLANSubnetCIDR) = Some lan) as [lan Hlan]
    by (eexists; vm_compute; reflexivity).
  assert (∀ n, in_i 64 n → wrap_i64 (n * 1000000000) ≤ 0 →
    (startup (H := Auth.AuthProperties.toy_argon2) (o := ord_id) env0 false true true
      (mkWizard [] [] (putSettings (o := ord_id) (Some {[KeyFlushIntervalSecs := itoa n]}) (mkStore configured [])).2)).1
    = TickerPanic) as Hp.
  { intros n Hn Hd.
    pose proof (flush_setting_can_stop_startup (H := Auth.AuthProperties.toy_argon2) (o := ord_id) env0 n configured 30 lan
                  Hn eq_refl Hlan eq_refl) as Hs.
    destruct (putSettings _ _) as [resp s]. destruct Hs as [_ Hs]. simpl snd. rewrite Hs. cbv zeta.
    by apply Z.ltb_ge in Hd as ->. }
  split; [apply Hp; [vm_compute; split; congruence|vm_compute; congruence]|].
  split; [apply Hp; [vm_compute; split; congruence|vm_compute; congruence]|].
  vm_compute. congruence.
Defined.
End ConfigProperties.
