(* ===== verification/Sources.v ===== *)
(** * Packet sources ([pcapgo_source.go], [replay_source.go])

    The live source reads frames from a socket and offers them to a bounded
    channel, dropping and counting what does not fit; the replay source reads
    a file and waits for room instead.  Each is a step relation over its read
    loop, the channel, the decoding goroutine that receives from it and, for
    the live source, the main goroutine of [Pipeline.Run] that shuts it down.

    The socket is gopacket's: a read returns when a frame arrives or when it
    fails, and not before. *)

From stdpp Require Import prelude strings list relations.
From Stdlib Require Import ZArith Lia Ascii.
From Corelib Require Import ssreflect.
From S2P Require Import Prelude GoStrings GoNet GoTime Capture.

Open Scope general_if_scope.
Open Scope Z_scope.

Definition packetBufSize : nat := 4096.
Definition ifiPromisc : Z := 256.

(** ** Opening the live source *)

(** [strconv.ParseUint(s, 16, 32)]. *)
Fixpoint hex_digits (s : string) (acc : Z) : option Z :=
  match s with
  | EmptyString => Some acc
  | String c s' =>
      match hex_value c with
      | None => None
      | Some d => let v := acc * 16 + d in if 2 ^ 32 <=? v then None else hex_digits s' v
      end
  end.
Definition ParseUint16_32 (s : string) : option Z :=
  if bool_decide (s = EmptyString) then None else hex_digits s 0.

(** [s[2:]], which panics on a shorter string. *)
Definition drop2 (s : string) : option string :=
  match s with String _ (String _ s') => Some s' | _ => None end.

Inductive Probe := ProbePanic | ProbeFailed | ProbeOk (b : bool).

(** [raw]: the contents of the flags file, if it could be read. *)
Definition isPromiscuous (raw : option string) : Probe :=
  match raw with
  | None => ProbeFailed
  | Some raw =>
      match drop2 (trim_space raw) with
      | None => ProbePanic
      | Some digits =>
          match ParseUint16_32 digits with
          | None => ProbeFailed
          | Some flags => ProbeOk (negb (Z.land flags ifiPromisc =? 0))
          end
      end
  end.

(** Calls on the socket, in order. *)
Inductive HandleOp := OpOpen | OpSetPromiscuous | OpSetBPF | OpClose.
Inductive OpenResult := OpenOk | OpenError | OpenPanic.

(** [can op]: whether the call succeeds. *)
Definition NewPcapgoSource (can : HandleOp → bool) (flags : option string) (filterLen : nat) (promiscuous : bool)
    : OpenResult * list HandleOp :=
  if negb (can OpOpen) then (OpenError, [OpOpen]) else
  let apply_filter ops :=
    if (0 <? filterLen)%nat
    then if can OpSetBPF then (OpenOk, ops ++ [OpSetBPF]) else (OpenError, ops ++ [OpSetBPF; OpClose])
    else (OpenOk, ops) in
  if promiscuous then
    match isPromiscuous flags with
    | ProbePanic => (OpenPanic, [OpOpen])
    | ProbeOk true => apply_filter [OpOpen]
    | ProbeOk false | ProbeFailed =>
        if can OpSetPromiscuous then apply_filter [OpOpen; OpSetPromiscuous]
        else (OpenError, [OpOpen; OpSetPromiscuous; OpClose])
    end
  else apply_filter [OpOpen].

(** ** The live source *)
Inductive Reader := Top | Reading | ReaderDone.
Inductive Main := Selecting | Waiting | Finished.

Record Live := mkLive {
  reader : Reader; channel : list RawPacket; errors : list string; dropped : Z;
  decoderDone : bool; main : Main; cancelled : bool;
  got : list RawPacket;          (* every packet read so far *)
  delivered : list RawPacket     (* those the decoder received *)
}.

Definition live0 : Live := mkLive Top [] [] 0 false Selecting false [] [].

(** [select { case ch <- x: default: }] on a channel of the given capacity. *)
Definition try_send {A} (cap : nat) (x : A) (ch : list A) : list A * bool :=
  if (length ch <? cap)%nat then (ch ++ [x], true) else (ch, false).

(** The packet handed on: stamped now when the socket gave no time. *)
Definition stamped (data : bytes) (ts now : Time) : RawPacket :=
  mkRawPacket data (if IsZero ts then now else ts).

(** The end of an iteration that read a packet. *)
Definition offer (p : RawPacket) (l : Live) : Live :=
  let '(ch, sent) := try_send packetBufSize p (channel l) in
  mkLive Top ch (errors l) (if sent then dropped l else wrapu 64 (dropped l + 1))
    (decoderDone l) (main l) (cancelled l) (got l ++ [p]) (delivered l).

(** What an outside party does in a step: a frame arrives on the wire, the read
    fails, the process is told to stop, or nothing. *)
Inductive Outside := Arrives (data : bytes) (ts now : Time) | Fails (e : string) | Cancel | Nothing.

(** The ticker branch of the pipeline's [select] touches neither the source nor
    its channel; it is a tick of [pstep] in [Pipeline] and no step here. *)
Inductive lstep : Outside → Live → Live → Prop :=
  | l_stop ch es dr dd mn g dl :
      lstep Nothing (mkLive Top ch es dr dd mn true g dl) (mkLive ReaderDone ch es dr dd mn true g dl)
  | l_read ch es dr dd mn g dl :
      lstep Nothing (mkLive Top ch es dr dd mn false g dl) (mkLive Reading ch es dr dd mn false g dl)
  | l_packet data ts now ch es dr dd mn c g dl :
      lstep (Arrives data ts now) (mkLive Reading ch es dr dd mn c g dl)
        (offer (stamped data ts now) (mkLive Reading ch es dr dd mn c g dl))
  | l_error e ch es dr dd mn g dl :
      lstep (Fails e) (mkLive Reading ch es dr dd mn false g dl)
        (mkLive Top ch (try_send 1 e es).1 dr dd mn false g dl)
  | l_error_stop e ch es dr dd mn g dl :
      lstep (Fails e) (mkLive Reading ch es dr dd mn true g dl) (mkLive ReaderDone ch es dr dd mn true g dl)
  | l_decode r p ch es dr mn c g dl :
      lstep Nothing (mkLive r (p :: ch) es dr false mn c g dl) (mkLive r ch es dr false mn c g (dl ++ [p]))
  | l_decode_end es dr mn c g dl :
      lstep Nothing (mkLive ReaderDone [] es dr false mn c g dl) (mkLive ReaderDone [] es dr true mn c g dl)
  | l_cancel r ch es dr dd mn c g dl :
      lstep Cancel (mkLive r ch es dr dd mn c g dl) (mkLive r ch es dr dd mn true g dl)
  | l_log_error r ch e es dr dd c g dl :
      lstep Nothing (mkLive r ch (e :: es) dr dd Selecting c g dl) (mkLive r ch es dr dd Selecting c g dl)
  | l_main_stop r ch es dr dd g dl :
      lstep Nothing (mkLive r ch es dr dd Selecting true g dl) (mkLive r ch es dr dd Waiting true g dl)
  | l_finish r ch es dr c g dl :
      lstep Nothing (mkLive r ch es dr true Waiting c g dl) (mkLive r ch es dr true Finished c g dl).

Definition any_step (l l' : Live) : Prop := ∃ out, lstep out l l'.

(** A step in which the wire stays silent: no frame and no read error. *)
Definition silent_step (l l' : Live) : Prop := lstep Nothing l l' ∨ lstep Cancel l l'.

(** [Close]. *)
Definition Close (handleOpen : bool) : bool * bool := (handleOpen, false).

(** ** The replay source *)
Inductive Record_ := RPacket (p : RawPacket) | RError (e : string).

Inductive RReader := RTop | RReading | RSending (p : RawPacket) | RDone.

Record Replay := mkReplay {
  rreader : RReader; rest : list Record_; rchannel : list RawPacket; rerrors : list string;
  rcancelled : bool; rdelivered : list RawPacket
}.

Inductive rstep : Replay → Replay → Prop :=
  | r_stop rs ch es dl : rstep (mkReplay RTop rs ch es true dl) (mkReplay RDone rs ch es true dl)
  | r_next rs ch es dl : rstep (mkReplay RTop rs ch es false dl) (mkReplay RReading rs ch es false dl)
  | r_eof ch es c dl : rstep (mkReplay RReading [] ch es c dl) (mkReplay RDone [] ch es c dl)
  | r_error e rs ch es c dl :
      rstep (mkReplay RReading (RError e :: rs) ch es c dl) (mkReplay RDone rs ch (try_send 1 e es).1 c dl)
  | r_read p rs ch es c dl :
      rstep (mkReplay RReading (RPacket p :: rs) ch es c dl) (mkReplay (RSending p) rs ch es c dl)
  | r_send p rs ch es c dl :
      (length ch < packetBufSize)%nat →
      rstep (mkReplay (RSending p) rs ch es c dl) (mkReplay RTop rs (ch ++ [p]) es c dl)
  | r_send_stop p rs ch es dl :
      rstep (mkReplay (RSending p) rs ch es true dl) (mkReplay RDone rs ch es true dl)
  | r_receive r rs p ch es c dl :
      rstep (mkReplay r rs (p :: ch) es c dl) (mkReplay r rs ch es c (dl ++ [p]))
  | r_cancel r rs ch es c dl : rstep (mkReplay r rs ch es c dl) (mkReplay r rs ch es true dl).

Definition replay0 (file : list Record_) : Replay := mkReplay RTop file [] [] false [].

(** The packets of a file up to the first unreadable record. *)
Fixpoint readable (file : list Record_) : list RawPacket :=
  match file with
  | RPacket p :: file' => p :: readable file'
  | _ => []
  end.

(** ** Accounting in the live source *)
Lemma try_send_length {A} cap (x : A) ch : (length ch ≤ cap → length (try_send cap x ch).1 ≤ cap)%nat.
Proof. rewrite /try_send. destruct (Nat.ltb_spec (length ch) cap); simpl; [|done]. rewrite length_app /=. lia. Qed.

Record accounted (l : Live) : Prop := mkAccounted {
  acc_room : (length (channel l) ≤ packetBufSize)%nat;
  acc_errors : (length (errors l) ≤ 1)%nat;
  acc_order : sublist (delivered l ++ channel l) (got l);
  acc_dropped : dropped l = wrapu 64 (Z.of_nat (length (got l)) - Z.of_nat (length (delivered l ++ channel l)))
}.

Lemma wrapu_succ w x : 0 ≤ w → wrapu w (wrapu w x + 1) = wrapu w (x + 1).
Proof. intros Hw. rewrite /wrapu. by rewrite Zplus_mod_idemp_l. Qed.

Lemma offer_accounted p l : accounted l → accounted (offer p l).
Proof.
  intros [H1 H2 H3 H4]. rewrite /offer /try_send. destruct (Nat.ltb_spec (length (channel l)) packetBufSize); split; simpl; try done.
  - rewrite length_app /=. lia.
  - rewrite app_assoc. by apply sublist_app.
  - rewrite H4 app_assoc !length_app /=. f_equal. lia.
  - by apply sublist_inserts_r.
  - rewrite H4 wrapu_succ // !length_app /=. f_equal. lia.
Qed.

Lemma step_accounted out l l' : lstep out l l' → accounted l → accounted l'.
Proof.
  intros Hs. inversion Hs; subst; [| |apply offer_accounted|..]; intros [H1 H2 H3 H4]; simpl in *; split; simpl; try done.
  - by apply try_send_length.
  - lia.
  - by rewrite -app_assoc.
  - by rewrite -app_assoc.
  - lia.
Qed.

Lemma live_accounted l : rtc any_step live0 l → accounted l.
Proof.
  intros Hr. assert (accounted live0) as H0 by (split; simpl; [lia|lia|done|done]).
  induction Hr as [|l1 l2 l3 [out Hs] _ IH]; [done|]. apply IH. exact (step_accounted out _ _ Hs H0).
Qed.

(** ** Shutting down *)
Definition phases (l : Live) : Prop :=
  (decoderDone l = true → reader l = ReaderDone) ∧ (main l = Finished → decoderDone l = true).

Lemma live_phases l : rtc any_step live0 l → phases l.
Proof.
  intros Hr. assert (phases live0) as H0 by done.
  induction Hr as [|l1 l2 l3 [out Hs] _ IH]; [done|]. apply IH. destruct H0 as [H1 H2].
  inversion Hs; subst; rewrite /phases /offer /try_send; simpl in *; try case_match; naive_solver.
Qed.

Lemma silent_blocked l l' :
  reader l = Reading → main l ≠ Finished → decoderDone l = false → rtc silent_step l l' →
  reader l' = Reading ∧ main l' ≠ Finished ∧ delivered l' ++ channel l' = delivered l ++ channel l.
Proof.
  intros H1 H2 H3 Hr. induction Hr as [|l1 l2 l3 Hs _ IH]; [done|].
  assert (reader l2 = Reading ∧ main l2 ≠ Finished ∧ decoderDone l2 = false ∧
          delivered l2 ++ channel l2 = delivered l1 ++ channel l1) as (A1 & A2 & A3 & A4).
  { destruct Hs as [Hs|Hs]; inversion Hs; subst; simpl in *; try done. by rewrite -app_assoc. }
  destruct (IH A1 A2 A3) as (B1 & B2 & B3). split_and!; [done|done|by rewrite B3 A4].
Qed.

Lemma drain_channel r ch es dr mn c g dl :
  rtc (lstep Nothing) (mkLive r ch es dr false mn c g dl) (mkLive r [] es dr false mn c g (dl ++ ch)).
Proof.
  revert dl. induction ch as [|p ch IH]; intros dl; [rewrite app_nil_r; reflexivity|].
  eapply rtc_l; [constructor|]. replace (dl ++ p :: ch) with ((dl ++ [p]) ++ ch) by (by rewrite -app_assoc). apply IH.
Qed.

Lemma stop_from_top ch es dr mn g dl :
  mn ≠ Finished →
  ∃ l', rtc (lstep Nothing) (mkLive Top ch es dr false mn true g dl) l' ∧ main l' = Finished ∧ delivered l' = dl ++ ch.
Proof.
  intros Hmn. exists (mkLive ReaderDone [] es dr true Finished true g (dl ++ ch)). split; [|done].
  eapply rtc_l; [constructor|]. etransitivity; [apply drain_channel|].
  eapply rtc_l; [constructor|]. destruct mn; [|eapply rtc_l; [constructor|]; reflexivity|done].
  eapply rtc_l; [constructor|]. eapply rtc_l; [constructor|]. reflexivity.
Qed.

(** ** Replaying a file *)
Definition replayed (file : list Record_) (r : Replay) : Prop :=
  ∃ tl, rdelivered r ++ rchannel r ++ tl = readable file ∧
    match rreader r with
    | RTop | RReading => tl = readable (rest r)
    | RSending p => tl = p :: readable (rest r)
    | RDone => rcancelled r = false → tl = []
    end.

Lemma step_replayed file r r' : rstep r r' → replayed file r → replayed file r'.
Proof.
  intros Hs (tl & Heq & Htl). inversion Hs; subst; simpl in *; rewrite /replayed /=.
  - exists (readable rs). by subst.
  - by exists tl.
  - exists []. by subst.
  - exists []. by subst.
  - exists (p :: readable rs). by subst.
  - exists (readable rs). split; [|done]. by rewrite -Heq Htl -!app_assoc.
  - exists tl. by split.
  - exists tl. split; [by rewrite -Heq -!app_assoc|exact Htl].
  - exists tl. split; [done|]. by destruct r0.
Qed.

Lemma replay_replayed file r : rtc rstep (replay0 file) r → replayed file r.
Proof.
  intros Hr. assert (replayed file (replay0 file)) as H0 by (by eexists).
  induction Hr as [|r1 r2 r3 Hs _ IH]; [done|]. apply IH. exact (step_replayed _ _ _ Hs H0).
Qed.

(** ** Termination *)

(** Work left when cancelled, outside a read. *)
Definition work (l : Live) : nat :=
  (match reader l with Top => 1 | _ => 0 end + length (channel l) + length (errors l) +
   (if decoderDone l then 0 else 1) + match main l with Selecting => 2 | Waiting => 1 | Finished => 0 end)%nat.

Record stopping (l0 l : Live) : Prop := mkStopping {
  st_cancelled : cancelled l = true;
  st_reader : reader l ≠ Reading;
  st_done : decoderDone l = true → reader l = ReaderDone ∧ channel l = [];
  st_packets : delivered l ++ channel l = delivered l0 ++ channel l0
}.

Lemma stopping_step l0 l l' : stopping l0 l → lstep Nothing l l' → stopping l0 l' ∧ (work l' < work l)%nat.
Proof.
  intros [H1 H2 H3 H4] Hs. inversion Hs; subst; rewrite /work; simpl in *; try done;
    (split; [split; simpl; try done|lia]); try (by intros [? ?]%H3). by rewrite -app_assoc.
Qed.

Lemma stopping_sn l0 l : stopping l0 l → sn (lstep Nothing) l.
Proof.
  remember (work l) as n eqn:Hn. revert l Hn. induction (lt_wf n) as [n _ IH]. intros l -> Hst.
  constructor. intros l' Hs. destruct (stopping_step _ _ _ Hst Hs) as [Hst' Hlt]. by apply (IH (work l')).
Qed.

Lemma stopping_rtc l0 l l' : stopping l0 l → rtc (lstep Nothing) l l' → stopping l0 l'.
Proof. intros Hst Hr. induction Hr as [|l1 l2 l3 Hs _ IH]; [done|]. apply IH. by destruct (stopping_step _ _ _ Hst Hs). Qed.

(** A state in which nothing can happen has finished. *)
Lemma stopping_stuck l0 l : stopping l0 l → nf (lstep Nothing) l → main l = Finished ∧ channel l = [].
Proof.
  intros [H1 H2 H3 _] Hnf. destruct l as [rd ch es dr dd mn c g dl]. simpl in *. subst c.
  destruct rd; [destruct Hnf; eexists; constructor|done|].
  destruct dd.
  - destruct (H3 eq_refl) as [_ ->]. destruct mn; [|..]; [destruct Hnf; eexists; constructor|destruct Hnf; eexists; constructor|done].
  - destruct Hnf. destruct ch; eexists; constructor.
Qed.

(** Being delivered or done: a reader that ended is final for the decoder. *)
Definition drained (l : Live) : Prop := decoderDone l = true → reader l = ReaderDone ∧ channel l = [].
Lemma live_drained l : rtc any_step live0 l → drained l.
Proof.
  intros Hr. assert (drained live0) as H0 by done.
  induction Hr as [|l1 l2 l3 [out Hs] _ IH]; [done|]. apply IH.
  inversion Hs; subst; rewrite /drained /offer /try_send in H0 |- *; simpl in *; try done; try (by case_match; intros [? _]%H0).
  all: by intros [? ?]%H0.
Qed.

(** The replay source: a step of its own, without a cancellation. *)
Definition replay_step (r r' : Replay) : Prop := rstep r r' ∧ rcancelled r' = rcancelled r ∧ r' ≠ r.
Definition replay_work (r : Replay) : nat :=
  (4 * length (rest r) + length (rchannel r) +
   match rreader r with RTop => 2 | RReading => 1 | RSending _ => 4 | RDone => 0 end)%nat.

Lemma replay_step_work r r' : replay_step r r' → (replay_work r' < replay_work r)%nat.
Proof.
  intros (Hs & Hc & Hne). inversion Hs; subst; rewrite /replay_work /= ?length_app /= in Hc, Hne |- *; try lia.
  by rewrite Hc in Hne.
Qed.
Lemma replay_sn r : sn replay_step r.
Proof.
  remember (replay_work r) as n eqn:Hn. revert r Hn. induction (lt_wf n) as [n _ IH]. intros r ->.
  constructor. intros r' Hs. by apply (IH (replay_work r') (replay_step_work _ _ Hs)).
Qed.
Lemma replay_stuck r : nf replay_step r → rreader r = RDone ∧ rchannel r = [].
Proof.
  intros Hnf. destruct r as [rd rs ch es c dl]. simpl.
  destruct ch as [|p ch]; [|destruct Hnf; eexists; split; [apply r_receive|split; [done|]; intros [= E]; by apply (f_equal length) in E; simpl in E; lia]].
  split; [|done]. destruct rd; [..|done]; destruct Hnf.
  - destruct c; eexists; (split; [constructor|done]).
  - destruct rs as [|[p|e] rs]; eexists; (split; [constructor|split; [done|by intros [=]]]).
  - eexists. split; [apply r_send; simpl; rewrite /packetBufSize; lia|done].
Qed.

Module SourceProperties.

(** C22: In every run of the live source the channel never exceeds its
    capacity, the packets delivered and queued are a subsequence, in order, of
    those read, and the drop counter is the number of the others, modulo its
    64 bits.  In every run of the replay source that was not cancelled,
    delivered and queued packets are a prefix of the file's readable packets,
    and all of them once the source is done. *)
Theorem sources_account_for_packets l file r :
  rtc any_step live0 l → rtc rstep (replay0 file) r →
  ((length (channel l) ≤ packetBufSize)%nat ∧ sublist (delivered l ++ channel l) (got l) ∧
   dropped l = wrapu 64 (Z.of_nat (length (got l)) - Z.of_nat (length (delivered l ++ channel l)))) ∧
  ((∃ tl, readable file = (rdelivered r ++ rchannel r) ++ tl) ∧
   (rreader r = RDone → rcancelled r = false → rdelivered r ++ rchannel r = readable file)).
Proof.
  intros [H1 _ H3 H4]%live_accounted (tl & Heq & Htl)%replay_replayed. split; [done|]. rewrite -Heq. split.
  - exists tl. by rewrite -app_assoc.
  - intros Hd Hc. rewrite Hd in Htl. by rewrite (Htl Hc) app_nil_r.
Qed.

Lemma sources_account_for_packets_witness :
  let p := mkRawPacket [1; 2; 3] 5 in
  let l := mkLive Top [p] [] 0 false Selecting false [p] [] in
  let r := mkReplay RDone [] [] [] false [p] in
  rtc any_step live0 l ∧ rtc rstep (replay0 [RPacket p]) r ∧ sublist [p] (got l) ∧ rdelivered r = readable [RPacket p].
Proof.
  intros p l r.
  assert (rtc any_step live0 l) as Hl.
  { eapply rtc_l; [exists Nothing; constructor|]. eapply rtc_l; [exists (Arrives [1; 2; 3] 5 0); constructor|]. reflexivity. }
  assert (rtc rstep (replay0 [RPacket p]) r) as Hr.
  { eapply rtc_l; [apply r_next|]. eapply rtc_l; [apply r_read|].
    eapply rtc_l; [apply r_send; simpl; unfold packetBufSize; lia|].
    eapply rtc_l; [apply r_receive|]. eapply rtc_l; [apply r_next|]. eapply rtc_l; [apply r_eof|]. reflexivity. }
  destruct (sources_account_for_packets l [RPacket p] r Hl Hr) as [(_ & Hs & _) [_ Hd]].
  split; [exact Hl|]. split; [exact Hr|]. split; [exact Hs|]. exact (Hd eq_refl eq_refl).
Defined.

(** While the read loop waits for a frame, no cancellation ends the
    pipeline: as long as the wire stays silent the main goroutine never
    finishes, because it closes the socket only after the decoder ended, which
    waits for the read loop.  Once cancelled, one more frame lets everything
    finish, with every packet in the channel decoded. *)
Theorem shutdown_waits_for_a_frame l :
  rtc any_step live0 l → reader l = Reading →
  (∀ l', rtc silent_step l l' → main l' ≠ Finished) ∧
  (cancelled l = true → ∀ data ts now, ∃ l1 l2,
     lstep (Arrives data ts now) l l1 ∧ rtc (lstep Nothing) l1 l2 ∧ main l2 = Finished ∧
     delivered l2 = delivered l1 ++ channel l1).
Proof.
  intros Hr Hrd. destruct (live_phases l Hr) as [P1 P2].
  assert (decoderDone l = false) as Hdd by (destruct (decoderDone l); [by rewrite P1 in Hrd|done]).
  assert (main l ≠ Finished) as Hm by (intros Hf; by rewrite (P2 Hf) in Hdd).
  split; [intros l' Hs; by destruct (silent_blocked l l' Hrd Hm Hdd Hs) as (_ & ? & _)|].
  intros Hc data ts now. destruct l as [rd ch es dr dd mn c g dl]. simpl in *. subst.
  pose (l1 := offer (stamped data ts now) (mkLive Reading ch es dr false mn true g dl)). exists l1. destruct (stop_from_top (channel l1) es (dropped l1) mn (got l1) dl Hm) as (l2 & H1 & H2 & H3).
  exists l2. split; [constructor|]. revert H1 H2 H3. rewrite /l1 /offer. by destruct (try_send _ _ _).
Qed.

Lemma shutdown_waits_for_a_frame_witness :
  let l := mkLive Reading [] [] 0 false Waiting true [] [] in
  rtc any_step live0 l ∧ reader l = Reading ∧ cancelled l = true ∧ ∀ l', rtc silent_step l l' → main l' ≠ Finished.
Proof.
  intros l. assert (rtc any_step live0 l) as Hl.
  { eapply rtc_l; [exists Nothing; apply l_read|]. eapply rtc_l; [exists Cancel; apply l_cancel|].
    eapply rtc_l; [exists Nothing; apply l_main_stop|]. reflexivity. }
  split; [exact Hl|]. split; [reflexivity|]. split; [reflexivity|].
  exact (proj1 (shutdown_waits_for_a_frame l Hl eq_refl)).
Defined.
(** C23: Once cancelled and outside a read, the live source always comes to an
    end: under every schedule only finitely many steps are left, and where none
    is left the pipeline has finished with every packet that was queued
    delivered.  Replaying a file always ends too, with the reader done and its
    channel empty. *)
Theorem sources_terminate l r :
  rtc any_step live0 l → cancelled l = true → reader l ≠ Reading →
  (sn (lstep Nothing) l ∧
   ∀ l', rtc (lstep Nothing) l l' → nf (lstep Nothing) l' →
     main l' = Finished ∧ delivered l' = delivered l ++ channel l) ∧
  (sn replay_step r ∧ ∀ r', rtc replay_step r r' → nf replay_step r' → rreader r' = RDone ∧ rchannel r' = []).
Proof.
  intros Hr Hc Hrd. assert (stopping l l) as Hst by (split; [done..|by apply live_drained|done]).
  split; split; [by apply (stopping_sn l)| |apply replay_sn|intros r' _; apply replay_stuck].
  intros l' Hl Hnf. pose proof (stopping_rtc _ _ _ Hst Hl) as Hst'.
  destruct (stopping_stuck _ _ Hst' Hnf) as [Hm Hch]. split; [done|].
  pose proof (st_packets _ _ Hst') as Hp. by rewrite Hch app_nil_r in Hp.
Qed.

Lemma sources_terminate_witness :
  let p := mkRawPacket [1; 2; 3] 5 in
  let l := mkLive Top [p] [] 0 false Selecting true [p] [] in
  rtc any_step live0 l ∧ sn (lstep Nothing) l ∧ sn replay_step (replay0 [RPacket p]).
Proof.
  intros p l. assert (rtc any_step live0 l) as Hl.
  { eapply rtc_l; [exists Nothing; constructor|]. eapply rtc_l; [exists (Arrives [1; 2; 3] 5 0); constructor|].
    eapply rtc_l; [exists Cancel; apply l_cancel|]. reflexivity. }
  destruct (sources_terminate l (replay0 [RPacket p]) Hl eq_refl ltac:(discriminate)) as [[H1 _] [H2 _]].
  split; [exact Hl|]. split; [exact H1|exact H2].
Defined.
End SourceProperties.
