(* ===== verification/System.v ===== *)
(** * The operating system: paths, files, accounts and programs

    What the packages [config], [tlscert], [service] and [cmd] use of [os],
    [path/filepath], [os/user] and [os/exec].  A path is a string; [locate]
    finds the components it names, relative to the working directory, without
    following symbolic links.  The file system is a map from component lists to
    inodes.  Every system call may fail: the list [faults] says which calls do,
    and after how many bytes a failing write stops or after how many entries a
    failing removal.  Programs that are run ([systemctl], [cp], [useradd]) are
    the class [Programs]. *)

From stdpp Require Import prelude strings gmap list.
From Stdlib Require Import ZArith Lia Ascii.
From Corelib Require Import ssreflect.
From S2P Require Import Prelude GoStrings Store.

Open Scope general_if_scope.
Open Scope Z_scope.

(** ** [path/filepath] *)
Definition slash : ascii := "/".
Definition rooted (p : string) : bool :=
  match p with String c _ => bool_decide (c = slash) | EmptyString => false end.

(** One component during cleaning: empty and ["."] vanish, [".."] removes the
    component before it, is dropped at the root and kept at the start of a
    relative path. *)
Definition clean_step (root : bool) (acc : list string) (c : string) : list string :=
  if bool_decide (c = EmptyString) || bool_decide (c = "."%string) then acc
  else if bool_decide (c = ".."%string) then
    match last acc with
    | Some x => if bool_decide (x = ".."%string) then acc ++ [c] else removelast acc
    | None => if root then acc else [c]
    end
  else acc ++ [c].

Definition clean_components (p : string) : list string :=
  foldl (clean_step (rooted p)) [] (split slash p).

Definition Clean (p : string) : string :=
  let cs := clean_components p in
  if rooted p then String slash (join slash cs)
  else match cs with [] => "."%string | _ => join slash cs end.

(** [filepath.Join]: leading empty elements are skipped. *)
Fixpoint Join (elems : list string) : string :=
  match elems with
  | [] => EmptyString
  | e :: es => if bool_decide (e = EmptyString) then Join es else Clean (join slash elems)
  end.

(** ** Files *)
Abbreviation path := (list string).

(** The directory entry a path string names, for a process in [cwd]. *)
Definition locate_step (base : path) (c : string) : path :=
  if bool_decide (c = EmptyString) || bool_decide (c = "."%string) then base
  else if bool_decide (c = ".."%string) then removelast base
  else base ++ [c].
Definition locate (cwd : path) (p : string) : path :=
  foldl locate_step (if rooted p then [] else cwd) (split slash p).

(** A database file holds the tables; other files hold text. *)
Inductive Content := Text (s : string) | Database (t : Tables).
Inductive Kind := KDir | KFile (c : Content).
Record Inode := mkInode { i_kind : Kind; i_mode : Z; i_owner : Z * Z }.

(** [EFAIL] is every error that is none of the others: no permission, a full
    disk, another file system. *)
Inductive OSError := ENOENT | EEXIST | ENOTDIR | EISDIR | EINVAL | EFAIL.

Record Account := mkAccount { Uid : string; Gid : string; Username : string; HomeDir : string }.

Record World := mkWorld {
  fs : gmap path Inode;
  faults : list (option nat);            (* the outcome of the calls to come *)
  accounts : gmap string Account;        (* by name *)
  groups : gmap string string;           (* group names by id *)
  ran : list (list string)               (* programs run so far, with arguments *)
}.

Definition with_fs (f : gmap path Inode) (w : World) : World := mkWorld f (faults w) (accounts w) (groups w) (ran w).
Definition with_faults (l : list (option nat)) (w : World) : World := mkWorld (fs w) l (accounts w) (groups w) (ran w).

(** What is fixed for the process. *)
Record Process := mkProcess {
  p_cwd : path; p_ids : Z * Z; p_pid : Z; p_args : list string;
  Getenv : string → string
}.

Definition Geteuid (pr : Process) : Z := (p_ids pr).1.

Definition OS (A : Type) := M World (Result OSError A).

(** One system call: it fails by the oracle, with the partial effect [partial],
    or does [act]. *)
Definition syscall {A} (partial : nat → World → World) (act : World → Result OSError (A * World)) : OS A := λ w,
  let w0 := with_faults (tail (faults w)) w in
  match default None (head (faults w)) with
  | Some n => (Err EFAIL, partial n w0)
  | None => match act w0 with Ok (a, w') => (Ok a, w') | Err e => (Err e, w0) end
  end.
Definition clean_fail (_ : nat) (w : World) : World := w.

Definition dir_at (f : gmap path Inode) (p : path) : bool :=
  match p with
  | [] => true
  | _ => match f !! p with Some i => match i_kind i with KDir => true | _ => false end | None => false end
  end.
Definition parent (p : path) : path := removelast p.

(** The text of the file at [p]. *)
Definition text_at (f : gmap path Inode) (p : path) : option string :=
  match f !! p with Some (mkInode (KFile (Text s)) _ _) => Some s | _ => None end.
Definition db_at (f : gmap path Inode) (p : path) : option Tables :=
  match f !! p with Some (mkInode (KFile (Database t)) _ _) => Some t | _ => None end.

Section calls.
Context (pr : Process).
Abbreviation loc := (locate (p_cwd pr)).

Definition Stat (p : string) : OS Inode :=
  syscall clean_fail (λ w, match fs w !! loc p with
    | Some i => Ok (i, w)
    | None => if bool_decide (loc p = []) then Ok (mkInode KDir 493 (0, 0), w) else Err ENOENT
    end).

Definition mkdir (p : path) (mode : Z) : OS unit :=
  syscall clean_fail (λ w, Ok (tt, with_fs (<[p := mkInode KDir mode (p_ids pr)]> (fs w)) w)).

(** [os.MkdirAll]: the components are made in order, those that exist are kept. *)
Fixpoint mkdirs (base rest : path) (mode : Z) : OS unit :=
  match rest with
  | [] => ret (Ok tt)
  | c :: rest' =>
      let p := base ++ [c] in
      let! w := get in
      match fs w !! p with
      | Some i => match i_kind i with KDir => mkdirs p rest' mode | KFile _ => ret (Err ENOTDIR) end
      | None => let? _ := mkdir p mode in mkdirs p rest' mode
      end
  end.
Definition MkdirAll (p : string) (mode : Z) : OS unit := mkdirs [] (loc p) mode.

(** [os.OpenFile(p, O_WRONLY|O_CREATE|O_TRUNC, mode)] and [os.Create]: an
    existing file keeps its mode and owner. *)
Definition OpenTrunc (p : string) (mode : Z) : OS unit :=
  syscall clean_fail (λ w,
    if negb (dir_at (fs w) (parent (loc p))) then Err ENOENT else
    match fs w !! loc p with
    | None => if bool_decide (loc p = []) then Err EISDIR
              else Ok (tt, with_fs (<[loc p := mkInode (KFile (Text EmptyString)) mode (p_ids pr)]> (fs w)) w)
    | Some (mkInode KDir _ _) => Err EISDIR
    | Some (mkInode (KFile _) m ow) => Ok (tt, with_fs (<[loc p := mkInode (KFile (Text EmptyString)) m ow]> (fs w)) w)
    end).

(** Writing the whole contents to the file just opened. *)
Definition set_text (p : path) (s : string) (w : World) : World :=
  match fs w !! p with
  | Some (mkInode _ m ow) => with_fs (<[p := mkInode (KFile (Text s)) m ow]> (fs w)) w
  | None => w
  end.
Definition WriteAll (p : string) (s : string) : OS unit :=
  syscall (λ n, set_text (loc p) (String.substring 0 n s)) (λ w, Ok (tt, set_text (loc p) s w)).

(** [p] and what is below it. *)
Definition below (p q : path) : bool := bool_decide (take (length p) q = p).

(** [os.Remove]: a directory only when it is empty. *)
Definition has_entries (f : gmap path Inode) (p : path) : bool :=
  existsb (λ q, below p q && negb (bool_decide (q = p))) (map_to_list f).*1.
Definition Remove (p : string) : OS unit :=
  syscall clean_fail (λ w,
    match fs w !! loc p with
    | None => Err ENOENT
    | Some _ => if has_entries (fs w) (loc p) then Err EEXIST else Ok (tt, with_fs (delete (loc p) (fs w)) w)
    end).

(** [os.RemoveAll]: entries go one by one, in an order that is not specified,
    so a failure may leave some. *)
Definition RemoveAll {o : Order} (p : string) : OS unit :=
  syscall
    (λ n w, with_fs (foldr delete (fs w) (take n (ord o (filter (λ q, below (loc p) q) (map_to_list (fs w)).*1)))) w)
    (λ w, Ok (tt, with_fs (filter (λ qi, negb (below (loc p) qi.1)) (fs w)) w)).

Definition rebase (a b q : path) : path := b ++ drop (length a) q.
(** The entries of a subtree under their new paths. *)
Definition rebased (a b : path) (f : gmap path Inode) : gmap path Inode :=
  list_to_map ((λ qi, (rebase a b qi.1, qi.2)) <$> filter (λ qi, below a qi.1) (map_to_list f)).


(** The subtree at [a] moved to [b]. *)
Definition move_tree (a b : path) (f : gmap path Inode) : gmap path Inode :=
  rebased a b f ∪ filter (λ qi, negb (below a qi.1)) f.

(** [os.Rename]: never onto a directory. *)
Definition Rename (old new : string) : OS unit :=
  let a := loc old in
  let b := loc new in
  syscall clean_fail (λ w,
    if dir_at (fs w) b then Err EEXIST else
    match fs w !! a with
    | None => Err ENOENT
    | Some i =>
        if negb (dir_at (fs w) (parent b)) then Err ENOENT else
        if below a b then Err EINVAL else
        match fs w !! b, i_kind i with
        | Some _, KDir => Err ENOTDIR
        | _, _ => Ok (tt, with_fs (move_tree a b (fs w)) w)
        end
    end).

Definition set_owner (p : path) (ow : Z * Z) (f : gmap path Inode) : gmap path Inode :=
  alter (λ i, mkInode (i_kind i) (i_mode i) ow) p f.
Definition chown (p : path) (ow : Z * Z) : OS unit :=
  syscall clean_fail (λ w,
    match fs w !! p with
    | None => Err ENOENT
    | Some _ => Ok (tt, with_fs (set_owner p ow (fs w)) w)
    end).
Definition Chown (p : string) (uid gid : Z) : OS unit := chown (loc p) (uid, gid).

Definition Chmod (p : string) (mode : Z) : OS unit :=
  syscall clean_fail (λ w,
    match fs w !! loc p with
    | None => Err ENOENT
    | Some _ => Ok (tt, with_fs (alter (λ i, mkInode (i_kind i) mode (i_owner i)) (loc p) (fs w)) w)
    end).

(** [filepath.WalkDir(dir, chown)]: the entries of the tree, parents first and
    otherwise in an order left open; the first failure ends the walk. *)
Fixpoint chown_each (ps : list path) (ow : Z * Z) : OS unit :=
  match ps with
  | [] => ret (Ok tt)
  | p :: ps' => let? _ := chown p ow in chown_each ps' ow
  end.
Definition WalkChown {o : Order} (dir : string) (ow : Z * Z) : OS unit :=
  let! w := get in
  match fs w !! loc dir with
  | None => ret (Err ENOENT)
  | Some _ => chown_each (loc dir :: ord o (filter (λ q, below (loc dir) q ∧ q ≠ loc dir) (map_to_list (fs w)).*1)) ow
  end.

(** [user.Lookup] and [user.LookupGroupId]. *)
Definition Lookup (name : string) : OS Account :=
  syscall clean_fail (λ w, match accounts w !! name with Some a => Ok (a, w) | None => Err ENOENT end).
Definition LookupGroupId (gid : string) : OS string :=
  syscall clean_fail (λ w, match groups w !! gid with Some g => Ok (g, w) | None => Err ENOENT end).

(** [os.UserHomeDir]. *)
Definition UserHomeDir : option string :=
  let h := Getenv pr "HOME" in if bool_decide (h = EmptyString) then None else Some h.
End calls.

(** ** Other programs *)

(** [prog args w]: whether the program exits with success, and the world it
    leaves.  [private p]: [p] belongs to the service manager, the account
    database or a service that the manager runs.  Enabling a unit starts the
    service, so the data directory of the program may be private: nothing is
    promised about it. *)
Class Programs := {
  prog : list string → World → bool * World;
  private : path → bool;
  (** [cp -a src/. dst] creates below [dst] a copy of everything below [src],
      and touches nothing outside [dst]. *)
  cp_copies cwd src dst w w' :
    rooted src = true → rooted dst = true →
    prog ["cp"; "-a"; src +:+ "/."; dst]%string w = (true, w') →
    ∀ r i, fs w !! (locate cwd src ++ r) = Some i → r ≠ [] →
      ∃ m ow, fs w' !! (locate cwd dst ++ r) = Some (mkInode (i_kind i) m ow);
  cp_frame cwd src dst w p :
    rooted dst = true → below (locate cwd dst) p = false →
    fs (prog ["cp"; "-a"; src +:+ "/."; dst]%string w).2 !! p = fs w !! p;
  (** The service managers, the services they start and [useradd] keep to their
      own files, and the unit file and the init script are not among them. *)
  manager_frame name args w p :
    name ∈ ["systemctl"; "rc-update"; "rc-service"; "useradd"]%string → private p = false →
    fs (prog (name :: args) w).2 !! p = fs w !! p;
  unit_not_private : private ["etc"; "systemd"; "system"; "shadowstat.service"]%string = false;
  script_not_private : private ["etc"; "init.d"; "shadowstat"]%string = false
}.

(** [cmd.CombinedOutput()] and [cmd.Run()]: starting the program may fail. *)
Definition Exec `{Programs} (cmd : list string) : OS unit := λ w,
  let w0 := with_faults (tail (faults w)) w in
  match default None (head (faults w)) with
  | Some _ => (Err EFAIL, w0)
  | None =>
      let '(ok, w1) := prog cmd w0 in
      (if ok then Ok tt else Err EFAIL, mkWorld (fs w1) (faults w0) (accounts w1) (groups w1) (ran w ++ [cmd]))
  end.

(** ** Lemmas on paths *)
Lemma below_spec p q : below p q = true ↔ ∃ r, q = p ++ r.
Proof.
  rewrite /below bool_decide_eq_true. split.
  - intros Hp. exists (drop (length p) q). by rewrite -{1}Hp take_drop.
  - intros [r ->]. by rewrite take_app_length.
Qed.
Lemma below_app p r : below p (p ++ r) = true.
Proof. apply below_spec. eauto. Qed.
Lemma rebase_app a b r : rebase a b (a ++ r) = b ++ r.
Proof. by rewrite /rebase drop_app_length. Qed.

Lemma rebased_NoDup (a b : path) (f : gmap path Inode) (P : path * Inode → Prop) `{∀ x, Decision (P x)} :
  (∀ qi, P qi → below a qi.1 = true) → NoDup ((λ qi, (rebase a b qi.1, qi.2)) <$> filter P (map_to_list f)).*1.
Proof.
  intros HP. rewrite -list_fmap_compose. apply NoDup_fmap_2_strong; [|apply NoDup_filter, NoDup_map_to_list].
  intros [q i] [q' i'] [Hq Hin]%list_elem_of_filter [Hq' Hin']%list_elem_of_filter. simpl.
  apply HP, below_spec in Hq as [r Hr]. apply HP, below_spec in Hq' as [r' Hr']. simpl in *. subst.
  rewrite !rebase_app => Heq. apply app_inv_head in Heq as ->.
  apply elem_of_map_to_list in Hin, Hin'. by simplify_eq.
Qed.

Lemma rebased_lookup a b f r i : f !! (a ++ r) = Some i → rebased a b f !! (b ++ r) = Some i.
Proof.
  intros Hi. apply elem_of_list_to_map_1; [apply rebased_NoDup; intros ? ?; by apply Is_true_eq_true|].
  apply list_elem_of_fmap. exists (a ++ r, i). rewrite /= rebase_app. split; [done|].
  apply list_elem_of_filter. split; [by rewrite /= below_app|]. by apply elem_of_map_to_list.
Qed.
Lemma rebased_frame a b f p : below b p = false → rebased a b f !! p = None.
Proof.
  intros Hb. apply not_elem_of_list_to_map_1. rewrite -list_fmap_compose list_elem_of_fmap.
  intros ([q i] & -> & [Hq _]%list_elem_of_filter). rewrite /= /rebase below_app in Hb. done.
Qed.

Lemma move_tree_moved a b f r i : f !! (a ++ r) = Some i → move_tree a b f !! (b ++ r) = Some i.
Proof. intros Hi. by apply lookup_union_Some_l, rebased_lookup. Qed.

Lemma move_tree_frame a b f p : below a p = false → below b p = false → move_tree a b f !! p = f !! p.
Proof.
  intros Ha Hb. rewrite /move_tree lookup_union rebased_frame // left_id_L. destruct (f !! p) as [i|] eqn:E.
  - apply map_lookup_filter_Some. by rewrite /= Ha.
  - apply map_lookup_filter_None. by left.
Qed.

Lemma move_tree_source a b f r : below b (a ++ r) = false → move_tree a b f !! (a ++ r) = None.
Proof.
  intros Hb. apply lookup_union_None. split; [by apply rebased_frame|].
  apply map_lookup_filter_None. right. intros i _. by rewrite /= below_app.
Qed.

Lemma locate_step_plain base c :
  c ≠ EmptyString → c ≠ "."%string → c ≠ ".."%string → locate_step base c = base ++ [c].
Proof. intros H1 H2 H3. rewrite /locate_step !bool_decide_eq_false_2 //. Qed.
Lemma locate_step_up base : locate_step base ".." = removelast base.
Proof. done. Qed.

(** Cleaning a path does not change what it names. *)
Lemma locate_clean_steps root cs acc base :
  (root = true → base = []) → Forall (λ c, c ≠ EmptyString ∧ c ≠ "."%string) acc →
  foldl locate_step base (foldl (clean_step root) acc cs) = foldl locate_step (foldl locate_step base acc) cs ∧
  Forall (λ c, c ≠ EmptyString ∧ c ≠ "."%string) (foldl (clean_step root) acc cs).
Proof.
  intros Hroot. revert acc. induction cs as [|c cs IH]; intros acc Hacc; [done|]. simpl.
  assert (foldl locate_step base (clean_step root acc c) = locate_step (foldl locate_step base acc) c ∧
          Forall (λ c, c ≠ EmptyString ∧ c ≠ "."%string) (clean_step root acc c)) as [<- Hc]; [|by apply IH].
  rewrite /clean_step. destruct (bool_decide (c = EmptyString)) eqn:E1; [by rewrite /locate_step E1|].
  destruct (bool_decide (c = "."%string)) eqn:E2; [by rewrite /locate_step E1 E2|]. simpl.
  apply bool_decide_eq_false in E1, E2.
  case_bool_decide as E3; [subst c|].
  - destruct acc as [|x acc _] using rev_ind; simpl.
    + destruct root; [|split; [done|by repeat constructor]]. by rewrite (Hroot eq_refl).
    + rewrite last_snoc. case_bool_decide as Ex.
      * rewrite foldl_app /=. split; [done|]. apply Forall_app. split; [done|by repeat constructor].
      * rewrite removelast_last foldl_snoc. apply Forall_app in Hacc as [Hacc Hx]. apply Forall_singleton in Hx as [Hx1 Hx2].
        split; [|done]. rewrite (locate_step_plain _ x) //. by rewrite locate_step_up removelast_last.
  - rewrite foldl_snoc. split; [done|]. apply Forall_app. split; [done|by repeat constructor].
Qed.

Lemma split_no_sep sep s : Forall (no_char sep) (split sep s).
Proof.
  induction s as [|c s IH]; [by repeat constructor|]. simpl. case_decide; [by constructor|].
  destruct (split sep s) as [|w ws]; [by repeat constructor; rewrite /no_char /= bool_decide_eq_true_2|].
  apply Forall_cons in IH as [Hw Hws]. constructor; [|done]. rewrite /no_char /= bool_decide_eq_true_2 //.
Qed.

Lemma clean_step_no_sep root acc c : Forall (no_char slash) acc → no_char slash c → Forall (no_char slash) (clean_step root acc c).
Proof.
  intros Ha Hc. rewrite /clean_step. repeat case_bool_decide; simpl; try done; try (apply Forall_app; by repeat constructor).
  destruct (last acc); [|destruct root; by repeat constructor]. case_bool_decide; [apply Forall_app; by repeat constructor|].
  destruct acc as [|x acc _] using rev_ind; [done|]. rewrite removelast_last. by apply Forall_app in Ha as [? _].
Qed.

Lemma clean_components_no_sep p : Forall (no_char slash) (clean_components p).
Proof.
  rewrite /clean_components. assert (Forall (no_char slash) []) as H0 by constructor. revert H0.
  generalize (@nil string) as acc. pose proof (split_no_sep slash p) as Hs. induction Hs as [|c cs Hc _ IH]; intros acc Hacc; [done|].
  simpl. apply IH. by apply clean_step_no_sep.
Qed.

Lemma rooted_join c cs : no_char slash c → c ≠ EmptyString → rooted (join slash (c :: cs)) = false.
Proof.
  intros Hc Hne. destruct c as [|a c]; [done|]. rewrite /no_char /= in Hc. apply andb_true_iff in Hc as [Ha _].
  apply bool_decide_eq_true in Ha. destruct cs; simpl; by apply bool_decide_eq_false_2.
Qed.

Lemma locate_Clean cwd p : locate cwd (Clean p) = locate cwd p.
Proof.
  rewrite /locate /Clean.
  destruct (locate_clean_steps (rooted p) (split slash p) [] (if rooted p then [] else cwd)) as [Heq Hne];
    [by intros ->|done|]. fold (clean_components p) in Heq, Hne. simpl in Heq. rewrite -Heq. clear Heq.
  pose proof (clean_components_no_sep p) as Hns. destruct (rooted p) eqn:Er.
  - assert (rooted (String slash (join slash (clean_components p))) = true) as -> by done.
    change (split slash (String slash ?x)) with (EmptyString :: split slash x). cbn [foldl]. destruct (clean_components p) as [|c cs]; [done|]. rewrite split_join //.
  - destruct (clean_components p) as [|c cs]; [done|]. apply Forall_cons in Hns as [Hc Hcs].
    rewrite rooted_join //; [by apply Forall_cons in Hne as [[? _] _]|]. rewrite split_join //. by constructor.
Qed.

Lemma split_app_gen sep s t : ∃ ws w, split sep s = ws ++ [w] ∧ split sep (s +:+ String sep t) = ws ++ w :: split sep t.
Proof.
  induction s as [|c s (ws & w & H1 & H2)].
  - exists [], EmptyString. rewrite string_app_nil_l /=. by case_decide.
  - rewrite string_app_cons /=. case_decide.
    + exists (EmptyString :: ws), w. by rewrite H1 H2.
    + rewrite H1 H2. destruct ws as [|w0 ws]; simpl.
      * by exists [], (String c w).
      * by exists (String c w0 :: ws), w.
Qed.

(** Joining a plain name to a path names an entry of that directory. *)
Lemma locate_Join cwd d name :
  d ≠ EmptyString → no_char slash name → name ≠ EmptyString → name ≠ "."%string → name ≠ ".."%string →
  locate cwd (Join [d; name]) = locate cwd d ++ [name].
Proof.
  intros Hd Hn H1 H2 H3. cbn [Join]. rewrite bool_decide_eq_false_2 // locate_Clean /locate. cbn [join].
  assert (rooted (d +:+ String slash name) = rooted d) as -> by (by destruct d).
  destruct (split_app_gen slash d name) as (ws & w & E1 & E2). rewrite E2 E1 split_no_char // cons_middle app_assoc foldl_app /=.
  by apply locate_step_plain.
Qed.

Lemma Clean_nonempty p : Clean p ≠ EmptyString.
Proof.
  rewrite /Clean. destruct (rooted p) eqn:Er; [done|].
  destruct (locate_clean_steps (rooted p) (split slash p) [] []) as [_ Hne]; [done|done|].
  fold (clean_components p) in Hne. destruct (clean_components p) as [|c cs]; [done|].
  apply Forall_cons in Hne as [[Hc _] _]. destruct c; [done|]. by destruct cs.
Qed.
Lemma Join_nonempty d es : d ≠ EmptyString → Join (d :: es) ≠ EmptyString.
Proof. intros Hd. cbn [Join]. rewrite bool_decide_eq_false_2 //. apply Clean_nonempty. Qed.
