(* ===== verification/Tls.v ===== *)
(** * The certificate and the HTTPS server ([internal/tlscert], [web/server.go])

    [EnsureSelfSigned] writes a certificate and a key unless both files are
    there.  Generating keys, encoding and checking a pair are Go's [crypto/x509],
    [encoding/pem] and [crypto/tls], the class [X509]; random values and the
    clock are arguments.

    The theorems: a call that finds both files writes nothing, and a successful
    call that does not leaves a matching pair made of the key it has just drawn
    and touches nothing else; a call that fails while writing the
    key leaves a pair that every later start accepts and no server can use. *)

From stdpp Require Import prelude strings gmap list.
From Stdlib Require Import ZArith Lia Ascii.
From Corelib Require Import ssreflect.
From S2P Require Import Prelude GoStrings GoNet GoTime System.

Open Scope general_if_scope.
Open Scope Z_scope.

Record Template := mkTemplate {
  SerialNumber : Z; CommonName : string; NotBefore : Time; NotAfter : Time;
  KeyUsage : Z; ExtKeyUsage : list Z; IsCA : bool;
  DNSNames : list string; IPAddresses : list (option IP)
}.

Definition KeyUsageDigitalSignature : Z := 1.
Definition KeyUsageCertSign : Z := 32.
Definition ExtKeyUsageServerAuth : Z := 1.

Class X509 := {
  PrivateKey : Type;
  CreateCertificate : Template → PrivateKey → option string;
  MarshalECPrivateKey : PrivateKey → option string;
  pem_encode : string → string → string;          (* block type, bytes *)
  AddDate : Time → Z → Z → Z → Time;
  pair_ok : string → string → bool;               (* tls.X509KeyPair accepts the two texts *)
  self_signed_pair t k der kb :
    CreateCertificate t k = Some der → MarshalECPrivateKey k = Some kb →
    pair_ok (pem_encode "CERTIFICATE" der) (pem_encode "EC PRIVATE KEY" kb) = true
}.

Inductive TlsError :=
  | ErrGenerateKey | ErrGenerateSerial | ErrCreateCertificate | ErrOpenCert (e : OSError) | ErrWriteCert (e : OSError)
  | ErrMarshalKey | ErrOpenKey (e : OSError) | ErrWriteKey (e : OSError).

Section tls.
Context `{X509} (pr : Process).

(** What the call draws from outside: the host name (empty when unknown), a new
    key, a serial number and two readings of the clock. *)
Record Draw := mkDraw { d_hostname : string; d_key : option PrivateKey; d_serial : option Z; d_now1 : Time; d_now2 : Time }.

Definition template_of (d : Draw) (serial : Z) : Template :=
  mkTemplate serial "ShadowStat" (Add (d_now1 d) (- Hour)) (AddDate (d_now2 d) 2 0 0)
    (Z.lor KeyUsageDigitalSignature KeyUsageCertSign) [ExtKeyUsageServerAuth] true
    (if negb (bool_decide (d_hostname d = EmptyString)) && negb (bool_decide (d_hostname d = "localhost"%string))
     then ["localhost"%string; d_hostname d] else ["localhost"%string])
    [ParseIP "127.0.0.1"; ParseIP "::1"].

(** [if err != nil { return fmt.Errorf(...) }]. *)
Definition wrap_err {A E E'} (f : E → E') (m : M World (Result E A)) : M World (Result E' A) :=
  let! r := m in ret (match r with Ok a => Ok a | Err e => Err (f e) end).

Definition write_pair (certPath keyPath der : string) (keyBytes : option string) : M World (Result TlsError unit) :=
  let? _ := wrap_err ErrOpenCert (OpenTrunc pr certPath 420) in
  let? _ := wrap_err ErrWriteCert (WriteAll pr certPath (pem_encode "CERTIFICATE" der)) in
  match keyBytes with
  | None => ret (Err ErrMarshalKey)
  | Some kb =>
      let? _ := wrap_err ErrOpenKey (OpenTrunc pr keyPath 384) in
      wrap_err ErrWriteKey (WriteAll pr keyPath (pem_encode "EC PRIVATE KEY" kb))
  end.

Definition EnsureSelfSigned (d : Draw) (certPath keyPath : string) : M World (Result TlsError unit) :=
  let! certErr := Stat pr certPath in
  let! keyErr := Stat pr keyPath in
  if is_ok certErr && is_ok keyErr then ret (Ok tt) else
  match d_key d with
  | None => ret (Err ErrGenerateKey)
  | Some priv =>
      match d_serial d with
      | None => ret (Err ErrGenerateSerial)
      | Some serial =>
          match CreateCertificate (template_of d serial) priv with
          | None => ret (Err ErrCreateCertificate)
          | Some der => write_pair certPath keyPath der (MarshalECPrivateKey priv)
          end
      end
  end.

(** ** [web/server.go] *)
Record Server := mkServer { s_addr : string; s_minVersion : Z }.
Definition VersionTLS12 : Z := 771.

Definition NewServer (d : Draw) (addr certPath keyPath : string) : M World (Result TlsError Server) :=
  let? _ := EnsureSelfSigned d certPath keyPath in
  ret (Ok (mkServer addr VersionTLS12)).

(** How serving ends: the pair cannot be used, the listener fails, or the
    context is cancelled and shutting down succeeds or not. *)
Inductive ServerEnd := BadKeyPair | ListenError | ShutDown (ok : bool).

(** [Start], with [listens]: whether the address could be bound and served
    until cancellation, [shutdown_ok]: whether the ten seconds were enough. *)
Definition Start (certPath keyPath : string) (listens shutdown_ok : bool) (w : World) : ServerEnd :=
  match text_at (fs w) (locate (p_cwd pr) certPath), text_at (fs w) (locate (p_cwd pr) keyPath) with
  | Some c, Some k =>
      if pair_ok c k then if listens then ShutDown shutdown_ok else ListenError else BadKeyPair
  | _, _ => BadKeyPair
  end.
End tls.

(** ** What a system call did *)
Lemma syscall_cases {A} partial (act : World → Result OSError (A * World)) w r w' :
  syscall partial act w = (r, w') →
  let w0 := with_faults (tail (faults w)) w in
  match r with
  | Ok a => act w0 = Ok (a, w')
  | Err e => (e = EFAIL ∧ ∃ n, w' = partial n w0) ∨ (act w0 = Err e ∧ w' = w0)
  end.
Proof.
  rewrite /syscall. destruct (default None (head (faults w))) as [n|]; [intros [= <- <-]; eauto|].
  destruct (act _) as [[a w1]|e] eqn:E; intros [= <- <-]; auto.
Qed.

Lemma Stat_cases pr p w r w' : Stat pr p w = (r, w') → fs w' = fs w ∧
  match r with Ok i => fs w !! locate (p_cwd pr) p = Some i ∨ locate (p_cwd pr) p = [] | Err _ => True end.
Proof.
  intros Hs%syscall_cases. destruct r as [i|e].
  - simpl in Hs. destruct (fs w !! locate (p_cwd pr) p) eqn:E; [injection Hs as -> <-; auto|].
    case_bool_decide; [|done]. injection Hs as _ <-. auto.
  - destruct Hs as [[_ [n ->]]|[_ ->]]; done.
Qed.

(** The inode of a file that was written: a new one, or the old one with its
    mode and owner. *)
Definition written (old : option Inode) (mode : Z) (ids : Z * Z) (s : string) : Inode :=
  match old with
  | Some i => mkInode (KFile (Text s)) (i_mode i) (i_owner i)
  | None => mkInode (KFile (Text s)) mode ids
  end.

Lemma OpenTrunc_written pr p mode w w' :
  OpenTrunc pr p mode w = (Ok tt, w') →
  fs w' = <[locate (p_cwd pr) p := written (fs w !! locate (p_cwd pr) p) mode (p_ids pr) EmptyString]> (fs w).
Proof.
  intros Hs%syscall_cases. simpl in Hs. destruct (negb _); [done|].
  destruct (fs w !! locate (p_cwd pr) p) as [[[|c] m ow]|]; [done| |case_bool_decide; [done|]]; by injection Hs as <-.
Qed.

Lemma OpenTrunc_ok pr p mode w w' :
  OpenTrunc pr p mode w = (Ok tt, w') →
  ∃ m ow, fs w' = <[locate (p_cwd pr) p := mkInode (KFile (Text EmptyString)) m ow]> (fs w).
Proof. intros ->%OpenTrunc_written. rewrite /written. case_match; eauto. Qed.

Lemma OpenTrunc_err pr p mode w e w' : OpenTrunc pr p mode w = (Err e, w') → fs w' = fs w.
Proof. intros [[_ [n ->]]|[_ ->]]%syscall_cases; done. Qed.

Lemma Remove_ok pr p w w' : Remove pr p w = (Ok tt, w') → fs w' = delete (locate (p_cwd pr) p) (fs w).
Proof. intros Hs%syscall_cases. simpl in Hs. repeat (case_match; try done). by injection Hs as <-. Qed.

Lemma set_text_fs p s w i : fs w !! p = Some i →
  fs (set_text p s w) = <[p := mkInode (KFile (Text s)) (i_mode i) (i_owner i)]> (fs w).
Proof. intros Hi. rewrite /set_text Hi. by destruct i. Qed.

Lemma text_insert f p s m ow : text_at (<[p := mkInode (KFile (Text s)) m ow]> f) p = Some s.
Proof. by rewrite /text_at lookup_insert_eq. Qed.
Lemma text_insert_ne f p q i : p ≠ q → text_at (<[p := i]> f) q = text_at f q.
Proof. intros Hne. by rewrite /text_at lookup_insert_ne. Qed.

(** Writing a file: it is opened and then written. *)
Lemma write_file_written pr p mode s w w1 w2 :
  OpenTrunc pr p mode w = (Ok tt, w1) → WriteAll pr p s w1 = (Ok tt, w2) →
  fs w2 = <[locate (p_cwd pr) p := written (fs w !! locate (p_cwd pr) p) mode (p_ids pr) s]> (fs w).
Proof.
  intros E1%OpenTrunc_written E2%syscall_cases. simpl in E2. injection E2 as <-.
  rewrite (set_text_fs _ _ _ (written (fs w !! locate (p_cwd pr) p) mode (p_ids pr) EmptyString)) /= E1 ?lookup_insert_eq //.
  rewrite insert_insert_eq. by destruct (fs w !! _).
Qed.

Lemma write_file_ok pr p mode s w w1 w2 :
  OpenTrunc pr p mode w = (Ok tt, w1) → WriteAll pr p s w1 = (Ok tt, w2) →
  ∃ m ow, fs w2 = <[locate (p_cwd pr) p := mkInode (KFile (Text s)) m ow]> (fs w).
Proof. intros E1 E2. rewrite (write_file_written _ _ _ _ _ _ _ E1 E2) /written. case_match; eauto. Qed.

Lemma wrap_err_ok {A E E'} (f : E → E') (m : M World (Result E A)) w a w' :
  wrap_err f m w = (Ok a, w') → m w = (Ok a, w').
Proof. rewrite /wrap_err /bind /ret. destruct (m w) as [[] w1]; [|done]. by intros [= -> ->]. Qed.

(** The file system with both files written. *)
Definition pair_written (pr : Process) (cert key : path) (certText keyText : string) (f : gmap path Inode) :
    gmap path Inode :=
  <[key := written (f !! key) 384 (p_ids pr) keyText]>
  (<[cert := written (f !! cert) 420 (p_ids pr) certText]> f).

Lemma write_pair_ok `{X509} pr certPath keyPath der kb w w' :
  locate (p_cwd pr) certPath ≠ locate (p_cwd pr) keyPath →
  write_pair pr certPath keyPath der kb w = (Ok tt, w') →
  ∃ k, kb = Some k ∧
    fs w' = pair_written pr (locate (p_cwd pr) certPath) (locate (p_cwd pr) keyPath)
              (pem_encode "CERTIFICATE" der) (pem_encode "EC PRIVATE KEY" k) (fs w).
Proof.
  intros Hne ([] & w1 & E1%wrap_err_ok & ([] & w2 & E2%wrap_err_ok & H2)%try_ok)%try_ok.
  destruct kb as [k|]; [|done]. apply try_ok in H2 as ([] & w3 & E3%wrap_err_ok & E4%wrap_err_ok).
  exists k. split; [done|].
  by rewrite (write_file_written _ _ _ _ _ _ _ E3 E4) (write_file_written _ _ _ _ _ _ _ E1 E2) lookup_insert_ne.
Qed.

(** A run in which nothing fails. *)
Lemma syscall_run {A} partial (act : World → Result OSError (A * World)) w a w' :
  default None (head (faults w)) = None → act (with_faults (tail (faults w)) w) = Ok (a, w') →
  syscall partial act w = (Ok a, w').
Proof. rewrite /syscall. by intros -> ->. Qed.

Lemma Stat_present pr p w i :
  faults w = [] → fs w !! locate (p_cwd pr) p = Some i → Stat pr p w = (Ok i, w).
Proof.
  intros Hf Hi. apply syscall_run; rewrite Hf //= Hi. do 2 f_equal. destruct w. simpl in *. by subst.
Qed.
Lemma text_present f p s : text_at f p = Some s → is_Some (f !! p).
Proof. rewrite /text_at. by destruct (f !! p). Qed.

Lemma present_accepted `{X509} pr d certPath keyPath w c k :
  faults w = [] → fs w !! locate (p_cwd pr) certPath = Some c → fs w !! locate (p_cwd pr) keyPath = Some k →
  EnsureSelfSigned pr d certPath keyPath w = (Ok tt, w).
Proof.
  intros Hf Hc Hk.
  rewrite /EnsureSelfSigned (bind_run _ _ _ _ _ (Stat_present pr certPath w c Hf Hc)).
  by rewrite (bind_run _ _ _ _ _ (Stat_present pr keyPath w k Hf Hk)).
Qed.

(** Runs on a file system where the file is missing. *)
Definition next (fl : list (option nat)) (f : gmap path Inode) (w : World) : World := with_fs f (with_faults fl w).

Lemma Stat_missing pr p w fl :
  faults w = None :: fl → fs w !! locate (p_cwd pr) p = None → locate (p_cwd pr) p ≠ [] →
  Stat pr p w = (Err ENOENT, next fl (fs w) w).
Proof. intros Hf Hp Hne. rewrite /Stat /syscall Hf /= Hp bool_decide_eq_false_2 //. Qed.

Lemma OpenTrunc_new pr p mode w fl :
  faults w = None :: fl → fs w !! locate (p_cwd pr) p = None → locate (p_cwd pr) p ≠ [] →
  dir_at (fs w) (parent (locate (p_cwd pr) p)) = true →
  OpenTrunc pr p mode w =
    (Ok tt, next fl (<[locate (p_cwd pr) p := mkInode (KFile (Text EmptyString)) mode (p_ids pr)]> (fs w)) w).
Proof. intros Hf Hp Hne Hd. rewrite /OpenTrunc /syscall Hf /= Hd /= Hp bool_decide_eq_false_2 //. Qed.

Lemma WriteAll_run pr p s w fl i :
  faults w = None :: fl → fs w !! locate (p_cwd pr) p = Some i →
  WriteAll pr p s w = (Ok tt, next fl (<[locate (p_cwd pr) p := mkInode (KFile (Text s)) (i_mode i) (i_owner i)]> (fs w)) w).
Proof. intros Hf Hi. rewrite /WriteAll /syscall Hf /= /set_text /= Hi. by destruct i. Qed.

Lemma WriteAll_fails pr p s w fl n i :
  faults w = Some n :: fl → fs w !! locate (p_cwd pr) p = Some i →
  WriteAll pr p s w =
    (Err EFAIL, next fl (<[locate (p_cwd pr) p := mkInode (KFile (Text (String.substring 0 n s))) (i_mode i) (i_owner i)]> (fs w)) w).
Proof. intros Hf Hi. rewrite /WriteAll /syscall Hf /= /set_text /= Hi. by destruct i. Qed.

Lemma wrap_err_run {A E E'} (f : E → E') (m : M World (Result E A)) w r w' :
  m w = (r, w') → wrap_err f m w = (match r with Ok a => Ok a | Err e => Err (f e) end, w').
Proof. rewrite /wrap_err /bind. by intros ->. Qed.

Lemma dir_at_insert_ne f p q i : p ≠ q → p ≠ [] → dir_at (<[p := i]> f) q = dir_at f q.
Proof. intros Hne Hp. rewrite /dir_at. destruct q; [done|]. by rewrite lookup_insert_ne. Qed.
Lemma dir_at_missing f p q : dir_at f q = true → f !! p = None → p ≠ [] → p ≠ q.
Proof. rewrite /dir_at. intros Hq Hp Hne <-. destruct p; [done|]. by rewrite Hp in Hq. Qed.

Section broken.
Context `{X509} (pr : Process) (certPath keyPath : string) (d : Draw) (priv : PrivateKey) (serial : Z) (der kb : string).
Abbreviation cert := (locate (p_cwd pr) certPath).
Abbreviation key := (locate (p_cwd pr) keyPath).
Context (Hkey : d_key d = Some priv) (Hserial : d_serial d = Some serial).
Context (Hder : CreateCertificate (template_of d serial) priv = Some der) (Hkb : MarshalECPrivateKey priv = Some kb).

(** The last write fails after [n] bytes. *)
Lemma interrupted_key_write w n :
  cert ≠ key → cert ≠ [] → key ≠ [] → fs w !! cert = None → fs w !! key = None →
  dir_at (fs w) (parent cert) = true → dir_at (fs w) (parent key) = true →
  faults w = [None; None; None; None; None; Some n] →
  ∃ w', EnsureSelfSigned pr d certPath keyPath w = (Err (ErrWriteKey EFAIL), w') ∧ faults w' = [] ∧
    text_at (fs w') cert = Some (pem_encode "CERTIFICATE" der) ∧
    text_at (fs w') key = Some (String.substring 0 n (pem_encode "EC PRIVATE KEY" kb)).
Proof.
  intros Hne Hc Hk Fc Fk Dc Dk Hf. rewrite /EnsureSelfSigned.
  rewrite (bind_run _ _ _ _ _ (Stat_missing pr certPath w _ Hf Fc Hc)).
  rewrite (bind_run _ _ _ _ _ (Stat_missing pr keyPath (next _ (fs w) w) _ eq_refl Fk Hk)).
  cbn [is_ok andb]. rewrite Hkey Hserial Hder Hkb /write_pair.
  erewrite bind_run; [|apply wrap_err_run, OpenTrunc_new; done]. cbv beta iota.
  erewrite bind_run; [|apply wrap_err_run; eapply WriteAll_run; [done|apply lookup_insert_eq]]. cbv beta iota.
  erewrite bind_run; [|apply wrap_err_run, OpenTrunc_new; [done| |done|]].
  2: { simpl. by rewrite !lookup_insert_ne. }
  2: { simpl. pose proof (dir_at_missing _ _ _ Dk Fc Hc). by rewrite !dir_at_insert_ne. }
  cbv beta iota. erewrite wrap_err_run; [|eapply WriteAll_fails; [done|apply lookup_insert_eq]].
  eexists. split; [reflexivity|]. split; [done|]. simpl. split; [|apply text_insert].
  rewrite text_insert_ne; [exact (not_eq_sym Hne)|]. rewrite text_insert_ne; [exact (not_eq_sym Hne)|]. apply text_insert.
Qed.
End broken.

(** ** What a call left *)

(** The call number [i] finds [p]. *)
Definition found (w : World) (i : nat) (p : path) : Prop :=
  default None (faults w !! i) = None ∧ is_Some (fs w !! p).

Lemma Stat_found pr p w : locate (p_cwd pr) p ≠ [] →
  is_ok (Stat pr p w).1 = true ↔ found w 0 (locate (p_cwd pr) p).
Proof.
  intros Hne. rewrite /found /Stat /syscall -head_lookup.
  destruct (default None (head (faults w))); [by split; [|intros [? _]]|]. simpl.
  destruct (fs w !! locate (p_cwd pr) p); simpl; [by split; eauto|].
  rewrite bool_decide_eq_false_2 //. by split; [|intros [_ []]].
Qed.

Lemma Stat_world pr p w : (Stat pr p w).2 = with_faults (tail (faults w)) w.
Proof.
  rewrite /Stat /syscall. destruct (default None (head (faults w))); [done|].
  simpl. by destruct (fs w !! _); [|case_bool_decide].
Qed.

(** A certificate for serving HTTPS on this machine, of this moment. *)
Definition server_certificate `{X509} (d : Draw) (serial : Z) (t : Template) : Prop :=
  SerialNumber t = serial ∧ CommonName t = "ShadowStat"%string ∧
  NotBefore t = Add (d_now1 d) (- Hour) ∧ NotAfter t = AddDate (d_now2 d) 2 0 0 ∧
  ExtKeyUsage t = [ExtKeyUsageServerAuth] ∧ "localhost"%string ∈ DNSNames t ∧
  (d_hostname d ≠ EmptyString → d_hostname d ∈ DNSNames t) ∧
  IPAddresses t = [Some [0; 0; 0; 0; 0; 0; 0; 0; 0; 0; 255; 255; 127; 0; 0; 1];
                   Some [0; 0; 0; 0; 0; 0; 0; 0; 0; 0; 0; 0; 0; 0; 0; 1]].

Lemma template_of_server `{X509} d serial : server_certificate d serial (template_of d serial).
Proof.
  rewrite /server_certificate /template_of /=. split_and!; try done.
  - case_match; set_solver.
  - intros Hh. rewrite bool_decide_eq_false_2 //=.
    destruct (bool_decide_reflect (d_hostname d = "localhost"%string)) as [->|]; set_solver.
Qed.

(** Both files hold a pair made of the key and serial number just drawn. *)
Definition fresh_pair `{X509} (pr : Process) (d : Draw) (cert key : path) (f f' : gmap path Inode) : Prop :=
  ∃ priv serial t der kb,
    d_key d = Some priv ∧ d_serial d = Some serial ∧ server_certificate d serial t ∧
    CreateCertificate t priv = Some der ∧ MarshalECPrivateKey priv = Some kb ∧
    f' = pair_written pr cert key (pem_encode "CERTIFICATE" der) (pem_encode "EC PRIVATE KEY" kb) f.

Lemma fresh_pair_spec `{X509} pr d cert key f f' :
  cert ≠ key → fresh_pair pr d cert key f f' →
  (∃ c k, text_at f' cert = Some c ∧ text_at f' key = Some k ∧ pair_ok c k = true) ∧
  ∀ p, p ≠ cert → p ≠ key → f' !! p = f !! p.
Proof.
  intros Hne (priv & serial & t & der & kb & _ & _ & _ & Ec & Ek & ->). split.
  - exists (pem_encode "CERTIFICATE" der), (pem_encode "EC PRIVATE KEY" kb). rewrite /pair_written /written. split_and!.
    + rewrite text_insert_ne; [exact (not_eq_sym Hne)|]. case_match; apply text_insert.
    + case_match; apply text_insert.
    + exact (self_signed_pair _ _ _ _ Ec Ek).
  - intros p Hp1 Hp2. rewrite /pair_written lookup_insert_ne; [exact (not_eq_sym Hp2)|].
    rewrite lookup_insert_ne //. exact (not_eq_sym Hp1).
Qed.

(** The guard of [EnsureSelfSigned] and its two branches. *)
Lemma ensure_found `{X509} pr d certPath keyPath w :
  let cert := locate (p_cwd pr) certPath in
  let key := locate (p_cwd pr) keyPath in
  cert ≠ [] → key ≠ [] → found w 0 cert → found w 1 key →
  EnsureSelfSigned pr d certPath keyPath w = (Ok tt, with_faults (drop 2 (faults w)) w).
Proof.
  intros cert key Hc Hk Fc Fk. rewrite /EnsureSelfSigned /bind.
  pose proof (Stat_world pr certPath w) as W1. apply (Stat_found pr certPath w Hc) in Fc.
  destruct (Stat pr certPath w) as [r1 w1]. simpl in W1, Fc. subst w1.
  pose proof (Stat_world pr keyPath (with_faults (tail (faults w)) w)) as W2.
  assert (is_ok (Stat pr keyPath (with_faults (tail (faults w)) w)).1 = true) as Fk'.
  { apply (Stat_found pr keyPath _ Hk). destruct Fk. split; [|done]. by destruct (faults w). }
  destruct (Stat pr keyPath _) as [r2 w2]. simpl in W2, Fk'. subst w2. rewrite Fc Fk' /=.
  rewrite /ret /with_faults /=. by destruct (faults w) as [|? []].
Qed.

Lemma ensure_not_found `{X509} pr d certPath keyPath w :
  let cert := locate (p_cwd pr) certPath in
  let key := locate (p_cwd pr) keyPath in
  cert ≠ [] → key ≠ [] → ¬ (found w 0 cert ∧ found w 1 key) →
  EnsureSelfSigned pr d certPath keyPath w =
  match d_key d, d_serial d with
  | None, _ => (Err ErrGenerateKey, with_faults (drop 2 (faults w)) w)
  | Some _, None => (Err ErrGenerateSerial, with_faults (drop 2 (faults w)) w)
  | Some priv, Some serial =>
      match CreateCertificate (template_of d serial) priv with
      | None => (Err ErrCreateCertificate, with_faults (drop 2 (faults w)) w)
      | Some der => write_pair pr certPath keyPath der (MarshalECPrivateKey priv) (with_faults (drop 2 (faults w)) w)
      end
  end.
Proof.
  intros cert key Hc Hk Hn. rewrite /EnsureSelfSigned /bind.
  pose proof (Stat_world pr certPath w) as W1. pose proof (Stat_found pr certPath w Hc) as Fc.
  destruct (Stat pr certPath w) as [r1 w1]. simpl in W1, Fc. subst w1.
  pose proof (Stat_world pr keyPath (with_faults (tail (faults w)) w)) as W2.
  pose proof (Stat_found pr keyPath (with_faults (tail (faults w)) w) Hk) as Fk.
  destruct (Stat pr keyPath _) as [r2 w2]. simpl in W2, Fk. subst w2.
  replace (is_ok r1 && is_ok r2) with false; last first.
  { symmetry. apply not_true_iff_false. intros [H1 H2]%andb_prop. apply Hn. split; [by apply Fc|].
    apply Fk in H2 as [H2 ?]. split; [|done]. by destruct (faults w). }
  rewrite (_ : with_faults (tail (faults (with_faults (tail (faults w)) w))) (with_faults (tail (faults w)) w) =
               with_faults (drop 2 (faults w)) w); [rewrite /with_faults /=; by destruct (faults w) as [|? []]|].
  destruct (d_key d); [|done]. destruct (d_serial d); [|done]. by destruct (CreateCertificate _ _).
Qed.

Lemma ensure_fresh `{X509} pr d certPath keyPath w w' :
  let cert := locate (p_cwd pr) certPath in
  let key := locate (p_cwd pr) keyPath in
  cert ≠ key → cert ≠ [] → key ≠ [] → ¬ (found w 0 cert ∧ found w 1 key) →
  EnsureSelfSigned pr d certPath keyPath w = (Ok tt, w') → fresh_pair pr d cert key (fs w) (fs w').
Proof.
  intros cert key Hne Hc Hk Hn. rewrite (ensure_not_found pr d certPath keyPath w Hc Hk Hn).
  destruct (d_key d) as [priv|] eqn:Ep; [|done]. destruct (d_serial d) as [serial|] eqn:Es; [|done].
  destruct (CreateCertificate _ _) as [der|] eqn:Ec; [|done].
  intros (kb & Ek & F)%write_pair_ok; [|done].
  exists priv, serial, (template_of d serial), der, kb. split_and!; try done. apply template_of_server.
Qed.

(** A path a file can be written to. *)
Definition writable (f : gmap path Inode) (p : path) : Prop :=
  p ≠ [] ∧ dir_at f (parent p) = true ∧ dir_at f p = false.

Lemma write_file_run pr p mode s w :
  faults w = [] → writable (fs w) (locate (p_cwd pr) p) →
  ∃ w1 w2, OpenTrunc pr p mode w = (Ok tt, w1) ∧ WriteAll pr p s w1 = (Ok tt, w2) ∧ faults w2 = [].
Proof.
  intros Hf (Hne & Hd & Hk). rewrite /OpenTrunc /WriteAll /syscall Hf /= Hd /=.
  rewrite /dir_at in Hk. destruct (locate (p_cwd pr) p) as [|x l] eqn:E; [done|].
  destruct (fs w !! (x :: l)) as [[[|c] m ow]|] eqn:Ei; rewrite ?Ei /= in Hk |- *; [done|..];
    (eexists _, _; split_and!; [reflexivity|reflexivity|]; rewrite /set_text /= lookup_insert_eq //).
Qed.

Lemma writable_write f p q i mode ids s :
  p ≠ q → writable f p → writable f q → i = written (f !! p) mode ids s → writable (<[p := i]> f) q.
Proof.
  intros Hne (Hp & _ & Hd) (Hq & Hpq & Hdq) ->. split; [done|]. split; [|by rewrite dir_at_insert_ne].
  rewrite dir_at_insert_ne //. intros ->. by rewrite Hpq in Hd.
Qed.

Lemma ensure_succeeds `{X509} pr d certPath keyPath w priv serial der kb :
  let cert := locate (p_cwd pr) certPath in
  let key := locate (p_cwd pr) keyPath in
  cert ≠ key → faults w = [] → writable (fs w) cert → writable (fs w) key →
  d_key d = Some priv → d_serial d = Some serial →
  CreateCertificate (template_of d serial) priv = Some der → MarshalECPrivateKey priv = Some kb →
  (EnsureSelfSigned pr d certPath keyPath w).1 = Ok tt.
Proof.
  intros cert key Hne Hf Wc Wk Ep Es Ec Ek. pose proof (proj1 Wc) as Hc. pose proof (proj1 Wk) as Hk.
  destruct (decide (is_Some (fs w !! cert) ∧ is_Some (fs w !! key))) as [[Ic Ik]|Hn].
  { rewrite (ensure_found pr d certPath keyPath w Hc Hk) //; split; by rewrite ?Hf. }
  rewrite (ensure_not_found pr d certPath keyPath w Hc Hk); [intros [[_ ?] [_ ?]]; by apply Hn|].
  rewrite Ep Es Ec Ek /write_pair Hf /=.
  destruct (write_file_run pr certPath 420 (pem_encode "CERTIFICATE" der) (with_faults [] w) eq_refl Wc) as (w1 & w2 & E1 & E2 & F2).
  pose proof (write_file_written _ _ _ _ _ _ _ E1 E2) as G2.
  rewrite (bind_run _ _ _ _ _ (wrap_err_run ErrOpenCert _ _ _ _ E1)).
  rewrite (bind_run _ _ _ _ _ (wrap_err_run ErrWriteCert _ _ _ _ E2)).
  destruct (write_file_run pr keyPath 384 (pem_encode "EC PRIVATE KEY" kb) w2 F2) as (w3 & w4 & E3 & E4 & _).
  { rewrite G2. by eapply writable_write. }
  rewrite (bind_run _ _ _ _ _ (wrap_err_run ErrOpenKey _ _ _ _ E3)).
  by rewrite (wrap_err_run ErrWriteKey _ _ _ _ E4).
Qed.

(** What a successful call left, in either case. *)
Lemma ensure_ok_spec `{X509} pr d certPath keyPath w w' :
  let cert := locate (p_cwd pr) certPath in
  let key := locate (p_cwd pr) keyPath in
  cert ≠ key → cert ≠ [] → key ≠ [] →
  EnsureSelfSigned pr d certPath keyPath w = (Ok tt, w') →
  is_Some (fs w' !! cert) ∧ is_Some (fs w' !! key) ∧ ∀ p, p ≠ cert → p ≠ key → fs w' !! p = fs w !! p.
Proof.
  intros cert key Hne Hc Hk He.
  destruct (decide (default None (faults w !! 0%nat) = None ∧ default None (faults w !! 1%nat) = None ∧
                    is_Some (fs w !! cert) ∧ is_Some (fs w !! key))) as [(F0 & F1 & Ic & Ik)|Hn].
  - rewrite (ensure_found pr d certPath keyPath w Hc Hk) in He; [done..|]. by injection He as <-.
  - destruct (fresh_pair_spec pr d cert key (fs w) (fs w') Hne) as [(c & k & Tc & Tk & _) HF].
    + apply (ensure_fresh pr d certPath keyPath w w' Hne Hc Hk); [|done].
      intros [[? ?] [? ?]]. by apply Hn.
    + split_and!; [exact (text_present _ _ _ Tc)|exact (text_present _ _ _ Tk)|exact HF].
Qed.

Module TlsProperties.

(** C29: [EnsureSelfSigned] with the two files at different paths.  When both
    are found it succeeds and nothing is written.  Otherwise, a success means
    that both files hold the encoding of the key it has just generated and of a
    server certificate for that key (the drawn serial number, this host's names
    and addresses, two years), which the TLS library accepts as a pair; a new
    file has mode 0644 for the certificate and 0600 for the key, a file that
    existed alone is overwritten and keeps its mode and owner, and every other
    path is as before.  When no call fails, the files can be written and the
    library makes a key and a certificate, it does succeed. *)
Theorem tls_pair_after_ok `{X509} (pr : Process) (d : Draw) (certPath keyPath : string) (w : World) :
  let cert := locate (p_cwd pr) certPath in
  let key := locate (p_cwd pr) keyPath in
  cert ≠ key → cert ≠ [] → key ≠ [] →
  let '(r, w') := EnsureSelfSigned pr d certPath keyPath w in
  (found w 0 cert → found w 1 key → r = Ok tt ∧ fs w' = fs w) ∧
  (¬ (found w 0 cert ∧ found w 1 key) → r = Ok tt →
     fresh_pair pr d cert key (fs w) (fs w') ∧
     (∃ c k, text_at (fs w') cert = Some c ∧ text_at (fs w') key = Some k ∧ pair_ok c k = true) ∧
     ∀ p, p ≠ cert → p ≠ key → fs w' !! p = fs w !! p) ∧
  (∀ priv serial der kb, faults w = [] → writable (fs w) cert → writable (fs w) key →
     d_key d = Some priv → d_serial d = Some serial →
     CreateCertificate (template_of d serial) priv = Some der → MarshalECPrivateKey priv = Some kb → r = Ok tt).
Proof.
  intros cert key Hne Hc Hk. destruct (EnsureSelfSigned pr d certPath keyPath w) as [r w'] eqn:E. split_and!.
  - intros Fc Fk. rewrite (ensure_found pr d certPath keyPath w Hc Hk Fc Fk) in E. by injection E as <- <-.
  - intros Hn ->. pose proof (ensure_fresh pr d certPath keyPath w w' Hne Hc Hk Hn E) as Hf.
    split; [done|]. by apply (fresh_pair_spec pr d).
  - intros priv serial der kb Hf Wc Wk Ep Es Ec Ek.
    pose proof (ensure_succeeds pr d certPath keyPath w priv serial der kb Hne Hf Wc Wk Ep Es Ec Ek) as Hr.
    by rewrite E in Hr.
Qed.

(** A toy certificate library: a key is a number, a certificate names it. *)
Program Definition toy_x509 : X509 := {|
  PrivateKey := Z;
  CreateCertificate := λ t k, Some (itoa k);
  MarshalECPrivateKey := λ k, Some (itoa k);
  pem_encode := λ ty s, s +:+ ".";
  AddDate := λ t y m d, t + (365 * y + 30 * m + d) * 24 * Hour;
  pair_ok := λ c k, bool_decide (c = k)
|}.
Next Obligation. intros; simplify_eq/=. by apply bool_decide_eq_true. Qed.

Definition root_process : Process := mkProcess ["root"]%string (0, 0) 100 ["shadowstat"]%string (λ _, EmptyString).
Definition data_dir : World :=
  mkWorld {[["data"]%string := mkInode KDir 448 (0, 0)]} [] ∅ ∅ [].
Definition draw0 : @Draw toy_x509 := mkDraw (H := toy_x509) "router" (Some 42) (Some 1) 0 0.

(** A first run makes the pair for the key 42; a second run changes nothing. *)
Lemma tls_pair_after_ok_witness :
  let ensure d := EnsureSelfSigned (H := toy_x509) root_process d "/data/cert.pem" "/data/key.pem" in
  let w1 := (ensure draw0 data_dir).2 in
  (ensure draw0 data_dir).1 = Ok tt ∧
  fs w1 !! ["data"; "key.pem"]%string = Some (mkInode (KFile (Text "42.")) 384 (0, 0)) ∧
  (ensure (mkDraw (H := toy_x509) "router" (Some 43) (Some 2) 0 0) w1).1 = Ok tt ∧
  fs (ensure (mkDraw (H := toy_x509) "router" (Some 43) (Some 2) 0 0) w1).2 = fs w1.
Proof.
  intros ensure w1.
  pose proof (tls_pair_after_ok (H := toy_x509) root_process draw0 "/data/cert.pem" "/data/key.pem" data_dir
                ltac:(by vm_compute) ltac:(by vm_compute) ltac:(by vm_compute)) as P.
  pose proof (tls_pair_after_ok (H := toy_x509) root_process (mkDraw (H := toy_x509) "router" (Some 43) (Some 2) 0 0)
                "/data/cert.pem" "/data/key.pem" w1 ltac:(by vm_compute) ltac:(by vm_compute) ltac:(by vm_compute)) as Q.
  assert ((ensure draw0 data_dir).1 = Ok tt) as R1.
  { rewrite (surjective_pairing (EnsureSelfSigned _ _ _ _ _)) in P. destruct P as (_ & _ & P).
    apply (P 42 1 "42"%string "42"%string); try reflexivity; (split; [by vm_compute|split; reflexivity]). }
  split; [exact R1|]. split.
  - rewrite (surjective_pairing (EnsureSelfSigned _ _ _ _ _)) in P. destruct P as (_ & P & _).
    destruct P as [(priv & serial & t & der & kb & Ep & _ & _ & _ & Ek & F) _];
      [intros [[_ [i Hi]] _]; vm_compute in Hi; discriminate Hi|exact R1|].
    injection Ep as <-. injection Ek as <-. unfold w1. rewrite F. vm_compute. reflexivity.
  - rewrite (surjective_pairing (EnsureSelfSigned _ _ _ _ _)) in Q. destruct Q as (Q & _).
    apply Q; (split; [reflexivity|vm_compute; by eexists]).
Defined.

(** C40: On a machine without the files, a failure while the key is written (a
    full disk, a crash) leaves a certificate and a truncated key.  Every later
    start takes the two for a pair and changes nothing, and its server cannot
    serve. *)
Theorem truncated_key_is_accepted `{X509} pr certPath keyPath d priv serial der kb w n :
  d_key d = Some priv → d_serial d = Some serial →
  CreateCertificate (template_of d serial) priv = Some der → MarshalECPrivateKey priv = Some kb →
  let cert := locate (p_cwd pr) certPath in
  let key := locate (p_cwd pr) keyPath in
  cert ≠ key → cert ≠ [] → key ≠ [] → fs w !! cert = None → fs w !! key = None →
  dir_at (fs w) (parent cert) = true → dir_at (fs w) (parent key) = true →
  faults w = [None; None; None; None; None; Some n] →
  pair_ok (pem_encode "CERTIFICATE" der) (String.substring 0 n (pem_encode "EC PRIVATE KEY" kb)) = false →
  ∃ w', EnsureSelfSigned pr d certPath keyPath w = (Err (ErrWriteKey EFAIL), w') ∧
    ∀ d' addr listens shutdown_ok,
      NewServer pr d' addr certPath keyPath w' = (Ok (mkServer addr VersionTLS12), w') ∧
      Start pr certPath keyPath listens shutdown_ok w' = BadKeyPair.
Proof.
  intros Hp Hs Hd Hk cert key H1 H2 H3 H4 H5 H6 H7 Hf Hbad.
  destruct (interrupted_key_write pr certPath keyPath d priv serial der kb Hp Hs Hd Hk w n H1 H2 H3 H4 H5 H6 H7 Hf)
    as (w' & E & Hf' & Tc & Tk).
  exists w'. split; [exact E|]. intros d' addr listens ok. split.
  - destruct (text_present _ _ _ Tc) as [ic Hc], (text_present _ _ _ Tk) as [ik Hk'].
    by rewrite /NewServer (bind_run _ _ _ _ _ (present_accepted pr d' _ _ _ _ _ Hf' Hc Hk')).
  - by rewrite /Start Tc Tk Hbad.
Qed.

Lemma truncated_key_is_accepted_witness :
  let w := with_faults [None; None; None; None; None; Some 1%nat] data_dir in
  ∃ w', EnsureSelfSigned (H := toy_x509) root_process draw0 "/data/cert.pem" "/data/key.pem" w = (Err (ErrWriteKey EFAIL), w') ∧
    Start (H := toy_x509) root_process "/data/cert.pem" "/data/key.pem" true true w' = BadKeyPair.
Proof.
  intros w.
  destruct (truncated_key_is_accepted (H := toy_x509) root_process "/data/cert.pem" "/data/key.pem" draw0 42 1 "42" "42" w 1
    eq_refl eq_refl eq_refl eq_refl ltac:(by vm_compute) ltac:(by vm_compute) ltac:(by vm_compute)
    ltac:(by vm_compute) ltac:(by vm_compute) ltac:(by vm_compute) ltac:(by vm_compute) eq_refl ltac:(by vm_compute))
    as (w' & E & Hs).
  exists w'. split; [exact E|]. exact (proj2 (Hs draw0 EmptyString true true)).
Defined.
End TlsProperties.
