(* ===== verification/Run.v ===== *)
(** * The data directory and the [run] command ([config/paths.go], [cmd/run.go])

    [ResolveDataDir] picks and creates the directory of the database and the
    certificate; [runCmd] opens the database there, completes setup when that
    is due, and brings up capture and the web server.

    The theorems: the directory returned exists and no file is lost in finding
    it; a program that came up once comes up again with the same settings and
    without a terminal. *)

From stdpp Require Import prelude strings gmap list.
From Stdlib Require Import ZArith Lia Ascii.
From Corelib Require Import ssreflect.
From S2P Require Import Prelude GoStrings GoNet GoTime Store StoreProofs Rollup Auth Config System Tls.

Open Scope general_if_scope.
Open Scope Z_scope.

(** ** [paths.go] *)
Definition systemDataDir : string := "/var/lib/shadowstat".
Definition probeName : string := ".shadowstat-write-test".

Inductive DataDirError := ErrCreateDataDir (dir : string) (e : OSError) | ErrHomeDir.

Section paths.
Context (pr : Process).

Definition dirWritable (dir : string) : M World bool :=
  let! st := Stat pr dir in
  match st with
  | Err _ => let! r := MkdirAll pr dir 448 in ret (is_ok r)
  | Ok _ =>
      let probe := Join [dir; probeName] in
      let! f := OpenTrunc pr probe 438 in
      match f with
      | Err _ => ret false
      | Ok _ => Remove pr probe ;;! ret true
      end
  end.

(** Create the directory and return it. *)
Definition create_dir (dir : string) : M World (Result DataDirError string) :=
  let! r := MkdirAll pr dir 448 in
  ret (match r with Ok _ => Ok dir | Err e => Err (ErrCreateDataDir dir e) end).

Definition user_data_dir : M World (Result DataDirError string) :=
  let base := Getenv pr "XDG_DATA_HOME" in
  if negb (bool_decide (base = EmptyString)) then create_dir (Join [base; "shadowstat"%string]) else
  match UserHomeDir pr with
  | None => ret (Err ErrHomeDir)
  | Some home => create_dir (Join [Join [home; ".local"; "share"]; "shadowstat"])%string
  end.

Definition ResolveDataDir (override : string) : M World (Result DataDirError string) :=
  if negb (bool_decide (override = EmptyString)) then create_dir override else
  let! system := (if Geteuid pr =? 0 then ret true else dirWritable systemDataDir) in
  if system : bool then
    let! r := MkdirAll pr systemDataDir 448 in
    match r with
    | Ok _ => ret (Ok systemDataDir)
    | Err _ => user_data_dir
    end
  else user_data_dir.

Definition DBPath (dataDir : string) : string := Join [dataDir; "shadowstat.db"%string].
Definition CertPath (dataDir : string) : string := Join [dataDir; "cert.pem"%string].
Definition KeyPath (dataDir : string) : string := Join [dataDir; "key.pem"%string].

(** ** [store.Open]

    A missing file becomes a database with the schema's empty tables; a file
    that is not a database cannot be opened.  The pragmas and the upgrade that
    [Open] also runs are modelled statement by statement in [Migrate.OpenDB]; the
    tables here are those of an upgraded database. *)
Definition Open (p : string) : OS Tables :=
  let q := locate (p_cwd pr) p in
  syscall clean_fail (λ w,
    match fs w !! q with
    | Some (mkInode (KFile (Database t)) _ _) => Ok (t, w)
    | Some _ => Err EINVAL
    | None =>
        if dir_at (fs w) (parent q)
        then Ok (emptyTables, with_fs (<[q := mkInode (KFile (Database emptyTables)) 420 (p_ids pr)]> (fs w)) w)
        else Err ENOENT
    end).

(** What the program wrote to its database while it was open. *)
Definition store_tables (p : string) (t : Tables) (w : World) : World :=
  with_fs (alter (λ i, mkInode (KFile (Database t)) (i_mode i) (i_owner i)) (locate (p_cwd pr) p) (fs w)) w.
End paths.

(** ** [runCmd] *)

(** The outside world, the terminal, and which statements of this run fail. *)
Record Machine := mkMachine {
  m_world : World; m_lines : list string; m_passwords : list (option string); m_dbfaults : list bool
}.

Inductive RunResult := Exited (code : Z) | Serving (dataDir : string) (i : Instance_) | Panicked.

Section run.
Context `{Argon2} `{X509} {o : Order} (pr : Process).

Definition on_world {A} (m : M World A) : M Machine A := λ c,
  let '(a, w) := m (m_world c) in (a, mkMachine w (m_lines c) (m_passwords c) (m_dbfaults c)).

(** The part of [runCmd] between opening the database and the web server. *)
Definition with_database (dbPath : string) (t : Tables) (env : Env) (newFile source_ok : bool) : M Machine Exit := λ c,
  let '(e, wz) := startup env newFile source_ok true (mkWizard (m_lines c) (m_passwords c) (mkStore t (m_dbfaults c))) in
  (e, mkMachine (store_tables pr dbPath (tables (w_db wz)) (m_world c)) (w_lines wz) (w_passwords wz)
        (Store.faults (w_db wz))).

(** [flags]: the [--data-dir] given, if the flags parse; [source_ok]: whether
    the capture interface can be opened. *)
Definition runCmd (flags : option string) (env : Env) (d : Draw) (source_ok : bool) : M Machine RunResult :=
  match flags with
  | None => ret (Exited 2)
  | Some dataDirFlag =>
      let! r := on_world (ResolveDataDir pr dataDirFlag) in
      match r with
      | Err _ => ret (Exited 1)
      | Ok dataDir =>
          let dbPath := DBPath dataDir in
          let! st := on_world (Stat pr dbPath) in
          let firstRun := match st with Err ENOENT => true | _ => false end in
          let! db := on_world (Open pr dbPath) in
          match db with
          | Err _ => ret (Exited 1)
          | Ok t =>
              let! e := with_database dbPath t env firstRun source_ok in
              match e with
              | ExitCode code => ret (Exited code)
              | Running i =>
                  let! s := on_world (NewServer pr d (i_addr i) (CertPath dataDir) (KeyPath dataDir)) in
                  ret (match s with Ok _ => Serving dataDir i | Err _ => Exited 1 end)
              | TickerPanic =>
                  let! s := on_world (NewServer pr d EmptyString (CertPath dataDir) (KeyPath dataDir)) in
                  ret (match s with Ok _ => Panicked | Err _ => Exited 1 end)
              end
          end
      end
  end.

(** The exit code once the goroutines have ended. *)
Definition exit_code (e : ServerEnd) : Z := match e with ShutDown true => 0 | _ => 1 end.
End run.

(** ** Creating directories *)
Section mkdir_lemmas.
Context (pr : Process).

Definition extends (f f' : gmap path Inode) : Prop := ∀ p i, f !! p = Some i → f' !! p = Some i.

Lemma dir_at_snoc f p c : dir_at f (p ++ [c]) = match f !! (p ++ [c]) with
  | Some i => match i_kind i with KDir => true | _ => false end | None => false end.
Proof. by destruct p. Qed.

Lemma mkdir_cases p mode w r w' :
  mkdir pr p mode w = (r, w') →
  (r = Ok tt ∧ fs w' = <[p := mkInode KDir mode (p_ids pr)]> (fs w)) ∨ ((∃ e, r = Err e) ∧ fs w' = fs w).
Proof.
  intros Hs%syscall_cases. destruct r as [[]|e].
  - injection Hs as <-. by left.
  - right. split; [eauto|]. destruct Hs as [[_ [n ->]]|[_ ->]]; done.
Qed.

(** The path and everything above it are directories. *)
Definition dirs_to (f : gmap path Inode) (p : path) : Prop := ∀ n, dir_at f (take n p) = true.

Lemma extends_dir f f' p : extends f f' → dir_at f p = true → dir_at f' p = true.
Proof.
  intros He. rewrite /dir_at. destruct p as [|c p]; [done|]. destruct (f !! (c :: p)) as [i|] eqn:Ei; [|done].
  by rewrite (He _ _ Ei).
Qed.
Lemma extends_dirs f f' p : extends f f' → dirs_to f p → dirs_to f' p.
Proof. intros He Hd n. by apply (extends_dir f). Qed.

Lemma dirs_to_snoc f p c : dirs_to f p → dir_at f (p ++ [c]) = true → dirs_to f (p ++ [c]).
Proof.
  intros Hp Hc n. destruct (decide (n ≤ length p)%nat).
  - rewrite take_app_le //.
  - rewrite take_ge // length_app /=. lia.
Qed.
Lemma dirs_to_dir f p : dirs_to f p → dir_at f p = true.
Proof. intros Hp. specialize (Hp (length p)). by rewrite firstn_all in Hp. Qed.

Lemma mkdirs_spec rest mode : ∀ base w r w',
  dirs_to (fs w) base → mkdirs pr base rest mode w = (r, w') →
  extends (fs w) (fs w') ∧ (r = Ok tt → dirs_to (fs w') (base ++ rest)).
Proof.
  induction rest as [|c rest IH]; intros base w r w' Hb.
  { intros [= <- <-]. rewrite app_nil_r. split; [by intros p i|done]. }
  cbn [mkdirs]. rewrite {1}/bind /get. replace (base ++ c :: rest) with ((base ++ [c]) ++ rest) by (by rewrite -app_assoc).
  destruct (fs w !! (base ++ [c])) as [i|] eqn:Ei.
  - destruct (i_kind i) eqn:Ek; [|intros [= <- <-]; split; [by intros p j|done]].
    apply IH. apply dirs_to_snoc; [done|]. by rewrite dir_at_snoc Ei Ek.
  - intros Hr. destruct (mkdir pr (base ++ [c]) mode w) as [r1 w1] eqn:E1.
    apply mkdir_cases in E1 as E1'. destruct E1' as [[-> F1]|[[e ->] F1]].
    + assert (extends (fs w) (fs w1)) as He1.
      { intros p i Hp. rewrite F1 lookup_insert_ne //. intros <-. by rewrite Ei in Hp. }
      rewrite (bind_run _ _ _ _ _ E1) in Hr. apply IH in Hr as [He Hd].
      * split; [|done]. intros p i Hp. by apply He, He1.
      * apply dirs_to_snoc; [exact (extends_dirs _ _ _ He1 Hb)|]. by rewrite dir_at_snoc F1 lookup_insert_eq.
    + rewrite (bind_run _ _ _ _ _ E1) in Hr. injection Hr as <- <-. split; [intros p i; by rewrite F1|done].
Qed.

Lemma MkdirAll_spec p mode w r w' :
  MkdirAll pr p mode w = (r, w') →
  extends (fs w) (fs w') ∧ (r = Ok tt → dirs_to (fs w') (locate (p_cwd pr) p)).
Proof. intros Hm. apply (mkdirs_spec _ mode [] w); [by intros []|exact Hm]. Qed.

(** On a directory that is there nothing happens. *)
Lemma mkdirs_existing rest mode : ∀ base w,
  (∀ n, dir_at (fs w) (base ++ take n rest) = true) → mkdirs pr base rest mode w = (Ok tt, w).
Proof.
  induction rest as [|c rest IH]; intros base w Hd; [done|]. cbn [mkdirs]. rewrite {1}/bind /get.
  pose proof (Hd 1%nat) as H1. cbn [take] in H1. rewrite take_0 dir_at_snoc in H1.
  destruct (fs w !! (base ++ [c])) as [i|]; [|done]. destruct (i_kind i); [|done]. apply IH.
  intros n. specialize (Hd (S n)). by rewrite -app_assoc.
Qed.
Lemma MkdirAll_existing p mode w :
  dirs_to (fs w) (locate (p_cwd pr) p) → MkdirAll pr p mode w = (Ok tt, w).
Proof. intros Hd. exact (mkdirs_existing (locate (p_cwd pr) p) mode [] w Hd). Qed.
End mkdir_lemmas.

(** ** The directory returned *)
Section resolve.
Context (pr : Process).
Definition probePath : path := ["var"; "lib"; "shadowstat"; ".shadowstat-write-test"]%string.

(** Everything but the probe file is kept. *)
Definition keeps (f f' : gmap path Inode) : Prop := ∀ p i, p ≠ probePath → f !! p = Some i → f' !! p = Some i.

Lemma keeps_extends f f' : extends f f' → keeps f f'.
Proof. intros He p i _. apply He. Qed.
Lemma keeps_trans f1 f2 f3 : keeps f1 f2 → keeps f2 f3 → keeps f1 f3.
Proof. intros H1 H2 p i Hne Hp. apply H2; [done|]. by apply H1. Qed.

Lemma locate_probe : locate (p_cwd pr) (Join [systemDataDir; probeName]) = probePath.
Proof. reflexivity. Qed.

Lemma dirWritable_keeps w b w' : dirWritable pr systemDataDir w = (b, w') → keeps (fs w) (fs w').
Proof.
  rewrite /dirWritable {1}/bind. destruct (Stat pr systemDataDir w) as [st w1] eqn:E1. apply Stat_cases in E1 as [F1 _].
  rewrite -F1. destruct st.
  - rewrite {1}/bind. destruct (OpenTrunc _ _ _ w1) as [r w2] eqn:E2. destruct r as [[]|e].
    + apply OpenTrunc_ok in E2 as (m & ow & F2). rewrite locate_probe in F2. rewrite /bind /ret.
      destruct (Remove _ _ w2) as [r w3] eqn:E3. intros [= _ <-]. intros p i Hne Hp.
      assert (fs w2 !! p = Some i) as H2 by (rewrite F2 lookup_insert_ne //; exact (not_eq_sym Hne)).
      destruct r as [[]|e].
      * apply Remove_ok in E3. rewrite E3 locate_probe lookup_delete_ne //. exact (not_eq_sym Hne).
      * apply syscall_cases in E3. by destruct E3 as [[_ [n ->]]|[_ ->]].
    + intros [= _ <-]. apply OpenTrunc_err in E2 as ->. by apply keeps_extends.
  - rewrite /bind /ret. destruct (MkdirAll _ _ _ w1) as [r w2] eqn:E2. intros [= _ <-].
    apply keeps_extends. by apply MkdirAll_spec in E2 as [? _].
Qed.

Lemma create_dir_spec dir w r w' :
  create_dir pr dir w = (r, w') → extends (fs w) (fs w') ∧
  match r with Ok x => x = dir ∧ dirs_to (fs w') (locate (p_cwd pr) x) | Err _ => True end.
Proof.
  rewrite /create_dir /bind /ret. destruct (MkdirAll _ _ _ w) as [r1 w1] eqn:E. intros [= <- <-].
  apply MkdirAll_spec in E as [He Hd]. split; [done|]. destruct r1 as [[]|]; [|done]. auto.
Qed.

Lemma user_data_dir_spec w r w' :
  user_data_dir pr w = (r, w') → extends (fs w) (fs w') ∧
  match r with Ok x => dirs_to (fs w') (locate (p_cwd pr) x) ∧ x ≠ EmptyString | Err _ => True end.
Proof.
  rewrite /user_data_dir. case_bool_decide as Hb; simpl negb; cbv iota.
  - destruct (UserHomeDir pr) as [home|] eqn:Eh; [|intros [= <- <-]; split; [by intros p i|done]].
    intros [He Hr]%create_dir_spec. split; [done|]. destruct r as [x|]; [|done]. destruct Hr as [-> Hd].
    rewrite /UserHomeDir in Eh. case_bool_decide; [done|]. injection Eh as <-.
    split; [done|]. by apply Join_nonempty, Join_nonempty.
  - intros [He Hr]%create_dir_spec. split; [done|]. destruct r as [x|]; [|done]. destruct Hr as [-> Hd].
    split; [done|]. by apply Join_nonempty.
Qed.

Lemma resolve_spec override w r w' :
  ResolveDataDir pr override w = (r, w') → keeps (fs w) (fs w') ∧
  match r with
  | Ok dir => dirs_to (fs w') (locate (p_cwd pr) dir) ∧ dir ≠ EmptyString ∧ (override ≠ EmptyString → dir = override)
  | Err _ => True
  end.
Proof.
  rewrite /ResolveDataDir. case_bool_decide as Ho; simpl; cycle 1.
  { intros [He Hr]%create_dir_spec. split; [by apply keeps_extends|]. destruct r; naive_solver. }
  rewrite {1}/bind. destruct ((if Geteuid pr =? 0 then ret true else dirWritable pr systemDataDir) w) as [system w1] eqn:E1.
  assert (keeps (fs w) (fs w1)) as K1.
  { destruct (_ =? _) in E1; [injection E1 as _ <-; by apply keeps_extends|by apply dirWritable_keeps in E1]. }
  destruct system.
  - rewrite {1}/bind. destruct (MkdirAll _ _ _ w1) as [r2 w2] eqn:E2. apply MkdirAll_spec in E2 as [He Hd].
    pose proof (keeps_trans _ _ _ K1 (keeps_extends _ _ He)) as K2. destruct r2 as [[]|e].
    + intros [= <- <-]. split; [done|]. split_and!; [by apply Hd|done|by intros ?].
    + intros [He2 Hr]%user_data_dir_spec. split; [exact (keeps_trans _ _ _ K2 (keeps_extends _ _ He2))|].
      destruct r; naive_solver.
  - intros [He2 Hr]%user_data_dir_spec. split; [exact (keeps_trans _ _ _ K1 (keeps_extends _ _ He2))|].
    destruct r; naive_solver.
Qed.
End resolve.

(** ** Starting again *)

(** What a startup that got through to the end left in the database. *)
Lemma startup_reached `{Argon2} {o : Order} env newFile source_ok server_ok w e w' :
  startup env newFile source_ok server_ok w = (e, w') →
  match e with
  | ExitCode _ => True
  | _ => setup_complete (tables (w_db w')) = true ∧ ∃ st lan,
      parse_settings (settings (tables (w_db w'))) = Ok st ∧ ParseCIDR (LANSubnetCIDR st) = Some lan ∧
      e = let flushEvery := dmul (FlushInterval st) Second in
          if 0 <? flushEvery
          then Running (mkInstance lan flushEvery (mkScheduler (RetentionDays st)) (HTTPListenAddr st) (CaptureInterface st))
          else TickerPanic
  end.
Proof.
  rewrite /startup {1}/bind /with_db. destruct (IsSetupComplete (w_db w)) as [q s1] eqn:E1.
  destruct q as [done_|]; [|by intros [= <- _]].
  assert (tables s1 = tables (w_db w) ∧ done_ = setup_complete (tables (w_db w))) as [T1 D1].
  { apply try_ok in E1 as (v & s2 & E1 & E2). apply query_cases in E1 as [T1 [R1|R1]]; [|done]. injection E2 as <- <-.
    injection R1 as ->. by split. }
  rewrite {1}/bind. match goal with |- context [let '(_, _) := ?x in _] => destruct x as [code w2] eqn:E2 end.
  assert (code = None → setup_complete (tables (w_db w2)) = true) as Hs.
  { intros ->. destruct (newFile || negb done_) eqn:Ew.
    - destruct (negb (e_interactive env)); [done|]. rewrite /bind /ret in E2.
      destruct (RunFirstRunWizard env _) as [[[]|e3] w3] eqn:E3; [|done]. injection E2 as <-.
      apply wizard_ok in E3 as (? & ? & ? & ? & ? & ? & _ & _ & _ & ->). by rewrite /setup_complete /= lookup_insert_eq.
    - injection E2 as <-. simpl. rewrite T1 -D1. by destruct done_, newFile. }
  destruct code as [code|]; [by intros [= <- _]|]. specialize (Hs eq_refl).
  rewrite {1}/bind. destruct (Load (w_db w2)) as [l s3] eqn:E3.
  assert (tables s3 = tables (w_db w2) ∧ (is_ok l = true → l = parse_settings (settings (tables (w_db w2))))) as [T3 L3].
  { rewrite /Load /bind /ret in E3. destruct (AllSettings (w_db w2)) as [q s4] eqn:E4.
    apply query_cases in E4 as [T4 [->| ->]]; injection E3 as <- <-; by split. }
  destruct l as [st|]; [|by intros [= <- _]]. specialize (L3 eq_refl).
  destruct (ParseCIDR (LANSubnetCIDR st)) as [lan|] eqn:El; [|by intros [= <- _]].
  destruct source_ok; [|by intros [= <- _]]. destruct server_ok; [|by intros [= <- _]]. simpl.
  intros [= <- <-]. destruct (0 <? _) eqn:Ef; simpl; rewrite T3; (split; [done|]); exists st, lan; by rewrite El ?Ef.
Qed.

Lemma startup_again `{Argon2} {o : Order} env newFile source_ok server_ok w i w' env' ls ps :
  startup env newFile source_ok server_ok w = (Running i, w') →
  (startup env' false true true (mkWizard ls ps (mkStore (tables (w_db w')) []))).1 = Running i.
Proof.
  intros (Hs & st & lan & Hp & Hl & He)%startup_reached. by rewrite (startup_run env' ls ps _ st lan Hs Hp Hl) -He.
Qed.

Section again.
Context `{Argon2} `{X509} {o : Order} (pr : Process).

(** The files of a data directory. *)
Lemma locate_files cwd dir name :
  dir ≠ EmptyString → name ∈ ["shadowstat.db"; "cert.pem"; "key.pem"]%string →
  locate cwd (Join [dir; name]) = locate cwd dir ++ [name].
Proof. intros Hd Hn. rewrite !elem_of_cons elem_of_nil in Hn. destruct Hn as [->|[->|[->|[]]]]; by apply locate_Join. Qed.

(** A data directory with a configured database and certificate files. *)
Record ready (w : World) (dir : string) (t : Tables) : Prop := mkReady {
  rd_dir : dirs_to (fs w) (locate (p_cwd pr) dir);
  rd_nonempty : dir ≠ EmptyString;
  rd_db : ∃ m ow, fs w !! (locate (p_cwd pr) dir ++ ["shadowstat.db"%string]) = Some (mkInode (KFile (Database t)) m ow);
  rd_cert : is_Some (fs w !! (locate (p_cwd pr) dir ++ ["cert.pem"%string]));
  rd_key : is_Some (fs w !! (locate (p_cwd pr) dir ++ ["key.pem"%string]))
}.

Lemma dirs_to_frame f f' (p : path) :
  (∀ n, f' !! take n p = f !! take n p) → dirs_to f p → dirs_to f' p.
Proof. intros Heq Hd n. specialize (Hd n). rewrite /dir_at in Hd |- *. destruct (take n p) eqn:E; [done|]. by rewrite -E Heq E. Qed.

Lemma take_ne_snoc n (p : path) x : take n p ≠ p ++ [x].
Proof. intros E%(f_equal length). rewrite length_take length_app /= in E. lia. Qed.

(** Opening, and writing back, only touch the database file. *)
Lemma Open_ok p w t w' :
  Open pr p w = (Ok t, w') →
  (∃ m ow, fs w' !! locate (p_cwd pr) p = Some (mkInode (KFile (Database t)) m ow)) ∧
  ∀ q, q ≠ locate (p_cwd pr) p → fs w' !! q = fs w !! q.
Proof.
  intros Hs%syscall_cases. simpl in Hs. destruct (fs w !! locate (p_cwd pr) p) as [[[|[s|t0]] m ow]|] eqn:E; try done.
  - injection Hs as -> <-. simpl. eauto.
  - destruct (dir_at _ _); [|done]. injection Hs as <- <-. simpl. split; [rewrite lookup_insert_eq; eauto|].
    intros q Hq. rewrite lookup_insert_ne //. exact (not_eq_sym Hq).
Qed.

Lemma store_tables_fs p t w m ow t0 :
  fs w !! locate (p_cwd pr) p = Some (mkInode (KFile (Database t0)) m ow) →
  fs (store_tables pr p t w) !! locate (p_cwd pr) p = Some (mkInode (KFile (Database t)) m ow) ∧
  ∀ q, q ≠ locate (p_cwd pr) p → fs (store_tables pr p t w) !! q = fs w !! q.
Proof.
  intros Hp. rewrite /store_tables /=. split; [by rewrite lookup_alter_eq Hp|].
  intros q Hq. rewrite lookup_alter_ne //. exact (not_eq_sym Hq).
Qed.

(** What a run that serves has left behind. *)
Lemma runCmd_serving flags env d source_ok c dir i c' :
  runCmd pr flags env d source_ok c = (Serving dir i, c') →
  ∃ t, ready (m_world c') dir t ∧
    ∀ env' ls ps, (startup env' false true true (mkWizard ls ps (mkStore t []))).1 = Running i.
Proof.
  rewrite /runCmd. destruct flags as [flag|]; [|done]. rewrite {1}/bind /on_world.
  destruct (ResolveDataDir pr flag (m_world c)) as [r w1] eqn:E1. destruct r as [dir0|]; [|done].
  apply resolve_spec in E1 as (_ & Hd1 & Hne & _).
  rewrite {1}/bind. cbn [m_world m_lines m_passwords m_dbfaults]. destruct (Stat pr (DBPath dir0) w1) as [st w2] eqn:E2.
  apply Stat_cases in E2 as [F2 _]. rewrite {1}/bind. cbn [m_world m_lines m_passwords m_dbfaults].
  destruct (Open pr (DBPath dir0) w2) as [db w3] eqn:E3. destruct db as [t|]; [|done]. apply Open_ok in E3 as [(m & ow & D3) F3].
  rewrite {1}/bind /with_database. cbn [m_world m_lines m_passwords m_dbfaults].
  destruct (startup _ _ _ _ _) as [e wz] eqn:E4. destruct e as [code|i0|]; [done| |].
  2: { rewrite /bind /ret. destruct (NewServer _ _ _ _ _ _) as [[]?]; done. }
  rewrite /bind /ret. cbn [m_world]. destruct (NewServer _ _ _ _ _ _) as [s w4] eqn:E5. destruct s as [s|]; [|done].
  intros [= <- <- <-]. exists (tables (w_db wz)). cbn [m_world].
  split; [|intros env' ls ps; by apply (startup_again _ _ _ _ _ _ _ _ _ _ E4)].
  destruct (store_tables_fs (DBPath dir0) (tables (w_db wz)) w3 m ow t D3) as [D4 F4].
  unfold DBPath in F3, D4, F4. rewrite (locate_files _ _ _ Hne) in F3, D4, F4; [set_solver..|].
  apply try_ok in E5 as ([] & w5 & E5 & E6). injection E6 as _ <-.
  assert (locate (p_cwd pr) (CertPath dir0) = locate (p_cwd pr) dir0 ++ ["cert.pem"%string]) as Lc by (apply locate_files; [done|set_solver]).
  assert (locate (p_cwd pr) (KeyPath dir0) = locate (p_cwd pr) dir0 ++ ["key.pem"%string]) as Lk by (apply locate_files; [done|set_solver]).
  apply ensure_ok_spec in E5; rewrite ?Lc ?Lk; [|by intros [= ?]%app_inv_head|by destruct (locate _ _)..].
  rewrite Lc Lk in E5. set base := locate (p_cwd pr) dir0 in Hd1 F3 D4 F4 Lc Lk E5 |- *. destruct E5 as (Ic & Ik & F5).
  split.
  - apply (dirs_to_frame (fs w1)); [|done]. intros n. pose proof (take_ne_snoc n base) as Hn.
    rewrite F5 // F4 // F3 // F2 //.
  - done.
  - exists m, ow. rewrite F5; [by intros [= ?]%app_inv_head..|]. exact D4.
  - done.
  - done.
Qed.

(** Such a directory is all a later run needs. *)
Lemma runCmd_ready w dir t i env d :
  faults w = [] → ready w dir t →
  (∀ env' ls ps, (startup env' false true true (mkWizard ls ps (mkStore t []))).1 = Running i) →
  (runCmd pr (Some dir) env d true (mkMachine w [] [] [])).1 = Serving dir i.
Proof.
  intros Hf [Hd Hne (m & ow & Hdb) [ic Hc] [ik Hk]] Hst.
  assert (locate (p_cwd pr) (DBPath dir) = locate (p_cwd pr) dir ++ ["shadowstat.db"%string]) as Ld by (apply locate_files; [done|set_solver]).
  assert (locate (p_cwd pr) (CertPath dir) = locate (p_cwd pr) dir ++ ["cert.pem"%string]) as Lc by (apply locate_files; [done|set_solver]).
  assert (locate (p_cwd pr) (KeyPath dir) = locate (p_cwd pr) dir ++ ["key.pem"%string]) as Lk by (apply locate_files; [done|set_solver]).
  rewrite -Ld in Hdb. rewrite -Lc in Hc. rewrite -Lk in Hk.
  rewrite /runCmd /bind /on_world. cbn [m_world]. rewrite /ResolveDataDir bool_decide_eq_false_2 //= /create_dir.
  rewrite (bind_run _ _ _ _ _ (MkdirAll_existing pr dir 448 w Hd)). rewrite /ret. cbn [m_world m_lines m_passwords m_dbfaults].
  rewrite (Stat_present pr (DBPath dir) w _ Hf Hdb). cbn [m_world m_lines m_passwords m_dbfaults].
  assert (Open pr (DBPath dir) w = (Ok t, w)) as Ho.
  { apply syscall_run; rewrite Hf //= Hdb. do 2 f_equal. destruct w. simpl in *. by subst. }
  rewrite Ho /with_database. cbn [m_world m_lines m_passwords m_dbfaults].
  specialize (Hst env [] []). destruct (startup _ _ _ _ _) as [e wz]. simpl in Hst. subst e. cbn [m_world].
  destruct (store_tables_fs (DBPath dir) (tables (w_db wz)) w m ow t Hdb) as [_ F].
  assert (NewServer pr d (i_addr i) (CertPath dir) (KeyPath dir) (store_tables pr (DBPath dir) (tables (w_db wz)) w) =
    (Ok (mkServer (i_addr i) VersionTLS12), store_tables pr (DBPath dir) (tables (w_db wz)) w)) as ->; [|done].
  rewrite /NewServer (bind_run (EnsureSelfSigned pr d (CertPath dir) (KeyPath dir)) _ _ (Ok tt)
    (store_tables pr (DBPath dir) (tables (w_db wz)) w)) //.
  apply (present_accepted _ _ _ _ _ ic ik); [done| |].
  - rewrite F //. rewrite Lc Ld. by intros [= ?]%app_inv_head.
  - rewrite F //. rewrite Lk Ld. by intros [= ?]%app_inv_head.
Qed.
End again.

Module RunProperties.

(** C30: The directory [ResolveDataDir] returns, and everything above it, are
    directories; a path given with the flag is the one returned; and finding
    it, whether it succeeds or fails and whichever calls fail, loses or changes
    no file but the probe it writes itself. *)
Theorem data_dir_exists pr override w r w' :
  ResolveDataDir pr override w = (r, w') →
  (∀ p i, p ≠ probePath → fs w !! p = Some i → fs w' !! p = Some i) ∧
  ∀ dir, r = Ok dir →
    (∀ n, dir_at (fs w') (take n (locate (p_cwd pr) dir)) = true) ∧ (override ≠ EmptyString → dir = override).
Proof.
  intros [Hk Hr]%resolve_spec. split; [exact Hk|]. intros dir ->. by destruct Hr as (? & _ & ?).
Qed.

Definition user_process : Process :=
  mkProcess ["home"; "ann"]%string (1000, 1000) 200 ["shadowstat"]%string
    (λ v, if bool_decide (v = "HOME"%string) then "/home/ann"%string else EmptyString).
Definition home_only (fl : list (option nat)) : World :=
  mkWorld (<[["home"; "ann"]%string := mkInode KDir 448 (1000, 1000)]> {[["home"]%string := mkInode KDir 493 (0, 0)]}) fl ∅ ∅ [].

(** Creating the system directory fails, so the user's own is made. *)
Lemma data_dir_exists_witness :
  let run := ResolveDataDir user_process EmptyString (home_only [None; Some 0%nat]) in
  run.1 = Ok "/home/ann/.local/share/shadowstat"%string ∧
  fs run.2 !! ["home"; "ann"]%string = Some (mkInode KDir 448 (1000, 1000)).
Proof.
  intros run. split; [vm_compute; reflexivity|].
  destruct (data_dir_exists user_process EmptyString (home_only [None; Some 0%nat]) run.1 run.2) as [Hk _];
    [apply surjective_pairing|].
  apply Hk; [by vm_compute|reflexivity].
Defined.

(** C16: A run that came up, by way of the wizard or not, left a data directory
    from which a later run with [--data-dir], as the service is started, comes
    up with the same settings and asks nothing, so it needs no terminal. *)
Theorem restart_needs_no_terminal `{Argon2} `{X509} {o : Order} pr flags env d source_ok c dir i c' env' d' :
  runCmd pr flags env d source_ok c = (Serving dir i, c') →
  (runCmd pr (Some dir) env' d' true (mkMachine (with_faults [] (m_world c')) [] [] [])).1 = Serving dir i.
Proof.
  intros (t & Hr & Hst)%runCmd_serving. apply (runCmd_ready pr _ _ t); [done| |exact Hst].
  by destruct Hr.
Qed.

Lemma restart_needs_no_terminal_witness :
  let run := runCmd (H := Auth.AuthProperties.toy_argon2) (H0 := TlsProperties.toy_x509) (o := ord_id) TlsProperties.root_process
    (Some EmptyString) ConfigProperties.env0 TlsProperties.draw0 true
    (mkMachine (mkWorld ∅ [] ∅ ∅ []) (w_lines (ConfigProperties.answered [])) (w_passwords (ConfigProperties.answered [])) []) in
  ∃ i, run.1 = Serving "/var/lib/shadowstat" i ∧
    (runCmd (H := Auth.AuthProperties.toy_argon2) (H0 := TlsProperties.toy_x509) (o := ord_id) TlsProperties.root_process
       (Some "/var/lib/shadowstat"%string) (mkEnv false None (λ _, false) None 0) TlsProperties.draw0 true
       (mkMachine (with_faults [] (m_world run.2)) [] [] [])).1 = Serving "/var/lib/shadowstat" i.
Proof.
  intros run. eexists. assert (run.1 = Serving "/var/lib/shadowstat" _) as H1 by (vm_compute; reflexivity).
  split; [exact H1|]. eapply (restart_needs_no_terminal (H := Auth.AuthProperties.toy_argon2) (H0 := TlsProperties.toy_x509) (o := ord_id)).
  rewrite (surjective_pairing (runCmd _ _ _ _ _ _)). f_equal. exact H1.
Defined.
End RunProperties.
