(* ===== verification/Migrate.v ===== *)
(** * Opening and upgrading the database ([store/db.go], [schema.sql])

    Below the tables of [Store] is a catalogue: named tables with their columns
    and rows of values, as SQLite keeps them.  Opening a database sets its
    pragmas, creates the tables that are missing, adds the two columns that
    older versions did not have, and stamps the schema version.  Any statement
    may fail, as the oracle says; each takes effect on its own.

    The theorems: after an upgrade every table has the schema's columns and
    every row a value of the right type in each; no value that was stored is
    lost, and accounts from before roles are administrators; an upgrade that
    failed part-way and is run again ends where an undisturbed one would. *)

From stdpp Require Import prelude strings gmap list.
From Stdlib Require Import ZArith Lia Ascii.
From Corelib Require Import ssreflect.
From S2P Require Import Prelude GoStrings Store.

Open Scope general_if_scope.
Open Scope Z_scope.

(** ** Catalogue *)
Inductive Value := Null | Int (z : Z) | Txt (s : string).
Inductive SqlType := INTEGER | TEXT.
#[export] Instance SqlType_eq_dec : EqDecision SqlType.
Proof. solve_decision. Defined.
#[export] Instance Value_eq_dec : EqDecision Value.
Proof. solve_decision. Defined.

Record Column := mkColumn { c_name : string; c_type : SqlType; c_notnull : bool; c_default : Value }.
#[export] Instance Column_eq_dec : EqDecision Column.
Proof. solve_decision. Defined.

(** A row holds one value per column, in the order of the columns. *)
Record RawTable := mkRawTable { columns : list Column; rows : list (list Value) }.
Abbreviation Catalog := (gmap string RawTable).
Record RawDB := mkRawDB { catalog : Catalog; rfaults : list bool }.

Inductive SqlError := SqlIO | NoSuchTable (name : string) | NoSuchColumn | DuplicateColumn.

Definition names (cs : list Column) : list string := c_name <$> cs.

(** One statement, or a statement that changes nothing. *)
Definition sql {A} (f : Catalog → Result SqlError (A * Catalog)) : M RawDB (Result SqlError A) := λ d,
  let fl := tail (rfaults d) in
  if default false (head (rfaults d)) then (Err SqlIO, mkRawDB (catalog d) fl)
  else match f (catalog d) with
       | Ok (a, c) => (Ok a, mkRawDB c fl)
       | Err e => (Err e, mkRawDB (catalog d) fl)
       end.

Inductive SchemaStmt :=
  | CreateTable (name : string) (cols : list Column)            (* IF NOT EXISTS *)
  | CreateIndex (table : string) (cols : list string).          (* IF NOT EXISTS *)

Definition create_if_missing (name : string) (cols : list Column) (c : Catalog) : Catalog :=
  match c !! name with Some _ => c | None => <[name := mkRawTable cols []]> c end.

(** An index is checked against its table's columns each time; SQLite skips the
    check when an index of that name exists, which only makes fewer statements
    fail. *)
Definition apply_stmt (s : SchemaStmt) : M RawDB (Result SqlError unit) :=
  sql (λ c, match s with
    | CreateTable name cols => Ok (tt, create_if_missing name cols c)
    | CreateIndex table cols =>
        match c !! table with
        | None => Err (NoSuchTable table)
        | Some t => if forallb (λ x, bool_decide (x ∈ names (columns t))) cols then Ok (tt, c) else Err NoSuchColumn
        end
    end).

(** [PRAGMA table_info(t)]: no rows for a table that does not exist. *)
Definition table_info (table : string) : M RawDB (Result SqlError (list string)) :=
  sql (λ c, Ok (match c !! table with Some t => names (columns t) | None => [] end, c)).

(** [ALTER TABLE ... ADD COLUMN]: existing rows get the default. *)
Definition append_column (col : Column) (t : RawTable) : RawTable :=
  mkRawTable (columns t ++ [col]) ((λ r, r ++ [c_default col]) <$> rows t).
Definition add_column (table : string) (col : Column) : M RawDB (Result SqlError unit) :=
  sql (λ c, match c !! table with
    | None => Err (NoSuchTable table)
    | Some t => if bool_decide (c_name col ∈ names (columns t)) then Err DuplicateColumn
                else Ok (tt, <[table := append_column col t]> c)
    end).

Definition count_rows (table : string) : M RawDB (Result SqlError nat) :=
  sql (λ c, match c !! table with None => Err (NoSuchTable table) | Some t => Ok (length (rows t), c) end).
Definition insert_row (table : string) (r : list Value) : M RawDB (Result SqlError unit) :=
  sql (λ c, Ok (tt, alter (λ t, mkRawTable (columns t) (rows t ++ [r])) table c)).

(** ** [schema.sql] *)
Definition int_col (n : string) : Column := mkColumn n INTEGER false Null.
Definition int_nn (n : string) : Column := mkColumn n INTEGER true Null.
Definition int_zero (n : string) : Column := mkColumn n INTEGER true (Int 0).
Definition text_col (n : string) : Column := mkColumn n TEXT false Null.
Definition text_nn (n : string) : Column := mkColumn n TEXT true Null.

Definition mac_column : Column := text_col "mac_address".
Definition role_column : Column := mkColumn "role" TEXT true (Txt "admin").

Definition counter_columns : list Column :=
  [int_zero "bytes_sent"; int_zero "bytes_recv"; int_zero "packets_sent"; int_zero "packets_recv"].
Definition rollup_columns : list Column := [int_nn "host_id"; int_nn "direction"; int_nn "bucket_ts"] ++ counter_columns.

Definition schema : list SchemaStmt := [
  CreateTable "schema_meta" [int_nn "version"];
  CreateTable "settings" [text_col "key"; text_nn "value"];
  CreateTable "users" [int_col "id"; text_nn "username"; text_nn "password_hash"; role_column; int_nn "created_at"; int_col "must_reauth_at"];
  CreateTable "sessions" [text_col "token"; int_nn "user_id"; int_nn "created_at"; int_nn "expires_at"; int_col "elevated_until"];
  CreateIndex "sessions" ["expires_at"];
  CreateTable "hosts" [int_col "id"; text_nn "ip"; text_col "display_name"; mac_column; int_nn "first_seen"; int_nn "last_seen"];
  CreateIndex "hosts" ["last_seen"];
  CreateTable "dhcp_hostnames" [text_col "mac_address"; text_nn "hostname"; int_nn "last_seen"];
  CreateTable "flows_recent"
    ([int_col "id"; int_nn "host_id"; int_nn "direction"; int_nn "proto"; text_nn "local_ip"; int_nn "local_port";
      text_nn "remote_ip"; int_nn "remote_port"; int_nn "first_seen"; int_nn "last_seen"] ++ counter_columns);
  CreateIndex "flows_recent" ["host_id"; "last_seen"];
  CreateIndex "flows_recent" ["last_seen"];
  CreateIndex "flows_recent" ["remote_ip"; "remote_port"];
  CreateTable "rollup_1m" rollup_columns; CreateIndex "rollup_1m" ["bucket_ts"];
  CreateTable "rollup_5m" rollup_columns; CreateIndex "rollup_5m" ["bucket_ts"];
  CreateTable "rollup_1h" rollup_columns; CreateIndex "rollup_1h" ["bucket_ts"];
  CreateTable "rollup_1d" rollup_columns; CreateIndex "rollup_1d" ["bucket_ts"];
  CreateTable "known_peers" [int_nn "host_id"; text_nn "remote_ip"; int_nn "remote_port"; int_nn "first_seen"; int_nn "last_seen"];
  CreateIndex "known_peers" ["last_seen"];
  CreateTable "dns_queries" [int_col "id"; int_nn "host_id"; text_nn "qname"; int_nn "qtype"; int_nn "ts"];
  CreateIndex "dns_queries" ["host_id"; "ts"];
  CreateIndex "dns_queries" ["ts"];
  CreateTable "alerts" [int_col "id"; int_nn "host_id"; text_nn "kind"; text_nn "severity"; text_nn "summary"; text_col "detail";
                        text_nn "dedupe_key"; int_nn "detected_at"; int_zero "acknowledged"];
  CreateIndex "alerts" ["detected_at"];
  CreateIndex "alerts" ["host_id"; "detected_at"];
  CreateIndex "alerts" ["host_id"; "kind"; "dedupe_key"; "detected_at"]]%string.

Definition schemaVersion : Z := 1.

(** ** [db.go] *)
Definition ensureColumn (table : string) (col : Column) : M RawDB (Result SqlError unit) :=
  let? cols := table_info table in
  if bool_decide (c_name col ∈ cols) then ret (Ok tt) else add_column table col.

Definition migrate : M RawDB (Result SqlError unit) :=
  let? _ := try_each apply_stmt schema in
  let? _ := ensureColumn "hosts" mac_column in
  let? _ := ensureColumn "users" role_column in
  let? count := count_rows "schema_meta" in
  if (count =? 0)%nat then insert_row "schema_meta" [Int schemaVersion] else ret (Ok tt).

(** The two connections, the writer's pragmas and the reader's. *)
Definition connect : M RawDB (Result SqlError unit) := sql (λ c, Ok (tt, c)).
Definition pragma (name : string) : M RawDB (Result SqlError unit) := sql (λ c, Ok (tt, c)).
Definition OpenDB : M RawDB (Result SqlError unit) :=
  let? _ := connect in
  let? _ := connect in
  let? _ := try_each pragma ["journal_mode=WAL"; "synchronous=NORMAL"; "foreign_keys=ON"; "auto_vacuum=INCREMENTAL"]%string in
  let? _ := pragma "foreign_keys=ON" in
  migrate.

(** ** The upgrade as a sequence of steps

    A step has an effect and a condition that tells it is done. *)
Record Step := mkStep { s_run : Catalog → Catalog; s_done : Catalog → Prop }.

Definition run_steps (c : Catalog) (l : list Step) : Catalog := foldl (λ c s, s_run s c) c l.

Lemma run_steps_app c l1 l2 : run_steps c (l1 ++ l2) = run_steps (run_steps c l1) l2.
Proof. apply foldl_app. Qed.

Section steps.
(** Each step is done once run when those before it are. *)
Fixpoint chain (I : Catalog → Prop) (l : list Step) : Prop :=
  match l with
  | [] => True
  | s :: l' => (∀ c, I c → s_done s (s_run s c)) ∧ chain (λ c, I c ∧ s_done s c) l'
  end.

Lemma chain_impl (I J : Catalog → Prop) l : (∀ c, J c → I c) → chain I l → chain J l.
Proof.
  revert I J. induction l as [|s l IH]; intros I J HIJ; [done|]. intros [H1 H2]. split; [by intros c ?%HIJ; apply H1|].
  eapply IH, H2. naive_solver.
Qed.
Lemma chain_app I l1 l2 : chain I l1 → chain (λ c, I c ∧ Forall (λ s, s_done s c) l1) l2 → chain I (l1 ++ l2).
Proof.
  revert I. induction l1 as [|s l1 IH]; intros I.
  - intros _. apply chain_impl. intros c Hc. split; [done|constructor].
  - intros [H1 H2] H3. split; [done|]. apply IH; [done|]. revert H3. apply chain_impl.
    intros c [[? ?] ?]. split; [done|by constructor].
Qed.
Lemma chain_prefix I l1 l2 : chain I (l1 ++ l2) → chain I l1.
Proof. revert I. induction l1 as [|s l1 IH]; intros I; [done|]. intros [H1 H2]. split; [done|]. by apply IH. Qed.

Lemma all_done I l : ∀ c, chain I l → I c →
  (∀ s c, s ∈ l → I c → I (s_run s c)) → (∀ s s' c, s ∈ l → s' ∈ l → s_done s c → s_done s (s_run s' c)) →
  Forall (λ s, s_done s (run_steps c l)) l ∧ I (run_steps c l).
Proof.
  revert I. induction l as [|s l IH]; intros I c; [by repeat constructor|].
  intros [H1 H2] Hc Hstep Hkeep. destruct (IH (λ c, I c ∧ s_done s c) (s_run s c)) as [Hall [HI Hs]].
  - done.
  - split; [apply Hstep; [left|done]|by apply H1].
  - intros s' c' Hs' [HI Hd]. split; [apply Hstep; [by right|done]|apply Hkeep; [by left|by right|done]].
  - intros s1 s2 c' H1' H2'. apply Hkeep; by right.
  - split; [|done]. by constructor.
Qed.

Lemma done_noop l c : (∀ s c, s ∈ l → s_done s c → s_run s c = c) → Forall (λ s, s_done s c) l → run_steps c l = c.
Proof.
  intros Hno Hd. induction Hd as [|s l Hs _ IH]; [done|]. rewrite /run_steps /= Hno //; [by left|].
  apply IH. intros s' c' ?. apply Hno. by right.
Qed.

(** Running the sequence again after it stopped anywhere. *)
Lemma rerun_converges l k c :
  chain (λ _, True) l → (∀ s c, s ∈ l → s_done s c → s_run s c = c) →
  (∀ s s' c, s ∈ l → s' ∈ l → s_done s c → s_done s (s_run s' c)) →
  run_steps (run_steps c (take k l)) l = run_steps c l.
Proof.
  intros Hch Hno Hkeep. pose proof (take_drop k l) as Hl.
  assert (run_steps (run_steps c (take k l)) (take k l) = run_steps c (take k l)) as Hre.
  { apply done_noop; [intros s c' Hs; apply Hno; rewrite -Hl; apply elem_of_app; by left|].
    apply (all_done (λ _, True)); [|done|done|].
    - rewrite -Hl in Hch. by apply chain_prefix in Hch.
    - intros s s' c' Hs Hs'. apply Hkeep; rewrite -Hl; apply elem_of_app; by left. }
  rewrite -{2 3}Hl !run_steps_app. by rewrite Hre.
Qed.
End steps.

Definition stmt_step (s : SchemaStmt) : Step :=
  match s with
  | CreateTable name cols => mkStep (create_if_missing name cols) (λ c, is_Some (c !! name))
  | CreateIndex _ _ => mkStep id (λ _, True)
  end.
Definition has_column (table : string) (col : Column) (c : Catalog) : Prop :=
  ∃ t, c !! table = Some t ∧ c_name col ∈ names (columns t).
Definition column_run (table : string) (col : Column) (c : Catalog) : Catalog :=
  match c !! table with
  | Some t => if bool_decide (c_name col ∈ names (columns t)) then c else <[table := append_column col t]> c
  | None => c
  end.
Definition column_step (table : string) (col : Column) : Step := mkStep (column_run table col) (has_column table col).
Definition push_row (r : list Value) (t : RawTable) : RawTable := mkRawTable (columns t) (rows t ++ [r]).
Definition stamp_run (c : Catalog) : Catalog :=
  match c !! "schema_meta"%string with
  | Some t => match rows t with [] => alter (push_row [Int schemaVersion]) "schema_meta" c | _ => c end
  | None => c
  end.
Definition stamp_step : Step := mkStep stamp_run (λ c, ∃ t, c !! "schema_meta"%string = Some t ∧ rows t ≠ []).

Definition steps : list Step :=
  (stmt_step <$> schema) ++ [column_step "hosts" mac_column; column_step "users" role_column; stamp_step].

(** [m] runs a prefix of the steps, all of them when it succeeds. *)
Definition implements (m : M RawDB (Result SqlError unit)) (l : list Step) : Prop := ∀ d r d',
  m d = (r, d') → (∃ k, catalog d' = run_steps (catalog d) (take k l)) ∧ (r = Ok tt → catalog d' = run_steps (catalog d) l).

Lemma implements_try m k l1 l2 : implements m l1 → implements k l2 → implements (let? _ := m in k) (l1 ++ l2).
Proof.
  intros H1 H2 d r d' Hrun. rewrite /bind in Hrun. destruct (m d) as [r1 d1] eqn:E1. apply H1 in E1 as [[n Hn] Hok].
  destruct r1 as [[]|e].
  - apply H2 in Hrun as [[n2 Hn2] Hok2]. rewrite Hok // in Hn2, Hok2. split.
    + exists (length l1 + n2)%nat. by rewrite take_app_add' // run_steps_app.
    + intros Hr. by rewrite Hok2 // run_steps_app.
  - injection Hrun as <- <-. split; [|done]. exists (n `min` length l1)%nat.
    rewrite take_app_le; [lia|]. rewrite Hn. destruct (decide (n ≤ length l1)%nat).
    + by rewrite Nat.min_l.
    + rewrite Nat.min_r; [lia|]. rewrite !take_ge //; lia.
Qed.

Lemma implements_nil : implements (ret (Ok tt)) [].
Proof. intros d r d' [= <- <-]. split; [by exists 0%nat|done]. Qed.
Lemma implements_each {A} (f : A → M RawDB (Result SqlError unit)) (g : A → Step) l :
  (∀ x, implements (f x) [g x]) → implements (try_each f l) (g <$> l).
Proof.
  intros Hf. induction l as [|x l IH]; [apply implements_nil|]. cbn [try_each]. by apply (implements_try _ _ [g x]).
Qed.

(** A statement is one step. *)
Lemma sql_cases {A} (f : Catalog → Result SqlError (A * Catalog)) d r d' : sql f d = (r, d') →
  match r with Ok a => f (catalog d) = Ok (a, catalog d') | Err _ => catalog d' = catalog d end.
Proof.
  rewrite /sql. destruct (default false _); [by intros [= <- <-]|].
  destruct (f (catalog d)) as [[a c]|e] eqn:E; by intros [= <- <-].
Qed.
Lemma implements_sql f s : (∀ c c', f c = Ok (tt, c') → c' = s_run s c) → implements (sql f) [s].
Proof.
  intros Hf d r d' Hs%sql_cases. destruct r as [[]|e].
  - apply Hf in Hs. split; [by exists 1%nat|done].
  - split; [by exists 0%nat|done].
Qed.

Lemma implements_ensure table col : implements (ensureColumn table col) [column_step table col].
Proof.
  intros d r d'. rewrite /ensureColumn /bind. destruct (table_info table d) as [q d1] eqn:E1. apply sql_cases in E1.
  destruct q as [cols|e]; [|intros [= <- <-]; split; [by exists 0%nat|done]].
  injection E1 as E1 Ec. destruct (bool_decide _) eqn:Eb.
  - intros [= <- <-]. rewrite -Ec. split; [by exists 0%nat|]. intros _. rewrite /run_steps /= /column_run.
    destruct (catalog d !! table) as [t|] eqn:Et; [|done]. by rewrite E1 Eb.
  - rewrite Ec. apply implements_sql. intros c c'. rewrite /= /column_run. destruct (c !! table); [|done].
    clear Eb. case_bool_decide; [done|]. by intros [= <-].
Qed.

Lemma implements_stamp :
  implements (let? count := count_rows "schema_meta" in
              if (count =? 0)%nat then insert_row "schema_meta" [Int schemaVersion] else ret (Ok tt)) [stamp_step].
Proof.
  intros d r d'. rewrite /bind. destruct (count_rows _ d) as [q d1] eqn:E1. apply sql_cases in E1.
  destruct q as [n|e]; [|intros [= <- <-]; split; [by exists 0%nat|done]].
  destruct (catalog d !! "schema_meta"%string) as [t|] eqn:Et; [|done]. injection E1 as <- Ec.
  destruct (rows t) as [|r0 rs] eqn:Er; simpl.
  - intros Hs%sql_cases. rewrite Ec. destruct r as [[]|e]; [|split; [by exists 0%nat|done]].
    injection Hs as Hs. rewrite -Hs -Ec. assert (run_steps (catalog d) [stamp_step] = alter (push_row [Int schemaVersion]) "schema_meta" (catalog d)) as E.
    { by rewrite /run_steps /= /stamp_run Et Er. }
    split; [exists 1%nat|intros _]; exact (eq_sym E).
  - intros [= <- <-]. rewrite -Ec. split; [by exists 0%nat|]. intros _. by rewrite /run_steps /= /stamp_run Et Er.
Qed.

Lemma implements_migrate : implements migrate steps.
Proof.
  apply implements_try.
  { apply implements_each. intros [name cols|table cols]; apply implements_sql; intros c c'; simpl.
    - by intros [= <-].
    - repeat (case_match; try done). by intros [= <-]. }
  apply (implements_try _ _ [_]); [apply implements_ensure|]. apply (implements_try _ _ [_]); [apply implements_ensure|].
  apply implements_stamp.
Qed.

(** ** What a step may change *)

(** Tables stay, columns and the values of old rows are only added to, and only
    [schema_meta] gets new rows. *)
Definition upgraded (n : string) (t t' : RawTable) : Prop := ∃ ext extra,
  columns t' = columns t ++ ext ∧ rows t' = ((λ r, r ++ (c_default <$> ext)) <$> rows t) ++ extra ∧
  (n ≠ "schema_meta"%string → extra = []).
Definition upgrades (c c' : Catalog) : Prop := ∀ n t, c !! n = Some t → ∃ t', c' !! n = Some t' ∧ upgraded n t t'.

#[export] Instance upgraded_preorder n : PreOrder (upgraded n).
Proof.
  split.
  - intros t. exists [], []. rewrite !app_nil_r. split_and!; [done| |done].
    rewrite -{1}(list_fmap_id (rows t)). apply list_fmap_ext. intros ? ? _. by rewrite app_nil_r.
  - intros t1 t2 t3 (e1 & x1 & C1 & R1 & N1) (e2 & x2 & C2 & R2 & N2).
    exists (e1 ++ e2), (((λ r, r ++ (c_default <$> e2)) <$> x1) ++ x2). split_and!.
    + by rewrite C2 C1 app_assoc.
    + rewrite R2 R1 fmap_app -list_fmap_compose app_assoc. do 2 f_equal. apply list_fmap_ext. intros ? r _. simpl.
      by rewrite fmap_app app_assoc.
    + intros Hn. by rewrite N1 // N2.
Qed.
#[export] Instance upgrades_preorder : PreOrder upgrades.
Proof.
  split.
  - intros c n t Ht. exists t. split; [done|reflexivity].
  - intros c1 c2 c3 H12 H23 n t Ht. destruct (H12 n t Ht) as (t2 & Ht2 & U12). destruct (H23 n t2 Ht2) as (t3 & Ht3 & U23).
    exists t3. split; [done|]. exact (transitivity U12 U23).
Qed.

Lemma upgrades_insert c n t t' : c !! n = Some t → upgraded n t t' → upgrades c (<[n := t']> c).
Proof.
  intros Hn Hu m tm Hm. destruct (decide (n = m)) as [->|Hne].
  - exists t'. rewrite lookup_insert_eq. by simplify_eq.
  - exists tm. rewrite lookup_insert_ne //. split; [done|reflexivity].
Qed.
Lemma append_upgraded n col t : upgraded n t (append_column col t).
Proof. exists [col], []. by rewrite app_nil_r. Qed.
Lemma push_upgraded r t : upgraded "schema_meta" t (push_row r t).
Proof.
  exists [], [r]. rewrite app_nil_r. split_and!; [done| |by intros []]. simpl. f_equal.
  rewrite -{1}(list_fmap_id (rows t)). apply list_fmap_ext. intros ? ? _. by rewrite app_nil_r.
Qed.

Lemma stmt_upgrades s c : upgrades c (s_run (stmt_step s) c).
Proof.
  destruct s as [name cols|]; [|reflexivity]. rewrite /= /create_if_missing. destruct (c !! name) eqn:E; [reflexivity|].
  intros n t Hn. exists t. rewrite lookup_insert_ne; [intros ->; by rewrite E in Hn|]. split; [done|reflexivity].
Qed.
Lemma column_upgrades table col c : upgrades c (column_run table col c).
Proof.
  rewrite /column_run. destruct (c !! table) as [t|] eqn:E; [|reflexivity]. case_bool_decide; [reflexivity|].
  exact (upgrades_insert _ _ _ _ E (append_upgraded _ _ _)).
Qed.
Lemma stamp_alter (c : Catalog) t : c !! "schema_meta"%string = Some t →
  alter (push_row [Int schemaVersion]) "schema_meta"%string c = <["schema_meta"%string := push_row [Int schemaVersion] t]> c.
Proof.
  intros Ht. apply map_eq. intros n. destruct (decide (n = "schema_meta"%string)) as [->|Hne].
  - by rewrite lookup_alter_eq lookup_insert_eq Ht.
  - rewrite lookup_alter_ne; [exact (not_eq_sym Hne)|]. rewrite lookup_insert_ne //. exact (not_eq_sym Hne).
Qed.
Lemma stamp_upgrades c : upgrades c (stamp_run c).
Proof.
  rewrite /stamp_run. destruct (c !! _) as [t|] eqn:E; [|reflexivity]. destruct (rows t); [|reflexivity].
  rewrite (stamp_alter c t) //. exact (upgrades_insert _ _ _ _ E (push_upgraded _ _)).
Qed.

Lemma elem_of_steps s : s ∈ steps →
  (∃ q, q ∈ schema ∧ s = stmt_step q) ∨ s = column_step "hosts" mac_column ∨ s = column_step "users" role_column ∨ s = stamp_step.
Proof.
  intros [(q & -> & Hq)%list_elem_of_fmap|Hs]%elem_of_app; [left; eauto|right].
  rewrite !elem_of_cons elem_of_nil in Hs. naive_solver.
Qed.
Lemma step_upgrades s c : s ∈ steps → upgrades c (s_run s c).
Proof.
  intros [(q & _ & ->)|[->|[->| ->]]]%elem_of_steps;
    [apply stmt_upgrades|apply column_upgrades|apply column_upgrades|apply stamp_upgrades].
Qed.
Lemma run_upgrades l c : (∀ s, s ∈ l → s ∈ steps) → upgrades c (run_steps c l).
Proof.
  revert c. induction l as [|s l IH]; intros c Hl; [reflexivity|]. rewrite /run_steps /=. etrans; [apply step_upgrades, Hl; by left|].
  apply IH. intros s' ?. apply Hl. by right.
Qed.

(** Being done survives every step, as it only asks for what is never removed. *)
Lemma done_upgrades s c c' : s ∈ steps → upgrades c c' → s_done s c → s_done s c'.
Proof.
  assert (∀ table col, upgrades c c' → has_column table col c → has_column table col c') as Hcol.
  { intros table col Hu (t & Ht & Hin). destruct (Hu table t Ht) as (t' & Ht' & e & x & Hc & _). exists t'. split; [done|].
    rewrite Hc /names fmap_app. apply elem_of_app. by left. }
  intros Hs Hu. apply elem_of_steps in Hs as [(q & _ & ->)|[->|[->| ->]]]; [|by apply Hcol|by apply Hcol|].
  - destruct q as [name cols|]; [|done]. intros [t Ht]. destruct (Hu name t Ht) as (t' & Ht' & _). by exists t'.
  - intros (t & Ht & Hr). destruct (Hu _ t Ht) as (t' & Ht' & e & x & _ & Hr' & _). exists t'. split; [done|].
    rewrite Hr'. by destruct (rows t).
Qed.

Lemma done_same s c : s ∈ steps → s_done s c → s_run s c = c.
Proof.
  intros [(q & _ & ->)|Hs]%elem_of_steps.
  - destruct q as [name cols|]; [|done]. intros [t Ht]. by rewrite /= /create_if_missing Ht.
  - assert (∀ table col, has_column table col c → column_run table col c = c) as Hcol.
    { intros table col (t & Ht & Hin). by rewrite /column_run Ht bool_decide_eq_true_2. }
    destruct Hs as [->|[->| ->]]; [apply Hcol|apply Hcol|]. intros (t & Ht & Hr). rewrite /= /stamp_run Ht. by destruct (rows t).
Qed.

Lemma column_done table col c : is_Some (c !! table) → has_column table col (column_run table col c).
Proof.
  intros [t Ht]. rewrite /column_run Ht. case_bool_decide; [by exists t|]. exists (append_column col t).
  rewrite lookup_insert_eq. split; [done|]. rewrite /= /names fmap_app. apply elem_of_app. right. by left.
Qed.
Lemma stamp_done c : is_Some (c !! "schema_meta"%string) → s_done stamp_step (s_run stamp_step c).
Proof.
  intros [t Ht]. simpl. rewrite /stamp_run Ht. destruct (rows t) eqn:E; [|exists t; by rewrite E].
  rewrite lookup_alter_eq Ht /=. eexists. split; [done|]. simpl. by rewrite E.
Qed.

Lemma schema_creates c n cols :
  CreateTable n cols ∈ schema → Forall (λ s, s_done s c) (stmt_step <$> schema) → is_Some (c !! n).
Proof.
  intros Hin Hd. apply (proj1 (Forall_forall _ _) Hd (stmt_step (CreateTable n cols))). apply list_elem_of_fmap. eauto.
Qed.

Lemma steps_chain : chain (λ _, True) steps.
Proof.
  apply chain_app.
  - generalize (λ _ : Catalog, True) as I. induction schema as [|s l IH]; intros I; [done|]. split; [|apply IH].
    intros c _. destruct s as [name cols|]; [|done]. simpl. rewrite /create_if_missing.
    destruct (c !! name) eqn:E; [by rewrite E|]. rewrite lookup_insert_eq. eauto.
  - assert (∀ n cols, CreateTable n cols ∈ schema → ∀ c,
      True ∧ Forall (λ s, s_done s c) (stmt_step <$> schema) → is_Some (c !! n)) as Hex.
    { intros n cols Hin c [_ Hd]. by apply (schema_creates c n cols). }
    cbn [chain]. split; [|split; [|split; [|done]]].
    + intros c Hc. apply column_done. eapply Hex; [|done]. by do 5 right; left.
    + intros c [Hc _]. apply column_done. eapply Hex; [|done]. by do 2 right; left.
    + intros c [[Hc _] _]. apply stamp_done. eapply Hex; [|done]. by left.
Qed.

Lemma implements_pragma x : implements (pragma x) [].
Proof.
  intros d r d' Hs%sql_cases. destruct r as [[]|]; [injection Hs as Hs|]; rewrite -Hs || rewrite Hs; (split; [by exists 0%nat|done]).
Qed.
Lemma implements_pragmas l : implements (try_each pragma l) [].
Proof. induction l as [|x l IH]; [apply implements_nil|]. apply (implements_try _ _ []); [apply implements_pragma|done]. Qed.
Lemma implements_open : implements OpenDB steps.
Proof.
  do 2 (apply (implements_try _ _ []); [apply (implements_pragma EmptyString)|]).
  apply (implements_try _ _ []); [apply implements_pragmas|]. apply (implements_try _ _ []); [apply implements_pragma|].
  apply implements_migrate.
Qed.

(** ** Types *)
Definition value_ok (c : Column) (v : Value) : Prop :=
  match v with Null => c_notnull c = false | Int _ => c_type c = INTEGER | Txt _ => c_type c = TEXT end.
Definition typed_table (t : RawTable) : Prop := Forall (Forall2 value_ok (columns t)) (rows t).

Definition added : list (string * Column) := [("hosts", mac_column); ("users", role_column)]%string.

(** A database some version of the program made: its rows fit their columns,
    and the tables it has lack at most the columns added since. *)
Record database (c : Catalog) : Prop := mkDatabase {
  d_typed n t : c !! n = Some t → typed_table t;
  d_meta t : c !! "schema_meta"%string = Some t → columns t = [int_nn "version"];
  d_shape n cols t col : CreateTable n cols ∈ schema → c !! n = Some t → col ∈ cols →
    col ∈ columns t ∨ (n, col) ∈ added ∧ c_name col ∉ names (columns t)
}.

(** Every table of the schema, with all its columns. *)
Definition conforms (c : Catalog) : Prop := ∀ n cols, CreateTable n cols ∈ schema →
  ∃ t, c !! n = Some t ∧ cols ⊆ columns t.

Definition schema_tables : list (string * list Column) :=
  omap (λ s, match s with CreateTable n cols => Some (n, cols) | _ => None end) schema.
Lemma schema_tables_NoDup : NoDup schema_tables.*1.
Proof. apply (bool_decide_unpack _). vm_compute. exact I. Qed.
Lemma schema_unique n cols cols' : CreateTable n cols ∈ schema → CreateTable n cols' ∈ schema → cols = cols'.
Proof.
  assert (∀ cs, CreateTable n cs ∈ schema → (list_to_map schema_tables : gmap string (list Column)) !! n = Some cs) as Hm.
  { intros cs Hin. apply elem_of_list_to_map_1; [apply schema_tables_NoDup|]. apply list_elem_of_omap. eauto. }
  intros H1%Hm H2%Hm. by simplify_eq.
Qed.
Lemma schema_meta_columns cols : CreateTable "schema_meta" cols ∈ schema → cols = [int_nn "version"].
Proof. intros Hin. apply (schema_unique "schema_meta"); [done|]. by left. Qed.

Lemma database_create n cols c : CreateTable n cols ∈ schema → database c → database (create_if_missing n cols c).
Proof.
  intros Hin Hd. rewrite /create_if_missing. destruct (c !! n) eqn:E; [done|]. split.
  - intros m t [[-> <-]|[? ?]]%lookup_insert_Some; [by constructor|by apply (d_typed c Hd m)].
  - intros t [[-> <-]|[? ?]]%lookup_insert_Some; [by apply schema_meta_columns|by apply (d_meta c Hd)].
  - intros m cs t col Hm [[-> <-]|[? ?]]%lookup_insert_Some Hcol; [|by apply (d_shape c Hd m cs)].
    left. by rewrite (schema_unique m cols cs).
Qed.

Lemma append_typed col t : value_ok col (c_default col) → typed_table t → typed_table (append_column col t).
Proof.
  intros Hv Ht. apply Forall_fmap. eapply Forall_impl; [exact Ht|]. intros r Hr. simpl. apply Forall2_app; [done|].
  by repeat constructor.
Qed.
Lemma names_append col t x : x ∈ names (columns (append_column col t)) ↔ x ∈ names (columns t) ∨ x = c_name col.
Proof. rewrite /= /names fmap_app elem_of_app list_elem_of_singleton. done. Qed.

Lemma added_spec n col : (n, col) ∈ added → value_ok col (c_default col) ∧ n ≠ "schema_meta"%string ∧
  ∀ col', (n, col') ∈ added → col' = col.
Proof.
  rewrite /added !elem_of_cons elem_of_nil. intros [[= -> ->]|[[= -> ->]|[]]]; (split_and!; [done|done|]);
    intros col'; rewrite !elem_of_cons elem_of_nil; by intros [[=]|[[=]|[]]].
Qed.

Lemma database_column n col c : (n, col) ∈ added → database c → database (column_run n col c).
Proof.
  intros (Hv & Hn & Huniq)%added_spec Hd. rewrite /column_run. destruct (c !! n) as [t0|] eqn:E; [|done].
  case_bool_decide as Hin; [done|]. split.
  - intros m t [[-> <-]|[? ?]]%lookup_insert_Some; [by apply append_typed, (d_typed c Hd m)|by apply (d_typed c Hd m)].
  - intros t [[-> _]|[? ?]]%lookup_insert_Some; [done|by apply (d_meta c Hd)].
  - intros m cs t col' Hm [[-> <-]|[? ?]]%lookup_insert_Some Hcol; [|by apply (d_shape c Hd m cs)].
    left. apply elem_of_app. destruct (d_shape c Hd m cs t0 col') as [?|[Ha _]]; [done..|by left|].
    right. rewrite (Huniq _ Ha). by left.
Qed.

Lemma database_stamp c : database c → database (stamp_run c).
Proof.
  intros Hd. rewrite /stamp_run. destruct (c !! _) as [t0|] eqn:E; [|done]. destruct (rows t0) eqn:Er; [|done].
  rewrite (stamp_alter _ t0) //. split.
  - intros m t [[<- <-]|[? ?]]%lookup_insert_Some; [|by apply (d_typed c Hd m)].
    rewrite /typed_table /= (d_meta c Hd t0 E) Er. by repeat constructor.
  - intros t [[_ <-]|[? ?]]%lookup_insert_Some; [exact (d_meta c Hd t0 E)|by apply (d_meta c Hd)].
  - intros m cs t col Hm [[<- <-]|[? ?]]%lookup_insert_Some Hcol; [exact (d_shape c Hd _ cs t0 col Hm E Hcol)|by apply (d_shape c Hd m cs)].
Qed.

Lemma database_step s c : s ∈ steps → database c → database (s_run s c).
Proof.
  intros [(q & Hq & ->)|Hs]%elem_of_steps.
  - destruct q as [n cols|]; [|done]. by apply database_create.
  - destruct Hs as [->|[->| ->]]; [apply database_column; by left|apply database_column; by right; left|apply database_stamp].
Qed.

Lemma steps_done c : Forall (λ s, s_done s (run_steps c steps)) steps.
Proof.
  apply (all_done (λ _, True)); [apply steps_chain|done|done|].
  intros s s' c' Hs Hs'. apply done_upgrades; [done|by apply step_upgrades].
Qed.

Lemma database_steps l c : (∀ s, s ∈ l → s ∈ steps) → database c → database (run_steps c l).
Proof.
  revert c. induction l as [|s l IH]; intros c Hl Hd; [done|]. apply IH; [intros s' ?; apply Hl; by right|].
  apply database_step; [apply Hl; by left|done].
Qed.

Lemma steps_conform c : database c → conforms (run_steps c steps).
Proof.
  intros Hd n cols Hin. pose proof (steps_done c) as Hall. rewrite Forall_forall in Hall.
  assert (database (run_steps c steps)) as Hd' by (by apply database_steps).
  destruct (Hall (stmt_step (CreateTable n cols))) as [t Ht]; [apply elem_of_app; left; apply list_elem_of_fmap; eauto|].
  exists t. split; [done|]. intros col Hcol. destruct (d_shape _ Hd' n cols t col) as [?|[Ha Hno]]; [done..|].
  destruct Hno. rewrite /added !elem_of_cons elem_of_nil in Ha.
  assert (has_column n col (run_steps c steps)) as (t' & Ht' & ?); [|by simplify_eq].
  destruct Ha as [[= -> ->]|[[= -> ->]|[]]].
  - apply (Hall (column_step "hosts" mac_column)), elem_of_app. right. by left.
  - apply (Hall (column_step "users" role_column)), elem_of_app. right. by right; left.
Qed.

(** ** An upgrade without faults succeeds *)
Lemma sql_run {A} (f : Catalog → Result SqlError (A * Catalog)) c a c' :
  f c = Ok (a, c') → sql f (mkRawDB c []) = (Ok a, mkRawDB c' []).
Proof. rewrite /sql /=. by intros ->. Qed.

(** An index comes after its table, and uses columns it always had. *)
Definition indexable (table : string) (cols : list string) : bool :=
  existsb (λ nc, bool_decide (nc.1 = table) &&
    forallb (λ x, existsb (λ col, bool_decide (c_name col = x) && bool_decide ((table, col) ∉ added)) nc.2) cols) schema_tables.
Fixpoint in_order (seen : list string) (l : list SchemaStmt) : bool :=
  match l with
  | [] => true
  | CreateTable n _ :: l' => in_order (n :: seen) l'
  | CreateIndex t xs :: l' => bool_decide (t ∈ seen) && indexable t xs && in_order seen l'
  end.
Lemma schema_in_order : in_order [] schema = true.
Proof. vm_compute. reflexivity. Qed.

Lemma index_accepted c table cols t : database c → c !! table = Some t → indexable table cols = true →
  forallb (λ x, bool_decide (x ∈ names (columns t))) cols = true.
Proof.
  intros Hd Ht ([n tcols] & Hin & [Hn Hcols]%andb_true_iff)%existsb_exists. apply bool_decide_eq_true in Hn. simpl in Hn. subst n.
  assert (CreateTable table tcols ∈ schema) as Hct.
  { apply list_elem_of_In, list_elem_of_omap in Hin as ([] & Hin & [=]). by simplify_eq. }
  apply forallb_forall. intros x Hx. rewrite forallb_forall in Hcols. specialize (Hcols x Hx).
  apply existsb_exists in Hcols as (col & Hcol & [Hname Hna]%andb_true_iff). apply bool_decide_eq_true in Hname, Hna.
  apply bool_decide_eq_true. destruct (d_shape c Hd table tcols t col) as [Hc|[? _]]; [done|done|by apply list_elem_of_In| |done].
  apply list_elem_of_fmap. eauto.
Qed.

Lemma statements_run l : ∀ seen c, (∀ s, s ∈ l → s ∈ schema) → in_order seen l = true → database c →
  (∀ n, n ∈ seen → is_Some (c !! n)) →
  try_each apply_stmt l (mkRawDB c []) = (Ok tt, mkRawDB (run_steps c (stmt_step <$> l)) []).
Proof.
  induction l as [|s l IH]; intros seen c Hl Ho Hd Hseen; [done|]. cbn [try_each].
  assert (∀ s', s' ∈ l → s' ∈ schema) as Hl' by (intros s' ?; apply Hl; by right).
  assert (s ∈ schema) as Hs by (apply Hl; by left). destruct s as [n cols|t xs]; simpl in Ho.
  - rewrite (bind_run _ _ _ (Ok tt) (mkRawDB (create_if_missing n cols c) [])); [by apply sql_run|].
    apply (IH (n :: seen)); [done|done|by apply database_create|].
    intros m Hm. pose proof (stmt_upgrades (CreateTable n cols) c) as Hu. simpl in Hu.
    apply elem_of_cons in Hm as [->|[t Ht]%Hseen].
    + rewrite /create_if_missing. destruct (c !! n) eqn:E; [by rewrite E|]. rewrite lookup_insert_eq. eauto.
    + destruct (Hu m t Ht) as (t' & ? & _). eauto.
  - apply andb_true_iff in Ho as [[Ht Hi]%andb_true_iff Ho]. apply bool_decide_eq_true, Hseen in Ht as [tt' Htt].
    rewrite (bind_run _ _ _ (Ok tt) (mkRawDB c [])); [|by apply (IH seen)].
    apply sql_run. by rewrite Htt (index_accepted c t xs tt').
Qed.

Lemma ensure_run table col c : is_Some (c !! table) →
  ensureColumn table col (mkRawDB c []) = (Ok tt, mkRawDB (column_run table col c) []).
Proof.
  intros [t Ht]. rewrite /ensureColumn (bind_run _ _ _ (Ok (names (columns t))) (mkRawDB c [])).
  { apply sql_run. by rewrite Ht. }
  rewrite /column_run Ht. case_bool_decide as Hb; [done|]. apply sql_run. rewrite Ht. by rewrite bool_decide_eq_false_2.
Qed.

Lemma stmts_done c : Forall (λ s, s_done s (run_steps c (stmt_step <$> schema))) (stmt_step <$> schema).
Proof.
  apply (all_done (λ _, True)); [exact (chain_prefix _ _ _ steps_chain)|done|done|].
  intros s s' c' Hs Hs'. apply done_upgrades; [|apply step_upgrades]; apply elem_of_app; by left.
Qed.

Lemma migrate_run c : database c → migrate (mkRawDB c []) = (Ok tt, mkRawDB (run_steps c steps) []).
Proof.
  intros Hd. rewrite /migrate (bind_run _ _ _ _ _ (statements_run schema [] c (λ s H, H) schema_in_order Hd _)).
  { intros n Hn. by apply elem_of_nil in Hn. }
  rewrite /steps run_steps_app. pose proof (stmts_done c) as Hall. set c1 := run_steps c (stmt_step <$> schema) in Hall |- *.
  assert (∀ n t c c', upgrades c c' → c !! n = Some t → is_Some (c' !! n)) as Hk.
  { intros n t c0 c' Hu Ht. destruct (Hu n t Ht) as (t' & ? & _). eauto. }
  destruct (schema_creates c1 "hosts" _ ltac:(by do 5 right; left) Hall) as [th Hh].
  destruct (schema_creates c1 "users" _ ltac:(by do 2 right; left) Hall) as [tu Hu].
  destruct (schema_creates c1 "schema_meta" _ ltac:(by left) Hall) as [tm Hm].
  rewrite (bind_run _ _ _ _ _ (ensure_run "hosts" mac_column c1 (mk_is_Some _ _ Hh))).
  pose proof (column_upgrades "hosts" mac_column c1) as U1. set c2 := column_run "hosts" mac_column c1 in U1 |- *.
  rewrite (bind_run _ _ _ _ _ (ensure_run "users" role_column c2 (Hk _ _ _ _ U1 Hu))).
  pose proof (column_upgrades "users" role_column c2) as U2. set c3 := column_run "users" role_column c2 in U2 |- *.
  destruct (Hk _ _ _ _ (transitivity U1 U2) Hm) as [t3 H3].
  rewrite (bind_run _ _ _ (Ok (length (rows t3))) (mkRawDB c3 [])); [apply sql_run; by rewrite H3|].
  rewrite {1}/run_steps. cbn [foldl s_run column_step stamp_step]. fold c2 c3. rewrite /stamp_run H3. destruct (rows t3) eqn:Er; [|done]. by apply sql_run.
Qed.

Lemma open_run c : database c → OpenDB (mkRawDB c []) = (Ok tt, mkRawDB (run_steps c steps) []).
Proof. intros Hd. rewrite -(migrate_run c Hd). reflexivity. Qed.

(** ** Reading accounts *)
Definition col_value (cols : list Column) (r : list Value) (name : string) : option Value :=
  match list_find (λ c, c_name c = name) cols with Some (i, _) => r !! i | None => None end.

(** A row of [users] without its role, and with it. *)
Definition account_of (cols : list Column) (r : list Value) : option (Z * string * string * Z) :=
  match col_value cols r "id", col_value cols r "username", col_value cols r "password_hash", col_value cols r "created_at" with
  | Some (Int id), Some (Txt name), Some (Txt hash), Some (Int ts) => Some (id, name, hash, ts)
  | _, _, _, _ => None
  end.
Definition user_of (cols : list Column) (r : list Value) : option User :=
  match account_of cols r, col_value cols r "role" with
  | Some (id, name, hash, ts), Some (Txt role) => Some (mkUser id name hash role ts)
  | _, _ => None
  end.

Lemma col_value_append cols r col name v :
  length r = length cols → col_value cols r name = Some v → col_value (cols ++ [col]) (r ++ [c_default col]) name = Some v.
Proof.
  intros Hl. rewrite /col_value. destruct (list_find _ cols) as [[i c]|] eqn:E; [|done].
  intros Hv. rewrite (list_find_app_l _ _ _ _ _ E). by apply lookup_app_l_Some.
Qed.
Lemma col_value_new cols r col :
  length r = length cols → c_name col ∉ names cols → col_value (cols ++ [col]) (r ++ [c_default col]) (c_name col) = Some (c_default col).
Proof.
  intros Hl Hno. rewrite /col_value. destruct (list_find (λ c, c_name c = c_name col) cols) as [[i c]|] eqn:E.
  - exfalso. apply list_find_Some in E as (Hi & Hc & _). destruct Hno. rewrite -Hc. apply list_elem_of_fmap. exists c.
    split; [done|]. exact (list_elem_of_lookup_2 _ _ _ Hi).
  - rewrite list_find_app_r // /= decide_True //= lookup_app_r; [lia|]. by replace (length cols - length r)%nat with 0%nat by lia.
Qed.

Lemma old_account cols r a : length r = length cols → "role"%string ∉ names cols → account_of cols r = Some a →
  user_of (cols ++ [role_column]) (r ++ [c_default role_column]) =
  Some (let '(id, name, hash, ts) := a in mkUser id name hash RoleAdmin ts).
Proof.
  intros Hl Hno. rewrite /user_of /account_of (col_value_new cols r role_column Hl Hno).
  repeat match goal with |- context [match col_value cols r ?x with _ => _ end] =>
    destruct (col_value cols r x) as [[| |]|] eqn:?; try done end.
  intros [= <-]. repeat match goal with H : col_value cols r ?x = Some ?v |- _ =>
    rewrite (col_value_append cols r role_column x v Hl H); clear H end. done.
Qed.

(** The upgrade only gives [users] its missing column. *)
Lemma create_keeps l c n t : c !! n = Some t → run_steps c (stmt_step <$> l) !! n = Some t.
Proof.
  revert c. induction l as [|s l IH]; intros c Hc; [done|]. apply IH. destruct s as [m cols|]; [|done].
  rewrite /= /create_if_missing. destruct (c !! m) eqn:E; [done|]. rewrite lookup_insert_ne //. intros ->. by rewrite E in Hc.
Qed.
Lemma column_run_ne n m col c : n ≠ m → column_run m col c !! n = c !! n.
Proof. intros Hne. rewrite /column_run. destruct (c !! m); [|done]. case_bool_decide; [done|]. rewrite lookup_insert_ne //. exact (not_eq_sym Hne). Qed.
Lemma stamp_run_ne n c : n ≠ "schema_meta"%string → stamp_run c !! n = c !! n.
Proof. intros Hne. rewrite /stamp_run. repeat case_match; try done. rewrite lookup_alter_ne //. exact (not_eq_sym Hne). Qed.

Lemma users_upgraded c t : c !! "users"%string = Some t → "role"%string ∉ names (columns t) →
  run_steps c steps !! "users"%string = Some (append_column role_column t).
Proof.
  intros Ht Hno. rewrite /steps run_steps_app. pose proof (create_keeps schema c _ _ Ht) as H1.
  generalize dependent (run_steps c (stmt_step <$> schema)). intros c1 H1. rewrite /run_steps. cbn [foldl s_run column_step stamp_step].
  rewrite stamp_run_ne //. assert (column_run "hosts" mac_column c1 !! "users"%string = Some t) as H2 by (by rewrite column_run_ne).
  by rewrite /column_run -/(column_run "hosts" mac_column c1) H2 bool_decide_eq_false_2 // lookup_insert_eq.
Qed.

(** What any run of [OpenDB] did. *)
Lemma open_spec c fl r d : OpenDB (mkRawDB c fl) = (r, d) →
  (∃ k, catalog d = run_steps c (take k steps)) ∧ (r = Ok tt → catalog d = run_steps c steps).
Proof. apply (implements_open (mkRawDB c fl)). Qed.
Lemma take_steps k s : s ∈ take k steps → s ∈ steps.
Proof. intros Hs. rewrite -(take_drop k steps). apply elem_of_app. by left. Qed.

Lemma rerun_steps k c : run_steps (run_steps c (take k steps)) steps = run_steps c steps.
Proof.
  apply rerun_converges; [apply steps_chain|intros s c'; apply done_same|].
  intros s s' c' Hs Hs'. apply done_upgrades; [done|by apply step_upgrades].
Qed.

Module MigrateProperties.

(** C15: Opening a database made by this or an older version of the program
    succeeds when no statement fails, and whenever it succeeds every table of
    the schema is there with all its columns and every row of the database has
    one value per column, of the column's type, and not null where that is
    forbidden. *)
Theorem upgrade_typed c fl r d :
  database c → OpenDB (mkRawDB c fl) = (r, d) →
  (fl = [] → r = Ok tt) ∧
  (r = Ok tt → conforms (catalog d) ∧ ∀ n t, catalog d !! n = Some t → Forall (Forall2 value_ok (columns t)) (rows t)).
Proof.
  intros Hd Hrun. split.
  - intros ->. rewrite open_run // in Hrun. apply (f_equal fst) in Hrun. exact (eq_sym Hrun).
  - intros Hok. apply open_spec in Hrun as [_ Hc]. rewrite (Hc Hok). split; [by apply steps_conform|].
    intros n t. apply d_typed. by apply database_steps.
Qed.

(** A database from before host addresses and roles. *)
Definition old_users : RawTable :=
  mkRawTable [int_col "id"; text_nn "username"; text_nn "password_hash"; int_nn "created_at"; int_col "must_reauth_at"]
    [[Int 1; Txt "admin"; Txt "hashed"; Int 1000; Null]]%string.
Definition old_hosts : RawTable :=
  mkRawTable [int_col "id"; text_nn "ip"; text_col "display_name"; int_nn "first_seen"; int_nn "last_seen"]
    [[Int 1; Txt "192.168.1.50"; Null; Int 100; Int 200]]%string.
Definition old_database : Catalog :=
  list_to_map [("schema_meta", mkRawTable [int_nn "version"] [[Int 1]]); ("users", old_users); ("hosts", old_hosts)]%string.

(** Decides [database] on the tables at hand. *)
Lemma old_database_ok : database old_database.
Proof.
  assert (∀ n t, old_database !! n = Some t →
    (n = "schema_meta" ∧ t = mkRawTable [int_nn "version"] [[Int 1]]) ∨ (n = "users" ∧ t = old_users) ∨ (n = "hosts" ∧ t = old_hosts))%string as Hc.
  { intros n t Ht%elem_of_list_to_map_2. rewrite !elem_of_cons elem_of_nil in Ht. naive_solver. }
  split.
  - intros n t [[_ ->]|[[_ ->]|[_ ->]]]%Hc; by repeat constructor.
  - intros t [[_ ->]|[[? _]|[? _]]]%Hc; done.
  - intros n cols t col Hin [[-> ->]|[[-> ->]|[-> ->]]]%Hc Hcol.
    + rewrite (schema_meta_columns _ Hin) in Hcol. by left.
    + rewrite (schema_unique "users" cols _ Hin ltac:(by do 2 right; left)) !elem_of_cons elem_of_nil in Hcol.
      destruct Hcol as [->|[->|[->|[->|[->|[->|[]]]]]]]; try (left; rewrite !elem_of_cons; tauto).
      right. split; [by right; left|]. apply (bool_decide_unpack _). vm_compute. exact I.
    + rewrite (schema_unique "hosts" cols _ Hin ltac:(by do 5 right; left)) !elem_of_cons elem_of_nil in Hcol.
      destruct Hcol as [->|[->|[->|[->|[->|[->|[]]]]]]]; try (left; rewrite !elem_of_cons; tauto).
      right. split; [by left|]. apply (bool_decide_unpack _). vm_compute. exact I.
Qed.

Lemma upgrade_typed_witness :
  (OpenDB (mkRawDB old_database [])).1 = Ok tt ∧ conforms (catalog (OpenDB (mkRawDB old_database [])).2).
Proof.
  destruct (upgrade_typed old_database [] (OpenDB (mkRawDB old_database [])).1 (OpenDB (mkRawDB old_database [])).2
    old_database_ok (surjective_pairing _)) as [H1 H2]. specialize (H1 eq_refl). split; [exact H1|]. by apply H2.
Defined.

(** C27: Opening a database loses nothing: whether it succeeds or fails, every
    table that was there still is, with its columns first and its rows first,
    each row beginning with the values it had; a column added in between holds
    its default in those rows, and only the version table may have new rows. *)
Theorem upgrade_keeps_rows c fl r d n t :
  OpenDB (mkRawDB c fl) = (r, d) → c !! n = Some t →
  ∃ t' ext extra, catalog d !! n = Some t' ∧ columns t' = columns t ++ ext ∧
    rows t' = ((λ v, v ++ (c_default <$> ext)) <$> rows t) ++ extra ∧ (n ≠ "schema_meta"%string → extra = []).
Proof.
  intros [[k Hk] _]%open_spec Ht.
  destruct (run_upgrades (take k steps) c (take_steps k) n t Ht) as (t' & Ht' & ext & extra & ?).
  exists t', ext, extra. by rewrite Hk.
Qed.

(** The statement that adds the role column fails. *)
Lemma upgrade_keeps_rows_witness :
  let run := OpenDB (mkRawDB old_database (replicate 39 false ++ [true])) in
  run.1 = Err SqlIO ∧ ∃ t', catalog run.2 !! "users"%string = Some t' ∧ length (rows t') = 1%nat.
Proof.
  intros run. split; [vm_compute; reflexivity|].
  destruct (upgrade_keeps_rows old_database (replicate 39 false ++ [true]) run.1 run.2 "users" old_users
    (surjective_pairing _) eq_refl) as (t' & ext & extra & Ht & _ & Hr & Hx).
  exists t'. split; [exact Ht|]. by rewrite Hr Hx.
Defined.

(** C31: Every account of a database from before roles is an administrator after
    the upgrade, with the id, name, password and creation time it had. *)
Theorem old_accounts_are_admin c fl d t i row id name hash ts :
  database c → OpenDB (mkRawDB c fl) = (Ok tt, d) →
  c !! "users"%string = Some t → "role"%string ∉ names (columns t) →
  rows t !! i = Some row → account_of (columns t) row = Some (id, name, hash, ts) →
  ∃ t' row', catalog d !! "users"%string = Some t' ∧ length (rows t') = length (rows t) ∧ rows t' !! i = Some row' ∧
    user_of (columns t') row' = Some (mkUser id name hash RoleAdmin ts).
Proof.
  intros Hd [_ Hc]%open_spec Ht Hno Hi Ha. rewrite (Hc eq_refl). exists (append_column role_column t), (row ++ [c_default role_column]).
  split_and!; [by apply users_upgraded|by rewrite /= length_fmap|by rewrite /= list_lookup_fmap Hi|].
  assert (length row = length (columns t)) as Hl.
  { pose proof (d_typed c Hd _ _ Ht) as Hty. eapply Forall_lookup_1 in Hty; [|exact Hi]. by apply Forall2_length in Hty. }
  exact (old_account _ _ _ Hl Hno Ha).
Qed.

Lemma old_accounts_are_admin_witness :
  ∃ t' row', catalog (OpenDB (mkRawDB old_database [])).2 !! "users"%string = Some t' ∧ length (rows t') = 1%nat ∧
    rows t' !! 0%nat = Some row' ∧ user_of (columns t') row' = Some (mkUser 1 "admin" "hashed" RoleAdmin 1000).
Proof.
  apply (old_accounts_are_admin old_database [] _ old_users 0 [Int 1; Txt "admin"; Txt "hashed"; Int 1000; Null]%string);
    [exact old_database_ok|vm_compute; reflexivity|reflexivity| |reflexivity|reflexivity].
  apply (bool_decide_unpack _). vm_compute. exact I.
Defined.

(** C9: An upgrade may be cut short by any failing statement and run again: the
    second run ends with the catalogue an undisturbed first one would have
    made, and opening an upgraded database changes nothing. *)
Theorem upgrade_rerun_converges c fl r d :
  database c → OpenDB (mkRawDB c fl) = (r, d) →
  OpenDB (mkRawDB (catalog d) []) = OpenDB (mkRawDB c []) ∧
  (r = Ok tt → catalog (OpenDB (mkRawDB (catalog d) [])).2 = catalog d).
Proof.
  intros Hd [[k Hk] Hok]%open_spec.
  assert (database (catalog d)) as Hd' by (rewrite Hk; apply database_steps; [apply take_steps|done]).
  rewrite (open_run _ Hd') (open_run _ Hd) Hk rerun_steps -Hk. split; [reflexivity|]. intros Hr. exact (eq_sym (Hok Hr)).
Qed.

Lemma upgrade_rerun_converges_witness :
  let run := OpenDB (mkRawDB old_database (replicate 20 false ++ [true])) in
  run.1 = Err SqlIO ∧ OpenDB (mkRawDB (catalog run.2) []) = OpenDB (mkRawDB old_database []).
Proof.
  intros run. split; [vm_compute; reflexivity|].
  by destruct (upgrade_rerun_converges old_database (replicate 20 false ++ [true]) run.1 run.2 old_database_ok
    (surjective_pairing _)) as [He _].
Defined.
End MigrateProperties.
