(* ===== verification/Service.v ===== *)
(** * The service package ([internal/service])

    Installing writes a unit file or init script, moves a database made under a
    user's account to the system directory, creates the service account and
    calls the service manager; removal undoes the unit.  The executable's
    resolved path is an argument, other programs are the class [Programs].

    The theorem: moving the data directory never loses a file, whichever calls
    fail.  The lemmas on installing, ownership and removal are used by
    [Commands]. *)

From stdpp Require Import prelude strings gmap list.
From Stdlib Require Import ZArith Lia Ascii.
From Corelib Require Import ssreflect.
From S2P Require Import Prelude GoStrings Encoding Store StoreProofs Config System Tls Run.

Open Scope general_if_scope.
Open Scope Z_scope.

(** ** [service.go] *)
Definition SystemDataDir : string := "/var/lib/shadowstat".
Definition DefaultServiceUser : string := "shadowstat".
Definition UnitName : string := "shadowstat.service".

Inductive InitSystem := InitUnknown | InitSystemd | InitOpenRC.

Definition InitSystem_String (s : InitSystem) : string :=
  match s with InitSystemd => "systemd" | InitOpenRC => "OpenRC" | InitUnknown => "unknown" end.

Section init.
Context (pr : Process).

Definition DetectInitSystem : M World InitSystem :=
  let! a := Stat pr "/run/systemd/system" in
  if is_ok a then ret InitSystemd else
  let! b := Stat pr "/sbin/openrc" in
  ret (if is_ok b then InitOpenRC else InitUnknown).

Definition RequireRoot : bool := Geteuid pr =? 0.
End init.

(** ** Unit file and init script *)
Record UnitParams := mkUnitParams {
  ExecStart : string; DataDir : string; up_User : string; up_Group : string; AsRoot : bool
}.

Definition nl : string := String (ascii_of_nat 10) EmptyString.
Definition tab : string := String (ascii_of_nat 9) EmptyString.
Definition dq : string := String (ascii_of_nat 34) EmptyString.

Definition lines (ls : list string) : string := foldr (λ l s, l +:+ nl +:+ s) EmptyString ls.

Definition systemdUnitTemplate (p : UnitParams) : string :=
  lines (["[Unit]"; "Description=ShadowStat network monitoring"; "After=network-online.target";
          "Wants=network-online.target"; EmptyString; "[Service]"; "Type=simple";
          "ExecStart=" +:+ ExecStart p +:+ " run --data-dir " +:+ DataDir p;
          "Restart=on-failure"; "RestartSec=5"]%string ++
         (if AsRoot p then [] else ["User=" +:+ up_User p; "Group=" +:+ up_Group p]%string) ++
         ["AmbientCapabilities=CAP_NET_RAW CAP_NET_ADMIN"; "CapabilityBoundingSet=CAP_NET_RAW CAP_NET_ADMIN";
          "NoNewPrivileges=true"; "ProtectSystem=strict"; "ProtectHome=true";
          "ReadWritePaths=" +:+ DataDir p; EmptyString; "[Install]"; "WantedBy=multi-user.target"]%string).

Definition openrcScriptTemplate (p : UnitParams) : string :=
  lines ["#!/sbin/openrc-run"; "description=" +:+ dq +:+ "ShadowStat network monitoring" +:+ dq; EmptyString;
         "command=" +:+ dq +:+ ExecStart p +:+ dq;
         "command_args=" +:+ dq +:+ "run --data-dir " +:+ DataDir p +:+ dq;
         "command_background=true"; "pidfile=" +:+ dq +:+ "/run/shadowstat.pid" +:+ dq; EmptyString;
         "depend() {"; tab +:+ "need net"; tab +:+ "after firewall"; "}"]%string.

Definition systemdUnitPath : string := "/etc/systemd/system/" +:+ UnitName.
Definition openrcScriptPath : string := "/etc/init.d/shadowstat".

Inductive ServiceError := NotInstalled | ErrOS (e : OSError).

Section managers.
Context `{Programs} (pr : Process).

(** [runCmd] of the package: run a program and report its failure. *)
Definition run_program (cmd : list string) : M World (Result ServiceError unit) := wrap_err ErrOS (Exec cmd).
Definition runSystemctl (args : list string) : M World (Result ServiceError unit) := run_program ("systemctl"%string :: args).

Definition InstallSystemd (params : UnitParams) : M World (Result ServiceError unit) :=
  let? _ := wrap_err ErrOS (OpenTrunc pr systemdUnitPath 420) in
  let? _ := wrap_err ErrOS (WriteAll pr systemdUnitPath (systemdUnitTemplate params)) in
  let? _ := runSystemctl ["daemon-reload"%string] in
  runSystemctl ["enable"; "--now"; UnitName]%string.

(** [os.IsNotExist] of the result of a [Stat]. *)
Definition is_not_exist {A} (r : Result OSError A) : bool := match r with Err ENOENT => true | _ => false end.

Definition UninstallSystemd : M World (Result ServiceError unit) :=
  let! st := Stat pr systemdUnitPath in
  if is_not_exist st then ret (Err NotInstalled) else
  let? _ := runSystemctl ["disable"; "--now"; UnitName]%string in
  let? _ := wrap_err ErrOS (Remove pr systemdUnitPath) in
  runSystemctl ["daemon-reload"%string].

Definition StatusSystemd : M World unit :=
  let! st := Stat pr systemdUnitPath in
  if is_not_exist st then ret tt else Exec ["systemctl"; "status"; UnitName; "--no-pager"]%string ;;! ret tt.

Definition IsSystemdInstalled : M World bool := let! st := Stat pr systemdUnitPath in ret (is_ok st).

Definition InstallOpenRC (params : UnitParams) : M World (Result ServiceError unit) :=
  let? _ := wrap_err ErrOS (OpenTrunc pr openrcScriptPath 493) in
  let? _ := wrap_err ErrOS (WriteAll pr openrcScriptPath (openrcScriptTemplate params)) in
  let? _ := wrap_err ErrOS (Chmod pr openrcScriptPath 493) in
  let? _ := run_program ["rc-update"; "add"; "shadowstat"; "default"]%string in
  run_program ["rc-service"; "shadowstat"; "start"]%string.

Definition UninstallOpenRC : M World (Result ServiceError unit) :=
  let! st := Stat pr openrcScriptPath in
  if is_not_exist st then ret (Err NotInstalled) else
  run_program ["rc-service"; "shadowstat"; "stop"]%string ;;!
  let? _ := run_program ["rc-update"; "del"; "shadowstat"; "default"]%string in
  wrap_err ErrOS (Remove pr openrcScriptPath).

Definition StatusOpenRC : M World unit :=
  let! st := Stat pr openrcScriptPath in
  if is_not_exist st then ret tt else Exec ["rc-service"; "shadowstat"; "status"]%string ;;! ret tt.

Definition IsOpenRCInstalled : M World bool := let! st := Stat pr openrcScriptPath in ret (is_ok st).

(** [Executable]: what [os.Executable] returns; [EvalSymlinks] resolves a path. *)
Definition ResolveExecutable (Executable : Result OSError string) (EvalSymlinks : string → Result OSError string) :
    Result ServiceError string :=
  match Executable with
  | Err e => Err (ErrOS e)
  | Ok exe => match EvalSymlinks exe with Ok resolved => Ok resolved | Err e => Err (ErrOS e) end
  end.

(** ** [user.go] *)
Definition useradd_command (username : string) : list string :=
  ["useradd"; "--system"; "--no-create-home"; "--shell"; "/usr/sbin/nologin";
   "--comment"; "ShadowStat network monitoring service"; username]%string.

Definition EnsureSystemUser (username : string) : M World (Result ServiceError Account) :=
  let! u := Lookup username in
  match u with
  | Ok a => ret (Ok a)
  | Err _ =>
      let? _ := wrap_err ErrOS (Exec (useradd_command username)) in
      wrap_err ErrOS (Lookup username)
  end.

(** ** [migrate.go] *)
Definition dev_dir (home : string) : string := Join [home; ".local"; "share"; "shadowstat"]%string.

Definition dev_candidates : M World (list string) :=
  let sudoUser := Getenv pr "SUDO_USER" in
  let! c1 := (if bool_decide (sudoUser = EmptyString) then ret [] else
              let! u := Lookup sudoUser in
              ret (match u with Ok a => [dev_dir (HomeDir a)] | Err _ => [] end)) in
  let xdg := Getenv pr "XDG_DATA_HOME" in
  let c2 := if bool_decide (xdg = EmptyString) then [] else [Join [xdg; "shadowstat"%string]] in
  let c3 := match UserHomeDir pr with Some home => [dev_dir home] | None => [] end in
  ret (c1 ++ c2 ++ c3).

Fixpoint first_with_db (dirs : list string) : M World (option string) :=
  match dirs with
  | [] => ret None
  | d :: ds =>
      let! st := Stat pr (Join [d; "shadowstat.db"%string]) in
      if is_ok st then ret (Some d) else first_with_db ds
  end.

Definition FindDevDataDir : M World (option string) :=
  let! cs := dev_candidates in first_with_db cs.

Definition MigrateDataDir {o : Order} (sourceDir targetDir : string) : M World (Result ServiceError unit) :=
  let! r := Rename pr sourceDir targetDir in
  match r with
  | Ok _ => ret (Ok tt)
  | Err _ =>
      let? _ := wrap_err ErrOS (MkdirAll pr targetDir 488) in
      let? _ := wrap_err ErrOS (Exec ["cp"; "-a"; sourceDir +:+ "/."; targetDir]%string) in
      wrap_err ErrOS (RemoveAll pr sourceDir)
  end.

(** An account whose ids are not numbers is an error. *)
Definition ChownDataDir {o : Order} (dir : string) (u : Account) : M World (Result ServiceError unit) :=
  match atoi (Uid u), atoi (Gid u) with
  | Some uid, Some gid => wrap_err ErrOS (WalkChown pr dir (uid, gid))
  | _, _ => ret (Err (ErrOS EINVAL))
  end.
End managers.

(** ** Moving a data directory *)
Lemma below_disjoint a b r : below a b = false → below b a = false → below b (a ++ r) = false.
Proof.
  intros Hab Hba. apply not_true_iff_false. intros [t Ht]%below_spec.
  destruct (decide (length b ≤ length a)%nat) as [Hl|Hl].
  - assert (below b a = true); [|congruence]. apply bool_decide_eq_true.
    by rewrite -(take_app_le a r) // Ht take_app_length.
  - assert (below a b = true); [|congruence]. apply bool_decide_eq_true.
    rewrite -(take_app_le b t); [lia|]. by rewrite -Ht take_app_length.
Qed.

Lemma foldr_delete_frame (f : gmap path Inode) ps p : p ∉ ps → foldr delete f ps !! p = f !! p.
Proof.
  induction ps as [|q ps IH]; [done|]. rewrite not_elem_of_cons => -[Hne Hp]. simpl.
  rewrite lookup_delete_ne; [exact (not_eq_sym Hne)|]. by apply IH.
Qed.

Section moving.
Context `{Programs} {o : Order} (pr : Process).
Abbreviation loc := (locate (p_cwd pr)).

Lemma RemoveAll_cases p w r w' :
  RemoveAll pr p w = (r, w') →
  (∀ q, below (loc p) q = false → fs w' !! q = fs w !! q) ∧
  (r = Ok tt → ∀ q, below (loc p) q = true → fs w' !! q = None).
Proof.
  intros Hs%syscall_cases. destruct r as [[]|e].
  - injection Hs as <-. simpl. split.
    + intros q Hq. destruct (fs w !! q) as [i|] eqn:E.
      * apply map_lookup_filter_Some. by rewrite /= Hq.
      * apply map_lookup_filter_None. by left.
    + intros _ q Hq. apply map_lookup_filter_None. right. intros i _. by rewrite /= Hq.
  - split; [|done]. intros q Hq. destruct Hs as [[_ [n ->]]|[_ ->]]; [|done].
    simpl. apply foldr_delete_frame. intros Hin.
    assert (q ∈ filter (λ q, below (loc p) q) (map_to_list (fs w)).*1) as [Hq2 _]%list_elem_of_filter.
    { apply (elem_of_ord o). rewrite -(take_drop n (ord o _)). apply elem_of_app. by left. }
    by rewrite Hq in Hq2.
Qed.

Lemma Exec_cases cmd w r w' :
  Exec cmd w = (r, w') →
  let w0 := with_faults (tail (faults w)) w in
  (is_ok r = false ∧ w' = w0) ∨
  ((is_ok r = (prog cmd w0).1) ∧ fs w' = fs (prog cmd w0).2 ∧ accounts w' = accounts (prog cmd w0).2 ∧
   groups w' = groups (prog cmd w0).2 ∧ ran w' = ran w ++ [cmd]).
Proof.
  rewrite /Exec. destruct (default None (head (faults w))) as [n|]; [intros [= <- <-]; by left|].
  destruct (prog cmd _) as [ok w1] eqn:E. intros [= <- <-]. right. by destruct ok.
Qed.

(** Everything below [a] is still at its place or has its contents at [b]. *)
Definition kept (a b : path) (f f' : gmap path Inode) : Prop := ∀ r i, r ≠ [] → f !! (a ++ r) = Some i →
  f' !! (a ++ r) = Some i ∨ ∃ m ow, f' !! (b ++ r) = Some (mkInode (i_kind i) m ow).
Definition moved (a b : path) (f f' : gmap path Inode) : Prop := ∀ r i, r ≠ [] → f !! (a ++ r) = Some i →
  ∃ m ow, f' !! (b ++ r) = Some (mkInode (i_kind i) m ow).

Lemma moved_kept a b f f' : moved a b f f' → kept a b f f'.
Proof. intros Hm r i Hr Hi. right. by apply Hm. Qed.
Lemma move_tree_moves a b f : moved a b f (move_tree a b f).
Proof. intros r i _ Hi. exists (i_mode i), (i_owner i). rewrite (move_tree_moved _ _ _ _ _ Hi). by destruct i. Qed.

Lemma Rename_ok old new w w' :
  Rename pr old new w = (Ok tt, w') → fs w' = move_tree (loc old) (loc new) (fs w).
Proof.
  intros Hs%syscall_cases. simpl in Hs. repeat (case_match; try done); by injection Hs as <-.
Qed.
Lemma Rename_err old new w e w' : Rename pr old new w = (Err e, w') → fs w' = fs w.
Proof. intros [[_ [n ->]]|[_ ->]]%syscall_cases; done. Qed.

(** Whatever fails, entries outside the two directories stay. *)
Lemma migrate_frame source target w res w' :
  rooted target = true → MigrateDataDir pr source target w = (res, w') →
  ∀ p i, below (loc source) p = false → below (loc target) p = false → fs w !! p = Some i → fs w' !! p = Some i.
Proof.
  intros Ht. rewrite /MigrateDataDir {1}/bind. destruct (Rename pr source target w) as [[[]|e] w1] eqn:E1.
  { intros [= _ <-] p i Hp1 Hp2 Hi. apply Rename_ok in E1. by rewrite E1 move_tree_frame. }
  apply Rename_err in E1. intros Hrun p i Hp1 Hp2 Hi. rewrite -E1 in Hi.
  destruct (MkdirAll pr target 488 w1) as [r2 w2] eqn:E2. apply MkdirAll_spec in E2 as E2'. destruct E2' as [X2 _].
  apply X2 in Hi. rewrite (bind_run _ _ _ _ _ (wrap_err_run _ _ _ _ _ E2)) in Hrun.
  destruct r2 as [[]|e2]; [|by injection Hrun as _ <-].
  destruct (Exec ["cp"; "-a"; source +:+ "/."; target]%string w2) as [r3 w3] eqn:E3.
  rewrite (bind_run _ _ _ _ _ (wrap_err_run _ _ _ _ _ E3)) in Hrun.
  assert (fs w3 !! p = Some i) as Hi3.
  { rewrite -Hi. apply Exec_cases in E3 as [[_ ->]|(_ & -> & _)]; [done|]. by rewrite (cp_frame (p_cwd pr)). }
  destruct r3 as [[]|e3]; [|by injection Hrun as _ <-].
  destruct (RemoveAll pr source w3) as [r4 w4] eqn:E4. rewrite (wrap_err_run _ _ _ _ _ E4) in Hrun.
  apply RemoveAll_cases in E4 as [F4 _]. injection Hrun as _ <-. by rewrite F4.
Qed.

(** The move: no entry of the source is lost, whatever fails, and when it
    succeeds all of them are at the target and the source is gone. *)
Lemma migrate_spec source target w res w' :
  rooted source = true → rooted target = true →
  below (loc source) (loc target) = false → below (loc target) (loc source) = false →
  MigrateDataDir pr source target w = (res, w') →
  kept (loc source) (loc target) (fs w) (fs w') ∧
  (res = Ok tt → moved (loc source) (loc target) (fs w) (fs w') ∧
                 ∀ q, below (loc source) q = true → fs w' !! q = None).
Proof.
  intros Hs Ht Hst Hts. assert (∀ r, below (loc target) (loc source ++ r) = false) as Hd by (intros r; by apply below_disjoint).
  assert (∀ r, below (loc source) (loc target ++ r) = false) as Hd' by (intros r; by apply below_disjoint).
  rewrite /MigrateDataDir {1}/bind. destruct (Rename pr source target w) as [[[]|e] w1] eqn:E1.
  { intros [= <- <-]. apply Rename_ok in E1. rewrite E1. pose proof (move_tree_moves (loc source) (loc target) (fs w)) as Hm.
    split; [by apply moved_kept|intros _; split; [done|by intros q [r ->]%below_spec; apply move_tree_source]]. }
  apply Rename_err in E1. intros Hrun.
  destruct (MkdirAll pr target 488 w1) as [r2 w2] eqn:E2. apply MkdirAll_spec in E2 as E2'. destruct E2' as [X2 _].
  rewrite E1 in X2. rewrite (bind_run _ _ _ _ _ (wrap_err_run _ _ _ _ _ E2)) in Hrun. destruct r2 as [[]|e2].
  2: { injection Hrun as <- <-. split; [intros r i _ Hi; left; by apply X2|done]. }
  destruct (Exec ["cp"; "-a"; source +:+ "/."; target]%string w2) as [r3 w3] eqn:E3. rewrite (bind_run _ _ _ _ _ (wrap_err_run _ _ _ _ _ E3)) in Hrun.
  destruct r3 as [[]|e3].
  2: { injection Hrun as <- <-. split; [|done]. intros r i _ Hi. left.
       apply Exec_cases in E3 as [[_ ->]|(_ & -> & _)]; [by apply X2|]. rewrite (cp_frame (p_cwd pr)) //. by apply X2. }
  assert (moved (loc source) (loc target) (fs w) (fs w3)) as M3.
  { intros r i Hr Hi. apply Exec_cases in E3 as [[? _]|(Hok & -> & _)]; [done|].
    simpl in Hok. apply (cp_copies (p_cwd pr) source target (with_faults (tail (faults w2)) w2) _ Hs Ht); [|by apply X2|done].
    by apply injective_projections. }
  destruct (RemoveAll pr source w3) as [r4 w4] eqn:E4. rewrite (wrap_err_run _ _ _ _ _ E4) in Hrun.
  apply RemoveAll_cases in E4 as [F4 G4]. injection Hrun as <- <-.
  assert (moved (loc source) (loc target) (fs w) (fs w4)) as M4.
  { intros r i Hr Hi. destruct (M3 r i Hr Hi) as (m & ow & Hm). exists m, ow. rewrite F4 //. }
  split; [by apply moved_kept|]. destruct r4 as [[]|]; [|done]. intros _. split; [done|]. by apply G4.
Qed.
End moving.

(** ** What installing did *)
Definition managers : list string := ["systemctl"; "rc-update"; "rc-service"; "useradd"]%string.
Definition unit_path : path := ["etc"; "systemd"; "system"; "shadowstat.service"]%string.
Definition script_path : path := ["etc"; "init.d"; "shadowstat"]%string.
Lemma locate_unit cwd : locate cwd systemdUnitPath = unit_path.
Proof. reflexivity. Qed.
Lemma locate_script cwd : locate cwd openrcScriptPath = script_path.
Proof. reflexivity. Qed.

Section installing.
Context `{Programs} {o : Order} (pr : Process).

(** A run of the service manager or [useradd] leaves other files alone. *)
Definition outside (P : path → Prop) (f f' : gmap path Inode) : Prop := ∀ p, private p = false → P p → f' !! p = f !! p.

Lemma manager_run name args w r w' :
  name ∈ managers → Exec (name :: args) w = (r, w') →
  outside (λ _, True) (fs w) (fs w') ∧ (is_ok r = true → ran w' = ran w ++ [name :: args]).
Proof.
  intros Hn [[Hr ->]|(_ & Hf & _ & _ & Hr)]%Exec_cases; [by rewrite Hr|].
  split; [|done]. intros p Hp _. by rewrite Hf manager_frame.
Qed.

Lemma manager_ok name args w w' :
  name ∈ managers → run_program (name :: args) w = (Ok tt, w') →
  outside (λ _, True) (fs w) (fs w') ∧ ran w' = ran w ++ [name :: args].
Proof. intros Hn [Hf Hr]%wrap_err_ok%manager_run; [|done]. split; [done|]. by apply Hr. Qed.

Lemma syscall_ran {A} partial (act : World → Result OSError (A * World)) w r w' :
  (∀ n w, ran (partial n w) = ran w) → (∀ w a w', act w = Ok (a, w') → ran w' = ran w) →
  syscall partial act w = (r, w') → ran w' = ran w.
Proof.
  intros Hp Ha Hs%syscall_cases. destruct r as [a|e]; [by apply Ha in Hs|]. destruct Hs as [[_ [n ->]]|[_ ->]]; [by rewrite Hp|done].
Qed.
Lemma OpenTrunc_ran p mode w r w' : OpenTrunc pr p mode w = (r, w') → ran w' = ran w.
Proof. apply syscall_ran; [done|]. intros w0 a w1. repeat (case_match; try done); by intros [= <- <-]. Qed.
Lemma set_text_ran p s w : ran (set_text p s w) = ran w.
Proof. rewrite /set_text. by repeat case_match. Qed.
Lemma WriteAll_ran p s w r w' : WriteAll pr p s w = (r, w') → ran w' = ran w.
Proof. apply syscall_ran; [intros; apply set_text_ran|]. intros w0 a w1 [= <- <-]. apply set_text_ran. Qed.

Lemma text_at_frame f f' (p : path) : f' !! p = f !! p → text_at f' p = text_at f p.
Proof. rewrite /text_at. by intros ->. Qed.

Lemma InstallSystemd_ok params w w' :
  InstallSystemd pr params w = (Ok tt, w') →
  text_at (fs w') unit_path = Some (systemdUnitTemplate params) ∧ outside (λ p, p ≠ unit_path) (fs w) (fs w') ∧
  ran w' = ran w ++ [["systemctl"; "daemon-reload"]; ["systemctl"; "enable"; "--now"; UnitName]]%string.
Proof.
  intros ([] & w1 & E1%wrap_err_ok & ([] & w2 & E2%wrap_err_ok & ([] & w3 & E3 & E4)%try_ok)%try_ok)%try_ok.
  apply manager_ok in E3 as [F3 R3]; [|set_solver]. apply manager_ok in E4 as [F4 R4]; [|set_solver].
  destruct (write_file_ok _ _ _ _ _ _ _ E1 E2) as (m & ow & F2). rewrite locate_unit in F2.
  rewrite R4 R3 (WriteAll_ran _ _ _ _ _ E2) (OpenTrunc_ran _ _ _ _ _ E1) -app_assoc. split_and!; [| |done].
  - rewrite (text_at_frame (fs w2)); [|rewrite F2; apply text_insert].
    rewrite F4 // ?F3 //; apply unit_not_private.
  - intros p Hp Hne. rewrite F4 // F3 // F2 lookup_insert_ne //. exact (not_eq_sym Hne).
Qed.

Lemma Chmod_ok p mode w w' : Chmod pr p mode w = (Ok tt, w') →
  fs w' = alter (λ i, mkInode (i_kind i) mode (i_owner i)) (locate (p_cwd pr) p) (fs w) ∧ ran w' = ran w.
Proof. intros Hs%syscall_cases. simpl in Hs. case_match; [|done]. by injection Hs as <-. Qed.

Lemma InstallOpenRC_ok params w w' :
  InstallOpenRC pr params w = (Ok tt, w') →
  (∃ ow, fs w' !! script_path = Some (mkInode (KFile (Text (openrcScriptTemplate params))) 493 ow)) ∧
  outside (λ p, p ≠ script_path) (fs w) (fs w') ∧
  ran w' = ran w ++ [["rc-update"; "add"; "shadowstat"; "default"]; ["rc-service"; "shadowstat"; "start"]]%string.
Proof.
  intros ([] & w1 & E1%wrap_err_ok & ([] & w2 & E2%wrap_err_ok & ([] & w3 & E3%wrap_err_ok & ([] & w4 & E4 & E5)%try_ok)%try_ok)%try_ok)%try_ok.
  apply manager_ok in E4 as [F4 R4]; [|set_solver]. apply manager_ok in E5 as [F5 R5]; [|set_solver].
  apply Chmod_ok in E3 as [F3 R3]. destruct (write_file_ok _ _ _ _ _ _ _ E1 E2) as (m & ow & F2). rewrite locate_script in F2, F3.
  rewrite R5 R4 R3 (WriteAll_ran _ _ _ _ _ E2) (OpenTrunc_ran _ _ _ _ _ E1) -app_assoc. split_and!; [| |done].
  - exists ow. rewrite F5 // ?F4 // ?F3 ?F2 ?lookup_alter_eq ?lookup_insert_eq //; apply script_not_private.
  - intros p Hp Hne. rewrite F5 // F4 // F3 F2 lookup_alter_ne; [exact (not_eq_sym Hne)|].
    rewrite lookup_insert_ne //. exact (not_eq_sym Hne).
Qed.
End installing.

(** ** What an init system reads

    The values a file of [key=value] lines gives to a key. *)
Definition newline : ascii := ascii_of_nat 10.
Definition values (key txt : string) : list string := omap (scan_lit (key +:+ "=")) (split newline txt).

Lemma no_char_app sep s t : no_char sep s → no_char sep t → no_char sep (s +:+ t).
Proof.
  rewrite /no_char. induction s as [|c s IH]; [done|]. rewrite string_app_cons /=.
  intros [-> Hs]%andb_true_iff Ht. by apply IH.
Qed.
Lemma split_lines ls : Forall (no_char newline) ls → split newline (lines ls) = ls ++ [EmptyString].
Proof. induction 1 as [|l ls Hl _ IH]; [done|]. cbn [lines foldr]. change (nl +:+ ?s) with (String newline s). by rewrite split_app // IH. Qed.

Ltac plain_line := repeat apply no_char_app; first [assumption | reflexivity].

(** The unit runs the binary on the data directory, as the account unless root
    was asked for, confined to that directory and to the capture capabilities. *)
Lemma systemd_unit_values p :
  no_char newline (ExecStart p) → no_char newline (DataDir p) → no_char newline (up_User p) → no_char newline (up_Group p) →
  let v key := values key (systemdUnitTemplate p) in
  v "ExecStart"%string = [ExecStart p +:+ " run --data-dir " +:+ DataDir p] ∧
  v "User"%string = (if AsRoot p then [] else [up_User p]) ∧ v "Group"%string = (if AsRoot p then [] else [up_Group p]) ∧
  v "ReadWritePaths"%string = [DataDir p] ∧ v "CapabilityBoundingSet"%string = ["CAP_NET_RAW CAP_NET_ADMIN"%string] ∧
  v "NoNewPrivileges"%string = ["true"%string].
Proof.
  intros He Hd Hu Hg v. rewrite /v /values /systemdUnitTemplate. rewrite split_lines.
  - repeat apply Forall_app_2; [|destruct (AsRoot p)|]; repeat (constructor; [plain_line|]); constructor.
  - by destruct (AsRoot p).
Qed.

(** The script runs the binary on the data directory, and names no user. *)
Lemma openrc_script_values p :
  no_char newline (ExecStart p) → no_char newline (DataDir p) →
  let v key := values key (openrcScriptTemplate p) in
  v "command"%string = [dq +:+ ExecStart p +:+ dq] ∧
  v "command_args"%string = [dq +:+ "run --data-dir " +:+ DataDir p +:+ dq] ∧
  v "command_background"%string = ["true"%string] ∧ v "command_user"%string = [].
Proof.
  intros He Hd v. rewrite /v /values /openrcScriptTemplate split_lines; [|done].
  repeat (constructor; [plain_line|]); constructor.
Qed.

(** ** Ownership of the data directory *)
Section owning.
Context {o : Order} (pr : Process).

Definition owned (ow : Z * Z) (i : Inode) : Inode := mkInode (i_kind i) (i_mode i) ow.

Lemma chown_cases p ow w r w' : chown p ow w = (r, w') →
  ran w' = ran w ∧ match r with Ok _ => fs w' = alter (owned ow) p (fs w) | Err _ => fs w' = fs w end.
Proof.
  intros Hs%syscall_cases. destruct r as [[]|e].
  - simpl in Hs. case_match; [|done]. by injection Hs as <-.
  - by destruct Hs as [[_ [n ->]]|[_ ->]].
Qed.

(** System calls do not touch the account database. *)
Lemma syscall_accounts {A} partial (act : World → Result OSError (A * World)) w r w' :
  (∀ n w, accounts (partial n w) = accounts w ∧ groups (partial n w) = groups w) →
  (∀ w a w', act w = Ok (a, w') → accounts w' = accounts w ∧ groups w' = groups w) →
  syscall partial act w = (r, w') → accounts w' = accounts w ∧ groups w' = groups w.
Proof.
  intros Hp Ha Hs%syscall_cases. destruct r as [a|e]; [by apply Ha in Hs|].
  destruct Hs as [[_ [n ->]]|[_ ->]]; [by destruct (Hp n (with_faults (tail (faults w)) w)) as [-> ->]|done].
Qed.
Lemma chown_each_accounts ps ow : ∀ w r w', chown_each ps ow w = (r, w') → accounts w' = accounts w ∧ groups w' = groups w.
Proof.
  induction ps as [|q ps IH]; intros w r w'; [by intros [= _ <-]|]. cbn [chown_each]. rewrite {1}/bind.
  destruct (chown q ow w) as [r1 w1] eqn:E1.
  apply syscall_accounts in E1 as [<- <-]; [|done|intros w2 a w3; case_match; [|done]; by intros [= _ <-]].
  destruct r1; [apply IH|by intros [= _ <-]].
Qed.

Lemma chown_each_ok ps ow : ∀ w w', chown_each ps ow w = (Ok tt, w') →
  ∀ p, fs w' !! p = if decide (p ∈ ps) then owned ow <$> fs w !! p else fs w !! p.
Proof.
  induction ps as [|q ps IH]; intros w w'.
  { intros [= <-] p. case_decide as Hp; [by apply not_elem_of_nil in Hp|done]. }
  cbn [chown_each]. intros ([] & w1 & [_ E1]%chown_cases & E2)%try_ok p. rewrite (IH _ _ E2 p) E1.
  destruct (decide (p = q)) as [->|Hne].
  - rewrite lookup_alter_eq. do 2 case_decide; try done; by destruct (fs w !! q); set_solver.
  - rewrite lookup_alter_ne; [exact (not_eq_sym Hne)|]. do 2 case_decide; set_solver.
Qed.

(** The walk reaches every entry of the directory. *)
Lemma WalkChown_ok dir ow w w' : WalkChown pr dir ow w = (Ok tt, w') →
  ∀ p, fs w' !! p = if below (locate (p_cwd pr) dir) p then owned ow <$> fs w !! p else fs w !! p.
Proof.
  rewrite /WalkChown /bind /get. destruct (fs w !! _) as [i|] eqn:Ei; [|done]. intros Hc p.
  rewrite (chown_each_ok _ _ _ _ Hc p). destruct (below _ p) eqn:Eb.
  - case_decide as Hin; [done|]. destruct (fs w !! p) as [j|] eqn:Ej; [|done]. destruct Hin.
    destruct (decide (p = locate (p_cwd pr) dir)) as [->|Hne]; [by left|right].
    apply (elem_of_ord o), list_elem_of_filter. split; [by rewrite Eb|].
    apply list_elem_of_fmap. exists (p, j). split; [done|]. by apply elem_of_map_to_list.
  - case_decide as Hin; [exfalso|done]. rewrite elem_of_cons (elem_of_ord o) list_elem_of_filter in Hin.
    destruct Hin as [->|[[Hb _] _]]; [|by rewrite Eb in Hb]. by rewrite -{2}(app_nil_r (locate _ _)) below_app in Eb.
Qed.

Lemma ChownDataDir_ok dir u w w' : ChownDataDir pr dir u w = (Ok tt, w') →
  ∃ uid gid, atoi (Uid u) = Some uid ∧ atoi (Gid u) = Some gid ∧
    accounts w' = accounts w ∧ groups w' = groups w ∧
    ∀ p, fs w' !! p = if below (locate (p_cwd pr) dir) p then owned (uid, gid) <$> fs w !! p else fs w !! p.
Proof.
  rewrite /ChownDataDir. destruct (atoi (Uid u)) as [uid|]; [|done]. destruct (atoi (Gid u)) as [gid|]; [|done].
  intros Hw%wrap_err_ok. exists uid, gid.
  assert (accounts w' = accounts w ∧ groups w' = groups w) as [Ha Hg].
  { revert Hw. rewrite /WalkChown /bind /get. destruct (fs w !! _); [|done]. apply chown_each_accounts. }
  split_and!; [done..|]. by apply WalkChown_ok.
Qed.

(** Looking up an account or a group. *)
Lemma Lookup_ok name w u w' : Lookup name w = (Ok u, w') →
  accounts w !! name = Some u ∧ fs w' = fs w ∧ accounts w' = accounts w ∧ groups w' = groups w.
Proof. intros Hs%syscall_cases. simpl in Hs. destruct (accounts w !! name); [|done]. by injection Hs as -> <-. Qed.
Lemma LookupGroupId_ok gid w g w' : LookupGroupId gid w = (Ok g, w') →
  groups w !! gid = Some g ∧ fs w' = fs w ∧ accounts w' = accounts w ∧ groups w' = groups w.
Proof. intros Hs%syscall_cases. simpl in Hs. destruct (groups w !! gid); [|done]. by injection Hs as -> <-. Qed.

Lemma EnsureSystemUser_ok `{Programs} name w u w' : EnsureSystemUser name w = (Ok u, w') →
  accounts w' !! name = Some u ∧ outside (λ _, True) (fs w) (fs w').
Proof.
  rewrite /EnsureSystemUser {1}/bind. destruct (Lookup name w) as [[a|e] w1] eqn:E1.
  - intros [= <- <-]. apply Lookup_ok in E1 as (? & Hf & Ha & _). rewrite Ha. split; [done|]. by intros p _ _; rewrite Hf.
  - assert (fs w1 = fs w) as F1 by (by apply syscall_cases in E1 as [[_ [n ->]]|[_ ->]]).
    intros ([] & w2 & E2%wrap_err_ok & E3%wrap_err_ok)%try_ok. apply Lookup_ok in E3 as (? & Hf & Ha & _).
    apply manager_run in E2 as [F2 _]; [|set_solver]. rewrite Ha. split; [done|]. intros p Hp _. by rewrite Hf F2 // F1.
Qed.
End owning.

(** ** Removal *)
Section removing.
Context `{Programs} (pr : Process).

Lemma UninstallSystemd_ok w w' : UninstallSystemd pr w = (Ok tt, w') →
  fs w' !! unit_path = None ∧ outside (λ p, p ≠ unit_path) (fs w) (fs w').
Proof.
  rewrite /UninstallSystemd {1}/bind. destruct (Stat _ _ w) as [st w1] eqn:E1. apply Stat_cases in E1 as [F1 _].
  destruct (is_not_exist st); [done|].
  intros ([] & w2 & E2 & ([] & w3 & E3%wrap_err_ok & E4)%try_ok)%try_ok.
  apply manager_ok in E2 as [F2 _]; [|set_solver]. apply manager_ok in E4 as [F4 _]; [|set_solver].
  apply Remove_ok in E3. rewrite locate_unit in E3. split.
  - rewrite F4 //; [apply unit_not_private|]. by rewrite E3 lookup_delete_eq.
  - intros p Hp Hne. rewrite F4 // E3 lookup_delete_ne; [exact (not_eq_sym Hne)|]. by rewrite F2 // F1.
Qed.

Lemma UninstallOpenRC_ok w w' : UninstallOpenRC pr w = (Ok tt, w') →
  fs w' !! script_path = None ∧ outside (λ p, p ≠ script_path) (fs w) (fs w').
Proof.
  rewrite /UninstallOpenRC {1}/bind. destruct (Stat _ _ w) as [st w1] eqn:E1. apply Stat_cases in E1 as [F1 _].
  destruct (is_not_exist st); [done|]. intros Hrun.
  destruct (Exec ["rc-service"; "shadowstat"; "stop"]%string w1) as [r2 w2] eqn:E2.
  rewrite /run_program (bind_run _ _ _ _ _ (wrap_err_run _ _ _ _ _ E2)) in Hrun.
  apply manager_run in E2 as [F2 _]; [|set_solver].
  apply try_ok in Hrun as ([] & w3 & E3%wrap_err_ok & E4%wrap_err_ok).
  apply manager_run in E3 as [F3 _]; [|set_solver]. apply Remove_ok in E4. rewrite locate_script in E4. split.
  - by rewrite E4 lookup_delete_eq.
  - intros p Hp Hne. rewrite E4 lookup_delete_ne; [exact (not_eq_sym Hne)|]. by rewrite F3 // F2 // F1.
Qed.
End removing.

(** ** Programs to run the model with *)
Definition copy_tree (a b : path) (f : gmap path Inode) : gmap path Inode :=
  rebased a b f ∪ f.

Lemma copy_tree_copied a b f r i : f !! (a ++ r) = Some i → copy_tree a b f !! (b ++ r) = Some i.
Proof. intros Hi. by apply lookup_union_Some_l, rebased_lookup. Qed.
Lemma copy_tree_frame a b f p : below b p = false → copy_tree a b f !! p = f !! p.
Proof. intros Hb. by rewrite /copy_tree lookup_union rebased_frame // left_id_L. Qed.

Lemma locate_rooted cwd p : rooted p = true → locate cwd p = locate [] p.
Proof. rewrite /locate. by intros ->. Qed.
Lemma locate_dot cwd p : p ≠ EmptyString → locate cwd (p +:+ "/.") = locate cwd p.
Proof.
  intros Hp. rewrite /locate. assert (rooted (p +:+ "/.") = rooted p) as -> by (by destruct p).
  destruct (split_app_gen slash p ".") as (ws & w & E1 & E2). change "/."%string with (String slash "."). rewrite E2 E1 !foldl_app /=. done.
Qed.

Definition add_account (name : string) (w : World) : World :=
  mkWorld (fs w) (faults w) (<[name := mkAccount "999" "999" name "/nonexistent"]> (accounts w))
    (<["999"%string := name]> (groups w)) (ran w).

(** The started service writes its database's log. *)
Definition daemon_files : path := ["var"; "lib"; "shadowstat"; "shadowstat.db-wal"]%string.
Definition start_daemon (w : World) : World :=
  with_fs (<[daemon_files := mkInode (KFile (Text "wal")) 420 (999, 999)]> (fs w)) w.

(** [cp -a] copies, [useradd] adds the account, [systemctl enable --now] starts
    the service, the rest succeeds at once. *)
Definition toy_prog (cmd : list string) (w : World) : bool * World :=
  match cmd with
  | [p; _; src; dst] =>
      if bool_decide (p = "cp"%string) then (true, with_fs (copy_tree (locate [] src) (locate [] dst) (fs w)) w)
      else (true, if bool_decide (p = "systemctl"%string) then start_daemon w else w)
  | p :: args => if bool_decide (p = "useradd"%string) then (true, add_account (default EmptyString (last args)) w) else (true, w)
  | [] => (false, w)
  end.

Lemma toy_frame name args w p : name ≠ "cp"%string → p ≠ daemon_files → fs (toy_prog (name :: args) w).2 !! p = fs w !! p.
Proof.
  intros Hn Hp. rewrite /toy_prog. rewrite (bool_decide_eq_false_2 (name = "cp"%string)) //.
  destruct args as [|? [|? [|? []]]]; try (by case_bool_decide).
  case_bool_decide; [|done]. rewrite /= lookup_insert_ne //. exact (not_eq_sym Hp).
Qed.

#[local] Obligation Tactic := idtac.
Program Definition toy_programs : Programs := {| prog := toy_prog; private := λ p, bool_decide (p = daemon_files) |}.
Next Obligation.
  intros cwd src dst w w' Hs Hd [= <-] r i Hi _. exists (i_mode i), (i_owner i). simpl.
  rewrite locate_dot; [by intros ->|]. rewrite (locate_rooted cwd dst) //. rewrite (locate_rooted cwd src) // in Hi.
  rewrite (copy_tree_copied _ _ _ _ _ Hi). by destruct i.
Qed.
Next Obligation.
  intros cwd src dst w p Hd Hb. simpl. rewrite (locate_rooted cwd dst) // in Hb. by apply copy_tree_frame.
Qed.
Next Obligation. intros name args w p Hn Hp%bool_decide_eq_false. apply toy_frame; [|done]. intros ->. set_solver. Qed.
Next Obligation. done. Qed.
Next Obligation. done. Qed.

Module ServiceProperties.

(** C8: Moving the data directory loses nothing: whichever calls fail and
    however far a failing one got, every entry of the source directory is
    still in its place or has its contents at the target; when the move
    succeeds all of them are at the target and the source is gone; and no
    other file changes. *)
Theorem migrate_keeps_data `{Programs} {o : Order} pr source target w res w' :
  let a := locate (p_cwd pr) source in
  let b := locate (p_cwd pr) target in
  rooted source = true → rooted target = true → below a b = false → below b a = false →
  MigrateDataDir pr source target w = (res, w') →
  (∀ r i, r ≠ [] → fs w !! (a ++ r) = Some i →
     fs w' !! (a ++ r) = Some i ∨ ∃ m ow, fs w' !! (b ++ r) = Some (mkInode (i_kind i) m ow)) ∧
  (res = Ok tt →
     (∀ r i, r ≠ [] → fs w !! (a ++ r) = Some i → ∃ m ow, fs w' !! (b ++ r) = Some (mkInode (i_kind i) m ow)) ∧
     ∀ q, below a q = true → fs w' !! q = None) ∧
  ∀ p i, below a p = false → below b p = false → fs w !! p = Some i → fs w' !! p = Some i.
Proof.
  intros a b Hs Ht Hab Hba E. destruct (migrate_spec pr source target w res w' Hs Ht Hab Hba E) as [Hk Hm].
  split_and!; [done..|]. exact (migrate_frame pr source target w res w' Ht E).
Qed.

Definition admin_process : Process :=
  mkProcess ["root"]%string (0, 0) 100 ["shadowstat"; "install-service"]%string
    (λ v, if bool_decide (v = "HOME"%string) then "/root"%string else EmptyString).
Definition configured : Tables := set_setting KeySetupComplete "1" emptyTables.
Definition dir_inode : Inode := mkInode KDir 493 (0, 0).
Definition dev_world (fl : list (option nat)) : World :=
  mkWorld (list_to_map [
    (["etc"], dir_inode); (["etc"; "systemd"], dir_inode); (["etc"; "systemd"; "system"], dir_inode);
    (["run"], dir_inode); (["run"; "systemd"], dir_inode); (["run"; "systemd"; "system"], dir_inode);
    (["var"], dir_inode); (["var"; "lib"], dir_inode);
    (["root"], dir_inode); (["root"; ".local"], dir_inode); (["root"; ".local"; "share"], dir_inode);
    (["root"; ".local"; "share"; "shadowstat"], dir_inode);
    (["root"; ".local"; "share"; "shadowstat"; "shadowstat.db"], mkInode (KFile (Database configured)) 420 (0, 0));
    (["root"; ".local"; "share"; "shadowstat"; "cert.pem"], mkInode (KFile (Text "cert")) 420 (0, 0))]%string) fl ∅ ∅ [].

(** Renaming fails, and removing the old copy stops after one entry. *)
Lemma migrate_keeps_data_witness :
  let run := MigrateDataDir (H := toy_programs) (o := ord_id) admin_process "/root/.local/share/shadowstat" SystemDataDir
    (dev_world [Some 0%nat; None; None; Some 1%nat]) in
  run.1 = Err (ErrOS EFAIL) ∧
  (fs run.2 !! ["root"; ".local"; "share"; "shadowstat"; "cert.pem"]%string = Some (mkInode (KFile (Text "cert")) 420 (0, 0)) ∨
   ∃ m ow, fs run.2 !! ["var"; "lib"; "shadowstat"; "cert.pem"]%string = Some (mkInode (KFile (Text "cert")) m ow)).
Proof.
  intros run. split; [vm_compute; reflexivity|].
  destruct (migrate_keeps_data (H := toy_programs) (o := ord_id) admin_process "/root/.local/share/shadowstat" SystemDataDir
    (dev_world [Some 0%nat; None; None; Some 1%nat]) run.1 run.2) as [Hk _];
    [reflexivity..|apply surjective_pairing|].
  apply (Hk ["cert.pem"%string] (mkInode (KFile (Text "cert")) 420 (0, 0))); [done|reflexivity].
Defined.

End ServiceProperties.
