(* ===== verification/Commands.v ===== *)
(** * The commands ([cmd/service.go], [cmd/root.go])

    Dispatch of the command line, and the commands that install the program as
    a service, remove it and show its state.  [/proc] is a list of entries.

    The theorems: nothing is asked of the service manager before the guards have
    passed; what a successful installation leaves; removal takes back what was
    installed and touches no data; the search for a running instance agrees with how
    command lines are dispatched. *)

From stdpp Require Import prelude strings gmap list.
From Stdlib Require Import ZArith Lia Ascii.
From Corelib Require Import ssreflect.
From S2P Require Import Prelude GoStrings Store StoreProofs Config System Tls Run Service.

Open Scope general_if_scope.
Open Scope Z_scope.

(** ** [cmd/service.go] *)

(** One entry of [/proc]: its name and what its [comm] and [cmdline] hold. *)
Record ProcEntry := mkProcEntry { pe_name : string; pe_comm : option string; pe_cmdline : option string }.

Definition nul : ascii := ascii_of_nat 0.

(** The arguments after the program's name decide whether it is [run]. *)
Definition runs_pipeline (args : list string) : bool :=
  match args with
  | [] | [_] => true
  | _ :: a :: _ => bool_decide (a = "run"%string) || has_prefix "-" a
  end.

Fixpoint find_instance (pid : Z) (entries : list ProcEntry) : option Z :=
  match entries with
  | [] => None
  | e :: es =>
      match atoi (pe_name e) with
      | None => find_instance pid es
      | Some candidate =>
          if candidate =? pid then find_instance pid es else
          match pe_comm e with
          | None => find_instance pid es
          | Some comm =>
              if negb (bool_decide (trim_space comm = "shadowstat"%string)) then find_instance pid es else
              match pe_cmdline e with
              | None => find_instance pid es
              | Some cmdline =>
                  if runs_pipeline (split nul (trim_right (λ c, bool_decide (c = nul)) cmdline))
                  then Some candidate else find_instance pid es
              end
          end
      end
  end.

(** [procs]: the entries of [/proc], if it can be read. *)
Definition findOtherRunningInstance (pr : Process) (procs : option (list ProcEntry)) : option Z :=
  match procs with None => None | Some es => find_instance (p_pid pr) es end.

Record InstallFlags := mkInstallFlags { fl_user : string; fl_root : bool; fl_dataDir : string }.

Section commands.
Context `{Programs} {o : Order} (pr : Process).

Inductive CmdError := NoDatabase | ErrService (e : ServiceError) | SetupIncomplete | ErrDatabase.

Definition resolveServiceDataDir (override : string) : M World (Result CmdError string) :=
  if negb (bool_decide (override = EmptyString)) then ret (Ok override) else
  let target := SystemDataDir in
  let! st := Stat pr (DBPath target) in
  if is_ok st then ret (Ok target) else
  let! src := FindDevDataDir pr in
  match src with
  | None => ret (Err NoDatabase)
  | Some sourceDir =>
      let? _ := wrap_err ErrService (MigrateDataDir pr sourceDir target) in
      ret (Ok target)
  end.

(** [dbfaults]: which statements of the check fail. *)
Definition verifySetupComplete (dbfaults : list bool) (dataDir : string) : M World (Result CmdError unit) :=
  let! r := Open pr (DBPath dataDir) in
  ret (match r with
       | Err _ => Err ErrDatabase
       | Ok t =>
           match (IsSetupComplete (mkStore t dbfaults)).1 with
           | Err _ => Err ErrDatabase
           | Ok false => Err SetupIncomplete
           | Ok true => Ok tt
           end
       end).

(** The account the service will run as, and its data directory's owner. *)
Definition service_params (flags : InstallFlags) (exe dataDir : string) : M World (Result ServiceError UnitParams) :=
  if fl_root flags then
    let? _ := wrap_err ErrOS (Chown pr dataDir 0 0) in
    ret (Ok (mkUnitParams exe dataDir EmptyString EmptyString true))
  else
    let? u := EnsureSystemUser (fl_user flags) in
    let? group := wrap_err ErrOS (LookupGroupId (Gid u)) in
    let? _ := ChownDataDir pr dataDir u in
    ret (Ok (mkUnitParams exe dataDir (Username u) group false)).

Definition install (initSys : InitSystem) (params : UnitParams) : M World (Result ServiceError unit) :=
  match initSys with
  | InitSystemd => InstallSystemd pr params
  | InitOpenRC => InstallOpenRC pr params
  | InitUnknown => ret (Ok tt)
  end.

(** [flags]: what was given, if the flags parse; [exe]: the result of
    [ResolveExecutable]. *)
Definition installServiceCmd (flags : option InstallFlags) (procs : option (list ProcEntry))
    (exe : Result ServiceError string) (dbfaults : list bool) : M World Z :=
  match flags with
  | None => ret 2
  | Some flags =>
      if negb (RequireRoot pr) then ret 1 else
      let! initSys := DetectInitSystem pr in
      match initSys with
      | InitUnknown => ret 1
      | _ =>
          match findOtherRunningInstance pr procs with
          | Some _ => ret 1
          | None =>
              let! d := resolveServiceDataDir (fl_dataDir flags) in
              match d with
              | Err _ => ret 1
              | Ok dataDir =>
                  let! v := verifySetupComplete dbfaults dataDir in
                  match v with
                  | Err _ => ret 1
                  | Ok _ =>
                      match exe with
                      | Err _ => ret 1
                      | Ok exe =>
                          let! p := service_params flags exe dataDir in
                          match p with
                          | Err _ => ret 1
                          | Ok params => let! r := install initSys params in ret (if is_ok r then 0 else 1)
                          end
                      end
                  end
              end
          end
      end
  end.

Definition uninstallServiceCmd : M World Z :=
  if negb (RequireRoot pr) then ret 1 else
  let! s := IsSystemdInstalled pr in
  if s : bool then let! r := UninstallSystemd pr in ret (if is_ok r then 0 else 1) else
  let! c := IsOpenRCInstalled pr in
  if c : bool then let! r := UninstallOpenRC pr in ret (if is_ok r then 0 else 1) else ret 1.

Definition statusCmd : M World Z :=
  let! s := IsSystemdInstalled pr in
  if s : bool then StatusSystemd pr ;;! ret 0 else
  let! c := IsOpenRCInstalled pr in
  if c : bool then StatusOpenRC pr ;;! ret 0 else ret 0.
End commands.

(** ** [cmd/root.go] *)
Definition isFlag (s : string) : bool :=
  match s with EmptyString => false | String c _ => bool_decide (c = "-"%char) end.

Inductive Subcommand :=
  | CmdRun (args : list string) | CmdVersion (args : list string) | CmdInstall (args : list string)
  | CmdUninstall (args : list string) | CmdStatus (args : list string) | CmdUnknown (sub : string).

(** Which command a command line runs; an unknown one exits with 2. *)
Definition Execute (argv : list string) : Subcommand :=
  let args := tail argv in
  let '(sub, args) := match args with
                      | a :: rest => if isFlag a then ("run"%string, args) else (a, rest)
                      | [] => ("run"%string, [])
                      end in
  if bool_decide (sub = "run"%string) then CmdRun args
  else if bool_decide (sub = "version"%string) then CmdVersion args
  else if bool_decide (sub = "install-service"%string) then CmdInstall args
  else if bool_decide (sub = "uninstall-service"%string) then CmdUninstall args
  else if bool_decide (sub = "status"%string) then CmdStatus args
  else CmdUnknown sub.

(** ** Commands of the service manager *)
Definition is_manager (cmd : list string) : bool :=
  match cmd with name :: _ => bool_decide (name ∈ managers) | [] => false end.
Definition manager_calls (w : World) : list (list string) := filter is_manager (ran w).

(** System calls run no program. *)
Lemma preserves_syscall {A} (I : World → Prop) partial (act : World → Result OSError (A * World)) :
  (∀ l w, I w → I (with_faults l w)) → (∀ n w, I w → I (partial n w)) → (∀ w a w', act w = Ok (a, w') → I w → I w') →
  Preserves I (syscall partial act).
Proof.
  intros Hf Hp Ha w Hw. rewrite /syscall. destruct (default None (head (faults w))) as [n|]; [by apply Hp, Hf|].
  destruct (act _) as [[a w']|e] eqn:E; [|by apply Hf]. exact (Ha _ _ _ E (Hf _ _ Hw)).
Qed.

Section calls_kept.
Context `{Programs} {o : Order} (pr : Process) (X : list (list string)).
Abbreviation I := (λ w, manager_calls w = X).

Ltac by_syscall :=
  apply preserves_syscall; [done|done|];
  intros w a w'; repeat (case_match; try done); intros [= <- <-]; done.

#[local] Instance kept_Stat p : Preserves I (Stat pr p).
Proof. by_syscall. Qed.
#[local] Instance kept_mkdir p mode : Preserves I (mkdir pr p mode).
Proof. by_syscall. Qed.
#[local] Instance kept_Open p : Preserves I (Open pr p).
Proof. by_syscall. Qed.
#[local] Instance kept_Rename p q : Preserves I (Rename pr p q).
Proof. by_syscall. Qed.
#[local] Instance kept_RemoveAll p : Preserves I (RemoveAll pr p).
Proof. by_syscall. Qed.
#[local] Instance kept_Lookup name : Preserves I (Lookup name).
Proof. by_syscall. Qed.

#[local] Instance kept_mkdirs rest : ∀ base mode, Preserves I (mkdirs pr base rest mode).
Proof. induction rest as [|c rest IH]; intros base mode; cbn [mkdirs]; preserves_tac. Qed.
#[local] Instance kept_MkdirAll p mode : Preserves I (MkdirAll pr p mode).
Proof. apply kept_mkdirs. Qed.
#[local] Instance kept_first dirs : Preserves I (first_with_db pr dirs).
Proof. induction dirs as [|d dirs IH]; cbn [first_with_db]; preserves_tac. Qed.

Lemma kept_Exec cmd : is_manager cmd = false → Preserves I (Exec cmd).
Proof.
  intros Hc w Hw. destruct (Exec cmd w) as [r w'] eqn:E. apply Exec_cases in E as [[_ ->]|(_ & _ & _ & _ & Hr)]; [done|].
  rewrite /manager_calls /= Hr filter_app filter_cons Hc /= filter_nil app_nil_r. exact Hw.
Qed.

#[local] Instance kept_wrap {A E E'} (f : E → E') (m : M World (Result E A)) : Preserves I m → Preserves I (wrap_err f m).
Proof. intros Hm. rewrite /wrap_err. apply _. Qed.

Lemma kept_resolve override : Preserves I (resolveServiceDataDir pr override).
Proof.
  assert (∀ s t, Preserves I (Exec ["cp"; "-a"; s; t]%string)) by (intros s t; by apply kept_Exec).
  rewrite /resolveServiceDataDir /FindDevDataDir /dev_candidates /MigrateDataDir. preserves_tac.
Qed.
Lemma kept_init : Preserves I (DetectInitSystem pr).
Proof. rewrite /DetectInitSystem. preserves_tac. Qed.
Lemma kept_verify dbf dir : Preserves I (verifySetupComplete pr dbf dir).
Proof. rewrite /verifySetupComplete. apply _. Qed.
End calls_kept.

(** ** The install command *)
Section install_lemmas.
Context `{Programs} {o : Order} (pr : Process).

Lemma verify_ok dbf dir w w' : verifySetupComplete pr dbf dir w = (Ok tt, w') →
  ∃ t, Open pr (DBPath dir) w = (Ok t, w') ∧ setup_complete t = true.
Proof.
  rewrite /verifySetupComplete /bind /ret. destruct (Open _ _ w) as [[t|] w1]; [|done].
  destruct (IsSetupComplete _) as [r s] eqn:E. simpl. destruct r as [[]|]; [|done..]. intros [= <-]. exists t. split; [done|].
  apply try_ok in E as (v & s2 & E1 & E2). apply query_cases in E1 as [_ [R1|R1]]; [|done].
  injection R1 as ->. by injection E2 as E2 _.
Qed.

(** Past its guards the command goes on to the account and the unit. *)
Definition past_guards (fl : InstallFlags) (procs : option (list ProcEntry)) (init : InitSystem) (dataDir : string) (w w2 : World) : Prop :=
  Geteuid pr = 0 ∧ findOtherRunningInstance pr procs = None ∧ manager_calls w2 = manager_calls w ∧
  dataDir = (if bool_decide (fl_dataDir fl = EmptyString) then SystemDataDir else fl_dataDir fl) ∧
  ∃ w0 w1 t, DetectInitSystem pr w = (init, w0) ∧ init ≠ InitUnknown ∧
    resolveServiceDataDir pr (fl_dataDir fl) w0 = (Ok dataDir, w1) ∧
    Open pr (DBPath dataDir) w1 = (Ok t, w2) ∧ setup_complete t = true.

Lemma resolve_service override w dir w' : resolveServiceDataDir pr override w = (Ok dir, w') →
  dir = if bool_decide (override = EmptyString) then SystemDataDir else override.
Proof.
  rewrite /resolveServiceDataDir. case_bool_decide as Ho; simpl; [|by intros [= <- _]].
  intros Hr. rewrite /bind in Hr. destruct (Stat _ _ w) as [st w1].
  destruct (is_ok st); [by injection Hr as <- _|]. destruct (FindDevDataDir pr w1) as [[src|] w2]; [|done].
  destruct (wrap_err _ _ w2) as [[] w3]; [|done]. by injection Hr as <- _.
Qed.

Lemma install_cases flags procs exe dbf w code w' :
  installServiceCmd pr flags procs exe dbf w = (code, w') →
  (code ≠ 0 ∧ manager_calls w' = manager_calls w) ∨
  ∃ fl init dataDir ex w2 p w3, flags = Some fl ∧ init ≠ InitUnknown ∧ exe = Ok ex ∧ past_guards fl procs init dataDir w w2 ∧
    service_params pr fl ex dataDir w2 = (p, w3) ∧
    match p with
    | Err _ => code = 1 ∧ w' = w3
    | Ok params => ∃ r, install pr init params w3 = (r, w') ∧ code = if is_ok r then 0 else 1
    end.
Proof.
  rewrite /installServiceCmd. destruct flags as [fl|]; [|intros [= <- <-]; by left].
  destruct (RequireRoot pr) eqn:Er; simpl; [|intros [= <- <-]; by left]. apply Z.eqb_eq in Er.
  destruct (DetectInitSystem pr w) as [init wa] eqn:Ea. rewrite (bind_run _ _ _ _ _ Ea).
  pose proof (kept_init pr (manager_calls w) w eq_refl) as Ka. rewrite Ea /= in Ka.
  assert (init = InitUnknown ∨ init ≠ InitUnknown) as [->|Hi] by (destruct init; auto); [intros [= <- <-]; by left|].
  intros Hrun. assert (∀ X Y : M World Z, match init with InitUnknown => X | _ => Y end = Y) as Hm by (by destruct init).
  rewrite Hm in Hrun. clear Hm. destruct (findOtherRunningInstance pr procs) eqn:Ef; [injection Hrun as <- <-; by left|].
  destruct (resolveServiceDataDir pr (fl_dataDir fl) wa) as [d wb] eqn:Eb. rewrite (bind_run _ _ _ _ _ Eb) in Hrun.
  pose proof (kept_resolve pr _ (fl_dataDir fl) wa Ka) as Kb. rewrite Eb /= in Kb.
  destruct d as [dataDir|]; [|injection Hrun as <- <-; by left].
  destruct (verifySetupComplete pr dbf dataDir wb) as [v w2] eqn:Ev. rewrite (bind_run _ _ _ _ _ Ev) in Hrun.
  pose proof (kept_verify pr _ dbf dataDir wb Kb) as Kv. rewrite Ev /= in Kv.
  destruct v as [[]|]; [|injection Hrun as <- <-; by left]. destruct exe as [ex|]; [|injection Hrun as <- <-; by left].
  apply verify_ok in Ev as (t & Ho & Ht). pose proof (resolve_service _ _ _ _ Eb) as Hd.
  destruct (service_params pr fl ex dataDir w2) as [p w3] eqn:Ep. rewrite (bind_run _ _ _ _ _ Ep) in Hrun.
  right. exists fl, init, dataDir, ex, w2, p, w3. split_and!; [done..| |done|]; [split_and!; try done; by exists wa, wb, t|].
  destruct p as [params|]; [|by injection Hrun as <- <-]. rewrite /bind /ret in Hrun.
  destruct (install pr init params w3) as [r w4]. injection Hrun as <- <-. eauto.
Qed.

(** The owner of the data directory and the names the unit gets. *)
Definition prepared (fl : InstallFlags) (dir : string) (p : UnitParams) (w : World) : Prop :=
  if fl_root fl then
    up_User p = EmptyString ∧ up_Group p = EmptyString ∧ ∃ i, fs w !! locate (p_cwd pr) dir = Some i ∧ i_owner i = (0, 0)
  else
    ∃ u uid gid, accounts w !! fl_user fl = Some u ∧ groups w !! Gid u = Some (up_Group p) ∧ up_User p = Username u ∧
      atoi (Uid u) = Some uid ∧ atoi (Gid u) = Some gid ∧
      ∀ q i, below (locate (p_cwd pr) dir) q = true → fs w !! q = Some i → i_owner i = (uid, gid).

Lemma below_refl p : below p p = true.
Proof. by rewrite -{2}(app_nil_r p) below_app. Qed.

Lemma params_ok fl ex dir w p w' : service_params pr fl ex dir w = (Ok p, w') →
  ExecStart p = ex ∧ DataDir p = dir ∧ AsRoot p = fl_root fl ∧ prepared fl dir p w' ∧
  outside (λ q, below (locate (p_cwd pr) dir) q = false) (fs w) (fs w').
Proof.
  rewrite /service_params /prepared. destruct (fl_root fl).
  { intros ([] & w1 & E1%wrap_err_ok & E)%try_ok. injection E as <- <-. apply syscall_cases in E1. simpl in E1.
    destruct (fs w !! locate (p_cwd pr) dir) as [i|] eqn:Ei; [|done]. injection E1 as <-. simpl. split_and!; try done.
    - by exists (mkInode (i_kind i) (i_mode i) (0, 0)); rewrite /set_owner lookup_alter_eq Ei.
    - intros q _ Hq. rewrite /set_owner lookup_alter_ne //. intros <-. by rewrite below_refl in Hq. }
  intros (u & w1 & E1 & (g & w2 & E2%wrap_err_ok & ([] & w3 & E3 & E4)%try_ok)%try_ok)%try_ok. injection E4 as <- <-.
  apply EnsureSystemUser_ok in E1 as [Hu F1]. apply LookupGroupId_ok in E2 as (Hg & F2 & A2 & G2).
  apply ChownDataDir_ok in E3 as (uid & gid & Hi & Hgi & A3 & G3 & Hf). split_and!; [done..| |].
  - exists u, uid, gid. rewrite A3 A2 G3 G2. split_and!; [done..|].
    intros q i Hq. rewrite Hf Hq. by intros (j & _ & ->)%fmap_Some.
  - intros q Hp Hq. by rewrite Hf Hq F2 F1.
Qed.

(** The file an init system reads, its text, and the commands that start the
    service. *)
Definition service_file (init : InitSystem) : path :=
  match init with InitOpenRC => script_path | _ => unit_path end.
Definition service_text (init : InitSystem) (params : UnitParams) : string :=
  match init with InitOpenRC => openrcScriptTemplate params | _ => systemdUnitTemplate params end.
Definition start_commands (init : InitSystem) : list (list string) :=
  match init with
  | InitOpenRC => [["rc-update"; "add"; "shadowstat"; "default"]; ["rc-service"; "shadowstat"; "start"]]
  | _ => [["systemctl"; "daemon-reload"]; ["systemctl"; "enable"; "--now"; "shadowstat.service"]]
  end%string.

Lemma install_ok init params w w' : init ≠ InitUnknown →
  install pr init params w = (Ok tt, w') →
  text_at (fs w') (service_file init) = Some (service_text init params) ∧
  outside (λ p, p ≠ service_file init) (fs w) (fs w') ∧ ran w' = ran w ++ start_commands init.
Proof.
  intros Hi. destruct init; [done| |]; simpl.
  - intros (Ht & Hf & Hr)%InstallSystemd_ok. by rewrite Hr.
  - intros ((ow & Ht) & Hf & Hr)%InstallOpenRC_ok. by rewrite /text_at Ht Hr.
Qed.

(** ** What happens before the service manager is called *)
Section looking.
Context (X : gmap path Inode).
Abbreviation I := (λ w, fs w = X).
#[local] Instance same_Stat p : Preserves I (Stat pr p).
Proof. apply preserves_syscall; [done|done|]. intros w a w'. repeat (case_match; try done); by intros [= <- <-]. Qed.
#[local] Instance same_Lookup name : Preserves I (Lookup name).
Proof. apply preserves_syscall; [done|done|]. intros w a w'. repeat (case_match; try done); by intros [= <- <-]. Qed.
#[local] Instance same_first dirs : Preserves I (first_with_db pr dirs).
Proof. induction dirs as [|d dirs IH]; cbn [first_with_db]; preserves_tac. Qed.
Lemma same_FindDevDataDir : Preserves I (FindDevDataDir pr).
Proof. rewrite /FindDevDataDir /dev_candidates. preserves_tac. Qed.
Lemma same_DetectInitSystem : Preserves I (DetectInitSystem pr).
Proof. rewrite /DetectInitSystem. preserves_tac. Qed.
End looking.

(** The development directory that is moved, if one is. *)
Definition move_source (override : string) (f : gmap path Inode) (src : option string) : Prop :=
  ∀ d, src = Some d → override = EmptyString ∧ ∃ v v', fs v = f ∧ FindDevDataDir pr v = (Some d, v').

(** Entries outside the directories [ds] stay. *)
Definition stays (ds : list string) (f f' : gmap path Inode) : Prop := ∀ p i, private p = false →
  (∀ d, d ∈ ds → below (locate (p_cwd pr) d) p = false) → f !! p = Some i → f' !! p = Some i.

Lemma resolve_stays override w dir w' : resolveServiceDataDir pr override w = (Ok dir, w') →
  ∃ src, move_source override (fs w) src ∧ stays (dir :: option_list src) (fs w) (fs w').
Proof.
  intros Hr. pose proof (resolve_service _ _ _ _ Hr) as Hdir. revert Hr. rewrite /resolveServiceDataDir.
  assert (∀ f, move_source override f None) as Hnone by (by intros f d). case_bool_decide as Ho; simpl.
  2: { intros [= _ <-]. exists None. split; [done|]. by intros p i. }
  rewrite {1}/bind.
  destruct (Stat pr _ w) as [st w1] eqn:E1. apply Stat_cases in E1 as [F1 _].
  destruct (is_ok st); [intros [= _ <-]; exists None; rewrite F1; split; [done|]; by intros p i|].
  rewrite {1}/bind. destruct (FindDevDataDir pr w1) as [src w2] eqn:E2.
  pose proof (same_FindDevDataDir (fs w1) w1 eq_refl) as F2. rewrite E2 /= in F2.
  destruct src as [d|]; [|done]. intros ([] & w3 & E3%wrap_err_ok & E4)%try_ok. injection E4 as _ <-.
  exists (Some d). split; [intros d' [= <-]; split; [done|]; by exists w1, w2|].
  intros p i _ Hd Hi. rewrite -F1 -F2 in Hi. subst dir.
  apply (migrate_frame pr d SystemDataDir w2 _ w3 eq_refl E3 p i); [apply Hd; set_solver| |done].
  apply Hd. set_solver.
Qed.

Lemma guards_stay fl procs init dir w w2 : past_guards fl procs init dir w w2 →
  ∃ src, move_source (fl_dataDir fl) (fs w) src ∧ stays (dir :: option_list src) (fs w) (fs w2).
Proof.
  intros (_ & _ & _ & Hdir & w0 & w1 & t & E0 & _ & E1 & E2 & _).
  pose proof (same_DetectInitSystem (fs w) w eq_refl) as F0. rewrite E0 /= in F0.
  apply resolve_stays in E1 as (src & Hs & Hst). rewrite F0 in Hs, Hst. exists src. split; [done|].
  intros p i Hp Hd Hi. apply Open_ok in E2 as [_ F2]. rewrite F2; [|by apply Hst].
  rewrite /DBPath (locate_files _ dir); [subst dir; by case_bool_decide|set_solver|]. intros ->.
  assert (below (locate (p_cwd pr) dir) (locate (p_cwd pr) dir ++ ["shadowstat.db"%string]) = false) as Hb by (apply Hd; left).
  by rewrite below_app in Hb.
Qed.

(** What a successful run did, step by step. *)
Lemma install_success fl procs exe dbf w w' :
  installServiceCmd pr (Some fl) procs exe dbf w = (0, w') →
  ∃ init w0 ex params w2 w3, exe = Ok ex ∧ DetectInitSystem pr w = (init, w0) ∧ init ≠ InitUnknown ∧
    past_guards fl procs init (DataDir params) w w2 ∧ service_params pr fl ex (DataDir params) w2 = (Ok params, w3) ∧
    DataDir params = (if bool_decide (fl_dataDir fl = EmptyString) then SystemDataDir else fl_dataDir fl) ∧
    ExecStart params = ex ∧ AsRoot params = fl_root fl ∧ prepared fl (DataDir params) params w3 ∧
    outside (λ q, below (locate (p_cwd pr) (DataDir params)) q = false) (fs w2) (fs w3) ∧
    install pr init params w3 = (Ok tt, w').
Proof.
  intros [[? _]|(fl' & init & dir & ex & w2 & p & w3 & [= <-] & Hi & -> & Hg & Hp & Hr)]%install_cases; [done|].
  destruct p as [params|]; [|by destruct Hr]. destruct Hr as ([[]|] & Hin & Hcode); [|done].
  pose proof Hp as (Hx & Hdir & Hroot & Hown & Ho)%params_ok. pose proof Hg as (_ & _ & _ & Hd & w0 & ? & ? & E0 & _).
  exists init, w0, ex, params, w2, w3. rewrite Hdir. by split_and!.
Qed.

(** ** Removal *)
Lemma Stat_none p w : faults w = [] → fs w !! locate (p_cwd pr) p = None → locate (p_cwd pr) p ≠ [] →
  Stat pr p w = (Err ENOENT, w).
Proof.
  intros Hf Hp Hne. rewrite /Stat /syscall Hf /= Hp bool_decide_eq_false_2 //. by destruct w; simpl in *; subst.
Qed.

Lemma fs_with_faults l w : fs (with_faults l w) = fs w.
Proof. done. Qed.

(** Removal: the init system's file goes, and nothing else that is not the
    managers' changes. *)
Lemma uninstall_spec init w w' :
  init ≠ InitUnknown → faults w = [] → is_Some (fs w !! service_file init) → (init = InitOpenRC → fs w !! unit_path = None) →
  uninstallServiceCmd pr w = (0, w') →
  fs w' !! service_file init = None ∧ outside (λ p, p ≠ service_file init) (fs w) (fs w').
Proof.
  intros Hi Hf [i Hu] Hsd. rewrite /uninstallServiceCmd. destruct (negb _); [done|].
  assert (∀ m : M World (Result ServiceError unit), (let! r := m in ret (if is_ok r then 0 else 1)) w = (0, w') →
    m w = (Ok tt, w')) as Hm.
  { intros m. rewrite /bind /ret. destruct (m _) as [[[]|] w3]; [|done]. by intros [= ->]. }
  destruct init; [done| |].
  - rewrite /IsSystemdInstalled /bind (Stat_present _ _ _ i) //. by intros ?%Hm%UninstallSystemd_ok.
  - rewrite /IsSystemdInstalled /bind Stat_none //; [by apply Hsd|]. rewrite /= /IsOpenRCInstalled /bind (Stat_present _ _ _ i) //.
    by intros ?%Hm%UninstallOpenRC_ok.
Qed.
End install_lemmas.

(** ** Finding a running instance *)

(** A process as the kernel shows it: its name and its arguments, each followed
    by a NUL, unless they cannot be read (the process has just ended).  Kernel
    threads and zombies have no arguments. *)
Record Proc := mkProc { pc_pid : Z; pc_comm : option string; pc_argv : option (list string) }.
Definition cmdline (argv : list string) : string := foldr (λ a s, a +:+ String nul s) EmptyString argv.
Definition proc_entry (e : Proc + string) : ProcEntry :=
  match e with
  | inl p => mkProcEntry (itoa (pc_pid p)) (pc_comm p) (cmdline <$> pc_argv p)
  | inr name => mkProcEntry name None None
  end.

(** What [/proc] can hold: process ids, other names, and arguments that are C
    strings. *)
Definition kernel_entry (e : Proc + string) : Prop :=
  match e with
  | inl p => in_i 64 (pc_pid p) ∧ ∀ argv, pc_argv p = Some argv → Forall (no_char nul) argv
  | inr name => atoi name = None
  end.

Definition is_run (c : Subcommand) : bool := match c with CmdRun _ => true | _ => false end.

(** The program dispatches these arguments to [run]; or there are arguments,
    but all of them are empty. *)
Definition run_or_blank (argv : list string) : bool :=
  is_run (Execute argv) || forallb (λ a, bool_decide (a = EmptyString)) (tail argv).

Definition other_run (own : Z) (p : Proc) : Prop :=
  pc_pid p ≠ own ∧ (∃ comm, pc_comm p = Some comm ∧ trim_space comm = "shadowstat"%string) ∧
  ∃ argv, pc_argv p = Some argv ∧ run_or_blank argv = true.
#[export] Instance other_run_dec own p : Decision (other_run own p).
Proof.
  rewrite /other_run. apply and_dec; [apply _|]. apply and_dec.
  - destruct (pc_comm p) as [c|]; [destruct (decide (trim_space c = "shadowstat"%string))|];
      [left; eauto|right; naive_solver..].
  - destruct (pc_argv p) as [a|]; [destruct (decide (run_or_blank a = true))|];
      [left; eauto|right; naive_solver..].
Defined.

Abbreviation is_nul := (λ c : ascii, bool_decide (c = nul)).

(** Without the empty arguments at the end. *)
Fixpoint strip (l : list string) : list string :=
  match l with
  | [] => []
  | x :: l' => match strip l' with [] => if bool_decide (x = EmptyString) then [] else [x] | r => x :: r end
  end.

Lemma trim_right_app p s t :
  trim_right p (s +:+ t) = match trim_right p t with EmptyString => trim_right p s | r => s +:+ r end.
Proof.
  induction s as [|c s IH]; [rewrite !string_app_nil_l; by destruct (trim_right p t)|].
  rewrite string_app_cons /= IH. destruct (trim_right p t); [done|]. by destruct s.
Qed.
Lemma trim_right_no_nul s : no_char nul s → trim_right is_nul s = s.
Proof.
  rewrite /no_char. induction s as [|c s IH]; [done|]. simpl. intros [Hc Hs]%andb_true_iff.
  apply bool_decide_eq_true in Hc. rewrite IH //. destruct s; [|done]. by rewrite bool_decide_eq_false_2.
Qed.

Lemma strip_cons x l : strip (x :: l) = match strip l with [] => if bool_decide (x = EmptyString) then [] else [x] | r => x :: r end.
Proof. done. Qed.
Lemma strip_join_empty l : join nul (strip l) = EmptyString → strip l = [].
Proof.
  induction l as [|x l IH]; [done|]. rewrite strip_cons. destruct (strip l) as [|y r]; [case_bool_decide; [done|by cbn [join]]|].
  cbn [join]. by destruct x.
Qed.

Lemma trim_cmdline l : Forall (no_char nul) l → trim_right is_nul (cmdline l) = join nul (strip l).
Proof.
  induction 1 as [|x l Hx _ IH]; [done|]. rewrite strip_cons. cbn [cmdline foldr]. fold (cmdline l).
  rewrite trim_right_app. cbn [trim_right]. rewrite IH trim_right_no_nul // bool_decide_eq_true_2 //.
  pose proof (strip_join_empty l) as He. destruct (strip l) as [|y r]; [simpl; case_bool_decide; by subst|].
  destruct (join nul (y :: r)) eqn:Ej; [by specialize (He eq_refl)|]. cbn [join]. by rewrite -Ej.
Qed.

Lemma strip_Forall (P : string → Prop) l : Forall P l → Forall P (strip l).
Proof.
  induction 1 as [|x l Hx _ IH]; [constructor|]. rewrite strip_cons.
  destruct (strip l); [case_bool_decide; by repeat constructor|by constructor].
Qed.
Lemma strip_blank l : forallb (λ a, bool_decide (a = EmptyString)) l = bool_decide (strip l = []).
Proof.
  induction l as [|x l IH]; [done|]. rewrite strip_cons /= IH. destruct (strip l) as [|y r]; [|by rewrite andb_false_r].
  rewrite (bool_decide_eq_true_2 ([] = [])) // andb_true_r. by destruct (bool_decide (x = EmptyString)).
Qed.
Lemma strip_head x l : strip (x :: l) = [] ∨ ∃ r, strip (x :: l) = x :: r.
Proof. rewrite strip_cons. destruct (strip l); [case_bool_decide|]; eauto. Qed.

Lemma isFlag_prefix s : has_prefix "-" s = isFlag s.
Proof. destruct s as [|[[] [] [] [] [] [] [] []] s]; try destruct s; reflexivity. Qed.

Lemma Execute_run x y l : is_run (Execute (x :: y :: l)) = bool_decide (y = "run"%string) || isFlag y.
Proof.
  rewrite /Execute. cbn [tail]. destruct (isFlag y); [by rewrite orb_true_r|]. rewrite orb_false_r.
  case_bool_decide; [done|]. by repeat case_bool_decide.
Qed.

(** The scan reads a command line as [Execute] does. *)
Lemma runs_pipeline_cmdline argv :
  Forall (no_char nul) argv → runs_pipeline (split nul (trim_right is_nul (cmdline argv))) = run_or_blank argv.
Proof.
  intros Hn. rewrite trim_cmdline // /run_or_blank. destruct argv as [|x [|y l]]; [done| |].
  { apply Forall_cons in Hn as [Hx _]. rewrite strip_cons orb_true_r /=. case_bool_decide; [done|]. by rewrite /= split_no_char. }
  cbn [tail]. rewrite strip_blank Execute_run. destruct (strip (y :: l)) as [|z r] eqn:Es.
  - rewrite orb_true_r strip_cons Es. case_bool_decide; [done|]. apply Forall_cons in Hn as [Hx _]. by rewrite /= split_no_char.
  - rewrite orb_false_r. assert (z = y) as ->.
    { destruct (strip_head y l) as [E|[r' E]]; rewrite E in Es; [done|]. by injection Es as -> _. }
    rewrite split_join; [by rewrite strip_cons Es|by apply strip_Forall|]. rewrite strip_cons Es /=. by rewrite isFlag_prefix.
Qed.

Lemma find_instance_spec own es :
  Forall kernel_entry es →
  find_instance own (proc_entry <$> es) =
  pc_pid <$> head (filter (other_run own) (omap (λ e, match e with inl p => Some p | inr _ => None end) es)).
Proof.
  induction 1 as [|[p|n] es He _ IH]; [done| |]; simpl in *; [|by rewrite He IH].
  destruct He as [Hp Ha]. rewrite atoi_itoa // IH. clear IH.
  destruct (decide (other_run own p)) as [Hr|Hr].
  - rewrite filter_cons_True //=. destruct Hr as (Hne & (comm & -> & Ht) & argv & Ea & Er). apply Z.eqb_neq in Hne as ->.
    rewrite bool_decide_eq_true_2 // Ea /= runs_pipeline_cmdline; [by apply Ha|]. by rewrite Er.
  - rewrite filter_cons_False //. destruct (Z.eqb_spec (pc_pid p) own); [done|].
    destruct (pc_comm p) as [comm|] eqn:Ec; [|done]. case_bool_decide; [|done].
    destruct (pc_argv p) as [argv|] eqn:Ea; [|done]. rewrite /= runs_pipeline_cmdline; [by apply Ha|].
    destruct (run_or_blank argv) eqn:Er; [|done]. destruct Hr. split_and!; eauto.
Qed.

Module CommandProperties.
Import ServiceProperties.

(** C10: [install-service] asks the service manager for something, creates an
    account or exits with success only as root, with no other instance
    running and a known init system, and after the database of the data
    directory it resolved was opened and found to be set up; up to then the
    service manager has not been called. *)
Theorem install_guards `{Programs} {o : Order} pr flags procs exe dbf w code w' :
  installServiceCmd pr flags procs exe dbf w = (code, w') →
  code = 0 ∨ manager_calls w' ≠ manager_calls w →
  Geteuid pr = 0 ∧ findOtherRunningInstance pr procs = None ∧
  ∃ fl init w0 dataDir w1 t w2, flags = Some fl ∧
    DetectInitSystem pr w = (init, w0) ∧ init ≠ InitUnknown ∧
    resolveServiceDataDir pr (fl_dataDir fl) w0 = (Ok dataDir, w1) ∧
    Open pr (DBPath dataDir) w1 = (Ok t, w2) ∧ setup_complete t = true ∧ manager_calls w2 = manager_calls w.
Proof.
  intros [[Hc Hm]|(fl & init & dir & ex & w2 & p & w3 & -> & _ & _ & (? & ? & ? & _ & w0 & w1 & t & ? & ? & ? & ? & ?) & _)]%install_cases;
    [by intros [|]|]. intros _. split_and!; [done..|]. by exists fl, init, w0, dir, w1, t, w2.
Qed.

Definition flags0 : InstallFlags := mkInstallFlags DefaultServiceUser false EmptyString.
Definition install_run : Z * World :=
  installServiceCmd (H := toy_programs) (o := ord_id) admin_process (Some flags0) (Some []) (Ok "/usr/bin/shadowstat"%string) []
    (dev_world []).

Lemma install_guards_witness :
  install_run.1 = 0 ∧ manager_calls install_run.2 ≠ [] ∧ findOtherRunningInstance admin_process (Some []) = None.
Proof.
  assert (install_run.1 = 0) as H1 by (vm_compute; reflexivity). split_and!; [exact H1|by vm_compute|].
  destruct (install_guards (H := toy_programs) (o := ord_id) admin_process (Some flags0) (Some [])
    (Ok "/usr/bin/shadowstat"%string) [] (dev_world []) install_run.1 install_run.2) as (_ & Hn & _);
    [apply surjective_pairing|by left|exact Hn].
Defined.



(** C25: [uninstall-service] takes back what [install-service] did to the system.
    After an installation, and whatever the running service and its user did to
    the data meanwhile ([v]), a successful removal deletes the unit file or init
    script and changes no other file that is not the service manager's: the
    database, the certificate and every other file are left as they were.  The
    installation itself kept every existing file outside the service's data
    directory and the development directory it may have moved there. *)
Theorem install_uninstall_roundtrip `{Programs} {o : Order} (pr : Process) (fl : InstallFlags) procs exe dbf (w w1 v w2 : World) :
  installServiceCmd pr (Some fl) procs exe dbf w = (0, w1) →
  let init := (DetectInitSystem pr w).1 in
  let dir := if bool_decide (fl_dataDir fl = EmptyString) then "/var/lib/shadowstat"%string else fl_dataDir fl in
  faults v = [] → (∀ p, p ∈ [unit_path; script_path] → fs v !! p = fs w1 !! p) →
  (init = InitOpenRC → fs v !! unit_path = None) →
  uninstallServiceCmd pr v = (0, w2) →
  is_Some (fs v !! service_file init) ∧ fs w2 !! service_file init = None ∧
  (∀ p, private p = false → p ≠ service_file init → fs w2 !! p = fs v !! p) ∧
  ∃ src, (∀ d, src = Some d → fl_dataDir fl = EmptyString ∧ ∃ x x', fs x = fs w ∧ FindDevDataDir pr x = (Some d, x')) ∧
    ∀ p i, private p = false → p ≠ service_file init → below (locate (p_cwd pr) dir) p = false →
      (∀ d, src = Some d → below (locate (p_cwd pr) d) p = false) → fs w !! p = Some i → fs w1 !! p = Some i.
Proof.
  intros (init & w0 & ex & params & w1' & w3 & _ & E0 & Hi & Hg & _ & Hd & _ & _ & _ & Ho & Hin)%install_success init' dir Hf Hv Hsd Hun.
  assert (init' = init) as Ei by (rewrite /init' E0 //). clearbody init'. subst init'.
  destruct (install_ok pr init _ _ _ Hi Hin) as ([i Hs]%text_present & Hout & _).
  assert (is_Some (fs v !! service_file init)) as Hsv.
  { rewrite Hv; [destruct init; set_solver|]. by exists i. }
  destruct (uninstall_spec pr init v w2 Hi Hf Hsv Hsd Hun) as [Hn Ho2]. split_and!; [done..|].
  destruct (guards_stay pr fl procs init (DataDir params) w w1' Hg) as (src & Hsrc & Hst). exists src. split; [exact Hsrc|].
  change (DataDir params = dir) in Hd. rewrite Hd in Hst, Ho. intros p j Hp Hne Hb Hs' Hj.
  rewrite Hout // Ho // (Hst p j) //. intros d [->|Hd']%elem_of_cons; [done|]. apply Hs'. by destruct src; set_solver.
Qed.

(** In between the service has written its database's log. *)
Lemma install_uninstall_roundtrip_witness :
  let w1 := install_run.2 in
  let run := uninstallServiceCmd (H := toy_programs) admin_process (with_faults [] w1) in
  run.1 = 0 ∧ is_Some (fs w1 !! unit_path) ∧ fs run.2 !! unit_path = None ∧ is_Some (fs w1 !! daemon_files) ∧
  fs run.2 !! ["var"; "lib"; "shadowstat"; "cert.pem"]%string = fs w1 !! ["var"; "lib"; "shadowstat"; "cert.pem"]%string.
Proof.
  intros w1 run. assert (run.1 = 0) as H1 by (vm_compute; reflexivity). split; [exact H1|].
  assert (install_run.1 = 0) as H0 by (vm_compute; reflexivity).
  destruct (install_uninstall_roundtrip (H := toy_programs) (o := ord_id) admin_process flags0 (Some [])
    (Ok "/usr/bin/shadowstat"%string) [] (dev_world []) w1 (with_faults [] w1) run.2) as (Hs & Hn & Hk & _).
  - rewrite -H0. apply surjective_pairing.
  - reflexivity.
  - intros p _. by rewrite fs_with_faults.
  - intros Hi. vm_compute in Hi. discriminate Hi.
  - rewrite -H1. apply surjective_pairing.
  - assert ((DetectInitSystem admin_process (dev_world [])).1 = InitSystemd) as Ei by (vm_compute; reflexivity).
    rewrite Ei fs_with_faults in Hs. rewrite Ei in Hn. rewrite Ei in Hk.
    split; [exact Hs|]. split; [exact Hn|]. split; [vm_compute; by eexists|].
    rewrite -(fs_with_faults [] w1). apply Hk; [reflexivity|]. intros E. discriminate E.
Defined.

(** C28: The search for a running instance agrees with how command lines are
    dispatched.  For every listing of [/proc], kernel threads, zombies and
    processes that end during the scan included, it returns the first process
    other than this one that is named [shadowstat], whose files could be read and
    whose arguments [Execute] would run as [run], and nothing when there is
    none; besides, a process whose arguments are all empty counts, since the
    trailing NULs are cut off. *)
Theorem other_instance_matches_dispatch (pr : Process) (es : list (Proc + string)) :
  Forall kernel_entry es →
  findOtherRunningInstance pr (Some (proc_entry <$> es)) =
  pc_pid <$> head (filter (other_run (p_pid pr)) (omap (λ e, match e with inl p => Some p | inr _ => None end) es)).
Proof. apply find_instance_spec. Qed.

(** A kernel thread, this process, one that has ended, a zombie of another
    program, the [status] command and then an instance. *)
Definition proc_list : list (Proc + string) :=
  [inr "cpuinfo"; inl (mkProc 2 (Some ("kthreadd" +:+ nl)) (Some []));
   inl (mkProc 100 (Some ("shadowstat" +:+ nl)) (Some ["shadowstat"; "run"])); inl (mkProc 101 None None);
   inl (mkProc 102 (Some ("sh" +:+ nl)) (Some [])); inl (mkProc 103 (Some ("shadowstat" +:+ nl)) None);
   inl (mkProc 7 (Some ("shadowstat" +:+ nl)) (Some ["shadowstat"; "status"]));
   inl (mkProc 812 (Some ("shadowstat" +:+ nl)) (Some ["./shadowstat"; "--data-dir"; "/tmp/x"]));
   inl (mkProc 900 (Some ("shadowstat" +:+ nl)) (Some ["shadowstat"]))]%string.
Lemma other_instance_matches_dispatch_witness :
  findOtherRunningInstance admin_process (Some (proc_entry <$> proc_list)) = Some 812.
Proof.
  rewrite other_instance_matches_dispatch; [|vm_compute; reflexivity].
  repeat apply Forall_cons_2; try reflexivity; try apply Forall_nil_2.
  all: split; [done|]; intros argv E; first [discriminate E|injection E as <-]; repeat constructor.
Defined.
End CommandProperties.
